(** * VA Dashboard: service cycles, intake flow, tenant isolation

    A shallow embedding of the dashboard's handlers and of the SQL schema
    they run against, followed by the properties proved about them.

    Layout:
    - [Js]         the JavaScript list, string and JSON primitives the
                   handlers use;
    - [Db]         the tables of [initial_schema.sql] and the statements the
                   handlers send;
    - [TenantPage] the tenant detail page ([TenantDetailPage],
                   [CyclesSection], [IntakeSection]) as explicit state
                   passing;
    - [Http], [CycleStartRoute], [IntakeRoute], [TenantsRoute]
                   the three route handlers;
    - [Rls]        the row-level-security policies of the migration and
                   how PostgreSQL applies them;
    - [TransactionsPage] the CSV export;
    - [System]     every action of a user or a caller, as one step function;
    - [TenantPatchRoute], [Page], [SettingsPage], [NewTenantPage], [TenantRows]
                   the route that edits a tenant and the two forms that
                   call the tenant routes;
    - [FormScript] the Google Form script that posts to the intake route;
    - [HomePage], [CyclesView]
                   the home page's copy of [startCycle] and when the Start
                   buttons are shown;
    - [Runs]       sequences of actions on an open page;
    - [Rerun]      the policy section of the migration as statements run
                   on a catalog;
    - [TransactionsTable], [IntakeExport], [Kpis]
                   the transactions table, the CSV of the intake table and
                   the cards of the tenant page;
    - [Spec]       the vocabulary of the specification;
    - [Sample], [Cases]
                   concrete states and requests;
    - the properties.

    Conventions.  Ids, months and statuses are strings, as in the source.
    Every statement sent to the database takes a [fault] chosen by the
    environment: [NoFault] means the database carries the statement out
    according to the schema, [Fault msg] that it is rejected for a reason
    outside the model (transport, permissions, value syntax) and the
    client receives [msg] as the error.  Ids produced by
    [uuid_generate_v4()] are inputs as well; a collision with an existing
    primary key is a rejected statement.  So is what a [numeric(15,2)]
    column keeps of a number sent to it ([Db.numeric]).  The page's reads
    return the tenant's rows or fail; which rows a user may read or write
    at all is the subject of [Rls].  A lookup in an object literal finds
    the members inherited from [Object.prototype] as well as its own
    ([Js.get]); where the code writes the result of such a lookup, the
    model keeps a [Js.value]. *)

From stdpp Require Import gmap strings list fin_maps sorting.
From Stdlib Require Import ZArith.

Local Open Scope string_scope.
Local Open Scope Z_scope.

(** ** JavaScript primitives *)

Module Js.

(** [Array.prototype.indexOf]: position of the first strictly equal
    element, [-1] when there is none. *)
Fixpoint indexOf_from (l : list string) (x : string) (i : Z) : Z :=
  match l with
  | [] => -1
  | y :: l' => if bool_decide (y = x) then i else indexOf_from l' x (i + 1)
  end.

Definition indexOf (l : list string) (x : string) : Z := indexOf_from l x 0.

(** [arr[i]] for an integer index; [None] stands for [undefined]. *)
Definition at_index {A : Type} (l : list A) (i : Z) : option A :=
  if i <? 0 then None else l !! Z.to_nat i.

(** [arr.length] *)
Definition length {A : Type} (l : list A) : Z := Z.of_nat (List.length l).

(** [a ?? b] *)
Definition nullish {A : Type} (a : option A) (b : A) : A :=
  match a with Some v => v | None => b end.

(** [Array.prototype.join] on strings. *)
Fixpoint join (sep : string) (l : list string) : string :=
  match l with
  | [] => ""
  | [x] => x
  | x :: l' => x +:+ sep +:+ join sep l'
  end.

(** The double-quote character, code point 34. *)
Definition dquote : Ascii.ascii := Ascii.ascii_of_nat 34.

(** [s.replace(/c/g, r)] for a one-character pattern [c]. *)
Fixpoint replace_char (c : Ascii.ascii) (r : string) (s : string) : string :=
  match s with
  | EmptyString => EmptyString
  | String a s' =>
      if bool_decide (a = c) then r +:+ replace_char c r s'
      else String a (replace_char c r s')
  end.

(** The names every object literal inherits from [Object.prototype]. *)
Definition Object_prototype : list string :=
  ["constructor"; "__defineGetter__"; "__defineSetter__"; "hasOwnProperty";
   "__lookupGetter__"; "__lookupSetter__"; "isPrototypeOf"; "propertyIsEnumerable";
   "toString"; "valueOf"; "__proto__"; "toLocaleString"].

(** What a lookup in an object literal of strings gives, and so what a
    property holds that such a lookup was written to: a string, or the
    member inherited under a name of [Object_prototype] (a function; for
    [__proto__] the prototype object itself). *)
Inductive value :=
| Text (s : string)
| Inherited (name : string).

#[global] Instance value_eq_dec : EqDecision value.
Proof. solve_decision. Defined.

(** [literal[key]] for an object literal with the own properties [own];
    [None] stands for [undefined]. *)
Definition get (own : gmap string string) (key : string) : option value :=
  match own !! key with
  | Some s => Some (Text s)
  | None => if bool_decide (key ∈ Object_prototype) then Some (Inherited key) else None
  end.

(** A string is falsy exactly when it is empty. *)
Definition truthy (s : string) : bool := negb (bool_decide (s = "")).

(** [s || null] on strings *)
Definition or_null (s : string) : option string :=
  if truthy s then Some s else None.

(** A JavaScript number: a binary floating-point value
    [mantissa * 2 ^ exponent], a signed infinity, or NaN.  Printing and
    parsing numbers are left to the places that use them. *)
Inductive number :=
| Num (mantissa exponent : Z)
| Infinity (negative : bool)
| NaN.

#[global] Instance number_eq_dec : EqDecision number.
Proof. solve_decision. Defined.

Definition zero : number := Num 0 0.

(** [Number.isFinite] *)
Definition isFinite (n : number) : bool :=
  match n with Num _ _ => true | _ => false end.

(** [n || 0]: NaN and both zeros are falsy. *)
Definition or_zero (n : number) : number :=
  match n with
  | NaN => zero
  | Num 0 _ => zero
  | _ => n
  end.

(** A parsed JSON value.  An object is the list of its own properties. *)
#[local] Unset Elimination Schemes.
Inductive json :=
| JNull
| JBool (b : bool)
| JNumber (n : number)
| JString (s : string)
| JArray (items : list json)
| JObject (fields : list (string * json)).
#[local] Set Elimination Schemes.

(** [obj[key]] on a parsed JSON object; [None] stands for [undefined]. *)
Definition field (key : string) (fields : list (string * json)) : option json :=
  snd <$> List.find (fun kv => bool_decide (fst kv = key)) fields.

(** [\d] *)
Definition is_digit (a : Ascii.ascii) : bool :=
  let n := Ascii.nat_of_ascii a in ((48 <=? n) && (n <=? 57))%nat.

(** [/^\d{4}-\d{2}-\d{2}$/.test(s)] *)
Definition is_date_shape (s : string) : bool :=
  match String.list_ascii_of_string s with
  | [y1; y2; y3; y4; h1; m1; m2; h2; d1; d2] =>
      is_digit y1 && is_digit y2 && is_digit y3 && is_digit y4
      && bool_decide (h1 = Ascii.ascii_of_nat 45)
      && is_digit m1 && is_digit m2
      && bool_decide (h2 = Ascii.ascii_of_nat 45)
      && is_digit d1 && is_digit d2
  | _ => false
  end.

End Js.

(** ** The database *)

Module Db.

Definition uuid := string.

Inductive fault := NoFault | Fault (message : string).

Inductive result (A : Type) := Ok (a : A) | Error (message : string).
Arguments Ok {A} a.
Arguments Error {A} message.

(** Enumerated types of the schema. *)
Definition service_cycle_status : list string :=
  ["collecting"; "processing"; "reconciling"; "reporting"; "delivered"; "paused"].
Definition intake_status : list string := ["new"; "categorized"; "posted"].
Definition package_tier : list string := ["foundation"; "growth"; "cfo_lite"].
Definition tenant_user_role : list string :=
  ["owner"; "internal_admin"; "bookkeeper"; "analyst"; "viewer"].
Definition transaction_status : list string :=
  ["Planned"; "Sent"; "Received"; "Paid"; "Cancelled"; "Reconciled"].

Definition in_enum (enum : list string) (v : string) : bool :=
  bool_decide (v ∈ enum).

(** Rows.  [created_at] columns are left out: no handler modelled here
    reads them. *)
Record tenant := {
  t_id : uuid; t_name : string; t_package_tier : string;
  t_niche : option string; t_timezone : option string; t_currency : option string }.

Record tenant_user := {
  tu_id : uuid; tu_tenant_id : uuid; tu_user_id : uuid; tu_role : string }.

Record service_cycle := {
  sc_id : uuid; sc_tenant_id : uuid; sc_month : string; sc_status : string }.

Record cycle_task := {
  ct_id : uuid; ct_service_cycle_id : uuid; ct_tenant_id : uuid;
  ct_task_type : string; ct_assignee : option string; ct_status : string;
  ct_due_date : option string }.

Record intake_event := {
  ie_id : uuid; ie_tenant_id : uuid; ie_source : string;
  ie_date : option string; ie_amount : option Js.number;
  ie_description : option string; ie_attachment_url : option string;
  ie_raw_payload : option Js.json; ie_status : string }.

Record transaction := {
  tx_id : uuid; tx_tenant_id : uuid; tx_date : string; tx_description : string;
  tx_category_id : string; tx_amount : Js.number; tx_entity_id : option string;
  tx_status : string }.

Record t := {
  tenants : list tenant;
  tenant_users : list tenant_user;
  service_cycles : list service_cycle;
  cycle_tasks : list cycle_task;
  intake_events : list intake_event;
  transactions : list transaction }.

Definition empty : t :=
  {| tenants := []; tenant_users := []; service_cycles := []; cycle_tasks := [];
     intake_events := []; transactions := [] |}.

Definition with_tenants (db : t) (l : list tenant) : t :=
  {| tenants := l; tenant_users := tenant_users db;
     service_cycles := service_cycles db; cycle_tasks := cycle_tasks db;
     intake_events := intake_events db; transactions := transactions db |}.

Definition with_tenant_users (db : t) (l : list tenant_user) : t :=
  {| tenants := tenants db; tenant_users := l;
     service_cycles := service_cycles db; cycle_tasks := cycle_tasks db;
     intake_events := intake_events db; transactions := transactions db |}.

Definition with_service_cycles (db : t) (l : list service_cycle) : t :=
  {| tenants := tenants db; tenant_users := tenant_users db;
     service_cycles := l; cycle_tasks := cycle_tasks db;
     intake_events := intake_events db; transactions := transactions db |}.

Definition with_cycle_tasks (db : t) (l : list cycle_task) : t :=
  {| tenants := tenants db; tenant_users := tenant_users db;
     service_cycles := service_cycles db; cycle_tasks := l;
     intake_events := intake_events db; transactions := transactions db |}.

Definition with_intake_events (db : t) (l : list intake_event) : t :=
  {| tenants := tenants db; tenant_users := tenant_users db;
     service_cycles := service_cycles db; cycle_tasks := cycle_tasks db;
     intake_events := l; transactions := transactions db |}.

Definition with_transactions (db : t) (l : list transaction) : t :=
  {| tenants := tenants db; tenant_users := tenant_users db;
     service_cycles := service_cycles db; cycle_tasks := cycle_tasks db;
     intake_events := intake_events db; transactions := l |}.

Definition set_sc_status (st : string) (r : service_cycle) : service_cycle :=
  {| sc_id := sc_id r; sc_tenant_id := sc_tenant_id r; sc_month := sc_month r;
     sc_status := st |}.

Definition set_ct_status (st : string) (r : cycle_task) : cycle_task :=
  {| ct_id := ct_id r; ct_service_cycle_id := ct_service_cycle_id r;
     ct_tenant_id := ct_tenant_id r; ct_task_type := ct_task_type r;
     ct_assignee := ct_assignee r; ct_status := st; ct_due_date := ct_due_date r |}.

Definition set_ie_status (st : string) (r : intake_event) : intake_event :=
  {| ie_id := ie_id r; ie_tenant_id := ie_tenant_id r; ie_source := ie_source r;
     ie_date := ie_date r; ie_amount := ie_amount r;
     ie_description := ie_description r; ie_attachment_url := ie_attachment_url r;
     ie_raw_payload := ie_raw_payload r; ie_status := st |}.

(** Foreign keys [references tenants(id)] and
    [references service_cycles(id)]. *)
Definition tenant_exists (db : t) (tid : uuid) : bool :=
  bool_decide (tid ∈ t_id <$> tenants db).

Definition cycle_exists (db : t) (cid : uuid) : bool :=
  bool_decide (cid ∈ sc_id <$> service_cycles db).

(** The ids [gen 0 .. gen (n - 1)] that [uuid_generate_v4()] gives to the
    [n] rows of one insert statement, and the primary-key check on them. *)
Definition generated (gen : nat → uuid) (n : nat) : list uuid := gen <$> seq 0 n.

Definition fresh_keys (new existing : list uuid) : bool :=
  bool_decide (NoDup new) && forallb (fun k => bool_decide (k ∉ existing)) new.

(** *** Status updates by primary key *)

(** [update service_cycles set status = st where id = id].  The new value
    must belong to the column's enum. *)
Definition update_cycle_status (f : fault) (id : uuid) (st : string) (db : t)
  : t * option string :=
  match f with
  | Fault msg => (db, Some msg)
  | NoFault =>
      if in_enum service_cycle_status st then
        (with_service_cycles db
           ((fun r => if bool_decide (sc_id r = id) then set_sc_status st r else r)
              <$> service_cycles db), None)
      else (db, Some "invalid input value for enum service_cycle_status")
  end.

(** [update cycle_tasks set status = st where id = id]; the column is
    free text. *)
Definition update_task_status (f : fault) (id : uuid) (st : string) (db : t)
  : t * option string :=
  match f with
  | Fault msg => (db, Some msg)
  | NoFault =>
      (with_cycle_tasks db
         ((fun r => if bool_decide (ct_id r = id) then set_ct_status st r else r)
            <$> cycle_tasks db), None)
  end.

(** [update intake_events set status = st where id = id]. *)
Definition update_intake_status (f : fault) (id : uuid) (st : string) (db : t)
  : t * option string :=
  match f with
  | Fault msg => (db, Some msg)
  | NoFault =>
      if in_enum intake_status st then
        (with_intake_events db
           ((fun r => if bool_decide (ie_id r = id) then set_ie_status st r else r)
              <$> intake_events db), None)
      else (db, Some "invalid input value for enum intake_status")
  end.

(** *** Service cycles and their tasks *)

Definition same_cycle_key (tid : uuid) (month : string) (r : service_cycle) : bool :=
  bool_decide (sc_tenant_id r = tid) && bool_decide (sc_month r = month).

(** [insert into service_cycles (tenant_id, month, status) values (...)
     on conflict (tenant_id, month) do update set ... returning *].
    A row with the same [(tenant_id, month)] is updated in place and keeps
    its id; otherwise a row with the generated id is appended. *)
Definition upsert_service_cycle (f : fault) (new_id : uuid)
    (tid : uuid) (month st : string) (db : t) : t * result service_cycle :=
  match f with
  | Fault msg => (db, Error msg)
  | NoFault =>
      if negb (in_enum service_cycle_status st) then
        (db, Error "invalid input value for enum service_cycle_status")
      else
        match List.find (same_cycle_key tid month) (service_cycles db) with
        | Some old =>
            (with_service_cycles db
               ((fun r => if same_cycle_key tid month r then set_sc_status st r else r)
                  <$> service_cycles db),
             Ok (set_sc_status st old))
        | None =>
            if negb (tenant_exists db tid) then
              (db, Error "violates foreign key constraint on tenant_id")
            else if negb (fresh_keys [new_id] (sc_id <$> service_cycles db)) then
              (db, Error "duplicate key value violates unique constraint")
            else
              let row := {| sc_id := new_id; sc_tenant_id := tid;
                            sc_month := month; sc_status := st |} in
              (with_service_cycles db (service_cycles db ++ [row]), Ok row)
        end
  end.

(** The columns a client gives when it inserts into [cycle_tasks]; the
    others take their defaults ([assignee] and [due_date] null). *)
Record cycle_task_values := {
  v_service_cycle_id : uuid; v_tenant_id : uuid;
  v_task_type : string; v_status : string }.

Definition new_cycle_task (id : uuid) (v : cycle_task_values) : cycle_task :=
  {| ct_id := id; ct_service_cycle_id := v_service_cycle_id v;
     ct_tenant_id := v_tenant_id v; ct_task_type := v_task_type v;
     ct_assignee := None; ct_status := v_status v; ct_due_date := None |}.

(** [insert into cycle_tasks (...) values (...), (...), ...]: one
    statement, all rows or none. *)
Definition insert_cycle_tasks (f : fault) (gen : nat → uuid)
    (vs : list cycle_task_values) (db : t) : t * option string :=
  match f with
  | Fault msg => (db, Some msg)
  | NoFault =>
      let ids := generated gen (List.length vs) in
      if negb (forallb (fun v => cycle_exists db (v_service_cycle_id v)) vs) then
        (db, Some "violates foreign key constraint on service_cycle_id")
      else if negb (forallb (fun v => tenant_exists db (v_tenant_id v)) vs) then
        (db, Some "violates foreign key constraint on tenant_id")
      else if negb (fresh_keys ids (ct_id <$> cycle_tasks db)) then
        (db, Some "duplicate key value violates unique constraint")
      else
        (with_cycle_tasks db (cycle_tasks db ++ zip_with new_cycle_task ids vs), None)
  end.

(** *** Intake events and transactions *)

(** The [amount] columns are [numeric(15,2)]: the database keeps a number
    rounded to two decimals and refuses one that needs more than thirteen
    digits before the point.  The rounding is the database's, made on the
    decimal text of the number: a [numeric] is what the database makes of
    a number sent, nothing when it refuses it. *)
Definition numeric : Type := Js.number → option Js.number.

Definition set_ie_amount (a : option Js.number) (r : intake_event) : intake_event :=
  {| ie_id := ie_id r; ie_tenant_id := ie_tenant_id r; ie_source := ie_source r;
     ie_date := ie_date r; ie_amount := a; ie_description := ie_description r;
     ie_attachment_url := ie_attachment_url r; ie_raw_payload := ie_raw_payload r;
     ie_status := ie_status r |}.

Definition set_tx_amount (a : Js.number) (r : transaction) : transaction :=
  {| tx_id := tx_id r; tx_tenant_id := tx_tenant_id r; tx_date := tx_date r;
     tx_description := tx_description r; tx_category_id := tx_category_id r;
     tx_amount := a; tx_entity_id := tx_entity_id r; tx_status := tx_status r |}.

(** The row of [intake_events] the database keeps for the values sent. *)
Definition kept_intake_event (kept : numeric) (r : intake_event) : option intake_event :=
  match ie_amount r with
  | None => Some r
  | Some n => (fun n' => set_ie_amount (Some n') r) <$> kept n
  end.

(** [insert into intake_events (...) values (...)]; the row is given
    without its id. *)
Definition insert_intake_event (f : fault) (new_id : uuid) (kept : numeric)
    (row : uuid → intake_event) (db : t) : t * option string :=
  match f with
  | Fault msg => (db, Some msg)
  | NoFault =>
      match kept_intake_event kept (row new_id) with
      | None => (db, Some "numeric field overflow")
      | Some r =>
          if negb (in_enum intake_status (ie_status r)) then
            (db, Some "invalid input value for enum intake_status")
          else if negb (tenant_exists db (ie_tenant_id r)) then
            (db, Some "violates foreign key constraint on tenant_id")
          else if negb (fresh_keys [ie_id r] (ie_id <$> intake_events db)) then
            (db, Some "duplicate key value violates unique constraint")
          else (with_intake_events db (intake_events db ++ [r]), None)
      end
  end.

Definition insert_transaction (f : fault) (new_id : uuid) (kept : numeric)
    (row : uuid → transaction) (db : t) : t * option string :=
  match f with
  | Fault msg => (db, Some msg)
  | NoFault =>
      match (fun n' => set_tx_amount n' (row new_id)) <$> kept (tx_amount (row new_id)) with
      | None => (db, Some "numeric field overflow")
      | Some r =>
          if negb (in_enum transaction_status (tx_status r)) then
            (db, Some "invalid input value for enum transaction_status")
          else if negb (tenant_exists db (tx_tenant_id r)) then
            (db, Some "violates foreign key constraint on tenant_id")
          else if negb (fresh_keys [tx_id r] (tx_id <$> transactions db)) then
            (db, Some "duplicate key value violates unique constraint")
          else (with_transactions db (transactions db ++ [r]), None)
      end
  end.

(** *** Tenants and memberships *)

Definition insert_tenant (f : fault) (new_id : uuid)
    (row : uuid → tenant) (db : t) : t * result tenant :=
  match f with
  | Fault msg => (db, Error msg)
  | NoFault =>
      let r := row new_id in
      if negb (in_enum package_tier (t_package_tier r)) then
        (db, Error "invalid input value for enum package_tier")
      else if negb (fresh_keys [t_id r] (t_id <$> tenants db)) then
        (db, Error "duplicate key value violates unique constraint")
      else (with_tenants db (tenants db ++ [r]), Ok r)
  end.

(** [unique (tenant_id, user_id)] *)
Definition membership_taken (db : t) (tid uid : uuid) : bool :=
  existsb (fun r => bool_decide (tu_tenant_id r = tid) && bool_decide (tu_user_id r = uid))
          (tenant_users db).

Definition insert_tenant_user (f : fault) (new_id : uuid)
    (tid uid : uuid) (role : string) (db : t) : t * option string :=
  match f with
  | Fault msg => (db, Some msg)
  | NoFault =>
      if negb (in_enum tenant_user_role role) then
        (db, Some "invalid input value for enum tenant_user_role")
      else if negb (tenant_exists db tid) then
        (db, Some "violates foreign key constraint on tenant_id")
      else if membership_taken db tid uid then
        (db, Some "duplicate key value violates unique constraint")
      else if negb (fresh_keys [new_id] (tu_id <$> tenant_users db)) then
        (db, Some "duplicate key value violates unique constraint")
      else
        (with_tenant_users db
           (tenant_users db ++ [{| tu_id := new_id; tu_tenant_id := tid;
                                   tu_user_id := uid; tu_role := role |}]), None)
  end.

(** [delete from tenants where id = tid]; every table referencing
    [tenants(id)] does so [on delete cascade], and the tables referencing
    [service_cycles(id)] lose the rows of the deleted cycles too. *)
Definition delete_tenant (f : fault) (tid : uuid) (db : t) : t * option string :=
  match f with
  | Fault msg => (db, Some msg)
  | NoFault =>
      let cycles := List.filter (fun r => negb (bool_decide (sc_tenant_id r = tid)))
                                (service_cycles db) in
      ({| tenants := List.filter (fun r => negb (bool_decide (t_id r = tid))) (tenants db);
          tenant_users :=
            List.filter (fun r => negb (bool_decide (tu_tenant_id r = tid))) (tenant_users db);
          service_cycles := cycles;
          cycle_tasks :=
            List.filter (fun r => negb (bool_decide (ct_tenant_id r = tid))
                                  && bool_decide (ct_service_cycle_id r ∈ sc_id <$> cycles))
                        (cycle_tasks db);
          intake_events :=
            List.filter (fun r => negb (bool_decide (ie_tenant_id r = tid))) (intake_events db);
          transactions :=
            List.filter (fun r => negb (bool_decide (tx_tenant_id r = tid))) (transactions db) |},
       None)
  end.

(** *** Reading *)

(** Status of the row of [service_cycles] with the given primary key. *)
Definition cycle_status (db : t) (id : uuid) : option string :=
  sc_status <$> List.find (fun r => bool_decide (sc_id r = id)) (service_cycles db).

Definition task_status (db : t) (id : uuid) : option string :=
  ct_status <$> List.find (fun r => bool_decide (ct_id r = id)) (cycle_tasks db).

Definition intake_event_status (db : t) (id : uuid) : option string :=
  ie_status <$> List.find (fun r => bool_decide (ie_id r = id)) (intake_events db).

(** The checklist of a cycle: the rows of [cycle_tasks] that reference it. *)
Definition tasks_of_cycle (db : t) (cid : uuid) : list cycle_task :=
  List.filter (fun r => bool_decide (ct_service_cycle_id r = cid)) (cycle_tasks db).

End Db.

(** ** The tenant detail page *)

Module TenantPage.

(** *** Types *)

Record CycleTask := {
  task_id : string; task_type : string; task_assignee : option string;
  task_status : Js.value; task_due_date : option string }.

(** [tasks] is optional in the source; [deliverables] is not modelled. *)
Record ServiceCycle := {
  cycle_id : string; cycle_month : string; cycle_status : string;
  cycle_tasks : option (list CycleTask) }.

Record IntakeEvent := {
  ev_id : string; ev_source : string; ev_date : option string;
  ev_amount : option Js.number; ev_description : option string;
  ev_status : string }.

#[global] Instance CycleTask_eq_dec : EqDecision CycleTask.
Proof. solve_decision. Defined.
#[global] Instance ServiceCycle_eq_dec : EqDecision ServiceCycle.
Proof. solve_decision. Defined.
#[global] Instance IntakeEvent_eq_dec : EqDecision IntakeEvent.
Proof. solve_decision. Defined.

(** *** Constants *)

(** The own properties of the literal [TASK_STATUS_NEXT]; the task button
    reads it with [Js.get]. *)
Definition TASK_STATUS_NEXT : gmap string string :=
  <["todo" := "in_progress"]> (<["in_progress" := "done"]> (<["done" := "todo"]> ∅)).

Definition CYCLE_STATUS_ORDER : list string :=
  ["collecting"; "processing"; "reconciling"; "reporting"; "delivered"].

Definition defaultTasks : list string :=
  ["Collect statements"; "Review intake events"; "Categorize transactions";
   "Reconcile to bank"; "Run BVA and variances"; "Generate report pack";
   "Send insight summary"; "Schedule review call"].

(** *** State *)

(** [useState] cells of [CyclesSection] ([expanded] and [reportCycleId]
    only drive what is unfolded on screen and are left out). *)
Record CyclesSectionState := {
  starting : bool;
  startError : option string;
  confirmAdvance : option string;
  advancing : option string;
  prePauseStatus : gmap string string }.

(** [useState] cells of [IntakeSection]. *)
Record IntakeSectionState := {
  filter : string;
  txForm : option string;
  txDate : string;
  txAmount : string;
  txDesc : string;
  txCategory : string;
  txSaving : bool;
  txError : option string }.

(** The database, the page's [useState] cells that hold cycles and intake
    events, and the two sections.  [supabase] tells whether
    [createBrowserSupabaseClient()] returns a client. *)
Record World := {
  db : Db.t;
  supabase : bool;
  tenantId : string;
  cycles : list ServiceCycle;
  intake : list IntakeEvent;
  cyclesSection : CyclesSectionState;
  intakeSection : IntakeSectionState }.

Definition initialCyclesSection : CyclesSectionState :=
  {| starting := false; startError := None; confirmAdvance := None;
     advancing := None; prePauseStatus := ∅ |}.

Definition initialIntakeSection : IntakeSectionState :=
  {| filter := "all"; txForm := None; txDate := ""; txAmount := ""; txDesc := "";
     txCategory := ""; txSaving := false; txError := None |}.

Definition set_db (d : Db.t) (w : World) : World :=
  {| db := d; supabase := supabase w; tenantId := tenantId w; cycles := cycles w;
     intake := intake w; cyclesSection := cyclesSection w;
     intakeSection := intakeSection w |}.

Definition setCycles (f : list ServiceCycle → list ServiceCycle) (w : World) : World :=
  {| db := db w; supabase := supabase w; tenantId := tenantId w; cycles := f (cycles w);
     intake := intake w; cyclesSection := cyclesSection w;
     intakeSection := intakeSection w |}.

Definition setIntake (f : list IntakeEvent → list IntakeEvent) (w : World) : World :=
  {| db := db w; supabase := supabase w; tenantId := tenantId w; cycles := cycles w;
     intake := f (intake w); cyclesSection := cyclesSection w;
     intakeSection := intakeSection w |}.

Definition set_cyclesSection (f : CyclesSectionState → CyclesSectionState) (w : World)
  : World :=
  {| db := db w; supabase := supabase w; tenantId := tenantId w; cycles := cycles w;
     intake := intake w; cyclesSection := f (cyclesSection w);
     intakeSection := intakeSection w |}.

Definition set_intakeSection (f : IntakeSectionState → IntakeSectionState) (w : World)
  : World :=
  {| db := db w; supabase := supabase w; tenantId := tenantId w; cycles := cycles w;
     intake := intake w; cyclesSection := cyclesSection w;
     intakeSection := f (intakeSection w) |}.

Definition setStarting (b : bool) (s : CyclesSectionState) : CyclesSectionState :=
  {| starting := b; startError := startError s; confirmAdvance := confirmAdvance s;
     advancing := advancing s; prePauseStatus := prePauseStatus s |}.

Definition setStartError (e : option string) (s : CyclesSectionState)
  : CyclesSectionState :=
  {| starting := starting s; startError := e; confirmAdvance := confirmAdvance s;
     advancing := advancing s; prePauseStatus := prePauseStatus s |}.

Definition setConfirmAdvance (c : option string) (s : CyclesSectionState)
  : CyclesSectionState :=
  {| starting := starting s; startError := startError s; confirmAdvance := c;
     advancing := advancing s; prePauseStatus := prePauseStatus s |}.

Definition setAdvancing (a : option string) (s : CyclesSectionState)
  : CyclesSectionState :=
  {| starting := starting s; startError := startError s;
     confirmAdvance := confirmAdvance s; advancing := a;
     prePauseStatus := prePauseStatus s |}.

Definition setPrePauseStatus (f : gmap string string → gmap string string)
    (s : CyclesSectionState) : CyclesSectionState :=
  {| starting := starting s; startError := startError s;
     confirmAdvance := confirmAdvance s; advancing := advancing s;
     prePauseStatus := f (prePauseStatus s) |}.

Definition set_cycle_status (st : string) (c : ServiceCycle) : ServiceCycle :=
  {| cycle_id := cycle_id c; cycle_month := cycle_month c; cycle_status := st;
     cycle_tasks := cycle_tasks c |}.

Definition set_cycle_tasks (ts : option (list CycleTask)) (c : ServiceCycle)
  : ServiceCycle :=
  {| cycle_id := cycle_id c; cycle_month := cycle_month c;
     cycle_status := cycle_status c; cycle_tasks := ts |}.

Definition set_task_status (st : Js.value) (t : CycleTask) : CycleTask :=
  {| task_id := task_id t; task_type := task_type t; task_assignee := task_assignee t;
     task_status := st; task_due_date := task_due_date t |}.

Definition set_ev_status (st : string) (e : IntakeEvent) : IntakeEvent :=
  {| ev_id := ev_id e; ev_source := ev_source e; ev_date := ev_date e;
     ev_amount := ev_amount e; ev_description := ev_description e; ev_status := st |}.

(** *** [TenantDetailPage] callbacks *)

(** [handleCycleAdvanced] (its update of the KPI cards is not modelled). *)
Definition handleCycleAdvanced (cycleId newStatus : string) (w : World) : World :=
  setCycles (fmap (fun c => if bool_decide (cycle_id c = cycleId)
                            then set_cycle_status newStatus c else c)) w.

(** [supabase.from("cycle_tasks").update({ status: newStatus }).eq("id",
    taskId)].  [JSON.stringify] leaves out a key whose value is a function,
    and an update without a column changes no row; the prototype object
    is written as [{}], and the text column keeps the text of that JSON
    value. *)
Definition update_task (f : Db.fault) (taskId : string) (newStatus : Js.value)
    (d : Db.t) : Db.t :=
  match newStatus with
  | Js.Text st => fst (Db.update_task_status f taskId st d)
  | Js.Inherited name =>
      if bool_decide (name = "__proto__") then
        fst (Db.update_task_status f taskId "{}" d)
      else d
  end.

(** [handleTaskToggle] (KPI cards not modelled).  [newStatus] is declared a
    string; the task button passes what its lookup gave. *)
Definition handleTaskToggle (f : Db.fault) (cycleId taskId : string)
    (newStatus : Js.value) (w : World) : World :=
  if negb (supabase w) then w else
  let w1 := set_db (update_task f taskId newStatus (db w)) w in
  setCycles (fmap (fun c =>
    if bool_decide (cycle_id c = cycleId)
    then set_cycle_tasks
           (Some ((fun t => if bool_decide (task_id t = taskId)
                            then set_task_status newStatus t else t)
                    <$> Js.nullish (cycle_tasks c) []))
           c
    else c)) w1.

(** *** [CyclesSection] *)

Definition openTasks (cycle : ServiceCycle) : list CycleTask :=
  List.filter (fun t => negb (bool_decide (task_status t = Js.Text "done")))
              (Js.nullish (cycle_tasks cycle) []).

Definition advanceCycle (f : Db.fault) (cycle : ServiceCycle) (w : World) : World :=
  let currentIdx := Js.indexOf CYCLE_STATUS_ORDER (cycle_status cycle) in
  if (currentIdx =? -1) || (currentIdx >=? Js.length CYCLE_STATUS_ORDER - 1) then w
  else if (Js.length (openTasks cycle) >? 0)
          && negb (bool_decide (confirmAdvance (cyclesSection w) = Some (cycle_id cycle)))
  then set_cyclesSection (setConfirmAdvance (Some (cycle_id cycle))) w
  else
    let w1 := set_cyclesSection (setConfirmAdvance None) w in
    let w2 := set_cyclesSection (setAdvancing (Some (cycle_id cycle))) w1 in
    if negb (supabase w2) then set_cyclesSection (setAdvancing None) w2
    else
      match Js.at_index CYCLE_STATUS_ORDER (currentIdx + 1) with
      | None => w2 (* unreachable: the index is in range *)
      | Some nextStatus =>
          let w3 := set_db (fst (Db.update_cycle_status f (cycle_id cycle) nextStatus
                                                        (db w2))) w2 in
          let w4 := set_cyclesSection (setAdvancing None) w3 in
          handleCycleAdvanced (cycle_id cycle) nextStatus w4
      end.

Definition pauseCycle (f : Db.fault) (cycle : ServiceCycle) (w : World) : World :=
  if negb (supabase w) then w else
  let w1 := set_cyclesSection
              (setPrePauseStatus (insert (cycle_id cycle) (cycle_status cycle))) w in
  let w2 := set_db (fst (Db.update_cycle_status f (cycle_id cycle) "paused" (db w1))) w1 in
  handleCycleAdvanced (cycle_id cycle) "paused" w2.

Definition resumeCycle (f : Db.fault) (cycle : ServiceCycle) (w : World) : World :=
  if negb (supabase w) then w else
  let restoreStatus :=
    Js.nullish (prePauseStatus (cyclesSection w) !! cycle_id cycle) "collecting" in
  let w1 := set_db (fst (Db.update_cycle_status f (cycle_id cycle) restoreStatus (db w))) w in
  let w2 := set_cyclesSection (setPrePauseStatus (delete (cycle_id cycle))) w1 in
  handleCycleAdvanced (cycle_id cycle) restoreStatus w2.

(** The buttons [CyclesSection] renders for a cycle. *)
Definition canAdvance (cycle : ServiceCycle) : bool :=
  negb (bool_decide (cycle_status cycle = "paused"))
  && (Js.indexOf CYCLE_STATUS_ORDER (cycle_status cycle)
        <? Js.length CYCLE_STATUS_ORDER - 1).

Definition canPause (cycle : ServiceCycle) : bool :=
  negb (bool_decide (cycle_status cycle = "paused"))
  && negb (bool_decide (cycle_status cycle = "delivered")).

(** The task button: [onTaskToggled(cycle.id, task.id,
    TASK_STATUS_NEXT[task.status] ?? "todo")].  A status that is not a
    string is used as a key through the string JavaScript makes of it,
    [function toString() { [native code] }] or [[object Object]] for
    instance, which names no property of the literal or of
    [Object.prototype]. *)
Definition nextTaskStatus (status : Js.value) : Js.value :=
  match status with
  | Js.Text s => Js.nullish (Js.get TASK_STATUS_NEXT s) (Js.Text "todo")
  | Js.Inherited _ => Js.Text "todo"
  end.

Definition clickTask (f : Db.fault) (cycle : ServiceCycle) (task : CycleTask)
    (w : World) : World :=
  handleTaskToggle f (cycle_id cycle) (task_id task) (nextTaskStatus (task_status task)) w.

(** What the page shows: the cycle with a given id, and a task of it. *)
Definition shown_cycle (w : World) (cycleId : string) : option ServiceCycle :=
  List.find (fun c => bool_decide (cycle_id c = cycleId)) (cycles w).

Definition shown_cycle_status (w : World) (cycleId : string) : option string :=
  cycle_status <$> shown_cycle w cycleId.




(** *** Starting a cycle and reloading *)

Definition taskValues (cycleId tenant : string) : list Db.cycle_task_values :=
  (fun t => {| Db.v_service_cycle_id := cycleId; Db.v_tenant_id := tenant;
               Db.v_task_type := t; Db.v_status := "todo" |}) <$> defaultTasks.

Definition of_db_task (r : Db.cycle_task) : CycleTask :=
  {| task_id := Db.ct_id r; task_type := Db.ct_task_type r;
     task_assignee := Db.ct_assignee r; task_status := Js.Text (Db.ct_status r);
     task_due_date := Db.ct_due_date r |}.

Definition of_db_event (r : Db.intake_event) : IntakeEvent :=
  {| ev_id := Db.ie_id r; ev_source := Db.ie_source r; ev_date := Db.ie_date r;
     ev_amount := Db.ie_amount r; ev_description := Db.ie_description r;
     ev_status := Db.ie_status r |}.

(** What the environment decides during [load]: whether a user is signed
    in, and the fate of each query. *)
Record LoadEnv := {
  signedIn : bool;
  tenantFault : Db.fault;
  cyclesFault : Db.fault;
  tasksFault : Db.fault;
  intakeFault : Db.fault }.

(** [select ... from T where tenant_id = tenantId], [data ?? []]. *)
Definition select_or_empty {A : Type} (f : Db.fault) (rows : list A) : list A :=
  match f with Db.NoFault => rows | Db.Fault _ => [] end.

Definition month_desc (a b : Db.service_cycle) : Prop :=
  String.leb (Db.sc_month b) (Db.sc_month a) = true.

#[local] Instance month_desc_dec a b : Decision (month_desc a b).
Proof. unfold month_desc. apply _. Defined.

(** [load]: cycles by month, newest first, each with its tasks; intake
    events by creation time, newest first (rows are kept in insertion
    order).  The tenant header, invoices, alerts and KPI cards are not
    modelled. *)
Definition load (env : LoadEnv) (w : World) : World :=
  if negb (supabase w) then w
  else if negb (signedIn env) then w
  else match tenantFault env with
  | Db.Fault _ => w
  | Db.NoFault =>
      if negb (Db.tenant_exists (db w) (tenantId w)) then w else
      let of_tenant {A} (tid : A → string) (rows : list A) :=
        List.filter (fun r => bool_decide (tid r = tenantId w)) rows in
      let cycleRows :=
        select_or_empty (cyclesFault env)
          (merge_sort month_desc (of_tenant Db.sc_tenant_id (Db.service_cycles (db w)))) in
      let taskRows :=
        select_or_empty (tasksFault env)
          (of_tenant Db.ct_tenant_id (Db.cycle_tasks (db w))) in
      let intakeRows :=
        select_or_empty (intakeFault env)
          (reverse (of_tenant Db.ie_tenant_id (Db.intake_events (db w)))) in
      let enrichedCycles :=
        (fun c => {| cycle_id := Db.sc_id c; cycle_month := Db.sc_month c;
                     cycle_status := Db.sc_status c;
                     cycle_tasks :=
                       Some (of_db_task <$>
                               List.filter (fun t => bool_decide
                                              (Db.ct_service_cycle_id t = Db.sc_id c))
                                           taskRows) |}) <$> cycleRows in
      setIntake (fun _ => of_db_event <$> intakeRows)
        (setCycles (fun _ => enrichedCycles) w)
  end.

(** What the environment decides during [startCycle]: the first day of
    the current month, the fate of the two statements, the generated
    ids, and the reload that follows. *)
Record StartEnv := {
  thisMonth : string;
  upsertFault : Db.fault;
  newCycleId : Db.uuid;
  insertTasksFault : Db.fault;
  newTaskIds : nat → Db.uuid;
  reload : LoadEnv }.

Definition startCycle (env : StartEnv) (w : World) : World :=
  let w1 := set_cyclesSection (fun s => setStartError None (setStarting true s)) w in
  if negb (supabase w1) then
    set_cyclesSection
      (fun s => setStarting false (setStartError (Some "No Supabase client.") s)) w1
  else
    match Db.upsert_service_cycle (upsertFault env) (newCycleId env)
                                  (tenantId w1) (thisMonth env) "collecting" (db w1) with
    | (_, Db.Error message) =>
        set_cyclesSection
          (fun s => setStarting false (setStartError (Some message) s)) w1
    | (db1, Db.Ok cycle) =>
        let db2 := fst (Db.insert_cycle_tasks (insertTasksFault env) (newTaskIds env)
                          (taskValues (Db.sc_id cycle) (tenantId w1)) db1) in
        load (reload env) (set_cyclesSection (setStarting false) (set_db db2 w1))
    end.

(** *** [IntakeSection] *)

Definition handleIntakeStatusChange (f : Db.fault) (id newStatus : string) (w : World)
  : World :=
  if negb (supabase w) then w else
  let w1 := set_db (fst (Db.update_intake_status f id newStatus (db w))) w in
  setIntake (fmap (fun e => if bool_decide (ev_id e = id)
                            then set_ev_status newStatus e else e)) w1.

Definition handleTransactionCreated (eventId : string) (w : World) : World :=
  setIntake (fmap (fun e => if bool_decide (ev_id e = eventId)
                            then set_ev_status "posted" e else e)) w.

Definition filtered (w : World) : list IntakeEvent :=
  if bool_decide (filter (intakeSection w) = "all") then intake w
  else List.filter (fun e => bool_decide (ev_status e = filter (intakeSection w)))
                   (intake w).

Definition setFilter (v : string) (s : IntakeSectionState) : IntakeSectionState :=
  {| filter := v; txForm := txForm s; txDate := txDate s; txAmount := txAmount s;
     txDesc := txDesc s; txCategory := txCategory s; txSaving := txSaving s;
     txError := txError s |}.

Definition setTxForm (v : option string) (s : IntakeSectionState) : IntakeSectionState :=
  {| filter := filter s; txForm := v; txDate := txDate s; txAmount := txAmount s;
     txDesc := txDesc s; txCategory := txCategory s; txSaving := txSaving s;
     txError := txError s |}.

Definition setTxDate (v : string) (s : IntakeSectionState) : IntakeSectionState :=
  {| filter := filter s; txForm := txForm s; txDate := v; txAmount := txAmount s;
     txDesc := txDesc s; txCategory := txCategory s; txSaving := txSaving s;
     txError := txError s |}.

Definition setTxAmount (v : string) (s : IntakeSectionState) : IntakeSectionState :=
  {| filter := filter s; txForm := txForm s; txDate := txDate s; txAmount := v;
     txDesc := txDesc s; txCategory := txCategory s; txSaving := txSaving s;
     txError := txError s |}.

Definition setTxDesc (v : string) (s : IntakeSectionState) : IntakeSectionState :=
  {| filter := filter s; txForm := txForm s; txDate := txDate s; txAmount := txAmount s;
     txDesc := v; txCategory := txCategory s; txSaving := txSaving s;
     txError := txError s |}.

Definition setTxCategory (v : string) (s : IntakeSectionState) : IntakeSectionState :=
  {| filter := filter s; txForm := txForm s; txDate := txDate s; txAmount := txAmount s;
     txDesc := txDesc s; txCategory := v; txSaving := txSaving s;
     txError := txError s |}.

Definition setTxSaving (v : bool) (s : IntakeSectionState) : IntakeSectionState :=
  {| filter := filter s; txForm := txForm s; txDate := txDate s; txAmount := txAmount s;
     txDesc := txDesc s; txCategory := txCategory s; txSaving := v;
     txError := txError s |}.

Definition setTxError (v : option string) (s : IntakeSectionState) : IntakeSectionState :=
  {| filter := filter s; txForm := txForm s; txDate := txDate s; txAmount := txAmount s;
     txDesc := txDesc s; txCategory := txCategory s; txSaving := txSaving s;
     txError := v |}.

Section Platform.

(** [String(n)], [parseFloat(s)] and [s.trim()] are the platform's. *)
Variable String_of_number : Js.number → string.
Variable parseFloat : string → Js.number.
Variable trim : string → string.

Definition openTxForm (event : IntakeEvent) (w : World) : World :=
  set_intakeSection
    (fun s =>
       setTxError None
         (setTxCategory ""
            (setTxDesc (Js.nullish (ev_description event) "")
               (setTxAmount (match ev_amount event with
                             | Some n => String_of_number n
                             | None => ""
                             end)
                  (setTxDate (Js.nullish (ev_date event) "")
                     (setTxForm (Some (ev_id event)) s)))))) w.

Definition submitTransaction (insertFault : Db.fault) (newId : Db.uuid)
    (kept : Db.numeric) (updateFault : Db.fault) (eventId : string) (w : World)
  : World :=
  let s := intakeSection w in
  if negb (Js.truthy (trim (txCategory s))) then
    set_intakeSection (setTxError (Some "Category ID is required.")) w
  else if negb (Js.truthy (txDate s)) then
    set_intakeSection (setTxError (Some "Date is required.")) w
  else
    let w1 := set_intakeSection (fun s => setTxError None (setTxSaving true s)) w in
    if negb (supabase w1) then set_intakeSection (setTxSaving false) w1
    else
      let row (id : Db.uuid) : Db.transaction :=
        {| Db.tx_id := id; Db.tx_tenant_id := tenantId w1; Db.tx_date := txDate s;
           Db.tx_description :=
             (if Js.truthy (trim (txDesc s)) then trim (txDesc s) else "Intake event");
           Db.tx_category_id := trim (txCategory s);
           Db.tx_amount := Js.or_zero (parseFloat (txAmount s));
           Db.tx_entity_id := None; Db.tx_status := "Received" |} in
      match Db.insert_transaction insertFault newId kept row (db w1) with
      | (_, Some message) =>
          set_intakeSection
            (fun s => setTxSaving false (setTxError (Some message) s)) w1
      | (db1, None) =>
          let db2 := fst (Db.update_intake_status updateFault eventId "posted" db1) in
          handleTransactionCreated eventId
            (set_intakeSection (fun s => setTxForm None (setTxSaving false s))
               (set_db db2 w1))
      end.

(** What a user can do in [IntakeSection]. *)
Inductive IntakeAction :=
| MarkCategorized (event : IntakeEvent) (f : Db.fault)
| OpenTxForm (event : IntakeEvent)
| CancelTxForm (event : IntakeEvent)
| EditTxDate (event : IntakeEvent) (v : string)
| EditTxAmount (event : IntakeEvent) (v : string)
| EditTxDesc (event : IntakeEvent) (v : string)
| EditTxCategory (event : IntakeEvent) (v : string)
| PostTransaction (event : IntakeEvent)
    (insertFault : Db.fault) (newId : Db.uuid) (kept : Db.numeric)
    (updateFault : Db.fault)
| SelectFilter (v : string).

(** The controls rendered for a row of the table: each button and input
    exists only under the condition that guards it in the markup. *)
Definition in_table (w : World) (e : IntakeEvent) : bool :=
  bool_decide (e ∈ filtered w).

Definition form_open_for (w : World) (e : IntakeEvent) : bool :=
  bool_decide (txForm (intakeSection w) = Some (ev_id e)).

Definition rendered (w : World) (a : IntakeAction) : bool :=
  match a with
  | MarkCategorized e _ => in_table w e && bool_decide (ev_status e = "new")
  | OpenTxForm e =>
      in_table w e && bool_decide (ev_status e = "categorized")
      && negb (form_open_for w e)
  | CancelTxForm e =>
      in_table w e && bool_decide (ev_status e = "categorized") && form_open_for w e
  | EditTxDate e _ | EditTxAmount e _ | EditTxDesc e _ | EditTxCategory e _ =>
      in_table w e && form_open_for w e
  | PostTransaction e _ _ _ _ =>
      in_table w e && form_open_for w e && negb (txSaving (intakeSection w))
  | SelectFilter v => bool_decide (v ∈ ["all"; "new"; "categorized"; "posted"])
  end.

(** The handler each control is wired to. *)
Definition perform (a : IntakeAction) (w : World) : World :=
  match a with
  | MarkCategorized e f => handleIntakeStatusChange f (ev_id e) "categorized" w
  | OpenTxForm e => openTxForm e w
  | CancelTxForm _ => set_intakeSection (setTxForm None) w
  | EditTxDate _ v => set_intakeSection (setTxDate v) w
  | EditTxAmount _ v => set_intakeSection (setTxAmount v) w
  | EditTxDesc _ v => set_intakeSection (setTxDesc v) w
  | EditTxCategory _ v => set_intakeSection (setTxCategory v) w
  | PostTransaction e fi id kept fu => submitTransaction fi id kept fu (ev_id e) w
  | SelectFilter v => set_intakeSection (setFilter v) w
  end.

End Platform.

(** Status the page shows for an intake event. *)
Definition shown_event_status (w : World) (id : string) : option string :=
  ev_status <$> List.find (fun e => bool_decide (ev_id e = id)) (intake w).

End TenantPage.


(** ** Route handlers *)

Module Http.

(** A call either returns or throws an [Error] with a message. *)
Inductive thrown (A : Type) := Return (a : A) | Throw (message : string).
Arguments Return {A} a.
Arguments Throw {A} message.

(** An incoming request: [request.headers.get(name)] and the outcome of
    [await request.json()]. *)
Record Request := {
  headers_get : string → option string;
  json : thrown Js.json }.

(** The JSON bodies the handlers answer with. *)
Inductive Body :=
| error_body (error : string)
| invalid_payload
| ok_body
| ok_cycle (cycle : Db.service_cycle)
| ok_tenant (tenant : Db.tenant).

Record Response := { status : nat; body : Body }.

(** [NextResponse.json(body, { status })]; the status defaults to 200. *)
Definition respond (st : nat) (b : Body) : Response := {| status := st; body := b |}.

(** [process.env.NAME] is falsy when the variable is unset or empty. *)
Definition env_value (processEnv : string → option string) (name : string)
  : option string :=
  match processEnv name with
  | Some v => if Js.truthy v then Some v else None
  | None => None
  end.

(** [!!got && got === expected] *)
Definition token_matches (got : option string) (expected : string) : bool :=
  match got with
  | Some g => Js.truthy g && bool_decide (g = expected)
  | None => false
  end.

End Http.

(** *** [POST /api/tenant/:tenantId/cycle/start] *)

Module CycleStartRoute.
Import Http.

Definition payloadSchema (body : Js.json) : option string :=
  match body with
  | Js.JObject fields =>
      match Js.field "month" fields with
      | Some (Js.JString month) => if Js.is_date_shape month then Some month else None
      | _ => None
      end
  | _ => None
  end.

Definition requireAdminToken (processEnv : string → option string) (request : Request)
  : thrown bool :=
  match env_value processEnv "DASHBOARD_ADMIN_TOKEN" with
  | None => Throw "Missing DASHBOARD_ADMIN_TOKEN."
  | Some expected => Return (token_matches (headers_get request "x-admin-token") expected)
  end.

Definition defaultTasks : list string :=
  ["Collect statements"; "Review intake events"; "Categorize transactions";
   "Reconcile to bank"; "Run BVA and variances"; "Generate report pack";
   "Send insight summary"; "Schedule review call"].

(** What the environment decides during one call.  [adminClient] is the
    outcome of [createAdminSupabaseClient()], whose source is not part of
    the modelled files: it yields the service-role client or throws. *)
Record Env := {
  processEnv : string → option string;
  adminClient : thrown unit;
  upsertFault : Db.fault;
  newCycleId : Db.uuid;
  insertTasksFault : Db.fault;
  newTaskIds : nat → Db.uuid }.

Definition POST (env : Env) (request : Request) (tenantId : string) (db : Db.t)
  : Db.t * Response :=
  match requireAdminToken (processEnv env) request with
  | Throw message => (db, respond 500 (error_body message))
  | Return false => (db, respond 401 (error_body "Unauthorized"))
  | Return true =>
      match json request with
      | Throw message => (db, respond 500 (error_body message))
      | Return body =>
          match payloadSchema body with
          | None => (db, respond 400 (error_body "Invalid payload"))
          | Some month =>
              match adminClient env with
              | Throw message => (db, respond 500 (error_body message))
              | Return _ =>
                  match Db.upsert_service_cycle (upsertFault env) (newCycleId env)
                                                tenantId month "collecting" db with
                  | (db1, Db.Error message) => (db1, respond 500 (error_body message))
                  | (db1, Db.Ok cycle) =>
                      match Db.insert_cycle_tasks (insertTasksFault env) (newTaskIds env)
                              ((fun taskType =>
                                  {| Db.v_service_cycle_id := Db.sc_id cycle;
                                     Db.v_tenant_id := tenantId;
                                     Db.v_task_type := taskType;
                                     Db.v_status := "todo" |}) <$> defaultTasks) db1 with
                      | (db2, Some message) => (db2, respond 500 (error_body message))
                      | (db2, None) => (db2, respond 200 (ok_cycle cycle))
                      end
                  end
              end
          end
      end
  end.

End CycleStartRoute.

(** *** [POST /api/intake/google-form] *)

Module IntakeRoute.
Import Http.

Record IntakePayload := {
  tenant_id : string;
  source : string;
  date : option string;
  amount : option Js.number;
  description : option string;
  attachment_url : option string;
  raw_payload : option Js.json }.

Definition requireIntakeToken (processEnv : string → option string) (request : Request)
  : thrown bool :=
  match env_value processEnv "INTAKE_SHARED_SECRET" with
  | None => Throw "Missing INTAKE_SHARED_SECRET."
  | Some expected =>
      Return (token_matches (headers_get request "x-intake-token") expected)
  end.

Record Env := {
  processEnv : string → option string;
  adminClient : thrown unit;
  insertFault : Db.fault;
  newEventId : Db.uuid;
  kept : Db.numeric }.

Section Zod.

(** The validators behind [z.string().uuid()] and [z.string().url()]. *)
Variable is_uuid : string → bool.
Variable is_url : string → bool.

(** An optional key: absent, or present with a value the check accepts.
    The outer [None] is a validation failure. *)
Definition optional {A : Type} (check : Js.json → option A) (v : option Js.json)
  : option (option A) :=
  match v with
  | None => Some None
  | Some j => Some <$> check j
  end.

Definition a_string (ok : string → bool) (j : Js.json) : option string :=
  match j with
  | Js.JString s => if ok s then Some s else None
  | _ => None
  end.

Definition a_finite_number (j : Js.json) : option Js.number :=
  match j with
  | Js.JNumber n => if Js.isFinite n then Some n else None
  | _ => None
  end.

Definition intakeSchema (body : Js.json) : option IntakePayload :=
  match body with
  | Js.JObject fields =>
      tid ← Js.field "tenant_id" fields ≫= a_string is_uuid;
      src ← Js.field "source" fields ≫= a_string Js.truthy;
      d ← optional (a_string Js.is_date_shape) (Js.field "date" fields);
      amt ← optional a_finite_number (Js.field "amount" fields);
      descr ← optional (a_string (fun _ => true)) (Js.field "description" fields);
      att ← optional (a_string is_url) (Js.field "attachment_url" fields);
      Some {| tenant_id := tid; source := src; date := d; amount := amt;
              description := descr; attachment_url := att;
              raw_payload := Js.field "raw_payload" fields |}
  | _ => None
  end.

(** [value ?? null] for a JSON value stored in a [jsonb] column. *)
Definition json_or_null (v : option Js.json) : option Js.json :=
  match v with
  | Some Js.JNull | None => None
  | Some j => Some j
  end.

Definition POST (env : Env) (request : Request) (db : Db.t) : Db.t * Response :=
  match requireIntakeToken (processEnv env) request with
  | Throw message => (db, respond 500 (error_body message))
  | Return false => (db, respond 401 (error_body "Unauthorized"))
  | Return true =>
      match json request with
      | Throw message => (db, respond 500 (error_body message))
      | Return body =>
          match intakeSchema body with
          | None => (db, respond 400 invalid_payload)
          | Some data =>
              match adminClient env with
              | Throw message => (db, respond 500 (error_body message))
              | Return _ =>
                  match Db.insert_intake_event (insertFault env) (newEventId env)
                          (kept env)
                          (fun id =>
                             {| Db.ie_id := id; Db.ie_tenant_id := tenant_id data;
                                Db.ie_source := source data; Db.ie_date := date data;
                                Db.ie_amount := amount data;
                                Db.ie_description := description data;
                                Db.ie_attachment_url := attachment_url data;
                                Db.ie_raw_payload := json_or_null (raw_payload data);
                                Db.ie_status := "new" |}) db with
                  | (db1, Some message) => (db1, respond 500 (error_body message))
                  | (db1, None) => (db1, respond 200 ok_body)
                  end
              end
          end
      end
  end.

End Zod.

End IntakeRoute.

(** *** [POST /api/tenants] *)

Module TenantsRoute.
Import Http.

Record TenantPayload := {
  name : string;
  package_tier : string;
  niche : string;
  timezone : string;
  currency : string }.

(** [z.string().max(n)]; strings are sequences of code units. *)
Definition max_length (n : nat) (s : string) : bool := (String.length s <=? n)%nat.

(** [z.string().max(n).optional().default("")] *)
Definition defaulted (n : nat) (v : option Js.json) : option string :=
  match v with
  | None => Some ""
  | Some (Js.JString s) => if max_length n s then Some s else None
  | Some _ => None
  end.

Definition createTenantSchema (body : Js.json) : option TenantPayload :=
  match body with
  | Js.JObject fields =>
      nm ← match Js.field "name" fields with
           | Some (Js.JString s) =>
               if Js.truthy s && max_length 200 s then Some s else None
           | _ => None
           end;
      tier ← match Js.field "package_tier" fields with
             | Some (Js.JString s) =>
                 if Db.in_enum Db.package_tier s then Some s else None
             | _ => None
             end;
      ni ← defaulted 200 (Js.field "niche" fields);
      tz ← defaulted 100 (Js.field "timezone" fields);
      cur ← defaulted 10 (Js.field "currency" fields);
      Some {| name := nm; package_tier := tier; niche := ni; timezone := tz;
              currency := cur |}
  | _ => None
  end.

(** What the environment decides during one call.  [getUser] is the
    answer of the auth provider for a bearer token; [adminClient] the
    outcome of [createAdminSupabaseClient()]. *)
Record Env := {
  processEnv : string → option string;
  getUser : string → option Db.uuid;
  adminClient : thrown unit;
  tenantFault : Db.fault;
  newTenantId : Db.uuid;
  memberFault : Db.fault;
  newMemberId : Db.uuid;
  rollbackFault : Db.fault }.

(** [authHeader.slice(7)] *)
Definition bearer_token (authHeader : string) : string :=
  String.substring 7 (String.length authHeader - 7) authHeader.

Definition POST (env : Env) (request : Request) (db : Db.t) : Db.t * Response :=
  match headers_get request "authorization" with
  | None => (db, respond 401 (error_body "Unauthorized"))
  | Some authHeader =>
      if negb (String.prefix "Bearer " authHeader) then
        (db, respond 401 (error_body "Unauthorized"))
      else
        let token := bearer_token authHeader in
        match env_value (processEnv env) "NEXT_PUBLIC_SUPABASE_URL",
              env_value (processEnv env) "NEXT_PUBLIC_SUPABASE_ANON_KEY" with
        | Some _, Some _ =>
            match getUser env token with
            | None => (db, respond 401 (error_body "Unauthorized"))
            | Some userId =>
                match json request with
                | Throw message => (db, respond 500 (error_body message))
                | Return body =>
                    match createTenantSchema body with
                    | None => (db, respond 400 invalid_payload)
                    | Some data =>
                        match adminClient env with
                        | Throw message => (db, respond 500 (error_body message))
                        | Return _ =>
                            (* Create tenant *)
                            match Db.insert_tenant (tenantFault env) (newTenantId env)
                                    (fun id =>
                                       {| Db.t_id := id; Db.t_name := name data;
                                          Db.t_package_tier := package_tier data;
                                          Db.t_niche := Js.or_null (niche data);
                                          Db.t_timezone := Js.or_null (timezone data);
                                          Db.t_currency := Js.or_null (currency data) |})
                                    db with
                            | (db1, Db.Error message) =>
                                (db1, respond 500 (error_body message))
                            | (db1, Db.Ok tenant) =>
                                (* Assign current user as owner *)
                                match Db.insert_tenant_user (memberFault env)
                                        (newMemberId env) (Db.t_id tenant) userId
                                        "owner" db1 with
                                | (db2, Some message) =>
                                    (* Rollback tenant on failure *)
                                    (fst (Db.delete_tenant (rollbackFault env)
                                                           (Db.t_id tenant) db2),
                                     respond 500 (error_body message))
                                | (db2, None) => (db2, respond 200 (ok_tenant tenant))
                                end
                            end
                        end
                    end
                end
            end
        | _, _ => (db, respond 500 (error_body "Server misconfigured"))
        end
  end.

End TenantsRoute.

(** ** Row-level security *)

Module Rls.

(** A row of any table: its columns by name; an absent column is NULL. *)
Abbreviation row := (gmap string string).

Inductive command := Select | Insert | Update | Delete.

#[global] Instance command_eq_dec : EqDecision command.
Proof. solve_decision. Defined.

(** The two expressions the migration uses in policies:
    [is_tenant_member(col)] and [col = auth.uid()]. *)
Inductive expr :=
| is_tenant_member_of (col : string)
| equals_auth_uid (col : string).

Record policy := {
  pol_name : string;
  pol_table : string;
  pol_command : command;
  pol_using : option expr;
  pol_with_check : option expr }.

(** The catalog: tables with row-level security enabled, and policies. *)
Record catalog := {
  rls_enabled : list string;
  policies : list policy }.

(** [alter table T enable row level security] *)
Definition enable_rls (tbl : string) (c : catalog) : catalog :=
  {| rls_enabled := tbl :: rls_enabled c; policies := policies c |}.

(** [drop policy if exists N on T] *)
Definition drop_policy (nm tbl : string) (c : catalog) : catalog :=
  {| rls_enabled := rls_enabled c;
     policies := List.filter (fun p => negb (bool_decide (pol_name p = nm)
                                              && bool_decide (pol_table p = tbl)))
                             (policies c) |}.

(** [create policy N on T for CMD using (...) with check (...)] *)
Definition create_policy (p : policy) (c : catalog) : catalog :=
  {| rls_enabled := rls_enabled c; policies := policies c ++ [p] |}.

(** [create_member_policies(p_table, p_tenant_col)] *)
Definition create_member_policies (p_table p_tenant_col : string) (c : catalog)
  : catalog :=
  let member := is_tenant_member_of p_tenant_col in
  let c := drop_policy (p_table +:+ "_select_member") p_table c in
  let c := create_policy {| pol_name := p_table +:+ "_select_member";
                            pol_table := p_table; pol_command := Select;
                            pol_using := Some member; pol_with_check := None |} c in
  let c := drop_policy (p_table +:+ "_insert_member") p_table c in
  let c := create_policy {| pol_name := p_table +:+ "_insert_member";
                            pol_table := p_table; pol_command := Insert;
                            pol_using := None; pol_with_check := Some member |} c in
  let c := drop_policy (p_table +:+ "_update_member") p_table c in
  let c := create_policy {| pol_name := p_table +:+ "_update_member";
                            pol_table := p_table; pol_command := Update;
                            pol_using := Some member;
                            pol_with_check := Some member |} c in
  let c := drop_policy (p_table +:+ "_delete_member") p_table c in
  create_policy {| pol_name := p_table +:+ "_delete_member";
                   pol_table := p_table; pol_command := Delete;
                   pol_using := Some member; pol_with_check := None |} c.

(** Every table the migration creates, in the order RLS is enabled. *)
Definition all_tables : list string :=
  ["tenants"; "tenant_users"; "entities"; "categories"; "accounts"; "transactions";
   "budgets"; "invoices"; "leads"; "opportunities"; "projects"; "tasks";
   "service_engagements"; "service_cycles"; "cycle_tasks"; "deliverables";
   "intake_events"; "missing_data_alerts"].

(** The tables [create_member_policies] is applied to, each with
    [tenant_id] as its tenant column. *)
Definition tenant_scoped_tables : list string :=
  ["entities"; "categories"; "accounts"; "transactions"; "budgets"; "invoices";
   "leads"; "opportunities"; "projects"; "tasks"; "service_engagements";
   "service_cycles"; "cycle_tasks"; "deliverables"; "intake_events";
   "missing_data_alerts"].

(** The policy part of [initial_schema.sql], run on an empty catalog. *)
Definition migration : catalog :=
  let c := foldl (fun c tbl => enable_rls tbl c)
                 {| rls_enabled := []; policies := [] |} all_tables in
  let c := drop_policy "tenants_select_member" "tenants" c in
  let c := create_policy {| pol_name := "tenants_select_member"; pol_table := "tenants";
                            pol_command := Select;
                            pol_using := Some (is_tenant_member_of "id");
                            pol_with_check := None |} c in
  let c := drop_policy "tenant_users_select_self" "tenant_users" c in
  let c := create_policy {| pol_name := "tenant_users_select_self";
                            pol_table := "tenant_users"; pol_command := Select;
                            pol_using := Some (equals_auth_uid "user_id");
                            pol_with_check := None |} c in
  foldl (fun c tbl => create_member_policies tbl "tenant_id" c) c tenant_scoped_tables.

(** *** How PostgreSQL applies the policies

    The contents of the tables are a function from table names to rows.
    [auth_uid] is [auth.uid()]: the signed-in user, NULL for an anonymous
    caller.  A comparison with NULL never holds. *)

Section Evaluation.

Variable c : catalog.
Variable data : string → list row.
Variable auth_uid : option string.

Definition policies_for (tbl : string) (cmd : command) : list policy :=
  List.filter (fun p => bool_decide (pol_table p = tbl) && bool_decide (pol_command p = cmd))
              (policies c).

(** [col = auth.uid()] *)
Definition column_is_auth_uid (col : string) (r : row) : bool :=
  match r !! col, auth_uid with
  | Some v, Some u => bool_decide (v = u)
  | _, _ => false
  end.

(** Expressions that do not query another table. *)
Definition eval_plain (e : expr) (r : row) : bool :=
  match e with
  | equals_auth_uid col => column_is_auth_uid col r
  | is_tenant_member_of _ => false
  end.

(** The rows of [tenant_users] the caller's own queries can read.
    [is_tenant_member] is not [security definer], so the [select] inside it
    runs with the caller's rights and passes through the policies of
    [tenant_users].  (A policy there that called [is_tenant_member] again
    would recurse; none does, and [eval_plain] gives it no rows.) *)
Definition readable_tenant_users : list row :=
  if bool_decide ("tenant_users" ∈ rls_enabled c) then
    List.filter (fun r => existsb (fun p => match pol_using p with
                                            | Some e => eval_plain e r
                                            | None => true
                                            end)
                                  (policies_for "tenant_users" Select))
                (data "tenant_users")
  else data "tenant_users".

(** [is_tenant_member(p_tenant_id)]:
    [select exists (select 1 from tenant_users tu
                    where tu.tenant_id = p_tenant_id and tu.user_id = auth.uid())] *)
Definition is_tenant_member (p_tenant_id : option string) : bool :=
  match p_tenant_id with
  | None => false
  | Some tid =>
      existsb (fun tu => bool_decide (tu !! "tenant_id" = Some tid)
                         && column_is_auth_uid "user_id" tu)
              readable_tenant_users
  end.

Definition eval (e : expr) (r : row) : bool :=
  match e with
  | equals_auth_uid col => column_is_auth_uid col r
  | is_tenant_member_of col => is_tenant_member (r !! col)
  end.

(** A row passes the [using] side of a command when some policy for that
    command accepts it; with no policy, none does. *)
Definition passes_using (tbl : string) (cmd : command) (r : row) : bool :=
  existsb (fun p => match pol_using p with Some e => eval e r | None => true end)
          (policies_for tbl cmd).

(** The [with check] side; a policy without one checks its [using]
    expression instead. *)
Definition passes_check (tbl : string) (cmd : command) (r : row) : bool :=
  existsb (fun p => match pol_with_check p, pol_using p with
                    | Some e, _ => eval e r
                    | None, Some e => eval e r
                    | None, None => true
                    end)
          (policies_for tbl cmd).

Definition protected (tbl : string) : bool := bool_decide (tbl ∈ rls_enabled c).

(** The four things a user can do with a row.  Updating and deleting
    read the row they target, so the [select] policies apply to it too. *)
Definition can_select (tbl : string) (r : row) : bool :=
  negb (protected tbl) || passes_using tbl Select r.

Definition can_insert (tbl : string) (r : row) : bool :=
  negb (protected tbl) || passes_check tbl Insert r.

Definition can_update (tbl : string) (old new : row) : bool :=
  negb (protected tbl)
  || (passes_using tbl Select old && passes_using tbl Update old
      && passes_check tbl Update new).

Definition can_delete (tbl : string) (r : row) : bool :=
  negb (protected tbl) || (passes_using tbl Select r && passes_using tbl Delete r).

End Evaluation.

End Rls.

(** ** The transactions page *)

Module TransactionsPage.

Record Transaction := {
  id : string;
  date : string;
  description : string;
  category_id : string;
  amount : Js.number;
  entity_id : option string;
  status : string }.

Record Category := {
  cat_category_id : string;
  category_name : string;
  cat_type : string }.

(** [Object.fromEntries(categories.map((c) => [c.category_id, c]))]: a
    later category with the same id replaces an earlier one.  Under a
    name it only inherits the object holds a member without a
    [category_name], which [csv_row] treats as it treats a missing id. *)
Definition catMap (categories : list Category) : gmap string Category :=
  foldl (fun m c => <[cat_category_id c := c]> m) ∅ categories.

Definition header : list string :=
  ["Date"; "Description"; "Category"; "Amount"; "Entity"; "Status"].

Definition quote : string := String Js.dquote "".

(** The description cell: every double quote doubled, the whole wrapped
    in double quotes. *)
Definition quoted (s : string) : string :=
  quote +:+ Js.replace_char Js.dquote (quote +:+ quote) s +:+ quote.

Section Csv.

(** [String(n)] is the platform's. *)
Variable String_of_number : Js.number → string.

Definition csv_row (categories : list Category) (t : Transaction) : list string :=
  [ date t;
    quoted (description t);
    Js.nullish (category_name <$> catMap categories !! category_id t) (category_id t);
    String_of_number (amount t);
    Js.nullish (entity_id t) "";
    status t ].

(** The [rows] array [exportCSV] builds, and the text it downloads. *)
Definition exportCSV_rows (categories : list Category) (filtered : list Transaction)
  : list (list string) :=
  foldl (fun rows t => (rows ++ [csv_row categories t])%list) [header] filtered.

Definition newline : string := String (Ascii.ascii_of_nat 10) "".

Definition exportCSV (categories : list Category) (filtered : list Transaction) : string :=
  Js.join newline (Js.join "," <$> exportCSV_rows categories filtered).

End Csv.

End TransactionsPage.


(** ** The whole application *)

Module System.
Import TenantPage.

(** One statement sent to the database, whatever becomes of it. *)
Inductive statement : Db.t → Db.t → Prop :=
| update_cycle_status f id st db :
    statement db (Db.update_cycle_status f id st db).1
| update_task_status f id st db :
    statement db (Db.update_task_status f id st db).1
| update_intake_status f id st db :
    statement db (Db.update_intake_status f id st db).1
| upsert_service_cycle f new_id tid month st db :
    statement db (Db.upsert_service_cycle f new_id tid month st db).1
| insert_cycle_tasks f gen vs db :
    statement db (Db.insert_cycle_tasks f gen vs db).1
| insert_intake_event f new_id kept row db :
    statement db (Db.insert_intake_event f new_id kept row db).1
| insert_transaction f new_id kept row db :
    statement db (Db.insert_transaction f new_id kept row db).1
| insert_tenant f new_id row db :
    statement db (Db.insert_tenant f new_id row db).1
| insert_tenant_user f new_id tid uid role db :
    statement db (Db.insert_tenant_user f new_id tid uid role db).1
| delete_tenant f tid db :
    statement db (Db.delete_tenant f tid db).1.

Section Platform.

Variable String_of_number : Js.number → string.
Variable parseFloat : string → Js.number.
Variable trim : string → string.
Variable is_uuid : string → bool.
Variable is_url : string → bool.

(** Everything that can happen: a request to one of the three routes, or
    a user acting on the tenant detail page. *)
Inductive Action :=
| CycleStartRequest (env : CycleStartRoute.Env) (request : Http.Request) (tenant : string)
| IntakeRequest (env : IntakeRoute.Env) (request : Http.Request)
| TenantsRequest (env : TenantsRoute.Env) (request : Http.Request)
| StartCycle (env : StartEnv)
| AdvanceCycle (f : Db.fault) (cycle : ServiceCycle)
| PauseCycle (f : Db.fault) (cycle : ServiceCycle)
| ResumeCycle (f : Db.fault) (cycle : ServiceCycle)
| ToggleTask (f : Db.fault) (cycle : ServiceCycle) (task : CycleTask)
| Reload (env : LoadEnv)
| Intake (a : IntakeAction).

Definition step (a : Action) (w : World) : World :=
  match a with
  | CycleStartRequest env request tenant =>
      set_db (CycleStartRoute.POST env request tenant (db w)).1 w
  | IntakeRequest env request =>
      set_db (IntakeRoute.POST is_uuid is_url env request (db w)).1 w
  | TenantsRequest env request =>
      set_db (TenantsRoute.POST env request (db w)).1 w
  | StartCycle env => startCycle env w
  | AdvanceCycle f cycle => advanceCycle f cycle w
  | PauseCycle f cycle => pauseCycle f cycle w
  | ResumeCycle f cycle => resumeCycle f cycle w
  | ToggleTask f cycle task => clickTask f cycle task w
  | Reload env => load env w
  | Intake a => perform String_of_number parseFloat trim a w
  end.

(** The key, foreign-key and enum constraints of [intake_events]. *)
Definition intake_keys_ok (d : Db.t) : Prop :=
  NoDup (Db.ie_id <$> Db.intake_events d)
  ∧ (∀ r, r ∈ Db.intake_events d → Db.ie_tenant_id r ∈ Db.t_id <$> Db.tenants d)
  ∧ (∀ r, r ∈ Db.intake_events d → Db.ie_status r ∈ ["new"; "categorized"; "posted"]).

(** A statement leaves both [intake_events] and [tenants] alone. *)
Definition leaves_intake (d d' : Db.t) : Prop :=
  Db.intake_events d' = Db.intake_events d ∧ Db.tenants d' = Db.tenants d.

(** Every event on the page is stored with the status shown, and the
    transaction form is open only for an event stored as categorized. *)
Definition page_follows_table (w : World) : Prop :=
  (∀ e, e ∈ intake w → Db.intake_event_status (db w) (ev_id e) = Some (ev_status e))
  ∧ (∀ id, txForm (intakeSection w) = Some id →
           Db.intake_event_status (db w) id = Some "categorized").

(** The status updates of an action are all carried out. *)
Definition updates_carried (a : Action) : Prop :=
  match a with
  | Intake (MarkCategorized _ f) => f = Db.NoFault
  | Intake (PostTransaction _ _ _ _ updateFault) => updateFault = Db.NoFault
  | _ => True
  end.

(** An action on the intake table is one of the controls it renders. *)
Definition available (w : World) (a : Action) : Prop :=
  match a with
  | Intake ia => rendered w ia = true
  | _ => True
  end.

End Platform.

End System.

(** ** Tenant settings *)

(** *** [PATCH /api/tenants/:tenantId] *)

Module TenantPatchRoute.
Import Http.

(** [parsed.data]: a key of the body that is absent stays absent; for the
    three nullable columns a key that is present holds a string or null. *)
Record Patch := {
  name : option string;
  package_tier : option string;
  niche : option (option string);
  timezone : option (option string);
  currency : option (option string) }.

(** [.nullable()]: null, or a value the check accepts. *)
Definition nullable {A : Type} (check : Js.json → option A) (j : Js.json)
  : option (option A) :=
  match j with
  | Js.JNull => Some None
  | _ => Some <$> check j
  end.

Definition patchSchema (body : Js.json) : option Patch :=
  match body with
  | Js.JObject fields =>
      nm ← IntakeRoute.optional
             (IntakeRoute.a_string
                (fun s => Js.truthy s && TenantsRoute.max_length 200 s))
             (Js.field "name" fields);
      tier ← IntakeRoute.optional
               (IntakeRoute.a_string (Db.in_enum Db.package_tier))
               (Js.field "package_tier" fields);
      ni ← IntakeRoute.optional
             (nullable (IntakeRoute.a_string (TenantsRoute.max_length 200)))
             (Js.field "niche" fields);
      tz ← IntakeRoute.optional
             (nullable (IntakeRoute.a_string (TenantsRoute.max_length 100)))
             (Js.field "timezone" fields);
      cur ← IntakeRoute.optional
              (nullable (IntakeRoute.a_string (TenantsRoute.max_length 10)))
              (Js.field "currency" fields);
      Some {| name := nm; package_tier := tier; niche := ni; timezone := tz;
              currency := cur |}
  | _ => None
  end.

(** What the environment decides during one call. *)
Record Env := {
  processEnv : string → option string;
  getUser : string → option Db.uuid;
  adminClient : thrown unit;
  membershipFault : Db.fault;
  updateFault : Db.fault }.

Definition resolveUser (env : Env) (request : Request) : option Db.uuid :=
  match headers_get request "authorization" with
  | None => None
  | Some authHeader =>
      if negb (String.prefix "Bearer " authHeader) then None
      else
        let token := TenantsRoute.bearer_token authHeader in
        match env_value (processEnv env) "NEXT_PUBLIC_SUPABASE_URL",
              env_value (processEnv env) "NEXT_PUBLIC_SUPABASE_ANON_KEY" with
        | Some _, Some _ => getUser env token
        | _, _ => None
        end
  end.

(** [select role from tenant_users where tenant_id = tid and user_id = uid]
    followed by [.single()]: the role when exactly one row comes back,
    no data otherwise. *)
Definition select_membership (f : Db.fault) (tid uid : Db.uuid) (db : Db.t)
  : option string :=
  match f with
  | Db.Fault _ => None
  | Db.NoFault =>
      match List.filter (fun r => bool_decide (Db.tu_tenant_id r = tid)
                                  && bool_decide (Db.tu_user_id r = uid))
                        (Db.tenant_users db) with
      | [r] => Some (Db.tu_role r)
      | _ => None
      end
  end.

(** The columns an update sets, the others kept. *)
Definition apply_patch (p : Patch) (r : Db.tenant) : Db.tenant :=
  {| Db.t_id := Db.t_id r;
     Db.t_name := Js.nullish (name p) (Db.t_name r);
     Db.t_package_tier := Js.nullish (package_tier p) (Db.t_package_tier r);
     Db.t_niche := Js.nullish (niche p) (Db.t_niche r);
     Db.t_timezone := Js.nullish (timezone p) (Db.t_timezone r);
     Db.t_currency := Js.nullish (currency p) (Db.t_currency r) |}.

Definition no_column (p : Patch) : bool :=
  match name p, package_tier p, niche p, timezone p, currency p with
  | None, None, None, None, None => true
  | _, _, _, _, _ => false
  end.

(** [update tenants set ... where id = tid returning ...] followed by
    [.single()].  With no column to set there is no [update] to run and
    no row comes back; [.single()] wants exactly one. *)
Definition update_tenant (f : Db.fault) (tid : Db.uuid) (p : Patch) (db : Db.t)
  : Db.t * Db.result Db.tenant :=
  match f with
  | Db.Fault msg => (db, Db.Error msg)
  | Db.NoFault =>
      if no_column p then
        (db, Db.Error "JSON object requested, multiple (or no) rows returned")
      else if negb (match package_tier p with
                    | Some tier => Db.in_enum Db.package_tier tier
                    | None => true
                    end) then
        (db, Db.Error "invalid input value for enum package_tier")
      else
        let db' :=
          Db.with_tenants db
            ((fun r => if bool_decide (Db.t_id r = tid) then apply_patch p r else r)
               <$> Db.tenants db) in
        match List.filter (fun r => bool_decide (Db.t_id r = tid)) (Db.tenants db') with
        | [r] => (db', Db.Ok r)
        | _ => (db', Db.Error "JSON object requested, multiple (or no) rows returned")
        end
  end.

Definition PATCH (env : Env) (request : Request) (tenantId : string) (db : Db.t)
  : Db.t * Response :=
  match resolveUser env request with
  | None => (db, respond 401 (error_body "Unauthorized"))
  | Some userId =>
      (* Verify user is a member of this tenant *)
      match adminClient env with
      | Throw message => (db, respond 500 (error_body message))
      | Return _ =>
          match select_membership (membershipFault env) tenantId userId db with
          | None => (db, respond 403 (error_body "Forbidden"))
          | Some _ =>
              match json request with
              | Throw message => (db, respond 500 (error_body message))
              | Return body =>
                  match patchSchema body with
                  | None => (db, respond 400 invalid_payload)
                  | Some data =>
                      match update_tenant (updateFault env) tenantId data db with
                      | (db1, Db.Error message) =>
                          (db1, respond 500 (error_body message))
                      | (db1, Db.Ok tenant) => (db1, respond 200 (ok_tenant tenant))
                      end
                  end
              end
          end
      end
  end.

End TenantPatchRoute.

(** What becomes of a handler of a page besides the state it leaves: it
    settles, it sends the browser to another path, or it ends in an
    exception nobody catches. *)
Module Page.

Inductive Outcome :=
| Settled
| Redirected (path : string)
| Uncaught.

(** [json.error] of a route's answer. *)
Definition body_error (b : Http.Body) : option string :=
  match b with
  | Http.error_body message => Some message
  | Http.invalid_payload => Some "Invalid payload"
  | _ => None
  end.

(** [res.ok] *)
Definition ok (res : Http.Response) : bool :=
  ((200 <=? Http.status res) && (Http.status res <=? 299))%nat.

(** The headers of a [fetch] that sends JSON with a bearer token; header
    names are matched without regard to case and the routes ask in lower
    case. *)
Definition bearer_headers (token : string) (name : string) : option string :=
  if bool_decide (name = "content-type") then Some "application/json"
  else if bool_decide (name = "authorization") then Some ("Bearer " +:+ token)
  else None.

(** [s || null] as JSON *)
Definition string_or_null (s : string) : Js.json :=
  match Js.or_null s with
  | Some v => Js.JString v
  | None => Js.JNull
  end.

End Page.

(** *** The settings page *)

Module SettingsPage.
Import Page.

Record State := {
  name : string;
  packageTier : string;
  niche : string;
  timezone : string;
  currency : string;
  loading : bool;
  saving : bool;
  error : option string;
  saved : bool }.

Definition initial : State :=
  {| name := ""; packageTier := "foundation"; niche := ""; timezone := "";
     currency := ""; loading := true; saving := false; error := None; saved := false |}.

(** [select name, package_tier, niche, timezone, currency from tenants
     where id = tid] followed by [.single()]. *)
Definition select_tenant (f : Db.fault) (tid : Db.uuid) (db : Db.t)
  : Db.result Db.tenant :=
  match f with
  | Db.Fault msg => Db.Error msg
  | Db.NoFault =>
      match List.filter (fun r => bool_decide (Db.t_id r = tid)) (Db.tenants db) with
      | [r] => Db.Ok r
      | _ => Db.Error "JSON object requested, multiple (or no) rows returned"
      end
  end.

Record LoadEnv := {
  signedIn : bool;
  fetchFault : Db.fault }.

(** The effect that runs when the page is shown. *)
Definition load (env : LoadEnv) (supabase : bool) (tenantId : string) (db : Db.t)
    (s : State) : State * Outcome :=
  if negb supabase then
    ({| name := name s; packageTier := packageTier s; niche := niche s;
        timezone := timezone s; currency := currency s; loading := false;
        saving := saving s; error := Some "Missing Supabase env vars.";
        saved := saved s |}, Settled)
  else if negb (signedIn env) then (s, Redirected "/login")
  else
    match select_tenant (fetchFault env) tenantId db with
    | Db.Error message =>
        ({| name := name s; packageTier := packageTier s; niche := niche s;
            timezone := timezone s; currency := currency s; loading := false;
            saving := saving s; error := Some message; saved := saved s |}, Settled)
    | Db.Ok data =>
        ({| name := Db.t_name data; packageTier := Db.t_package_tier data;
            niche := Js.nullish (Db.t_niche data) "";
            timezone := Js.nullish (Db.t_timezone data) "";
            currency := Js.nullish (Db.t_currency data) "";
            loading := false; saving := saving s; error := error s;
            saved := saved s |}, Settled)
    end.

(** What the environment decides during [onSubmit]: the access token of
    the session, whether the request reaches the server, and what the
    route meets there. *)
Record SubmitEnv := {
  session : option string;
  network : Http.thrown unit;
  route : TenantPatchRoute.Env }.

Section Platform.

(** [s.trim()] is the platform's. *)
Variable trim : string → string.

(** A value of a nullable column that the form shows and sends back as
    it is: [trim] leaves it alone and it is not the empty string. *)
Definition kept (v : option string) : Prop :=
  trim (Js.nullish v "") = Js.nullish v "" ∧ v ≠ Some "".

Definition request (token : string) (s : State) : Http.Request :=
  {| Http.headers_get := bearer_headers token;
     Http.json :=
       Http.Return
         (Js.JObject [("name", Js.JString (trim (name s)));
                      ("package_tier", Js.JString (packageTier s));
                      ("niche", string_or_null (trim (niche s)));
                      ("timezone", string_or_null (trim (timezone s)));
                      ("currency", string_or_null (trim (currency s)))]) |}.

Definition onSubmit (env : SubmitEnv) (supabase : bool) (tenantId : string) (db : Db.t)
    (s : State) : Db.t * State * Outcome :=
  if negb (Js.truthy (trim (name s))) then
    (db, {| name := name s; packageTier := packageTier s; niche := niche s;
            timezone := timezone s; currency := currency s; loading := loading s;
            saving := saving s; error := Some "Name is required.";
            saved := saved s |}, Settled)
  else
    let s1 := {| name := name s; packageTier := packageTier s; niche := niche s;
                 timezone := timezone s; currency := currency s;
                 loading := loading s; saving := true; error := None;
                 saved := false |} in
    (* [supabase!.auth]: without a client this is a TypeError *)
    if negb supabase then (db, s1, Uncaught)
    else
      match session env with
      | None => (db, s1, Redirected "/login")
      | Some token =>
          if negb (Js.truthy token) then (db, s1, Redirected "/login")
          else
            match network env with
            | Http.Throw _ => (db, s1, Uncaught)
            | Http.Return _ =>
                let (db1, res) :=
                  TenantPatchRoute.PATCH (route env) (request token s) tenantId db in
                if negb (ok res) then
                  (db1, {| name := name s; packageTier := packageTier s;
                           niche := niche s; timezone := timezone s;
                           currency := currency s; loading := loading s;
                           saving := false;
                           error := Some (Js.nullish (body_error (Http.body res))
                                                     "Failed to save.");
                           saved := false |}, Settled)
                else
                  (db1, {| name := name s; packageTier := packageTier s;
                           niche := niche s; timezone := timezone s;
                           currency := currency s; loading := loading s;
                           saving := false; error := None; saved := true |}, Settled)
            end
      end.

End Platform.

End SettingsPage.

(** *** The new-tenant page *)

Module NewTenantPage.
Import Page.

Record State := {
  name : string;
  packageTier : string;
  niche : string;
  timezone : string;
  currency : string;
  status : string;
  errorMessage : option string }.

Definition initial : State :=
  {| name := ""; packageTier := "foundation"; niche := ""; timezone := "";
     currency := ""; status := "idle"; errorMessage := None |}.

Definition with_status (st : string) (e : option string) (s : State) : State :=
  {| name := name s; packageTier := packageTier s; niche := niche s;
     timezone := timezone s; currency := currency s; status := st;
     errorMessage := e |}.

Record SubmitEnv := {
  session : option string;
  network : Http.thrown unit;
  route : TenantsRoute.Env }.

Section Platform.

Variable trim : string → string.

Definition request (token : string) (s : State) : Http.Request :=
  {| Http.headers_get := bearer_headers token;
     Http.json :=
       Http.Return
         (Js.JObject [("name", Js.JString (trim (name s)));
                      ("package_tier", Js.JString (packageTier s));
                      ("niche", Js.JString (trim (niche s)));
                      ("timezone", Js.JString (trim (timezone s)));
                      ("currency", Js.JString (trim (currency s)))]) |}.

Definition onSubmit (env : SubmitEnv) (supabase : bool) (db : Db.t) (s : State)
  : Db.t * State * Outcome :=
  let s0 := with_status (status s) None s in
  if negb (Js.truthy (trim (name s))) then
    (db, with_status "error" (Some "Name is required.") s0, Settled)
  else if negb supabase then
    (db, with_status "error" (Some "Missing Supabase env vars.") s0, Settled)
  else
    let s1 := with_status "saving" None s0 in
    match session env with
    | None => (db, s1, Redirected "/login")
    | Some token =>
        if negb (Js.truthy token) then (db, s1, Redirected "/login")
        else
          match network env with
          | Http.Throw _ => (db, s1, Uncaught)
          | Http.Return _ =>
              let (db1, res) := TenantsRoute.POST (route env) (request token s) db in
              if negb (ok res) then
                (db1, with_status "error"
                        (Some (Js.nullish (body_error (Http.body res))
                                          "Failed to create tenant.")) s1, Settled)
              else
                match Http.body res with
                | Http.ok_tenant tenant =>
                    (db1, s1, Redirected ("/app/tenants/" +:+ Db.t_id tenant))
                | _ => (db1, s1, Uncaught)
                end
          end
    end.

End Platform.

End NewTenantPage.

(** *** What the two tenant routes accept *)

Module TenantRows.

Definition at_most (n : nat) (v : option string) : Prop :=
  ∀ s, v = Some s → (String.length s ≤ n)%nat.

(** A tenant row within the limits of [createTenantSchema] and
    [patchSchema]. *)
Definition within_limits (r : Db.tenant) : Prop :=
  Db.t_name r ≠ ""
  ∧ (String.length (Db.t_name r) ≤ 200)%nat
  ∧ Db.t_package_tier r ∈ Db.package_tier
  ∧ at_most 200 (Db.t_niche r)
  ∧ at_most 100 (Db.t_timezone r)
  ∧ at_most 10 (Db.t_currency r).

End TenantRows.

(** ** The Google Form script *)

Module FormScript.
Import Http.

(** [CONFIG] *)
Record Config := {
  tenantId : string;
  endpoint : string;
  intakeToken : string;
  source : string }.

(** What [toISODate] may be given: a string, or a [Date] object, stood
    for by what [Utilities.formatDate(value, Session.getScriptTimeZone(),
    ...)] prints for it with the pattern yyyy-MM-dd. *)
Inductive Value :=
| Text (s : string)
| DateObject (formatted : string).

(** [String(value).slice(0, 10)] *)
Definition toISODate (value : Value) : option string :=
  match value with
  | Text s => if Js.truthy s then Some (String.substring 0 10 s) else None
  | DateObject formatted => Some formatted
  end.

(** The event of a form submission: the answers in order, and by
    question title (every answer a string). *)
Record Event := {
  values : option (list string);
  namedValues : option (list (string * list string)) }.

(** [namedValues[title] && namedValues[title][0]]: the first answer to a
    question, when there is one and it is not empty. *)
Definition first_answer (title : string) (named : list (string * list string))
  : option string :=
  match snd <$> List.find (fun kv => bool_decide (fst kv = title)) named with
  | Some (answer :: _) => if Js.truthy answer then Some answer else None
  | _ => None
  end.

Definition answer (e : option Event) (title : string) : option string :=
  (e ≫= namedValues) ≫= first_answer title.

(** [JSON.stringify] on the values the payload holds. *)
Definition json_of_option (v : option string) : Js.json :=
  match v with
  | Some s => Js.JString s
  | None => Js.JNull
  end.

(** A number that is not finite is written as null. *)
Definition json_of_number (v : option Js.number) : Js.json :=
  match v with
  | Some n => if Js.isFinite n then Js.JNumber n else Js.JNull
  | None => Js.JNull
  end.

Definition json_of_strings (l : list string) : Js.json := Js.JArray (Js.JString <$> l).

Definition json_of_values (v : option (list string)) : Js.json :=
  match v with
  | Some l => json_of_strings l
  | None => Js.JNull
  end.

Definition json_of_namedValues (v : option (list (string * list string))) : Js.json :=
  match v with
  | Some named => Js.JObject ((fun kv => (fst kv, json_of_strings (snd kv))) <$> named)
  | None => Js.JNull
  end.

Section Platform.

(** [Number(s)] is the platform's, and so is the text of a response. *)
Variable Number : string → Js.number.
Variable getContentText : Response → string.
Variable String_of_code : nat → string.

(** The validators of the intake route. *)
Variable is_uuid : string → bool.
Variable is_url : string → bool.

(** The payload [onFormSubmit] builds, as the route reads it back. *)
Definition payload (config : Config) (e : option Event) : Js.json :=
  Js.JObject
    [("tenant_id", Js.JString (tenantId config));
     ("source", Js.JString (source config));
     ("date", json_of_option (answer e "Date" ≫= fun a => toISODate (Text a)));
     ("amount", json_of_number (Number <$> answer e "Amount"));
     ("description", json_of_option (answer e "Description"));
     ("attachment_url", json_of_option (answer e "Receipt"));
     ("raw_payload", Js.JObject [("values", json_of_values (e ≫= values));
                                 ("namedValues",
                                  json_of_namedValues (e ≫= namedValues))])].

Definition request (config : Config) (e : option Event) : Request :=
  {| headers_get := fun name =>
       if bool_decide (name = "content-type") then Some "application/json"
       else if bool_decide (name = "x-intake-token") then Some (intakeToken config)
       else None;
     json := Return (payload config e) |}.

(** [onFormSubmit]: [UrlFetchApp.fetch] fails, or the request reaches the
    intake route; an answer outside 200..299 is thrown as an error. *)
Definition onFormSubmit (config : Config) (network : thrown unit)
    (route : IntakeRoute.Env) (e : option Event) (db : Db.t) : Db.t * thrown unit :=
  match network with
  | Throw message => (db, Throw message)
  | Return _ =>
      let (db1, response) :=
        IntakeRoute.POST is_uuid is_url route (request config e) db in
      let code := status response in
      if ((code <? 200) || (300 <=? code))%nat then
        (db1, Throw ("Intake POST failed: HTTP " +:+ String_of_code code +:+ " "
                     +:+ getContentText response))
      else (db1, Return ())
  end.

End Platform.

End FormScript.

(** ** Starting a cycle from the pages *)

(** *** The home page *)

Module HomePage.

(** [useState] cells of [AppHomePage] that its cycle column uses: the
    cycle of the current month by tenant, and the tenant being started.
    ([rows] and [search] only decide which tenants are listed.) *)
Record State := {
  cycles : gmap string Db.service_cycle;
  startingCycle : option string;
  error : option string }.

Definition initial : State :=
  {| cycles := ∅; startingCycle := None; error := None |}.

Definition defaultTasks : list string :=
  ["Collect statements"; "Review intake events"; "Categorize transactions";
   "Reconcile to bank"; "Run BVA and variances"; "Generate report pack";
   "Send insight summary"; "Schedule review call"].

(** [loadCycles]: the cycles of the listed tenants for [month], keyed by
    tenant; a later row replaces an earlier one of the same tenant. *)
Definition loadCycles (f : Db.fault) (supabase : bool) (month : string)
    (tenantIds : list string) (db : Db.t) (s : State) : State :=
  if negb supabase || bool_decide (tenantIds = []) then s
  else
    match f with
    | Db.Fault _ => s
    | Db.NoFault =>
        let data :=
          List.filter (fun r => bool_decide (Db.sc_month r = month)
                                && bool_decide (Db.sc_tenant_id r ∈ tenantIds))
                      (Db.service_cycles db) in
        {| cycles := foldl (fun m row => <[Db.sc_tenant_id row := row]> m) ∅ data;
           startingCycle := startingCycle s; error := error s |}
    end.

(** The cycle column shows the Start button for a tenant that has no
    entry in [cycles]. *)
Definition canStart (s : State) (tenantId : string) : bool :=
  bool_decide (cycles s !! tenantId = None).

(** What the environment decides during [startCycle]: the first day of
    the current month, the fate of the two statements and the generated
    ids. *)
Record StartEnv := {
  month : string;
  upsertFault : Db.fault;
  newCycleId : Db.uuid;
  insertTasksFault : Db.fault;
  newTaskIds : nat → Db.uuid }.

Definition startCycle (env : StartEnv) (supabase : bool) (tenantId : string)
    (db : Db.t) (s : State) : Db.t * State :=
  if negb supabase then (db, s)
  else
    match Db.upsert_service_cycle (upsertFault env) (newCycleId env)
                                  tenantId (month env) "collecting" db with
    | (db1, Db.Error message) =>
        (db1, {| cycles := cycles s; startingCycle := None; error := Some message |})
    | (db1, Db.Ok cycle) =>
        let db2 :=
          fst (Db.insert_cycle_tasks (insertTasksFault env) (newTaskIds env)
                 ((fun taskType =>
                     {| Db.v_service_cycle_id := Db.sc_id cycle;
                        Db.v_tenant_id := tenantId;
                        Db.v_task_type := taskType;
                        Db.v_status := "todo" |}) <$> defaultTasks) db1) in
        (db2, {| cycles := <[tenantId := cycle]> (cycles s); startingCycle := None;
                 error := error s |})
    end.

End HomePage.

(** *** The Start button of the tenant page *)

Module CyclesView.
Import TenantPage.

(** [cycles.some((c) => c.month.startsWith(thisMonth.slice(0, 7)))] *)
Definition hasThisMonth (thisMonth : string) (cycles : list ServiceCycle) : bool :=
  existsb (fun c => String.prefix (String.substring 0 7 thisMonth) (cycle_month c))
          cycles.

(** The cycles after are the cycles before, or those and one new
    collecting cycle of the tenant for the month. *)
Definition at_most_appended (tenantId month : string)
    (before after : list Db.service_cycle) : Prop :=
  after = before
  ∨ ∃ row, after = (before ++ [row])%list
           ∧ Db.sc_tenant_id row = tenantId ∧ Db.sc_month row = month
           ∧ Db.sc_status row = "collecting".

(** The button is rendered while no cycle of this month is shown. *)
Definition canStart (thisMonth : string) (w : World) : bool :=
  negb (hasThisMonth thisMonth (cycles w)).

End CyclesView.

(** ** Runs of the tenant page *)

Module Runs.
Import TenantPage.

(** The tenant page as it is when it is opened: nothing loaded yet, both
    sections in their initial state. *)
Definition opened (d : Db.t) (tenant : string) : World :=
  {| db := d; supabase := true; tenantId := tenant; cycles := []; intake := [];
     cyclesSection := initialCyclesSection; intakeSection := initialIntakeSection |}.

(** An action other than pausing or resuming the cycle [id]. *)
Definition keeps_pause_record (id : string) (a : System.Action) : Prop :=
  match a with
  | System.PauseCycle _ c | System.ResumeCycle _ c => cycle_id c ≠ id
  | _ => True
  end.

Section Platform.

Variable String_of_number : Js.number → string.
Variable parseFloat : string → Js.number.
Variable trim : string → string.
Variable is_uuid : string → bool.
Variable is_url : string → bool.

(** The actions of a list, one after the other. *)
Definition run (actions : list System.Action) (w : World) : World :=
  foldl (fun w a => System.step String_of_number parseFloat trim is_uuid is_url a w)
        w actions.

End Platform.

End Runs.

(** ** Running the policies again *)

Module Rerun.
Import Rls.

(** The policy part of [initial_schema.sql] run on a catalog as it
    stands; [Rls.migration] is this run on the empty catalog. *)
Definition policies_section (c : catalog) : catalog :=
  let c := foldl (fun c tbl => enable_rls tbl c) c all_tables in
  let c := drop_policy "tenants_select_member" "tenants" c in
  let c := create_policy {| pol_name := "tenants_select_member"; pol_table := "tenants";
                            pol_command := Select;
                            pol_using := Some (is_tenant_member_of "id");
                            pol_with_check := None |} c in
  let c := drop_policy "tenant_users_select_self" "tenant_users" c in
  let c := create_policy {| pol_name := "tenant_users_select_self";
                            pol_table := "tenant_users"; pol_command := Select;
                            pol_using := Some (equals_auth_uid "user_id");
                            pol_with_check := None |} c in
  foldl (fun c tbl => create_member_policies tbl "tenant_id" c) c tenant_scoped_tables.

(** A policy is known by its name and its table. *)
Definition key (p : policy) : string * string := (pol_name p, pol_table p).

(** [drop policy if exists] followed by [create policy]. *)
Definition replace_policy (c : catalog) (p : policy) : catalog :=
  create_policy p (drop_policy (pol_name p) (pol_table p) c).

(** The four policies [create_member_policies] makes for a table. *)
Definition member_policies (p_table p_tenant_col : string) : list policy :=
  let member := is_tenant_member_of p_tenant_col in
  [ {| pol_name := p_table +:+ "_select_member"; pol_table := p_table;
       pol_command := Select; pol_using := Some member; pol_with_check := None |};
    {| pol_name := p_table +:+ "_insert_member"; pol_table := p_table;
       pol_command := Insert; pol_using := None; pol_with_check := Some member |};
    {| pol_name := p_table +:+ "_update_member"; pol_table := p_table;
       pol_command := Update; pol_using := Some member;
       pol_with_check := Some member |};
    {| pol_name := p_table +:+ "_delete_member"; pol_table := p_table;
       pol_command := Delete; pol_using := Some member; pol_with_check := None |} ].

(** Every policy the section creates, in the order it creates them. *)
Definition created : list policy :=
  [ {| pol_name := "tenants_select_member"; pol_table := "tenants";
       pol_command := Select; pol_using := Some (is_tenant_member_of "id");
       pol_with_check := None |};
    {| pol_name := "tenant_users_select_self"; pol_table := "tenant_users";
       pol_command := Select; pol_using := Some (equals_auth_uid "user_id");
       pol_with_check := None |} ]
  ++ flat_map (fun tbl => member_policies tbl "tenant_id") tenant_scoped_tables.

End Rerun.

(** ** The transactions table *)

Module TransactionsTable.
Import TransactionsPage.

Definition TX_STATUSES : list string :=
  ["Planned"; "Sent"; "Received"; "Paid"; "Cancelled"; "Reconciled"].

(** [s.includes(q)] *)
Fixpoint includes (s q : string) : bool :=
  String.prefix q s
  || match s with
     | EmptyString => false
     | String _ s' => includes s' q
     end.

(** [useState] cells of [TransactionsPage] behind the table. *)
Record State := {
  txs : list Transaction;
  categories : list Category;
  statusFilter : string;
  search : string;
  updating : option string }.

Definition set_status (st : string) (t : Transaction) : Transaction :=
  {| id := id t; date := date t; description := description t;
     category_id := category_id t; amount := amount t; entity_id := entity_id t;
     status := st |}.

Section Platform.

(** [s.toLowerCase()] is the platform's. *)
Variable toLowerCase : string → string.

Definition matchesStatus (s : State) (t : Transaction) : bool :=
  bool_decide (statusFilter s = "all") || bool_decide (status t = statusFilter s).

Definition matchesSearch (s : State) (t : Transaction) : bool :=
  let q := toLowerCase (search s) in
  negb (Js.truthy q)
  || includes (toLowerCase (description t)) q
  || includes (toLowerCase (category_id t)) q
  || includes (toLowerCase
                 (Js.nullish (category_name <$> catMap (categories s) !! category_id t)
                             "")) q.

Definition filtered (s : State) : list Transaction :=
  List.filter (fun t => matchesStatus s t && matchesSearch s t) (txs s).

End Platform.

(** [update transactions set status = st where id = id] *)
Definition update_transaction_status (f : Db.fault) (id : Db.uuid) (st : string)
    (db : Db.t) : Db.t * option string :=
  match f with
  | Db.Fault msg => (db, Some msg)
  | Db.NoFault =>
      if Db.in_enum Db.transaction_status st then
        (Db.with_transactions db
           ((fun r => if bool_decide (Db.tx_id r = id)
                      then {| Db.tx_id := Db.tx_id r; Db.tx_tenant_id := Db.tx_tenant_id r;
                              Db.tx_date := Db.tx_date r;
                              Db.tx_description := Db.tx_description r;
                              Db.tx_category_id := Db.tx_category_id r;
                              Db.tx_amount := Db.tx_amount r;
                              Db.tx_entity_id := Db.tx_entity_id r;
                              Db.tx_status := st |}
                      else r) <$> Db.transactions db), None)
      else (db, Some "invalid input value for enum transaction_status")
  end.

(** The result of the update is not looked at. *)
Definition handleStatusChange (f : Db.fault) (supabase : bool) (txId newStatus : string)
    (db : Db.t) (s : State) : Db.t * State :=
  if negb supabase then (db, s)
  else
    (fst (update_transaction_status f txId newStatus db),
     {| txs := (fun t => if bool_decide (id t = txId) then set_status newStatus t else t)
                 <$> txs s;
        categories := categories s; statusFilter := statusFilter s; search := search s;
        updating := None |}).

(** Status of a stored transaction, and of a row of the table. *)
Definition stored_status (db : Db.t) (txId : string) : option string :=
  Db.tx_status <$> List.find (fun r => bool_decide (Db.tx_id r = txId)) (Db.transactions db).

Definition shown_status (s : State) (txId : string) : option string :=
  status <$> List.find (fun t => bool_decide (id t = txId)) (txs s).

End TransactionsTable.

(** ** The intake table's CSV and the KPI cards *)

Module IntakeExport.
Import TenantPage.

Definition header : list string := ["Date"; "Description"; "Amount"; "Status"; "Source"].

Definition comma : Ascii.ascii := Ascii.ascii_of_nat 44.

Section Platform.

(** [String(n)] is the platform's. *)
Variable String_of_number : Js.number → string.

Definition csv_row (e : IntakeEvent) : list string :=
  [ Js.nullish (ev_date e) "";
    Js.replace_char comma ";" (Js.nullish (ev_description e) "");
    match ev_amount e with
    | Some n => String_of_number n
    | None => ""
    end;
    ev_status e;
    ev_source e ].

(** The [rows] array [exportCSV] builds from the filtered events, and the
    text it downloads. *)
Definition exportCSV_rows (filtered : list IntakeEvent) : list (list string) :=
  foldl (fun rows e => (rows ++ [csv_row e])%list) [header] filtered.

Definition exportCSV (w : World) : string :=
  Js.join TransactionsPage.newline (Js.join "," <$> exportCSV_rows (filtered w)).

End Platform.



End IntakeExport.

Module Kpis.
Import TenantPage.

(** The cards of the tenant page that the modelled handlers keep up to
    date ([openInvoices] belongs to the invoices, which are not
    modelled). *)
Record KPIs := {
  openIntake : Z;
  cycleStatus : option string;
  tasksRemaining : Z }.

(** [thisMonthStr] is [format(startOfMonth(new Date()), "yyyy-MM")]. *)
Definition thisMonthCycle (thisMonthStr : string) (cycles : list ServiceCycle)
  : option ServiceCycle :=
  List.find (fun c => String.prefix thisMonthStr (cycle_month c)) cycles.

Definition count {A : Type} (P : A → bool) (l : list A) : Z :=
  Js.length (List.filter P l).

(** What [load] puts on the cards, from the cycles and events it has just
    read. *)
Definition loaded (thisMonthStr : string) (w : World) : KPIs :=
  {| openIntake := count (fun e => bool_decide (ev_status e = "new")) (intake w);
     cycleStatus := cycle_status <$> thisMonthCycle thisMonthStr (cycles w);
     tasksRemaining :=
       count (fun t => negb (bool_decide (task_status t = Js.Text "done")))
             (Js.nullish (thisMonthCycle thisMonthStr (cycles w) ≫= cycle_tasks) []) |}.

(** [cycles.find((c) => c.id === cycleId)?.month.startsWith(thisMonthStr)] *)
Definition of_this_month (thisMonthStr : string) (w : World) (cycleId : string) : bool :=
  match List.find (fun c => bool_decide (cycle_id c = cycleId)) (cycles w) with
  | Some cycle => String.prefix thisMonthStr (cycle_month cycle)
  | None => false
  end.

(** [handleTaskToggle] with its update of the cards. *)
Definition handleTaskToggle (thisMonthStr : string) (f : Db.fault)
    (cycleId taskId : string) (newStatus : Js.value) (p : World * option KPIs)
  : World * option KPIs :=
  let (w, kpis) := p in
  if negb (supabase w) then p
  else
    (TenantPage.handleTaskToggle f cycleId taskId newStatus w,
     (fun prev =>
        if negb (of_this_month thisMonthStr w cycleId) then prev
        else
          let delta := if bool_decide (newStatus = Js.Text "done") then -1
                       else if bool_decide (newStatus = Js.Text "todo") then 1 else 0 in
          {| openIntake := openIntake prev; cycleStatus := cycleStatus prev;
             tasksRemaining := Z.max 0 (tasksRemaining prev + delta) |}) <$> kpis).

(** The task button. *)
Definition clickTask (thisMonthStr : string) (f : Db.fault) (cycle : ServiceCycle)
    (task : CycleTask) (p : World * option KPIs) : World * option KPIs :=
  handleTaskToggle thisMonthStr f (cycle_id cycle) (task_id task)
    (nextTaskStatus (task_status task)) p.

Definition one_less_intake (prev : KPIs) : KPIs :=
  {| openIntake := Z.max 0 (openIntake prev - 1); cycleStatus := cycleStatus prev;
     tasksRemaining := tasksRemaining prev |}.

(** [handleIntakeStatusChange] and [handleTransactionCreated] with their
    updates of the cards. *)
Definition handleIntakeStatusChange (f : Db.fault) (id newStatus : string)
    (p : World * option KPIs) : World * option KPIs :=
  let (w, kpis) := p in
  if negb (supabase w) then p
  else
    (TenantPage.handleIntakeStatusChange f id newStatus w,
     if negb (bool_decide (newStatus = "new")) then one_less_intake <$> kpis else kpis).

Definition handleTransactionCreated (eventId : string) (p : World * option KPIs)
  : World * option KPIs :=
  let (w, kpis) := p in
  (TenantPage.handleTransactionCreated eventId w, one_less_intake <$> kpis).

End Kpis.

(** ** The specification's vocabulary *)

Module Spec.

(** The stages in the words of the specification: collecting, processing,
    reconciling, reporting, delivered, each followed by the next. *)
Inductive spec_next_stage : string → string → Prop :=
| collecting_then_processing : spec_next_stage "collecting" "processing"
| processing_then_reconciling : spec_next_stage "processing" "reconciling"
| reconciling_then_reporting : spec_next_stage "reconciling" "reporting"
| reporting_then_delivered : spec_next_stage "reporting" "delivered".

(** The eight default tasks, and the checklist rows they make for a cycle
    of a tenant: every one of them todo. *)
Definition spec_default_tasks : list string :=
  ["Collect statements"; "Review intake events"; "Categorize transactions";
   "Reconcile to bank"; "Run BVA and variances"; "Generate report pack";
   "Send insight summary"; "Schedule review call"].

Definition spec_checklist (cycle tenant : string) (ids : list string)
  : list Db.cycle_task :=
  zip_with (fun id taskType =>
              {| Db.ct_id := id; Db.ct_service_cycle_id := cycle;
                 Db.ct_tenant_id := tenant; Db.ct_task_type := taskType;
                 Db.ct_assignee := None; Db.ct_status := "todo";
                 Db.ct_due_date := None |})
           ids spec_default_tasks.

(** A cycle was started for a tenant: the cycle is stored as collecting,
    eight checklist rows were added for it, and they are its whole
    checklist when the tenant had no cycle for that month (every earlier
    task referring to a cycle that exists). *)
Definition spec_cycle_started (tenant : string) (db db' : Db.t)
    (cycle : Db.service_cycle) (ids : list string) : Prop :=
  cycle ∈ Db.service_cycles db'
  ∧ Db.sc_tenant_id cycle = tenant
  ∧ Db.sc_status cycle = "collecting"
  ∧ List.length ids = 8%nat
  ∧ Db.cycle_tasks db' = (Db.cycle_tasks db ++ spec_checklist (Db.sc_id cycle) tenant ids)%list
  ∧ (List.find (Db.same_cycle_key tenant (Db.sc_month cycle)) (Db.service_cycles db) = None →
     (∀ t, t ∈ Db.cycle_tasks db →
           Db.ct_service_cycle_id t ∈ Db.sc_id <$> Db.service_cycles db) →
     Db.tasks_of_cycle db' (Db.sc_id cycle) = spec_checklist (Db.sc_id cycle) tenant ids).

(** The intake flow: a status stays, an event arrives as new, a new event
    becomes categorized, a categorized event becomes posted. *)
Inductive spec_intake_move : option string → option string → Prop :=
| intake_stays o : spec_intake_move o o
| intake_arrives : spec_intake_move None (Some "new")
| intake_categorized : spec_intake_move (Some "new") (Some "categorized")
| intake_posted : spec_intake_move (Some "categorized") (Some "posted").

(** The page mirrors the database: ids of intake events are unique and
    their tenants exist (the table's keys), their statuses are values of
    the enum, every event on the page is stored with the status shown, and
    the transaction form is open only for an event stored as
    categorized. *)
Record spec_page_mirrors_database (w : TenantPage.World) : Prop := {
  mirror_ids : NoDup (Db.ie_id <$> Db.intake_events (TenantPage.db w));
  mirror_tenants :
    ∀ r, r ∈ Db.intake_events (TenantPage.db w) →
         Db.ie_tenant_id r ∈ Db.t_id <$> Db.tenants (TenantPage.db w);
  mirror_enum :
    ∀ r, r ∈ Db.intake_events (TenantPage.db w) →
         Db.ie_status r ∈ ["new"; "categorized"; "posted"];
  mirror_shown :
    ∀ e, e ∈ TenantPage.intake w →
         Db.intake_event_status (TenantPage.db w) (TenantPage.ev_id e)
         = Some (TenantPage.ev_status e);
  mirror_form :
    ∀ id, TenantPage.txForm (TenantPage.intakeSection w) = Some id →
          Db.intake_event_status (TenantPage.db w) id = Some "categorized" }.

(** Between two states no intake event moves but along the flow: neither
    its stored status nor, while it stays on the page, the status shown. *)
Definition spec_intake_moves_forward (w w' : TenantPage.World) : Prop :=
  (∀ id, spec_intake_move (Db.intake_event_status (TenantPage.db w) id)
                          (Db.intake_event_status (TenantPage.db w') id))
  ∧ (∀ id s s',
       TenantPage.shown_event_status w id = Some s →
       TenantPage.shown_event_status w' id = Some s' →
       spec_intake_move (Some s) (Some s')).

(** A CSV field in double quotes: the characters of the text between two
    double quotes, every double quote among them written twice. *)
Definition spec_csv_quoted (s : string) : string :=
  String.string_of_list_ascii
    ([Js.dquote]
       ++ flat_map (fun a => if bool_decide (a = Js.dquote) then [Js.dquote; Js.dquote]
                             else [a])
                   (String.list_ascii_of_string s)
       ++ [Js.dquote]).

(** Reading such a field back: the text between the outer quotes, every
    pair of double quotes read as one; [None] when a double quote stands
    alone. *)
Fixpoint spec_csv_unescape (l : list Ascii.ascii) : option (list Ascii.ascii) :=
  match l with
  | [] => Some []
  | a :: l' =>
      if bool_decide (a = Js.dquote) then
        match l' with
        | b :: l'' =>
            if bool_decide (b = Js.dquote) then cons Js.dquote <$> spec_csv_unescape l''
            else None
        | [] => None
        end
      else cons a <$> spec_csv_unescape l'
  end.

Definition spec_csv_read (field : string) : option string :=
  match String.list_ascii_of_string field with
  | q :: rest =>
      match reverse rest with
      | q' :: inner =>
          if bool_decide (q = Js.dquote) && bool_decide (q' = Js.dquote)
          then String.string_of_list_ascii <$> spec_csv_unescape (reverse inner)
          else None
      | [] => None
      end
  | [] => None
  end.

(** Reading a CSV text.  A separator counts where it stands outside
    double quotes: [spec_csv_cut sep inside text] is the list of the
    pieces of [text] between such separators, [inside] telling whether the
    text starts within quotes. *)
Fixpoint spec_csv_cut (sep : Ascii.ascii) (inside : bool) (text : string) : list string :=
  match text with
  | EmptyString => [""]
  | String a rest =>
      if negb inside && bool_decide (a = sep) then "" :: spec_csv_cut sep false rest
      else
        match spec_csv_cut sep (xorb inside (bool_decide (a = Js.dquote))) rest with
        | piece :: pieces => String a piece :: pieces
        | [] => [String a ""]
        end
  end.

Definition spec_line_feed : Ascii.ascii := Ascii.ascii_of_nat 10.
Definition spec_comma : Ascii.ascii := Ascii.ascii_of_nat 44.

(** The records of a CSV text: its lines, each cut into its cells. *)
Definition spec_csv_records (text : string) : list (list string) :=
  spec_csv_cut spec_comma false <$> spec_csv_cut spec_line_feed false text.

(** A cell that can stand without quotes: it holds no comma, no line feed
    and no double quote. *)
Definition spec_csv_plain (cell : string) : bool :=
  forallb (fun a => negb (bool_decide (a = spec_comma))
                    && negb (bool_decide (a = spec_line_feed))
                    && negb (bool_decide (a = Js.dquote)))
          (String.list_ascii_of_string cell).

(** Whether a text holds no separator outside quotes, and whether it ends
    within quotes. *)
Fixpoint spec_csv_scan (sep : Ascii.ascii) (inside : bool) (text : string) : option bool :=
  match text with
  | EmptyString => Some inside
  | String a rest =>
      if negb inside && bool_decide (a = sep) then None
      else spec_csv_scan sep (xorb inside (bool_decide (a = Js.dquote))) rest
  end.

(** A membership row links the user to the tenant. *)
Definition spec_member (data : string → list Rls.row) (user tenant : string) : Prop :=
  ∃ tu, tu ∈ data "tenant_users"
        ∧ tu !! "tenant_id" = Some tenant ∧ tu !! "user_id" = Some user.

(** At most one cycle for a tenant and a month. *)
Definition spec_one_cycle_per_month (db : Db.t) : Prop :=
  NoDup ((fun r => (Db.sc_tenant_id r, Db.sc_month r)) <$> Db.service_cycles db).

End Spec.

(** ** Sample states *)

Module Sample.
Import TenantPage.

Definition task (id status : string) : CycleTask :=
  {| task_id := id; task_type := "Collect statements"; task_assignee := None;
     task_status := Js.Text status; task_due_date := None |}.

(** A collecting cycle with one open task. *)
Definition february : ServiceCycle :=
  {| cycle_id := "cycle-1"; cycle_month := "2026-02-01"; cycle_status := "collecting";
     cycle_tasks := Some [task "task-1" "todo"] |}.

(** A processing cycle whose only task is done. *)
Definition march : ServiceCycle :=
  {| cycle_id := "cycle-2"; cycle_month := "2026-03-01"; cycle_status := "processing";
     cycle_tasks := Some [task "task-2" "done"] |}.

Definition database : Db.t :=
  {| Db.tenants := [{| Db.t_id := "tenant-1"; Db.t_name := "Demo Salon";
                       Db.t_package_tier := "growth"; Db.t_niche := Some "beauty";
                       Db.t_timezone := None; Db.t_currency := Some "USD" |}];
     Db.tenant_users := [{| Db.tu_id := "member-1"; Db.tu_tenant_id := "tenant-1";
                            Db.tu_user_id := "user-1"; Db.tu_role := "owner" |}];
     Db.service_cycles :=
       [{| Db.sc_id := "cycle-1"; Db.sc_tenant_id := "tenant-1";
           Db.sc_month := "2026-02-01"; Db.sc_status := "collecting" |};
        {| Db.sc_id := "cycle-2"; Db.sc_tenant_id := "tenant-1";
           Db.sc_month := "2026-03-01"; Db.sc_status := "processing" |}];
     Db.cycle_tasks :=
       [{| Db.ct_id := "task-1"; Db.ct_service_cycle_id := "cycle-1";
           Db.ct_tenant_id := "tenant-1"; Db.ct_task_type := "Collect statements";
           Db.ct_assignee := None; Db.ct_status := "todo"; Db.ct_due_date := None |};
        {| Db.ct_id := "task-2"; Db.ct_service_cycle_id := "cycle-2";
           Db.ct_tenant_id := "tenant-1"; Db.ct_task_type := "Collect statements";
           Db.ct_assignee := None; Db.ct_status := "done"; Db.ct_due_date := None |}];
     Db.intake_events :=
       [{| Db.ie_id := "event-1"; Db.ie_tenant_id := "tenant-1"; Db.ie_source := "form_in";
           Db.ie_date := Some "2026-02-03"; Db.ie_amount := Some (Js.Num 120 0);
           Db.ie_description := Some "Lash set"; Db.ie_attachment_url := None;
           Db.ie_raw_payload := None; Db.ie_status := "new" |};
        {| Db.ie_id := "event-2"; Db.ie_tenant_id := "tenant-1"; Db.ie_source := "form_out";
           Db.ie_date := Some "2026-02-05"; Db.ie_amount := None;
           Db.ie_description := None; Db.ie_attachment_url := None;
           Db.ie_raw_payload := None; Db.ie_status := "categorized" |}];
     Db.transactions := [] |}.

(** The page as it stands after loading [database] for the tenant. *)
Definition world : World :=
  {| db := database; supabase := true; tenantId := "tenant-1";
     cycles := [march; february];
     intake := of_db_event <$> reverse (Db.intake_events database);
     cyclesSection := initialCyclesSection;
     intakeSection := initialIntakeSection |}.

(** Requests to the routes and what the environment answers. *)
Definition processEnv (name : string) : option string :=
  if bool_decide (name = "DASHBOARD_ADMIN_TOKEN") then Some "admin-token"
  else if bool_decide (name = "INTAKE_SHARED_SECRET") then Some "intake-secret"
  else if bool_decide (name = "NEXT_PUBLIC_SUPABASE_URL") then Some "https://db.example"
  else if bool_decide (name = "NEXT_PUBLIC_SUPABASE_ANON_KEY") then Some "anon-key"
  else None.

Definition header (name value : string) : string → option string :=
  fun n => if bool_decide (n = name) then Some value else None.

Definition taskId (n : nat) : string :=
  String (Ascii.ascii_of_nat (97 + n)) "-new-task".

Definition startEnv : CycleStartRoute.Env :=
  {| CycleStartRoute.processEnv := processEnv;
     CycleStartRoute.adminClient := Http.Return ();
     CycleStartRoute.upsertFault := Db.NoFault;
     CycleStartRoute.newCycleId := "cycle-3";
     CycleStartRoute.insertTasksFault := Db.NoFault;
     CycleStartRoute.newTaskIds := taskId |}.

Definition startRequest (token month : string) : Http.Request :=
  {| Http.headers_get := header "x-admin-token" token;
     Http.json := Http.Return (Js.JObject [("month", Js.JString month)]) |}.

Definition pageStartEnv : StartEnv :=
  {| thisMonth := "2026-04-01"; upsertFault := Db.NoFault; newCycleId := "cycle-3";
     insertTasksFault := Db.NoFault; newTaskIds := taskId;
     reload := {| signedIn := true; tenantFault := Db.NoFault; cyclesFault := Db.NoFault;
                  tasksFault := Db.NoFault; intakeFault := Db.NoFault |} |}.

(** The amounts of the samples have no more than two decimals: the
    database keeps them as they are. *)
Definition numeric : Db.numeric := Some.

Definition intakeEnv : IntakeRoute.Env :=
  {| IntakeRoute.processEnv := processEnv;
     IntakeRoute.adminClient := Http.Return ();
     IntakeRoute.insertFault := Db.NoFault;
     IntakeRoute.newEventId := "event-3";
     IntakeRoute.kept := numeric |}.

Definition intakeRequest (token : string) : Http.Request :=
  {| Http.headers_get := header "x-intake-token" token;
     Http.json := Http.Return (Js.JObject [("tenant_id", Js.JString "tenant-1");
                                           ("source", Js.JString "form_in");
                                           ("amount", Js.JNumber (Js.Num 45 0))]) |}.

Definition tenantsEnv (memberFault : Db.fault) : TenantsRoute.Env :=
  {| TenantsRoute.processEnv := processEnv;
     TenantsRoute.getUser := fun token =>
       if bool_decide (token = "jwt-of-user-1") then Some "user-1" else None;
     TenantsRoute.adminClient := Http.Return ();
     TenantsRoute.tenantFault := Db.NoFault;
     TenantsRoute.newTenantId := "tenant-2";
     TenantsRoute.memberFault := memberFault;
     TenantsRoute.newMemberId := "member-2";
     TenantsRoute.rollbackFault := Db.NoFault |}.

Definition tenantsRequest : Http.Request :=
  {| Http.headers_get := header "authorization" "Bearer jwt-of-user-1";
     Http.json := Http.Return (Js.JObject [("name", Js.JString "Lash Studio");
                                           ("package_tier", Js.JString "foundation")]) |}.

(** Two users, each a member of a tenant of their own, and an intake
    event of the first tenant, as rows. *)
Definition rows (tbl : string) : list Rls.row :=
  if bool_decide (tbl = "tenant_users") then
    [ {[ "id" := "member-1"; "tenant_id" := "tenant-1"; "user_id" := "user-1" ]};
      {[ "id" := "member-9"; "tenant_id" := "tenant-9"; "user_id" := "user-2" ]} ]
  else [].

Definition event_row : Rls.row :=
  {[ "id" := "event-1"; "tenant_id" := "tenant-1"; "status" := "new" ]}.

(** Two transactions to export, the second with a quoted word in its
    description, no known category and no entity. *)
Definition categories : list TransactionsPage.Category :=
  [{| TransactionsPage.cat_category_id := "1100";
      TransactionsPage.category_name := "Service Revenue";
      TransactionsPage.cat_type := "Rev" |}].

Definition transactions : list TransactionsPage.Transaction :=
  [{| TransactionsPage.id := "tx-1"; TransactionsPage.date := "2026-02-10";
      TransactionsPage.description := "Lash set";
      TransactionsPage.category_id := "1100"; TransactionsPage.amount := Js.Num 120 0;
      TransactionsPage.entity_id := Some "ENT-101";
      TransactionsPage.status := "Reconciled" |};
   {| TransactionsPage.id := "tx-2"; TransactionsPage.date := "2026-02-11";
      TransactionsPage.description :=
        "Rent " +:+ TransactionsPage.quote +:+ "Feb" +:+ TransactionsPage.quote;
      TransactionsPage.category_id := "3100"; TransactionsPage.amount := Js.Num 0 0;
      TransactionsPage.entity_id := None; TransactionsPage.status := "Paid" |}].

(** Stand-ins for the platform's functions. *)
Definition String_of_number (n : Js.number) : string :=
  match n with Js.Num 0 _ => "0" | Js.NaN => "NaN" | _ => "1" end.
Definition parseFloat (s : string) : Js.number :=
  if bool_decide (s = "") then Js.NaN else Js.Num 1 0.
Definition trim (s : string) : string := s.
Definition is_uuid (s : string) : bool := Js.truthy s.
Definition is_url (s : string) : bool := Js.truthy s.

End Sample.


(** ** Further sample states *)

Module Cases.

(** Two signed-in users; only the first belongs to the sample tenant. *)
Definition getUser (token : string) : option Db.uuid :=
  if bool_decide (token = "jwt-of-user-1") then Some "user-1"
  else if bool_decide (token = "jwt-of-user-2") then Some "user-2"
  else None.

Definition patchEnv : TenantPatchRoute.Env :=
  {| TenantPatchRoute.processEnv := Sample.processEnv;
     TenantPatchRoute.getUser := getUser;
     TenantPatchRoute.adminClient := Http.Return ();
     TenantPatchRoute.membershipFault := Db.NoFault;
     TenantPatchRoute.updateFault := Db.NoFault |}.

(** A patch that clears the niche and sets the currency. *)
Definition patchRequest (token : string) : Http.Request :=
  {| Http.headers_get := Page.bearer_headers token;
     Http.json := Http.Return (Js.JObject [("niche", Js.JNull);
                                           ("currency", Js.JString "XCD")]) |}.

(** The form script set up for the sample tenant, and two submissions:
    one with all four answers, one without a receipt. *)
Definition formConfig : FormScript.Config :=
  {| FormScript.tenantId := "tenant-1";
     FormScript.endpoint := "https://dashboard.example/api/intake/google-form";
     FormScript.intakeToken := "intake-secret";
     FormScript.source := "form_in" |}.

Definition submission (receipt : list string) : option FormScript.Event :=
  Some {| FormScript.values := Some ["2026-02-12"; "45"; "Taxi"];
          FormScript.namedValues :=
            Some [("Date", ["2026-02-12"]); ("Amount", ["45"]);
                  ("Description", ["Taxi"]); ("Receipt", receipt)] |}.

Definition Number (s : string) : Js.number :=
  if bool_decide (s = "45") then Js.Num 45 0 else Js.NaN.

Definition getContentText (response : Http.Response) : string :=
  match Http.body response with
  | Http.invalid_payload => "{error: Invalid payload}"
  | _ => "{}"
  end.

Definition String_of_code (code : nat) : string :=
  if (code =? 400)%nat then "400" else "other".

(** The transactions table with the two sample transactions, filtered on
    the status Paid. *)
Definition table : TransactionsTable.State :=
  {| TransactionsTable.txs := Sample.transactions;
     TransactionsTable.categories := Sample.categories;
     TransactionsTable.statusFilter := "Paid";
     TransactionsTable.search := "";
     TransactionsTable.updating := None |}.

Definition toLowerCase (s : string) : string := s.

(** The new event of the sample page, and the same event once the page
    shows it as categorized. *)
Definition newEvent : TenantPage.IntakeEvent :=
  {| TenantPage.ev_id := "event-1"; TenantPage.ev_source := "form_in";
     TenantPage.ev_date := Some "2026-02-03";
     TenantPage.ev_amount := Some (Js.Num 120 0);
     TenantPage.ev_description := Some "Lash set"; TenantPage.ev_status := "new" |}.

Definition categorizedEvent : TenantPage.IntakeEvent :=
  TenantPage.set_ev_status "categorized" newEvent.

Definition step : System.Action → TenantPage.World → TenantPage.World :=
  System.step Sample.String_of_number Sample.parseFloat Sample.trim
    Sample.is_uuid Sample.is_url.

(** Marking the event categorized while the database refuses the update,
    then making a transaction of it under category 1100. *)
Definition markUnsaved : System.Action :=
  System.Intake (TenantPage.MarkCategorized newEvent (Db.Fault "connection lost")).
Definition openForm : System.Action :=
  System.Intake (TenantPage.OpenTxForm categorizedEvent).
Definition chooseCategory : System.Action :=
  System.Intake (TenantPage.EditTxCategory categorizedEvent "1100").
Definition post : System.Action :=
  System.Intake (TenantPage.PostTransaction categorizedEvent Db.NoFault "tx-1"
                   Sample.numeric Db.NoFault).

Definition unsaved : TenantPage.World :=
  step chooseCategory (step openForm (step markUnsaved Sample.world)).

(** A second page, opened on the sample database before the first one
    posted the event and still showing it as new. *)
Definition stale : TenantPage.World :=
  TenantPage.set_db (TenantPage.db (step post unsaved)) Sample.world.

Definition markAgain : System.Action :=
  System.Intake (TenantPage.MarkCategorized newEvent Db.NoFault).

(** Starting a cycle for a month from the home page, every statement
    carried out. *)
Definition homeStartEnv (month : string) : HomePage.StartEnv :=
  {| HomePage.month := month; HomePage.upsertFault := Db.NoFault;
     HomePage.newCycleId := "cycle-3"; HomePage.insertTasksFault := Db.NoFault;
     HomePage.newTaskIds := Sample.taskId |}.

(** The database refuses the membership of a new tenant and the delete
    that follows it. *)
Definition tenantsEnvNoRollback : TenantsRoute.Env :=
  {| TenantsRoute.processEnv := Sample.processEnv;
     TenantsRoute.getUser := getUser;
     TenantsRoute.adminClient := Http.Return ();
     TenantsRoute.tenantFault := Db.NoFault;
     TenantsRoute.newTenantId := "tenant-2";
     TenantsRoute.memberFault := Db.Fault "connection lost";
     TenantsRoute.newMemberId := "member-2";
     TenantsRoute.rollbackFault := Db.Fault "connection lost" |}.


End Cases.

(** * Properties *)

#[local] Arguments Db.update_cycle_status : simpl never.
#[local] Arguments Db.update_task_status : simpl never.
#[local] Arguments Db.update_intake_status : simpl never.
#[local] Arguments Db.upsert_service_cycle : simpl never.
#[local] Arguments Db.insert_cycle_tasks : simpl never.
#[local] Arguments Db.insert_intake_event : simpl never.
#[local] Arguments Db.insert_transaction : simpl never.
#[local] Arguments Db.insert_tenant : simpl never.
#[local] Arguments Db.insert_tenant_user : simpl never.
#[local] Arguments Db.delete_tenant : simpl never.

(** Case analysis on every [match] of the goal, and the databases named
    by the equations it leaves. *)
Ltac case_split :=
  repeat match goal with
         | |- context [match ?x with _ => _ end] => destruct x eqn:?
         end.

Ltac name_databases :=
  repeat match goal with
         | H : _ = (?d, _) |- _ =>
             is_var d; apply (f_equal fst) in H; cbn [fst] in H; subst d
         end.

(** ** Updating the rows with a given key *)

Section UpdateByKey.

Context {A : Type} (key : A → string) (g : A → A).
Hypothesis key_kept : ∀ a, key (g a) = key a.

Lemma find_update_where (k : string) (l : list A) :
  List.find (fun a => bool_decide (key a = k)) ((fun a => if bool_decide (key a = k) then g a else a) <$> l)
  = g <$> List.find (fun a => bool_decide (key a = k)) l.
Proof using key_kept.
  induction l as [|a l IH]; [done|].
  cbn. destruct (bool_decide_reflect (key a = k)) as [E|E]; cbn.
  - by rewrite bool_decide_true by (by rewrite key_kept).
  - by rewrite bool_decide_false.
Qed.

Lemma find_update_where_ne (k k' : string) (l : list A) :
  k' ≠ k →
  List.find (fun a => bool_decide (key a = k')) ((fun a => if bool_decide (key a = k) then g a else a) <$> l)
  = List.find (fun a => bool_decide (key a = k')) l.
Proof using key_kept.
  intros Hne. induction l as [|a l IH]; [done|].
  cbn. destruct (bool_decide_reflect (key a = k)) as [E|E]; cbn.
  - rewrite key_kept. rewrite !bool_decide_false by congruence. done.
  - destruct (bool_decide (key a = k')); done.
Qed.

Lemma find_key_of_elem (a : A) (l : list A) :
  a ∈ l → is_Some (List.find (fun b => bool_decide (key b = key a)) l).
Proof.
  induction 1 as [b l|b b' l _ IH]; cbn.
  - rewrite bool_decide_true by done. eauto.
  - destruct (bool_decide _); eauto.
Qed.

Lemma find_key_Some (k : string) (a : A) (l : list A) :
  List.find (fun b => bool_decide (key b = k)) l = Some a → key a = k ∧ a ∈ l.
Proof.
  intros H. apply find_some in H as [Hin Hk].
  split; [by apply bool_decide_eq_true in Hk | by apply list_elem_of_In].
Qed.

End UpdateByKey.

Section CycleFacts.
Import TenantPage.

Lemma shown_after_handleCycleAdvanced (cycle : ServiceCycle) (st : string) (w : World) :
  cycle ∈ cycles w →
  shown_cycle_status (handleCycleAdvanced (cycle_id cycle) st w) (cycle_id cycle) = Some st.
Proof.
  intros Hin. unfold shown_cycle_status, shown_cycle, handleCycleAdvanced. cbn.
  rewrite (find_update_where cycle_id (set_cycle_status st)) by done.
  destruct (find_key_of_elem cycle_id _ _ Hin) as [c ->]. done.
Qed.

Lemma shown_other_after_handleCycleAdvanced (cycleId id st : string) (w : World) :
  id ≠ cycleId →
  shown_cycle (handleCycleAdvanced cycleId st w) id = shown_cycle w id.
Proof.
  intros. unfold shown_cycle, handleCycleAdvanced. cbn.
  by rewrite (find_update_where_ne cycle_id (set_cycle_status st)).
Qed.

(** A status update that the database carries out sets the status of the
    row with that id, if there is one, and of no other row. *)
Lemma update_cycle_status_carried (id st : string) (db : Db.t) :
  Db.in_enum Db.service_cycle_status st = true →
  Db.cycle_status (Db.update_cycle_status Db.NoFault id st db).1 id
  = (fun _ => st) <$> Db.cycle_status db id.
Proof.
  intros He. unfold Db.update_cycle_status, Db.cycle_status. rewrite He. cbn.
  rewrite (find_update_where Db.sc_id (Db.set_sc_status st)) by done.
  by destruct (List.find _ _).
Qed.

Lemma update_cycle_status_other (f : Db.fault) (id id' st : string) (db : Db.t) :
  id' ≠ id →
  Db.cycle_status (Db.update_cycle_status f id st db).1 id' = Db.cycle_status db id'.
Proof.
  intros Hne. unfold Db.update_cycle_status, Db.cycle_status.
  destruct f; [|done]. destruct (Db.in_enum _ _); [|done]. cbn.
  by rewrite (find_update_where_ne Db.sc_id (Db.set_sc_status st)).
Qed.

(** Whatever becomes of the statement, the row is still there. *)
Lemma update_cycle_status_same_rows (f : Db.fault) (id id' st : string) (db : Db.t)
    (x : string) :
  (fun _ => x) <$> Db.cycle_status (Db.update_cycle_status f id st db).1 id'
  = (fun _ => x) <$> Db.cycle_status db id'.
Proof.
  destruct (decide (id' = id)) as [->|Hne]; [|by rewrite update_cycle_status_other].
  unfold Db.update_cycle_status, Db.cycle_status.
  destruct f; [|done]. destruct (Db.in_enum _ _); [|done]. cbn.
  rewrite (find_update_where Db.sc_id (Db.set_sc_status st)) by done.
  by destruct (List.find _ _).
Qed.

End CycleFacts.

Section AdvanceCycle.
Import TenantPage.

Lemma advanceCycle_no_stage (f : Db.fault) (cycle : ServiceCycle) (w : World) :
  (∀ s', ¬ Spec.spec_next_stage (cycle_status cycle) s') →
  advanceCycle f cycle w = w.
Proof.
  intros H. unfold advanceCycle.
  assert (Js.indexOf CYCLE_STATUS_ORDER (cycle_status cycle) = -1
          ∨ Js.indexOf CYCLE_STATUS_ORDER (cycle_status cycle) = 4) as [-> | ->]; [|done..].
  unfold Js.indexOf, CYCLE_STATUS_ORDER. cbn.
  repeat case_bool_decide; try (by left); try (by right);
    exfalso; match goal with E : _ = cycle_status cycle |- _ =>
                               eapply H; rewrite <- E; constructor end.
Qed.

Lemma advanceCycle_asks_first (f : Db.fault) (cycle : ServiceCycle) (s' : string) (w : World) :
  Spec.spec_next_stage (cycle_status cycle) s' →
  openTasks cycle ≠ [] →
  confirmAdvance (cyclesSection w) ≠ Some (cycle_id cycle) →
  advanceCycle f cycle w
  = set_cyclesSection (setConfirmAdvance (Some (cycle_id cycle))) w.
Proof.
  intros H Hopen Hconf. unfold advanceCycle.
  assert ((Js.length (openTasks cycle) >? 0) = true) as Hlen.
  { unfold Js.length. destruct (openTasks cycle); [done|]. done. }
  rewrite Hlen, bool_decide_false by done.
  by inversion H as [E|E|E|E].
Qed.

Lemma advanceCycle_moves (f : Db.fault) (cycle : ServiceCycle) (s' : string) (w : World) :
  Spec.spec_next_stage (cycle_status cycle) s' →
  supabase w = true →
  openTasks cycle = [] ∨ confirmAdvance (cyclesSection w) = Some (cycle_id cycle) →
  advanceCycle f cycle w
  = handleCycleAdvanced (cycle_id cycle) s'
      (set_cyclesSection (fun s => setAdvancing None
                                     (setAdvancing (Some (cycle_id cycle))
                                        (setConfirmAdvance None s)))
         (set_db (Db.update_cycle_status f (cycle_id cycle) s' (db w)).1 w)).
Proof.
  intros H Hs Hgate. unfold advanceCycle.
  assert ((Js.length (openTasks cycle) >? 0)
          && negb (bool_decide (confirmAdvance (cyclesSection w) = Some (cycle_id cycle)))
          = false) as ->.
  { destruct Hgate as [-> | ->]; [done|]. rewrite bool_decide_true by done.
    by rewrite andb_false_r. }
  inversion H as [E|E|E|E]; cbn; by rewrite Hs.
Qed.

Lemma advanceCycle_without_client (f : Db.fault) (cycle : ServiceCycle) (w : World) :
  supabase w = false →
  cycles (advanceCycle f cycle w) = cycles w ∧ db (advanceCycle f cycle w) = db w.
Proof.
  intros Hs. unfold advanceCycle. cbn. rewrite Hs. cbn.
  repeat (match goal with |- context [if ?b then _ else _] => destruct b end; try done).
Qed.

Lemma spec_next_stage_in_enum (s s' : string) :
  Spec.spec_next_stage s s' → Db.in_enum Db.service_cycle_status s' = true.
Proof. by destruct 1. Qed.

Lemma stage_or_not (s : string) :
  (∃ s', Spec.spec_next_stage s s') ∨ (∀ s', ¬ Spec.spec_next_stage s s').
Proof.
  destruct (decide (s = "collecting")) as [->|]; [left; eexists; constructor|].
  destruct (decide (s = "processing")) as [->|]; [left; eexists; constructor|].
  destruct (decide (s = "reconciling")) as [->|]; [left; eexists; constructor|].
  destruct (decide (s = "reporting")) as [->|]; [left; eexists; constructor|].
  right. intros s' H. by inversion H.
Qed.

End AdvanceCycle.

Section AdvanceCycleClaim.
Import TenantPage.

(** C1 (as amended).  For a cycle on the page whose status is collecting,
    processing, reconciling or reporting, [advanceCycle] sets the status
    shown to exactly the next stage -- and the status stored, when the
    database carries the update out -- provided the browser client exists
    and the cycle has no open task or the advance was already confirmed for
    it.  With an open task and no confirmation the call only records the
    request for confirmation.  A delivered or paused cycle is left as it
    is.  In every case each cycle keeps its status or is this cycle moved
    to the stage right after its own: no stage is skipped and nothing
    follows delivered. *)
Theorem advanceCycle_moves_one_stage_once_confirmed
    (f : Db.fault) (cycle : ServiceCycle) (w : World) :
  cycle ∈ cycles w →
  let w' := advanceCycle f cycle w in
  let id := cycle_id cycle in
  (∀ s', Spec.spec_next_stage (cycle_status cycle) s' →
         supabase w = true →
         openTasks cycle = [] ∨ confirmAdvance (cyclesSection w) = Some id →
         shown_cycle_status w' id = Some s'
         ∧ (f = Db.NoFault →
            Db.cycle_status (db w') id = (fun _ => s') <$> Db.cycle_status (db w) id))
  ∧ (∀ s', Spec.spec_next_stage (cycle_status cycle) s' →
           openTasks cycle ≠ [] →
           confirmAdvance (cyclesSection w) ≠ Some id →
           cycles w' = cycles w ∧ db w' = db w
           ∧ confirmAdvance (cyclesSection w') = Some id)
  ∧ (cycle_status cycle = "delivered" ∨ cycle_status cycle = "paused" → w' = w)
  ∧ (∀ id',
       (shown_cycle_status w' id' = shown_cycle_status w id'
        ∨ ∃ s', id' = id ∧ Spec.spec_next_stage (cycle_status cycle) s'
                ∧ shown_cycle_status w' id' = Some s')
       ∧ (Db.cycle_status (db w') id' = Db.cycle_status (db w) id'
          ∨ ∃ s', id' = id ∧ Spec.spec_next_stage (cycle_status cycle) s'
                  ∧ Db.cycle_status (db w') id' = Some s')).
Proof.
  intros Hin w' id. subst w' id. repeat split.
  - rewrite (advanceCycle_moves f cycle s' w) by done.
    by apply shown_after_handleCycleAdvanced.
  - intros ->. rewrite (advanceCycle_moves Db.NoFault cycle s' w) by done. cbn.
    apply update_cycle_status_carried. by eapply spec_next_stage_in_enum.
  - by rewrite (advanceCycle_asks_first f cycle s' w).
  - by rewrite (advanceCycle_asks_first f cycle s' w).
  - by rewrite (advanceCycle_asks_first f cycle s' w).
  - intros Hs. apply advanceCycle_no_stage.
    intros s' Hn. destruct Hs as [Hs|Hs]; rewrite Hs in Hn; inversion Hn.
  - destruct (stage_or_not (cycle_status cycle)) as [[s' Hs']|Hno].
    + destruct (supabase w) eqn:Hsup.
      * destruct (decide (openTasks cycle = [] ∨
                          confirmAdvance (cyclesSection w) = Some (cycle_id cycle)))
          as [Hgate|Hgate].
        -- rewrite (advanceCycle_moves f cycle s' w) by done.
           destruct (decide (id' = cycle_id cycle)) as [->|Hne].
           ++ right. exists s'. split_and!; [done..|].
              by apply shown_after_handleCycleAdvanced.
           ++ left. unfold shown_cycle_status. by rewrite shown_other_after_handleCycleAdvanced.
        -- left. rewrite (advanceCycle_asks_first f cycle s' w); [done..| |]; tauto.
      * left. unfold shown_cycle_status, shown_cycle.
        by rewrite (proj1 (advanceCycle_without_client f cycle w Hsup)).
    + left. by rewrite advanceCycle_no_stage.
  - destruct (stage_or_not (cycle_status cycle)) as [[s' Hs']|Hno].
    + destruct (supabase w) eqn:Hsup.
      * destruct (decide (openTasks cycle = [] ∨
                          confirmAdvance (cyclesSection w) = Some (cycle_id cycle)))
          as [Hgate|Hgate].
        -- rewrite (advanceCycle_moves f cycle s' w) by done. cbn.
           destruct (decide (id' = cycle_id cycle)) as [->|Hne].
           ++ destruct f as [|msg]; [|by left].
              rewrite update_cycle_status_carried
                by (by eapply spec_next_stage_in_enum).
              destruct (Db.cycle_status (db w) (cycle_id cycle)) eqn:E; [|by left].
              right. by exists s'.
           ++ left. by apply update_cycle_status_other.
        -- left. rewrite (advanceCycle_asks_first f cycle s' w); [done..| |]; tauto.
      * left. by rewrite (proj2 (advanceCycle_without_client f cycle w Hsup)).
    + left. by rewrite advanceCycle_no_stage.
Qed.

(** The February cycle is collecting and has an open task: the first call
    to [advanceCycle] leaves it collecting, on the page and in the
    database, although processing is the next stage. *)
Lemma advanceCycle_unconfirmed_stays :
  Sample.february ∈ cycles Sample.world
  ∧ supabase Sample.world = true
  ∧ Spec.spec_next_stage (cycle_status Sample.february) "processing"
  ∧ shown_cycle_status (advanceCycle Db.NoFault Sample.february Sample.world) "cycle-1"
    = Some "collecting"
  ∧ Db.cycle_status (db (advanceCycle Db.NoFault Sample.february Sample.world)) "cycle-1"
    = Some "collecting".
Proof.
  split_and!; [|done| |done|done].
  - apply list_elem_of_In. cbn. tauto.
  - constructor.
Qed.

Lemma advanceCycle_moves_one_stage_once_confirmed_witness :
  Sample.march ∈ cycles Sample.world
  ∧ shown_cycle_status (advanceCycle Db.NoFault Sample.march Sample.world) "cycle-2"
    = Some "reconciling"
  ∧ Db.cycle_status (db (advanceCycle Db.NoFault Sample.march Sample.world)) "cycle-2"
    = Some "reconciling".
Proof.
  assert (Sample.march ∈ cycles Sample.world) as Hin by (by left).
  split; [exact Hin|].
  destruct (advanceCycle_moves_one_stage_once_confirmed
              Db.NoFault Sample.march Sample.world Hin) as [Hmove _].
  destruct (Hmove "reconciling") as [Hshown Hdb].
  - constructor.
  - reflexivity.
  - left. reflexivity.
  - split; [exact Hshown|]. exact (eq_trans (Hdb eq_refl) eq_refl).
Defined.

End AdvanceCycleClaim.

Section PauseResume.
Import TenantPage.

Lemma pauseCycle_unfold (f : Db.fault) (cycle : ServiceCycle) (w : World) :
  supabase w = true →
  pauseCycle f cycle w
  = handleCycleAdvanced (cycle_id cycle) "paused"
      (set_db (Db.update_cycle_status f (cycle_id cycle) "paused" (db w)).1
         (set_cyclesSection
            (setPrePauseStatus (insert (cycle_id cycle) (cycle_status cycle))) w)).
Proof. intros Hs. unfold pauseCycle. by rewrite Hs. Qed.

Lemma resumeCycle_unfold (f : Db.fault) (cycle : ServiceCycle) (w : World) :
  supabase w = true →
  resumeCycle f cycle w
  = let restoreStatus :=
      Js.nullish (prePauseStatus (cyclesSection w) !! cycle_id cycle) "collecting" in
    handleCycleAdvanced (cycle_id cycle) restoreStatus
      (set_cyclesSection (setPrePauseStatus (delete (cycle_id cycle)))
         (set_db (Db.update_cycle_status f (cycle_id cycle) restoreStatus (db w)).1 w)).
Proof. intros Hs. unfold resumeCycle. by rewrite Hs. Qed.

(** The record of a cycle's status before its pause is touched only by
    pausing or resuming that cycle. *)
Lemma prePauseStatus_frame_advance (f : Db.fault) (c : ServiceCycle) (w : World) :
  prePauseStatus (cyclesSection (advanceCycle f c w)) = prePauseStatus (cyclesSection w).
Proof.
  unfold advanceCycle.
  repeat (match goal with |- context [if ?b then _ else _] => destruct b end; try done).
  cbn. by destruct (Js.at_index _ _).
Qed.

Lemma prePauseStatus_frame_pause (f : Db.fault) (c : ServiceCycle) (w : World) (id : string) :
  id ≠ cycle_id c →
  prePauseStatus (cyclesSection (pauseCycle f c w)) !! id
  = prePauseStatus (cyclesSection w) !! id.
Proof.
  intros Hne. unfold pauseCycle. destruct (supabase w); [|done]. cbn.
  by rewrite lookup_insert_ne.
Qed.

Lemma prePauseStatus_frame_resume (f : Db.fault) (c : ServiceCycle) (w : World) (id : string) :
  id ≠ cycle_id c →
  prePauseStatus (cyclesSection (resumeCycle f c w)) !! id
  = prePauseStatus (cyclesSection w) !! id.
Proof.
  intros Hne. unfold resumeCycle. destruct (supabase w); [|done]. cbn.
  by rewrite lookup_delete_ne.
Qed.

(** Resuming a cycle for which no earlier status is on record falls back
    to the first stage. *)
Lemma resumeCycle_without_record (f : Db.fault) (cycle : ServiceCycle) (w : World) :
  cycle ∈ cycles w → supabase w = true →
  prePauseStatus (cyclesSection w) !! cycle_id cycle = None →
  shown_cycle_status (resumeCycle f cycle w) (cycle_id cycle) = Some "collecting".
Proof.
  intros Hin Hs Hnone. rewrite resumeCycle_unfold by done. cbn. rewrite Hnone. cbn.
  by apply shown_after_handleCycleAdvanced.
Qed.

(** C2.  Pausing a cycle on the page that is neither paused nor delivered
    shows it as paused (and stores that, when the update is carried out);
    resuming the cycle then shown puts back the status it had right before
    the pause, on the page and, when the update is carried out, in the
    database, and the cycle can be paused again: pause followed by resume
    is a round trip. *)
Theorem pause_then_resume_restores_status
    (f1 f2 : Db.fault) (cycle : ServiceCycle) (w : World) :
  cycle ∈ cycles w →
  supabase w = true →
  canPause cycle = true →
  let id := cycle_id cycle in
  let w1 := pauseCycle f1 cycle w in
  shown_cycle_status w1 id = Some "paused"
  ∧ (f1 = Db.NoFault →
     Db.cycle_status (db w1) id = (fun _ => "paused") <$> Db.cycle_status (db w) id)
  ∧ ∃ paused,
      shown_cycle w1 id = Some paused
      ∧ canPause paused = false
      ∧ let w2 := resumeCycle f2 paused w1 in
        shown_cycle_status w2 id = Some (cycle_status cycle)
        ∧ (∀ resumed, shown_cycle w2 id = Some resumed → canPause resumed = true)
        ∧ (f2 = Db.NoFault →
           Db.in_enum Db.service_cycle_status (cycle_status cycle) = true →
           Db.cycle_status (db w2) id
           = (fun _ => cycle_status cycle) <$> Db.cycle_status (db w) id).
Proof.
  intros Hin Hs Hcan id w1. subst id w1.
  assert (shown_cycle_status (pauseCycle f1 cycle w) (cycle_id cycle) = Some "paused")
    as Hshown.
  { rewrite pauseCycle_unfold by done.
    by apply shown_after_handleCycleAdvanced. }
  split; [done|]. split.
  { intros ->. rewrite pauseCycle_unfold by done. cbn.
    by apply update_cycle_status_carried. }
  unfold shown_cycle_status in Hshown.
  destruct (shown_cycle (pauseCycle f1 cycle w) (cycle_id cycle)) as [paused|] eqn:Hp;
    [|done].
  injection Hshown as Hst.
  exists paused. split; [done|].
  split. { unfold canPause. by rewrite Hst. }
  destruct (find_key_Some cycle_id _ _ _ Hp) as [Hid Hin'].
  assert (supabase (pauseCycle f1 cycle w) = true) as Hs'.
  { rewrite pauseCycle_unfold by done. done. }
  assert (prePauseStatus (cyclesSection (pauseCycle f1 cycle w)) !! cycle_id paused
          = Some (cycle_status cycle)) as Hrec.
  { rewrite Hid, pauseCycle_unfold by done. cbn. apply lookup_insert_eq. }
  cbn zeta.
  assert (shown_cycle_status (resumeCycle f2 paused (pauseCycle f1 cycle w))
            (cycle_id cycle) = Some (cycle_status cycle)) as Hres.
  { rewrite resumeCycle_unfold by done. cbn zeta. rewrite Hrec. cbn [Js.nullish].
    rewrite <- Hid.
    by apply shown_after_handleCycleAdvanced. }
  split; [done|]. split.
  { intros resumed Hr. unfold shown_cycle_status in Hres. rewrite Hr in Hres.
    injection Hres as Hres. unfold canPause in *. by rewrite Hres. }
  intros -> He. rewrite resumeCycle_unfold by done. cbn zeta. rewrite Hrec.
  cbn. rewrite Hid. rewrite update_cycle_status_carried by done.
  rewrite pauseCycle_unfold by done. cbn.
  apply update_cycle_status_same_rows.
Qed.

Lemma pause_then_resume_restores_status_witness :
  Sample.march ∈ cycles Sample.world
  ∧ supabase Sample.world = true
  ∧ canPause Sample.march = true
  ∧ shown_cycle_status (pauseCycle Db.NoFault Sample.march Sample.world) "cycle-2"
    = Some "paused"
  ∧ ∃ paused,
      shown_cycle (pauseCycle Db.NoFault Sample.march Sample.world) "cycle-2" = Some paused
      ∧ shown_cycle_status
          (resumeCycle Db.NoFault paused (pauseCycle Db.NoFault Sample.march Sample.world))
          "cycle-2"
        = Some "processing".
Proof.
  assert (Sample.march ∈ cycles Sample.world) as Hin by (by left).
  split_and!; [exact Hin|reflexivity|reflexivity|..].
  - exact (proj1 (pause_then_resume_restores_status
                    Db.NoFault Db.NoFault Sample.march Sample.world Hin eq_refl eq_refl)).
  - destruct (pause_then_resume_restores_status
                Db.NoFault Db.NoFault Sample.march Sample.world Hin eq_refl eq_refl)
      as (_ & _ & paused & Hp & _ & Hr & _).
    exists paused. split; [exact Hp | exact Hr].
Defined.

End PauseResume.

Section TaskToggle.
Import TenantPage.

Lemma nextTaskStatus_todo : nextTaskStatus (Js.Text "todo") = Js.Text "in_progress".
Proof. reflexivity. Qed.
Lemma nextTaskStatus_in_progress :
  nextTaskStatus (Js.Text "in_progress") = Js.Text "done".
Proof. reflexivity. Qed.
Lemma nextTaskStatus_done : nextTaskStatus (Js.Text "done") = Js.Text "todo".
Proof. reflexivity. Qed.






End TaskToggle.

Section TaskToggleClaim.
Import TenantPage.






End TaskToggleClaim.

(** ** Starting a cycle *)

Section StartCycleFacts.

Lemma find_none_not_elem {A : Type} (P : A → bool) (l : list A) (a : A) :
  List.find P l = None → a ∈ l → P a = false.
Proof.
  intros Hf Hin. apply list_elem_of_In in Hin.
  apply (find_none P l Hf a Hin).
Qed.

Lemma fresh_keys_single (k : string) (existing : list string) :
  Db.fresh_keys [k] existing = true → k ∉ existing.
Proof.
  unfold Db.fresh_keys. cbn. rewrite andb_true_r.
  intros [_ H]%andb_true_iff. by apply bool_decide_eq_true in H.
Qed.

(** What a successful upsert leaves behind. *)
Lemma upsert_service_cycle_Ok (f : Db.fault) (new_id tid month st : string)
    (db db1 : Db.t) (cycle : Db.service_cycle) :
  Db.upsert_service_cycle f new_id tid month st db = (db1, Db.Ok cycle) →
  cycle ∈ Db.service_cycles db1
  ∧ Db.sc_tenant_id cycle = tid ∧ Db.sc_month cycle = month ∧ Db.sc_status cycle = st
  ∧ Db.cycle_tasks db1 = Db.cycle_tasks db
  ∧ Db.tenants db1 = Db.tenants db
  ∧ (List.find (Db.same_cycle_key tid month) (Db.service_cycles db) = None →
     Db.sc_id cycle ∉ Db.sc_id <$> Db.service_cycles db)
  ∧ (∀ old, List.find (Db.same_cycle_key tid month) (Db.service_cycles db) = Some old →
            cycle = Db.set_sc_status st old
            ∧ List.length (Db.service_cycles db1) = List.length (Db.service_cycles db)).
Proof.
  unfold Db.upsert_service_cycle. destruct f; [|done].
  destruct (Db.in_enum _ _); [|done]. cbn [negb].
  destruct (List.find _ _) as [old|] eqn:Hfind.
  - intros [= <- <-]. cbn.
    apply find_some in Hfind as [Hin Hkey].
    unfold Db.same_cycle_key in Hkey.
    apply andb_true_iff in Hkey as [Ht Hm].
    apply bool_decide_eq_true in Ht, Hm.
    split_and!; try done.
    + apply list_elem_of_fmap. exists old. split.
      * unfold Db.same_cycle_key. by rewrite !bool_decide_true.
      * by apply list_elem_of_In.
    + intros old' [= <-]. by rewrite length_fmap.
  - destruct (Db.tenant_exists _ _); [|done]. cbn [negb].
    destruct (Db.fresh_keys _ _) eqn:Hfresh; [|done]. cbn [negb].
    intros [= <- <-]. cbn. split_and!; try done.
    + apply elem_of_app. right. by left.
    + intros _. by apply fresh_keys_single.
Qed.

Lemma upsert_service_cycle_Error (f : Db.fault) (new_id tid month st : string)
    (db db1 : Db.t) (message : string) :
  Db.upsert_service_cycle f new_id tid month st db = (db1, Db.Error message) → db1 = db.
Proof.
  unfold Db.upsert_service_cycle. destruct f; [|by intros [= <-]].
  destruct (Db.in_enum _ _); cbn [negb]; [|by intros [= <-]].
  destruct (List.find _ _); [done|].
  destruct (Db.tenant_exists _ _); cbn [negb]; [|by intros [= <-]].
  destruct (Db.fresh_keys _ _); cbn [negb]; [done|by intros [= <-]].
Qed.

(** What a successful insert of checklist rows leaves behind. *)
Lemma insert_cycle_tasks_Ok (f : Db.fault) (gen : nat → string)
    (vs : list Db.cycle_task_values) (db db2 : Db.t) :
  Db.insert_cycle_tasks f gen vs db = (db2, None) →
  Db.service_cycles db2 = Db.service_cycles db
  ∧ Db.cycle_tasks db2
    = (Db.cycle_tasks db
         ++ zip_with Db.new_cycle_task (Db.generated gen (List.length vs)) vs)%list.
Proof.
  unfold Db.insert_cycle_tasks. destruct f; [|done].
  repeat (match goal with |- context [if ?b then _ else _] => destruct b end; try done).
  by intros [= <-].
Qed.

Lemma insert_cycle_tasks_Error (f : Db.fault) (gen : nat → string)
    (vs : list Db.cycle_task_values) (db db2 : Db.t) (message : string) :
  Db.insert_cycle_tasks f gen vs db = (db2, Some message) → db2 = db.
Proof.
  unfold Db.insert_cycle_tasks. destruct f; [|by intros [= <-]].
  repeat (match goal with |- context [if ?b then _ else _] => destruct b end; try done);
    by intros [= <-].
Qed.

(** The rows both handlers insert are the specification's checklist. *)
Lemma route_rows_are_checklist (gen : nat → string) (cycle tenant : string) :
  zip_with Db.new_cycle_task (Db.generated gen 8)
    ((fun taskType => {| Db.v_service_cycle_id := cycle; Db.v_tenant_id := tenant;
                         Db.v_task_type := taskType; Db.v_status := "todo" |})
       <$> CycleStartRoute.defaultTasks)
  = Spec.spec_checklist cycle tenant (Db.generated gen 8).
Proof. reflexivity. Qed.

Lemma page_rows_are_checklist (gen : nat → string) (cycle tenant : string) :
  zip_with Db.new_cycle_task (Db.generated gen 8) (TenantPage.taskValues cycle tenant)
  = Spec.spec_checklist cycle tenant (Db.generated gen 8).
Proof. reflexivity. Qed.

Lemma tasks_of_new_cycle (db : Db.t) (cid tenant : string) (ids : list string) :
  cid ∉ Db.sc_id <$> Db.service_cycles db →
  (∀ t, t ∈ Db.cycle_tasks db →
        Db.ct_service_cycle_id t ∈ Db.sc_id <$> Db.service_cycles db) →
  List.length ids = 8%nat →
  List.filter (fun r => bool_decide (Db.ct_service_cycle_id r = cid))
              (Db.cycle_tasks db ++ Spec.spec_checklist cid tenant ids)
  = Spec.spec_checklist cid tenant ids.
Proof.
  intros Hnew Hrefs Hlen. rewrite List.filter_app.
  assert (List.filter (fun r => bool_decide (Db.ct_service_cycle_id r = cid))
                      (Db.cycle_tasks db) = []) as ->.
  { induction (Db.cycle_tasks db) as [|t l IH]; [done|]. cbn.
    rewrite bool_decide_false.
    - apply IH. intros t' Ht'. apply Hrefs. by right.
    - intros E. apply Hnew. rewrite <- E. apply Hrefs. by left. }
  cbn. do 9 (destruct ids as [|? ids]; try done).
  cbn. by rewrite !bool_decide_true.
Qed.

Lemma cycle_started (tenant new_id month : string) (f1 f2 : Db.fault)
    (gen : nat → string) (db db1 db2 : Db.t) (cycle : Db.service_cycle)
    (vs : list Db.cycle_task_values) :
  Db.upsert_service_cycle f1 new_id tenant month "collecting" db = (db1, Db.Ok cycle) →
  Db.insert_cycle_tasks f2 gen vs db1 = (db2, None) →
  List.length vs = 8%nat →
  zip_with Db.new_cycle_task (Db.generated gen 8) vs
  = Spec.spec_checklist (Db.sc_id cycle) tenant (Db.generated gen 8) →
  Spec.spec_cycle_started tenant db db2 cycle (Db.generated gen 8)
  ∧ Db.sc_month cycle = month.
Proof.
  intros Hup Hins Hlen Hrows.
  apply upsert_service_cycle_Ok in Hup as (Hin & Ht & Hm & Hst & Htasks & _ & Hnew & _).
  apply insert_cycle_tasks_Ok in Hins as (Hcycles & Hrows').
  rewrite Hlen, Hrows, Htasks in Hrows'.
  split; [|done]. unfold Spec.spec_cycle_started.
  split_and!; try done.
  - by rewrite Hcycles.
  - intros Hfresh Hrefs. unfold Db.tasks_of_cycle. rewrite Hrows'.
    apply tasks_of_new_cycle; [|done|reflexivity]. apply Hnew. by rewrite Hm in Hfresh.
Qed.

End StartCycleFacts.

Section StartCycleClaim.
Import Http.

(** A 200 answer of the cycle-start route means every step went through. *)
Lemma cycle_start_POST_200 (env : CycleStartRoute.Env) (request : Request)
    (tenantId : string) (db db' : Db.t) (resp : Response) :
  CycleStartRoute.POST env request tenantId db = (db', resp) →
  status resp = 200%nat →
  ∃ expected body month db1 cycle,
    env_value (CycleStartRoute.processEnv env) "DASHBOARD_ADMIN_TOKEN" = Some expected
    ∧ token_matches (headers_get request "x-admin-token") expected = true
    ∧ json request = Return body
    ∧ CycleStartRoute.payloadSchema body = Some month
    ∧ Db.upsert_service_cycle (CycleStartRoute.upsertFault env)
        (CycleStartRoute.newCycleId env) tenantId month "collecting" db = (db1, Db.Ok cycle)
    ∧ Db.insert_cycle_tasks (CycleStartRoute.insertTasksFault env)
        (CycleStartRoute.newTaskIds env)
        ((fun taskType => {| Db.v_service_cycle_id := Db.sc_id cycle;
                             Db.v_tenant_id := tenantId;
                             Db.v_task_type := taskType; Db.v_status := "todo" |})
           <$> CycleStartRoute.defaultTasks) db1 = (db', None)
    ∧ resp = respond 200 (ok_cycle cycle).
Proof.
  unfold CycleStartRoute.POST, CycleStartRoute.requireAdminToken.
  destruct (env_value _ _) as [expected|]; [|by intros [= <- <-]].
  destruct (token_matches _ _) eqn:Htok; [|by intros [= <- <-]].
  destruct (json request) as [body|]; [|by intros [= <- <-]].
  destruct (CycleStartRoute.payloadSchema body) as [month|] eqn:Hp; [|by intros [= <- <-]].
  destruct (CycleStartRoute.adminClient env); [|by intros [= <- <-]].
  destruct (Db.upsert_service_cycle _ _ _ _ _ _) as [db1 [cycle|]] eqn:Hup;
    [|by intros [= <- <-]].
  destruct (Db.insert_cycle_tasks _ _ _ _) as [db2 [msg|]] eqn:Hins;
    [by intros [= <- <-]|].
  intros [= <- <-] _. by exists expected, body, month, db1, cycle.
Qed.

Lemma load_db (env : TenantPage.LoadEnv) (w : TenantPage.World) :
  TenantPage.db (TenantPage.load env w) = TenantPage.db w.
Proof.
  unfold TenantPage.load.
  repeat (match goal with |- context [if ?b then _ else _] => destruct b end; try done).
Qed.

(** C3.  Starting a monthly cycle for a tenant -- through the route, when
    it answers 200, or from the page, when the two statements are carried
    out -- stores the cycle for that tenant with status collecting and adds
    exactly the eight default tasks, in order, each todo and each linked to
    that cycle and that tenant; they are the cycle's whole checklist when
    the tenant had no cycle for the month yet. *)
Theorem starting_a_cycle_creates_its_checklist :
  (∀ (env : CycleStartRoute.Env) (request : Request) (tenantId : string)
     (db db' : Db.t) (cycle : Db.service_cycle),
     CycleStartRoute.POST env request tenantId db = (db', respond 200 (ok_cycle cycle)) →
     Spec.spec_cycle_started tenantId db db' cycle
       (Db.generated (CycleStartRoute.newTaskIds env) 8)
     ∧ ∃ body, json request = Return body
               ∧ CycleStartRoute.payloadSchema body = Some (Db.sc_month cycle))
  ∧ (∀ (env : TenantPage.StartEnv) (w : TenantPage.World)
       (db1 db2 : Db.t) (cycle : Db.service_cycle),
       TenantPage.supabase w = true →
       Db.upsert_service_cycle (TenantPage.upsertFault env) (TenantPage.newCycleId env)
         (TenantPage.tenantId w) (TenantPage.thisMonth env) "collecting" (TenantPage.db w)
       = (db1, Db.Ok cycle) →
       Db.insert_cycle_tasks (TenantPage.insertTasksFault env) (TenantPage.newTaskIds env)
         (TenantPage.taskValues (Db.sc_id cycle) (TenantPage.tenantId w)) db1
       = (db2, None) →
       TenantPage.db (TenantPage.startCycle env w) = db2
       ∧ Spec.spec_cycle_started (TenantPage.tenantId w) (TenantPage.db w) db2 cycle
           (Db.generated (TenantPage.newTaskIds env) 8)
       ∧ Db.sc_month cycle = TenantPage.thisMonth env).
Proof.
  split.
  - intros env request tenantId db db' cycle HPOST.
    destruct (cycle_start_POST_200 _ _ _ _ _ _ HPOST eq_refl)
      as (expected & body & month & db1 & cycle' & _ & _ & Hjson & Hp & Hup & Hins & Hresp).
    injection Hresp as <-.
    destruct (cycle_started _ _ _ _ _ _ _ _ _ _ _ Hup Hins eq_refl
                (route_rows_are_checklist _ _ _)) as [Hstarted Hmonth].
    split; [done|]. exists body. by rewrite Hmonth.
  - intros env w db1 db2 cycle Hs Hup Hins. split.
    + unfold TenantPage.startCycle.
      cbn [TenantPage.supabase TenantPage.set_cyclesSection TenantPage.db
           TenantPage.tenantId].
      rewrite Hs. cbn [negb]. rewrite Hup, Hins. by rewrite load_db.
    + by apply (cycle_started _ _ _ _ _ _ _ _ _ _ _ Hup Hins eq_refl
                  (page_rows_are_checklist _ _ _)).
Qed.

Lemma starting_a_cycle_creates_its_checklist_witness :
  ∃ db' cycle,
    CycleStartRoute.POST Sample.startEnv (Sample.startRequest "admin-token" "2026-04-01")
                         "tenant-1" Sample.database
    = (db', respond 200 (ok_cycle cycle))
    ∧ Spec.spec_cycle_started "tenant-1" Sample.database db' cycle
        (Db.generated Sample.taskId 8).
Proof.
  eexists _, _. split; [reflexivity|].
  apply (proj1 starting_a_cycle_creates_its_checklist
           Sample.startEnv (Sample.startRequest "admin-token" "2026-04-01")).
  reflexivity.
Defined.

End StartCycleClaim.

(** ** What every handler does to the database *)

Section Statements.
Import TenantPage.

Ltac chain :=
  repeat first [ apply rtc_refl | eapply rtc_r; [|by constructor] ].

Ltac by_statements := case_split; name_databases; cbn; chain.

Lemma cycle_start_POST_statements env request tenant dbase :
  rtc System.statement dbase (CycleStartRoute.POST env request tenant dbase).1.
Proof. unfold CycleStartRoute.POST. by_statements. Qed.

Lemma intake_POST_statements is_uuid is_url env request dbase :
  rtc System.statement dbase (IntakeRoute.POST is_uuid is_url env request dbase).1.
Proof. unfold IntakeRoute.POST. by_statements. Qed.

Lemma tenants_POST_statements env request dbase :
  rtc System.statement dbase (TenantsRoute.POST env request dbase).1.
Proof. unfold TenantsRoute.POST. by_statements. Qed.

Lemma startCycle_statements env w :
  rtc System.statement (db w) (db (startCycle env w)).
Proof.
  unfold startCycle. case_split; name_databases; rewrite ?load_db; cbn; chain.
Qed.

Lemma advanceCycle_statements f cycle w :
  rtc System.statement (db w) (db (advanceCycle f cycle w)).
Proof. unfold advanceCycle. by_statements. Qed.

Lemma pauseCycle_statements f cycle w :
  rtc System.statement (db w) (db (pauseCycle f cycle w)).
Proof. unfold pauseCycle. by_statements. Qed.

Lemma resumeCycle_statements f cycle w :
  rtc System.statement (db w) (db (resumeCycle f cycle w)).
Proof. unfold resumeCycle. by_statements. Qed.

Lemma update_task_statements f taskId newStatus d :
  rtc System.statement d (update_task f taskId newStatus d).
Proof. unfold update_task. by_statements. Qed.

Lemma clickTask_statements f cycle task w :
  rtc System.statement (db w) (db (clickTask f cycle task w)).
Proof.
  unfold clickTask, handleTaskToggle.
  destruct (supabase w); cbn; [apply update_task_statements|apply rtc_refl].
Qed.

Lemma perform_statements String_of_number parseFloat trim a w :
  rtc System.statement (db w) (db (perform String_of_number parseFloat trim a w)).
Proof.
  unfold perform, submitTransaction, handleIntakeStatusChange, openTxForm.
  destruct a; by_statements.
Qed.

(** Every action is a sequence of statements. *)
Lemma step_statements String_of_number parseFloat trim is_uuid is_url a w :
  rtc System.statement (db w)
      (db (System.step String_of_number parseFloat trim is_uuid is_url a w)).
Proof.
  destruct a; cbn [System.step db set_db].
  - apply cycle_start_POST_statements.
  - apply intake_POST_statements.
  - apply tenants_POST_statements.
  - apply startCycle_statements.
  - apply advanceCycle_statements.
  - apply pauseCycle_statements.
  - apply resumeCycle_statements.
  - apply clickTask_statements.
  - rewrite load_db. apply rtc_refl.
  - apply perform_statements.
Qed.

(** A property of the database kept by every statement is kept by every
    action. *)
Lemma step_keeps (P : Db.t → Prop) :
  (∀ d d', System.statement d d' → P d → P d') →
  ∀ String_of_number parseFloat trim is_uuid is_url a w,
    P (db w) → P (db (System.step String_of_number parseFloat trim is_uuid is_url a w)).
Proof.
  intros Hkeep ?????? w HP.
  induction (step_statements String_of_number parseFloat trim is_uuid is_url a w)
    as [|d1 d2 d3 Hst _ IH]; eauto.
Qed.

End Statements.

(** ** One cycle per tenant and month *)

Section OneCyclePerMonth.
Import TenantPage.

Lemma cycle_keys_update_status (P : Db.service_cycle → bool) (st : string)
    (l : list Db.service_cycle) :
  (fun r => (Db.sc_tenant_id r, Db.sc_month r))
    <$> ((fun r => if P r then Db.set_sc_status st r else r) <$> l)
  = (fun r => (Db.sc_tenant_id r, Db.sc_month r)) <$> l.
Proof.
  rewrite <- list_fmap_compose. apply list_fmap_ext.
  intros _ r _. cbn. by destruct (P r).
Qed.

Lemma find_cycle_key_None (tid month : string) (l : list Db.service_cycle) :
  List.find (Db.same_cycle_key tid month) l = None →
  (tid, month) ∉ (fun r => (Db.sc_tenant_id r, Db.sc_month r)) <$> l.
Proof.
  intros Hfind [r [[= -> ->] Hin]]%list_elem_of_fmap.
  pose proof (find_none_not_elem _ _ _ Hfind Hin) as Hk.
  unfold Db.same_cycle_key in Hk. by rewrite !bool_decide_true in Hk.
Qed.

Lemma statement_keeps_one_cycle_per_month (d d' : Db.t) :
  System.statement d d' →
  Spec.spec_one_cycle_per_month d → Spec.spec_one_cycle_per_month d'.
Proof.
  unfold Spec.spec_one_cycle_per_month.
  destruct 1 as [f id st d|f id st d|f id st d|f new_id tid month st d|f gen vs d
                |f new_id kept row d|f new_id kept row d|f new_id row d
                |f new_id tid uid role d|f tid d]; intros Hnd.
  - unfold Db.update_cycle_status. destruct f; [|done].
    destruct (Db.in_enum _ _); [|done]. cbn. by rewrite cycle_keys_update_status.
  - unfold Db.update_task_status. by destruct f.
  - unfold Db.update_intake_status. destruct f; [|done]. by destruct (Db.in_enum _ _).
  - unfold Db.upsert_service_cycle. destruct f; [|done].
    destruct (Db.in_enum _ _); [|done]. cbn [negb].
    destruct (List.find _ _) eqn:Hfind.
    + cbn. by rewrite cycle_keys_update_status.
    + destruct (Db.tenant_exists _ _); [|done]. cbn [negb].
      destruct (Db.fresh_keys _ _); [|done]. cbn.
      rewrite fmap_app. apply NoDup_app. split_and!; [done| |apply NoDup_singleton].
      intros k Hk ->%list_elem_of_singleton. by apply find_cycle_key_None in Hfind.
  - unfold Db.insert_cycle_tasks. destruct f; [|done].
    by repeat (match goal with |- context [if ?b then _ else _] => destruct b end).
  - unfold Db.insert_intake_event. destruct f; [|done].
    destruct (Db.kept_intake_event _ _); [|done].
    by repeat (match goal with |- context [if ?b then _ else _] => destruct b end).
  - unfold Db.insert_transaction. destruct f; [|done].
    destruct (kept _); [|done]. cbn [fmap option_fmap option_map].
    by repeat (match goal with |- context [if ?b then _ else _] => destruct b end).
  - unfold Db.insert_tenant. destruct f; [|done].
    by repeat (match goal with |- context [if ?b then _ else _] => destruct b end).
  - unfold Db.insert_tenant_user. destruct f; [|done].
    by repeat (match goal with |- context [if ?b then _ else _] => destruct b end).
  - unfold Db.delete_tenant. destruct f; [|done]. cbn.
    induction (Db.service_cycles d) as [|r l IH]; [done|].
    cbn in *. apply NoDup_cons in Hnd as [Hr Hl].
    destruct (bool_decide _); cbn; [by apply IH|].
    apply NoDup_cons. split; [|by apply IH].
    intros [r' [Hk Hin]]%list_elem_of_fmap. apply Hr.
    apply list_elem_of_fmap. exists r'. split; [done|].
    apply list_elem_of_In in Hin. apply filter_In in Hin as [Hin _].
    by apply list_elem_of_In.
Qed.

Lemma find_the_cycle (tid month : string) (old : Db.service_cycle)
    (l : list Db.service_cycle) :
  NoDup ((fun r => (Db.sc_tenant_id r, Db.sc_month r)) <$> l) →
  old ∈ l → Db.sc_tenant_id old = tid → Db.sc_month old = month →
  List.find (Db.same_cycle_key tid month) l = Some old.
Proof.
  intros Hnd Hin <- <-. induction l as [|r l IH]; [by apply elem_of_nil in Hin|].
  cbn in *. apply NoDup_cons in Hnd as [Hr Hl].
  apply elem_of_cons in Hin as [->|Hin].
  - unfold Db.same_cycle_key. by rewrite !bool_decide_true.
  - destruct (Db.same_cycle_key _ _ r) eqn:Hk; [|by apply IH].
    exfalso. apply Hr. unfold Db.same_cycle_key in Hk.
    apply andb_true_iff in Hk as [Ht Hm]. apply bool_decide_eq_true in Ht, Hm.
    apply list_elem_of_fmap. exists old. by rewrite Ht, Hm.
Qed.

Lemma insert_cycle_tasks_service_cycles (f : Db.fault) (gen : nat → string)
    (vs : list Db.cycle_task_values) (d : Db.t) :
  Db.service_cycles (Db.insert_cycle_tasks f gen vs d).1 = Db.service_cycles d.
Proof.
  unfold Db.insert_cycle_tasks. destruct f; [|done].
  by repeat (match goal with |- context [if ?b then _ else _] => destruct b end).
Qed.

(** C10.  If no tenant has two cycles for one month, no action on the page
    and no request to a route changes that.  Starting a cycle for a tenant
    and month that already has one adds no row: the row keeps its id and
    its status is set back to collecting. *)
Theorem one_cycle_per_tenant_and_month
    (String_of_number : Js.number → string) (parseFloat : string → Js.number)
    (trim : string → string) (is_uuid is_url : string → bool) (w : World) :
  Spec.spec_one_cycle_per_month (db w) →
  (∀ a, Spec.spec_one_cycle_per_month
          (db (System.step String_of_number parseFloat trim is_uuid is_url a w)))
  ∧ (∀ env request tenant db' cycle old,
       CycleStartRoute.POST env request tenant (db w)
       = (db', Http.respond 200 (Http.ok_cycle cycle)) →
       old ∈ Db.service_cycles (db w) →
       Db.sc_tenant_id old = tenant →
       Db.sc_month old = Db.sc_month cycle →
       List.length (Db.service_cycles db') = List.length (Db.service_cycles (db w))
       ∧ cycle = Db.set_sc_status "collecting" old
       ∧ cycle ∈ Db.service_cycles db')
  ∧ (∀ env db1 cycle old,
       supabase w = true →
       Db.upsert_service_cycle (upsertFault env) (newCycleId env) (tenantId w)
         (thisMonth env) "collecting" (db w) = (db1, Db.Ok cycle) →
       old ∈ Db.service_cycles (db w) →
       Db.sc_tenant_id old = tenantId w →
       Db.sc_month old = thisMonth env →
       List.length (Db.service_cycles (db (startCycle env w)))
       = List.length (Db.service_cycles (db w))
       ∧ cycle = Db.set_sc_status "collecting" old
       ∧ cycle ∈ Db.service_cycles (db (startCycle env w))).
Proof.
  intros Hone. split_and!.
  - intros a. by apply (step_keeps _ statement_keeps_one_cycle_per_month).
  - intros env request tenant db' cycle old HPOST Hin Ht Hm.
    destruct (cycle_start_POST_200 _ _ _ _ _ _ HPOST eq_refl)
      as (expected & body & month & db1 & cycle' & _ & _ & _ & _ & Hup & Hins & Hresp).
    injection Hresp as <-.
    pose proof Hup as Hup'.
    apply upsert_service_cycle_Ok in Hup' as (Hin1 & _ & Hmonth & _ & _ & _ & _ & Hold).
    rewrite <- Hm in Hmonth.
    destruct (Hold old) as [-> Hlen]; [by apply find_the_cycle|].
    apply insert_cycle_tasks_Ok in Hins as [Hcycles _].
    rewrite Hcycles. done.
  - intros env db1 cycle old Hs Hup Hin Ht Hm.
    assert (Db.service_cycles (db (startCycle env w)) = Db.service_cycles db1) as ->.
    { unfold startCycle.
      cbn [supabase set_cyclesSection db tenantId]. rewrite Hs. cbn [negb].
      rewrite Hup, load_db. cbn [db set_db set_cyclesSection].
      apply insert_cycle_tasks_service_cycles. }
    apply upsert_service_cycle_Ok in Hup as (Hin1 & _ & _ & _ & _ & _ & _ & Hold).
    destruct (Hold old) as [-> Hlen]; [by apply find_the_cycle|]. done.
Qed.

Lemma one_cycle_per_tenant_and_month_witness :
  Spec.spec_one_cycle_per_month (db Sample.world)
  ∧ Spec.spec_one_cycle_per_month
      (db (System.step Sample.String_of_number Sample.parseFloat Sample.trim
             Sample.is_uuid Sample.is_url
             (System.CycleStartRequest
                Sample.startEnv (Sample.startRequest "admin-token" "2026-03-01") "tenant-1")
             Sample.world))
  ∧ Db.cycle_status
      (CycleStartRoute.POST Sample.startEnv (Sample.startRequest "admin-token" "2026-03-01")
                            "tenant-1" (db Sample.world)).1 "cycle-2"
    = Some "collecting".
Proof.
  assert (Spec.spec_one_cycle_per_month (db Sample.world)) as Hone.
  { unfold Spec.spec_one_cycle_per_month. cbn.
    apply NoDup_cons. split; [|apply NoDup_singleton].
    intros [=]%list_elem_of_singleton. }
  split; [exact Hone|]. split.
  - apply (one_cycle_per_tenant_and_month Sample.String_of_number Sample.parseFloat
             Sample.trim Sample.is_uuid Sample.is_url Sample.world Hone).
  - reflexivity.
Defined.

End OneCyclePerMonth.

(** ** Token guards *)

Section TokenGuards.
Import Http.

Lemma token_matches_true (got : option string) (expected : string) :
  token_matches got expected = true → got = Some expected.
Proof.
  destruct got as [g|]; [|done]. cbn.
  intros [_ ->%bool_decide_eq_true]%andb_true_iff. done.
Qed.

Lemma token_matches_false (got : option string) (expected : string) :
  got ≠ Some expected → token_matches got expected = false.
Proof.
  intros Hne. destruct (token_matches got expected) eqn:E; [|done].
  by apply token_matches_true in E.
Qed.

Lemma env_value_unset (processEnv : string → option string) (name : string) :
  processEnv name = None → env_value processEnv name = None.
Proof. unfold env_value. by intros ->. Qed.

Lemma env_value_set (processEnv : string → option string) (name expected : string) :
  processEnv name = Some expected → expected ≠ "" →
  env_value processEnv name = Some expected.
Proof.
  unfold env_value, Js.truthy. intros -> Hne. by rewrite bool_decide_false.
Qed.

Lemma env_value_empty (processEnv : string → option string) (name : string) :
  processEnv name = None ∨ processEnv name = Some "" →
  env_value processEnv name = None.
Proof. unfold env_value. by intros [-> | ->]. Qed.

Lemma env_value_Some (processEnv : string → option string) (name expected : string) :
  env_value processEnv name = Some expected → processEnv name = Some expected.
Proof.
  unfold env_value. destruct (processEnv name) as [v|]; [|done].
  by destruct (Js.truthy v); intros [= ->].
Qed.

(** An intake request that changes the database or is answered 200 passed
    every check. *)
Lemma intake_POST_accepted (is_uuid is_url : string → bool) (env : IntakeRoute.Env)
    (request : Request) (db db' : Db.t) (resp : Response) :
  IntakeRoute.POST is_uuid is_url env request db = (db', resp) →
  db' ≠ db ∨ status resp = 200%nat →
  ∃ expected body data,
    env_value (IntakeRoute.processEnv env) "INTAKE_SHARED_SECRET" = Some expected
    ∧ token_matches (headers_get request "x-intake-token") expected = true
    ∧ json request = Return body
    ∧ IntakeRoute.intakeSchema is_uuid is_url body = Some data
    ∧ Db.insert_intake_event (IntakeRoute.insertFault env) (IntakeRoute.newEventId env)
        (IntakeRoute.kept env)
        (fun id =>
           {| Db.ie_id := id; Db.ie_tenant_id := IntakeRoute.tenant_id data;
              Db.ie_source := IntakeRoute.source data; Db.ie_date := IntakeRoute.date data;
              Db.ie_amount := IntakeRoute.amount data;
              Db.ie_description := IntakeRoute.description data;
              Db.ie_attachment_url := IntakeRoute.attachment_url data;
              Db.ie_raw_payload := IntakeRoute.json_or_null (IntakeRoute.raw_payload data);
              Db.ie_status := "new" |}) db = (db', None)
    ∧ resp = respond 200 ok_body.
Proof.
  unfold IntakeRoute.POST, IntakeRoute.requireIntakeToken.
  destruct (env_value _ _) as [expected|]; [|intros [= <- <-] [?|?]; done].
  destruct (token_matches _ _) eqn:Htok; [|intros [= <- <-] [?|?]; done].
  destruct (json request) as [body|]; [|intros [= <- <-] [?|?]; done].
  destruct (IntakeRoute.intakeSchema _ _ body) as [data|] eqn:Hp;
    [|intros [= <- <-] [?|?]; done].
  destruct (IntakeRoute.adminClient env); [|intros [= <- <-] [?|?]; done].
  destruct (Db.insert_intake_event _ _ _ _ _) as [db1 [msg|]] eqn:Hins.
  - intros [= <- <-] [Hne|?]; [|done]. exfalso. apply Hne.
    revert Hins. unfold Db.insert_intake_event.
    destruct (IntakeRoute.insertFault env); [|by intros [= <-]].
    destruct (Db.kept_intake_event _ _); [|by intros [= <-]].
    repeat (match goal with |- context [if ?b then _ else _] => destruct b end; try done);
      by intros [= <-].
  - intros [= <- <-] _. by exists expected, body, data.
Qed.

Lemma cycle_start_POST_changed (env : CycleStartRoute.Env) (request : Request)
    (tenantId : string) (db : Db.t) :
  (CycleStartRoute.POST env request tenantId db).1 ≠ db →
  ∃ expected,
    env_value (CycleStartRoute.processEnv env) "DASHBOARD_ADMIN_TOKEN" = Some expected
    ∧ token_matches (headers_get request "x-admin-token") expected = true.
Proof.
  unfold CycleStartRoute.POST, CycleStartRoute.requireAdminToken.
  destruct (env_value _ _) as [expected|]; [|done].
  destruct (token_matches _ _) eqn:Htok; [|done].
  intros _. by exists expected.
Qed.

(** C9.  The cycle-start route answers 401 and leaves the database as it
    is unless the x-admin-token header equals DASHBOARD_ADMIN_TOKEN, and
    the intake route does the same with x-intake-token and
    INTAKE_SHARED_SECRET: no cycle, task or intake event is written, and
    nothing is answered 200, without the matching token.  When the
    variable is unset (or empty) the request fails with 500 and nothing is
    written either. *)
Theorem token_guards_reject_before_any_write
    (is_uuid is_url : string → bool) (request : Request) (db : Db.t) :
  (∀ (env : CycleStartRoute.Env) (tenantId : string),
     let name := "DASHBOARD_ADMIN_TOKEN" in
     let out := CycleStartRoute.POST env request tenantId db in
     (CycleStartRoute.processEnv env name = None
      ∨ CycleStartRoute.processEnv env name = Some "" →
      out = (db, respond 500 (error_body "Missing DASHBOARD_ADMIN_TOKEN.")))
     ∧ (∀ expected, CycleStartRoute.processEnv env name = Some expected →
                    expected ≠ "" →
                    headers_get request "x-admin-token" ≠ Some expected →
                    out = (db, respond 401 (error_body "Unauthorized")))
     ∧ (out.1 ≠ db ∨ status out.2 = 200%nat →
        ∃ expected, CycleStartRoute.processEnv env name = Some expected
                    ∧ headers_get request "x-admin-token" = Some expected))
  ∧ (∀ (env : IntakeRoute.Env),
       let name := "INTAKE_SHARED_SECRET" in
       let out := IntakeRoute.POST is_uuid is_url env request db in
       (IntakeRoute.processEnv env name = None
        ∨ IntakeRoute.processEnv env name = Some "" →
        out = (db, respond 500 (error_body "Missing INTAKE_SHARED_SECRET.")))
       ∧ (∀ expected, IntakeRoute.processEnv env name = Some expected →
                      expected ≠ "" →
                      headers_get request "x-intake-token" ≠ Some expected →
                      out = (db, respond 401 (error_body "Unauthorized")))
       ∧ (out.1 ≠ db ∨ status out.2 = 200%nat →
          ∃ expected, IntakeRoute.processEnv env name = Some expected
                      ∧ headers_get request "x-intake-token" = Some expected)).
Proof.
  split.
  - intros env tenantId name out. subst name out. split_and!.
    + intros Hunset. unfold CycleStartRoute.POST, CycleStartRoute.requireAdminToken.
      by rewrite env_value_empty.
    + intros expected Hset Hne Hhdr.
      unfold CycleStartRoute.POST, CycleStartRoute.requireAdminToken.
      rewrite (env_value_set _ _ expected) by done.
      by rewrite token_matches_false.
    + intros Hacc.
      assert (∃ expected,
                env_value (CycleStartRoute.processEnv env) "DASHBOARD_ADMIN_TOKEN"
                = Some expected
                ∧ token_matches (headers_get request "x-admin-token") expected = true)
        as (expected & He & Ht).
      { destruct Hacc as [Hch|H200]; [by apply (cycle_start_POST_changed _ _ tenantId db)|].
        destruct (CycleStartRoute.POST env request tenantId db) as [db' resp] eqn:HP.
        destruct (cycle_start_POST_200 _ _ _ _ _ _ HP H200)
          as (expected & _ & _ & _ & _ & He & Ht & _).
        by exists expected. }
      exists expected. split; [by apply env_value_Some | by apply token_matches_true].
  - intros env name out. subst name out. split_and!.
    + intros Hunset. unfold IntakeRoute.POST, IntakeRoute.requireIntakeToken.
      by rewrite env_value_empty.
    + intros expected Hset Hne Hhdr.
      unfold IntakeRoute.POST, IntakeRoute.requireIntakeToken.
      rewrite (env_value_set _ _ expected) by done.
      by rewrite token_matches_false.
    + intros Hacc.
      destruct (IntakeRoute.POST is_uuid is_url env request db) as [db' resp] eqn:HP.
      destruct (intake_POST_accepted _ _ _ _ _ _ _ HP Hacc)
        as (expected & _ & _ & He & Ht & _).
      exists expected. split; [by apply env_value_Some | by apply token_matches_true].
Qed.

Lemma token_guards_reject_before_any_write_witness :
  CycleStartRoute.POST Sample.startEnv (Sample.startRequest "guess" "2026-04-01")
                       "tenant-1" Sample.database
  = (Sample.database, respond 401 (error_body "Unauthorized"))
  ∧ IntakeRoute.POST Sample.is_uuid Sample.is_url Sample.intakeEnv
                     (Sample.intakeRequest "guess") Sample.database
    = (Sample.database, respond 401 (error_body "Unauthorized"))
  ∧ status (IntakeRoute.POST Sample.is_uuid Sample.is_url Sample.intakeEnv
                             (Sample.intakeRequest "intake-secret") Sample.database).2
    = 200%nat.
Proof.
  destruct (token_guards_reject_before_any_write Sample.is_uuid Sample.is_url
              (Sample.startRequest "guess" "2026-04-01") Sample.database) as [Hadmin _].
  destruct (token_guards_reject_before_any_write Sample.is_uuid Sample.is_url
              (Sample.intakeRequest "guess") Sample.database) as [_ Hintake].
  specialize (Hadmin Sample.startEnv "tenant-1"). cbv zeta in Hadmin.
  specialize (Hintake Sample.intakeEnv). cbv zeta in Hintake.
  destruct Hadmin as (_ & Hadmin & _). destruct Hintake as (_ & Hintake & _).
  split_and!.
  - apply (Hadmin "admin-token"); [reflexivity|discriminate|discriminate].
  - apply (Hintake "intake-secret"); [reflexivity|discriminate|discriminate].
  - reflexivity.
Defined.

End TokenGuards.

(** ** Creating a tenant *)

Section TenantCreation.
Import Http.

Lemma insert_tenant_Ok (f : Db.fault) (new_id : string) (row : string → Db.tenant)
    (db db1 : Db.t) (tenant : Db.tenant) :
  Db.insert_tenant f new_id row db = (db1, Db.Ok tenant) →
  tenant = row new_id
  ∧ (Db.t_id tenant ∉ Db.t_id <$> Db.tenants db)
  ∧ db1 = Db.with_tenants db (Db.tenants db ++ [tenant]).
Proof.
  unfold Db.insert_tenant. destruct f; [|done].
  destruct (Db.in_enum _ _); [|done]. cbn [negb].
  destruct (Db.fresh_keys _ _) eqn:Hfresh; [|done]. cbn [negb].
  intros [= <- <-]. split_and!; [done| |done]. by apply fresh_keys_single.
Qed.

Lemma insert_tenant_Error (f : Db.fault) (new_id : string) (row : string → Db.tenant)
    (db db1 : Db.t) (message : string) :
  Db.insert_tenant f new_id row db = (db1, Db.Error message) → db1 = db.
Proof.
  unfold Db.insert_tenant. destruct f; [|by intros [= <-]].
  repeat (match goal with |- context [if ?b then _ else _] => destruct b end; try done);
    by intros [= <-].
Qed.

Lemma insert_tenant_user_failed (f : Db.fault) (new_id tid uid role : string)
    (db db2 : Db.t) (message : string) :
  Db.insert_tenant_user f new_id tid uid role db = (db2, Some message) → db2 = db.
Proof.
  unfold Db.insert_tenant_user. destruct f; [|by intros [= <-]].
  repeat (match goal with |- context [if ?b then _ else _] => destruct b end; try done);
    by intros [= <-].
Qed.

Lemma insert_tenant_user_Ok (f : Db.fault) (new_id tid uid role : string)
    (db db2 : Db.t) :
  Db.insert_tenant_user f new_id tid uid role db = (db2, None) →
  Db.tenants db2 = Db.tenants db
  ∧ Db.tenant_users db2
    = (Db.tenant_users db ++ [{| Db.tu_id := new_id; Db.tu_tenant_id := tid;
                                 Db.tu_user_id := uid; Db.tu_role := role |}])%list.
Proof.
  unfold Db.insert_tenant_user. destruct f; [|done].
  repeat (match goal with |- context [if ?b then _ else _] => destruct b end; try done).
  by intros [= <-].
Qed.

Lemma filter_out_fresh_tenant (tid : string) (l : list Db.tenant) :
  tid ∉ Db.t_id <$> l →
  List.filter (fun r => negb (bool_decide (Db.t_id r = tid))) l = l.
Proof.
  induction l as [|r l IH]; [done|]. cbn.
  intros Hnot. rewrite bool_decide_false.
  - cbn. f_equal. apply IH. intros Hin. apply Hnot. by right.
  - intros E. apply Hnot. rewrite <- E. by left.
Qed.

(** Deleting a tenant that was just appended under a fresh id gives back
    the tenants there were. *)
Lemma delete_tenant_just_created (tenant : Db.tenant) (db : Db.t) :
  Db.t_id tenant ∉ Db.t_id <$> Db.tenants db →
  Db.tenants (Db.delete_tenant Db.NoFault (Db.t_id tenant)
                (Db.with_tenants db (Db.tenants db ++ [tenant]))).1
  = Db.tenants db.
Proof.
  intros Hfresh. unfold Db.delete_tenant. cbn.
  rewrite List.filter_app, filter_out_fresh_tenant by done. cbn.
  rewrite bool_decide_true by done. cbn. by rewrite app_nil_r.
Qed.

(** The parts of a request to [POST /api/tenants] that reaches the two
    inserts. *)
Lemma tenants_POST_reaches_inserts (env : TenantsRoute.Env) (request : Request)
    (db : Db.t) (authHeader userId : string) (body : Js.json)
    (data : TenantsRoute.TenantPayload) :
  headers_get request "authorization" = Some authHeader →
  String.prefix "Bearer " authHeader = true →
  is_Some (env_value (TenantsRoute.processEnv env) "NEXT_PUBLIC_SUPABASE_URL") →
  is_Some (env_value (TenantsRoute.processEnv env) "NEXT_PUBLIC_SUPABASE_ANON_KEY") →
  TenantsRoute.getUser env (TenantsRoute.bearer_token authHeader) = Some userId →
  json request = Return body →
  TenantsRoute.createTenantSchema body = Some data →
  TenantsRoute.adminClient env = Return () →
  TenantsRoute.POST env request db
  = match Db.insert_tenant (TenantsRoute.tenantFault env) (TenantsRoute.newTenantId env)
            (fun id =>
               {| Db.t_id := id; Db.t_name := TenantsRoute.name data;
                  Db.t_package_tier := TenantsRoute.package_tier data;
                  Db.t_niche := Js.or_null (TenantsRoute.niche data);
                  Db.t_timezone := Js.or_null (TenantsRoute.timezone data);
                  Db.t_currency := Js.or_null (TenantsRoute.currency data) |}) db with
    | (db1, Db.Error message) => (db1, respond 500 (error_body message))
    | (db1, Db.Ok tenant) =>
        match Db.insert_tenant_user (TenantsRoute.memberFault env)
                (TenantsRoute.newMemberId env) (Db.t_id tenant) userId "owner" db1 with
        | (db2, Some message) =>
            ((Db.delete_tenant (TenantsRoute.rollbackFault env) (Db.t_id tenant) db2).1,
             respond 500 (error_body message))
        | (db2, None) => (db2, respond 200 (ok_tenant tenant))
        end
    end.
Proof.
  intros Hh Hp [u Hu] [k Hk] Hg Hj Hs Ha. unfold TenantsRoute.POST.
  by rewrite Hh, Hp, Hu, Hk, Hg, Hj, Hs, Ha.
Qed.

(** C8.  In [POST /api/tenants], when the insert of the caller's owner
    membership fails after the tenant row was inserted, the handler sends
    the delete of that tenant and answers 500 with the insert's message;
    once the delete is carried out the tenants are those there were
    before.  So a request that is not answered 200, and whose delete if
    there was one is carried out, leaves no tenant behind, and one
    answered 200 leaves the new tenant together with its owner
    membership.  The handler does not look at the result of the delete. *)
Theorem tenant_creation_rolls_back_on_error
    (env : TenantsRoute.Env) (request : Request) (db : Db.t) :
  let out := TenantsRoute.POST env request db in
  (∀ authHeader userId body data db1 tenant db2 message,
     headers_get request "authorization" = Some authHeader →
     String.prefix "Bearer " authHeader = true →
     is_Some (env_value (TenantsRoute.processEnv env) "NEXT_PUBLIC_SUPABASE_URL") →
     is_Some (env_value (TenantsRoute.processEnv env) "NEXT_PUBLIC_SUPABASE_ANON_KEY") →
     TenantsRoute.getUser env (TenantsRoute.bearer_token authHeader) = Some userId →
     json request = Return body →
     TenantsRoute.createTenantSchema body = Some data →
     TenantsRoute.adminClient env = Return () →
     Db.insert_tenant (TenantsRoute.tenantFault env) (TenantsRoute.newTenantId env)
       (fun id =>
          {| Db.t_id := id; Db.t_name := TenantsRoute.name data;
             Db.t_package_tier := TenantsRoute.package_tier data;
             Db.t_niche := Js.or_null (TenantsRoute.niche data);
             Db.t_timezone := Js.or_null (TenantsRoute.timezone data);
             Db.t_currency := Js.or_null (TenantsRoute.currency data) |}) db
     = (db1, Db.Ok tenant) →
     Db.insert_tenant_user (TenantsRoute.memberFault env) (TenantsRoute.newMemberId env)
       (Db.t_id tenant) userId "owner" db1 = (db2, Some message) →
     out = ((Db.delete_tenant (TenantsRoute.rollbackFault env) (Db.t_id tenant) db1).1,
            respond 500 (error_body message))
     ∧ tenant ∈ Db.tenants db1
     ∧ (TenantsRoute.rollbackFault env = Db.NoFault →
        Db.tenants out.1 = Db.tenants db
        ∧ Db.t_id tenant ∉ (Db.t_id <$> Db.tenants out.1)))
  ∧ (status out.2 ≠ 200%nat → TenantsRoute.rollbackFault env = Db.NoFault →
     Db.tenants out.1 = Db.tenants db)
  ∧ (status out.2 = 200%nat →
     ∃ tenant member,
       out.2 = respond 200 (ok_tenant tenant)
       ∧ Db.tenants out.1 = (Db.tenants db ++ [tenant])%list
       ∧ member ∈ Db.tenant_users out.1
       ∧ Db.tu_tenant_id member = Db.t_id tenant
       ∧ Db.tu_role member = "owner").
Proof.
  intros out. subst out. split_and!.
  - intros authHeader userId body data db1 tenant db2 message
           Hh Hp Hu Hk Hg Hj Hs Ha Ht Hm.
    rewrite (tenants_POST_reaches_inserts env request db authHeader userId body data)
      by done.
    rewrite Ht, Hm. cbn [fst].
    apply insert_tenant_user_failed in Hm as ->.
    apply insert_tenant_Ok in Ht as (_ & Hfresh & ->).
    split_and!; [done| |].
    + cbn. apply elem_of_app. right. by left.
    + intros ->. rewrite delete_tenant_just_created by done. done.
  - unfold TenantsRoute.POST.
    repeat match goal with
           | |- context [match ?x with _ => _ end] =>
               lazymatch x with
               | Db.insert_tenant _ _ _ _ => fail
               | Db.insert_tenant_user _ _ _ _ _ _ => fail
               | _ => destruct x eqn:?
               end
           end; try done.
    destruct (Db.insert_tenant _ _ _ _) as [db1 [tenant|msg]] eqn:Ht.
    + destruct (Db.insert_tenant_user _ _ _ _ _ _) as [db2 [msg|]] eqn:Hm; [|done].
      intros _ ->. cbn [fst].
      apply insert_tenant_user_failed in Hm as ->.
      apply insert_tenant_Ok in Ht as (_ & Hfresh & ->).
      by apply delete_tenant_just_created.
    + intros _ _. cbn [fst]. by apply insert_tenant_Error in Ht as ->.
  - unfold TenantsRoute.POST.
    repeat match goal with
           | |- context [match ?x with _ => _ end] =>
               lazymatch x with
               | Db.insert_tenant _ _ _ _ => fail
               | Db.insert_tenant_user _ _ _ _ _ _ => fail
               | _ => destruct x eqn:?
               end
           end; try done.
    destruct (Db.insert_tenant _ _ _ _) as [db1 [tenant|msg]] eqn:Ht; [|done].
    destruct (Db.insert_tenant_user _ _ _ _ _ _) as [db2 [msg|]] eqn:Hm; [done|].
    intros _. cbn [fst snd].
    apply insert_tenant_user_Ok in Hm as [Htenants Husers].
    apply insert_tenant_Ok in Ht as (_ & Hfresh & ->).
    eexists tenant, _.
    split_and!;
      [done|by rewrite Htenants
      |rewrite Husers; apply elem_of_app; right; apply list_elem_of_here|done|done].
Qed.

(** When the database refuses the delete as well, the request is
    answered 500 and the new tenant stays, with no membership. *)
Lemma tenant_creation_leaves_tenant_when_delete_fails :
  status (TenantsRoute.POST Cases.tenantsEnvNoRollback Sample.tenantsRequest
            Sample.database).2 = 500%nat
  ∧ Db.t_id <$> Db.tenants Sample.database = ["tenant-1"]
  ∧ Db.t_id <$> Db.tenants (TenantsRoute.POST Cases.tenantsEnvNoRollback
                              Sample.tenantsRequest Sample.database).1
    = ["tenant-1"; "tenant-2"]
  ∧ List.filter (fun m => bool_decide (Db.tu_tenant_id m = "tenant-2"))
      (Db.tenant_users (TenantsRoute.POST Cases.tenantsEnvNoRollback
                          Sample.tenantsRequest Sample.database).1) = [].
Proof. split_and!; reflexivity. Qed.

Lemma tenant_creation_rolls_back_on_error_witness :
  status (TenantsRoute.POST (Sample.tenantsEnv (Db.Fault "connection lost"))
                            Sample.tenantsRequest Sample.database).2 = 500%nat
  ∧ Db.tenants (TenantsRoute.POST (Sample.tenantsEnv (Db.Fault "connection lost"))
                                  Sample.tenantsRequest Sample.database).1
    = Db.tenants Sample.database.
Proof.
  split; [reflexivity|].
  destruct (tenant_creation_rolls_back_on_error
              (Sample.tenantsEnv (Db.Fault "connection lost"))
              Sample.tenantsRequest Sample.database) as (_ & Hfailed & _).
  apply Hfailed; [discriminate|reflexivity].
Defined.

End TenantCreation.

(** ** Row-level security *)

Section RowLevelSecurity.
Import Rls.

Variable data : string → list row.

Lemma readable_tenant_users_migration (auth_uid : option string) :
  readable_tenant_users migration data auth_uid
  = List.filter (column_is_auth_uid auth_uid "user_id") (data "tenant_users").
Proof.
  unfold readable_tenant_users.
  replace (bool_decide ("tenant_users" ∈ rls_enabled migration)) with true
    by (vm_compute; reflexivity).
  replace (policies_for migration "tenant_users" Select)
    with [{| pol_name := "tenant_users_select_self"; pol_table := "tenant_users";
             pol_command := Select; pol_using := Some (equals_auth_uid "user_id");
             pol_with_check := None |}] by (vm_compute; reflexivity).
  apply List.filter_ext. intros r. cbn. by rewrite orb_false_r.
Qed.

Lemma column_is_auth_uid_true (user col : string) (r : row) :
  column_is_auth_uid (Some user) col r = true ↔ r !! col = Some user.
Proof.
  unfold column_is_auth_uid. destruct (r !! col) as [v|]; [|done].
  rewrite bool_decide_eq_true. split; congruence.
Qed.

(** The policy on [tenant_users] hides no row that [is_tenant_member]
    looks for: the function finds a membership exactly when there is
    one. *)
Lemma is_tenant_member_spec (user tenant : string) :
  is_tenant_member migration data (Some user) (Some tenant) = true
  ↔ Spec.spec_member data user tenant.
Proof.
  unfold is_tenant_member, Spec.spec_member.
  rewrite readable_tenant_users_migration, existsb_exists.
  split.
  - intros (tu & [Hin Hself]%filter_In & [Ht Hu]%andb_true_iff).
    exists tu. split_and!.
    + by apply list_elem_of_In.
    + by apply bool_decide_eq_true in Ht.
    + by apply column_is_auth_uid_true.
  - intros (tu & Hin & Ht & Hu). exists tu. split.
    + apply filter_In. split; [by apply list_elem_of_In|].
      by apply column_is_auth_uid_true.
    + apply andb_true_iff. split; [by apply bool_decide_eq_true|].
      by apply column_is_auth_uid_true.
Qed.

Lemma is_tenant_member_anonymous (tenant : option string) :
  is_tenant_member migration data None tenant = false.
Proof.
  unfold is_tenant_member. destruct tenant as [t|]; [|done].
  rewrite readable_tenant_users_migration.
  assert (List.filter (column_is_auth_uid None "user_id") (data "tenant_users") = [])
    as ->; [|done].
  induction (data "tenant_users") as [|r l IH]; [done|].
  cbn. unfold column_is_auth_uid at 1. by destruct (r !! "user_id").
Qed.

(** What the migration leaves in the catalog for a tenant-scoped table:
    row-level security on, and for each command its one member policy. *)
Lemma tenant_scoped_catalog (tbl : string) :
  tbl ∈ tenant_scoped_tables →
  protected migration tbl = true
  ∧ (∃ p, policies_for migration tbl Select = [p]
          ∧ pol_using p = Some (is_tenant_member_of "tenant_id"))
  ∧ (∃ p, policies_for migration tbl Insert = [p]
          ∧ pol_using p = None
          ∧ pol_with_check p = Some (is_tenant_member_of "tenant_id"))
  ∧ (∃ p, policies_for migration tbl Update = [p]
          ∧ pol_using p = Some (is_tenant_member_of "tenant_id")
          ∧ pol_with_check p = Some (is_tenant_member_of "tenant_id"))
  ∧ (∃ p, policies_for migration tbl Delete = [p]
          ∧ pol_using p = Some (is_tenant_member_of "tenant_id")).
Proof.
  intros Hin. apply list_elem_of_In in Hin. unfold tenant_scoped_tables in Hin.
  cbn in Hin.
  repeat (destruct Hin as [<-|Hin];
          [split_and!;
           [vm_compute; reflexivity
           |eexists; split; [vm_compute; reflexivity|reflexivity]
           |eexists; split_and!; [vm_compute; reflexivity|reflexivity|reflexivity]
           |eexists; split_and!; [vm_compute; reflexivity|reflexivity|reflexivity]
           |eexists; split; [vm_compute; reflexivity|reflexivity]]|]).
  done.
Qed.

Lemma tenant_scoped_access (auth_uid : option string) (tbl : string) :
  tbl ∈ tenant_scoped_tables →
  let member r := is_tenant_member migration data auth_uid (r !! "tenant_id") in
  (∀ r, can_select migration data auth_uid tbl r = member r)
  ∧ (∀ r, can_insert migration data auth_uid tbl r = member r)
  ∧ (∀ old new, can_update migration data auth_uid tbl old new = member old && member new)
  ∧ (∀ r, can_delete migration data auth_uid tbl r = member r).
Proof.
  intros Hin member.
  destruct (tenant_scoped_catalog tbl Hin)
    as (Hp & (ps & Hs & Hsu) & (pi & Hi & Hiu & Hic) & (pu & Hu & Huu & Huc)
        & (pd & Hd & Hdu)).
  unfold can_select, can_insert, can_update, can_delete, passes_using, passes_check.
  rewrite Hp, Hs, Hi, Hu, Hd. cbn.
  rewrite Hsu, Hic, Huu, Huc, Hdu. cbn. subst member. cbn.
  split_and!; intros; rewrite ?orb_false_r, ?andb_diag; done.
Qed.

(** C5.  On each table [create_member_policies] was applied to, a signed-in
    user can select, insert or delete a row exactly when a row of
    [tenant_users] links that user to the row's tenant_id, and can update
    it exactly when that holds for the row as it is and as it would be.
    So of two users with no tenant in common, one can neither read nor
    write any row the other can read; an anonymous caller can do
    nothing. *)
Theorem member_policies_scope_rows_to_tenant_members (user tbl : string) :
  tbl ∈ tenant_scoped_tables →
  (∀ r tenant,
     r !! "tenant_id" = Some tenant →
     (can_select migration data (Some user) tbl r = true
      ↔ Spec.spec_member data user tenant)
     ∧ (can_insert migration data (Some user) tbl r = true
        ↔ Spec.spec_member data user tenant)
     ∧ (can_delete migration data (Some user) tbl r = true
        ↔ Spec.spec_member data user tenant)
     ∧ (∀ new tenant',
          new !! "tenant_id" = Some tenant' →
          can_update migration data (Some user) tbl r new = true
          ↔ Spec.spec_member data user tenant ∧ Spec.spec_member data user tenant'))
  ∧ (∀ other r new,
       (∀ t, ¬ (Spec.spec_member data user t ∧ Spec.spec_member data other t)) →
       can_select migration data (Some user) tbl r = true →
       can_select migration data (Some other) tbl r = false
       ∧ can_insert migration data (Some other) tbl r = false
       ∧ can_update migration data (Some other) tbl r new = false
       ∧ can_delete migration data (Some other) tbl r = false)
  ∧ (∀ r new,
       can_select migration data None tbl r = false
       ∧ can_insert migration data None tbl r = false
       ∧ can_update migration data None tbl r new = false
       ∧ can_delete migration data None tbl r = false).
Proof.
  intros Hin. split_and!.
  - intros r tenant Ht.
    destruct (tenant_scoped_access (Some user) tbl Hin) as (Hs & Hi & Hu & Hd).
    rewrite Hs, Hi, Hd, Ht. split_and!; try apply is_tenant_member_spec.
    intros new tenant' Ht'. rewrite Hu, Ht, Ht', andb_true_iff.
    by rewrite !is_tenant_member_spec.
  - intros other r new Hdisjoint.
    destruct (tenant_scoped_access (Some user) tbl Hin) as (Hs & _).
    destruct (tenant_scoped_access (Some other) tbl Hin) as (Hs' & Hi' & Hu' & Hd').
    rewrite Hs, Hs', Hi', Hu', Hd'.
    destruct (r !! "tenant_id") as [tenant|] eqn:Ht; [|done].
    intros Hmember%is_tenant_member_spec.
    assert (is_tenant_member migration data (Some other) (Some tenant) = false) as ->;
      [|done].
    apply not_true_is_false. intros Hother%is_tenant_member_spec.
    by apply (Hdisjoint tenant).
  - intros r new.
    destruct (tenant_scoped_access None tbl Hin) as (Hs & Hi & Hu & Hd).
    rewrite Hs, Hi, Hu, Hd. by rewrite !is_tenant_member_anonymous.
Qed.

(** The tenants themselves and the memberships are read-only for users:
    the migration gives those two tables a select policy and no other. *)
Lemma tenants_and_memberships_read_only (auth_uid : option string) (r new : row) :
  can_insert migration data auth_uid "tenants" r = false
  ∧ can_update migration data auth_uid "tenants" r new = false
  ∧ can_delete migration data auth_uid "tenants" r = false
  ∧ can_insert migration data auth_uid "tenant_users" r = false
  ∧ can_update migration data auth_uid "tenant_users" r new = false
  ∧ can_delete migration data auth_uid "tenant_users" r = false.
Proof.
  unfold can_insert, can_update, can_delete, passes_check, passes_using.
  replace (protected migration "tenants") with true by (vm_compute; reflexivity).
  replace (protected migration "tenant_users") with true by (vm_compute; reflexivity).
  replace (policies_for migration "tenants" Insert) with (@nil policy)
    by (vm_compute; reflexivity).
  replace (policies_for migration "tenants" Update) with (@nil policy)
    by (vm_compute; reflexivity).
  replace (policies_for migration "tenants" Delete) with (@nil policy)
    by (vm_compute; reflexivity).
  replace (policies_for migration "tenant_users" Insert) with (@nil policy)
    by (vm_compute; reflexivity).
  replace (policies_for migration "tenant_users" Update) with (@nil policy)
    by (vm_compute; reflexivity).
  replace (policies_for migration "tenant_users" Delete) with (@nil policy)
    by (vm_compute; reflexivity).
  cbn. by rewrite !andb_false_r.
Qed.

End RowLevelSecurity.

Section RowLevelSecurityWitness.
Import Rls.

Lemma member_policies_scope_rows_to_tenant_members_witness :
  "intake_events" ∈ tenant_scoped_tables
  ∧ can_select migration Sample.rows (Some "user-1") "intake_events" Sample.event_row = true
  ∧ can_select migration Sample.rows (Some "user-2") "intake_events" Sample.event_row = false.
Proof.
  assert ("intake_events" ∈ tenant_scoped_tables) as Hin.
  { apply list_elem_of_In. cbn. tauto. }
  split; [exact Hin|].
  destruct (member_policies_scope_rows_to_tenant_members Sample.rows "user-1"
              "intake_events" Hin) as (Hiff & Hother & _).
  assert (can_select migration Sample.rows (Some "user-1") "intake_events"
                     Sample.event_row = true) as Hsel by reflexivity.
  split; [exact Hsel|].
  apply (Hother "user-2" Sample.event_row Sample.event_row); [|exact Hsel].
  intros t [(tu1 & Hin1 & Ht1 & Hu1) (tu2 & Hin2 & Ht2 & Hu2)].
  apply list_elem_of_In in Hin1, Hin2. cbn in Hin1, Hin2.
  destruct Hin1 as [<-|[<-|[]]]; destruct Hin2 as [<-|[<-|[]]];
    vm_compute in Ht1, Ht2, Hu1, Hu2; congruence.
Defined.

End RowLevelSecurityWitness.

(** ** The CSV export *)

Section CsvExport.
Import TransactionsPage.

Variable String_of_number : Js.number → string.

Lemma exportCSV_rows_unfold (categories : list Category) (filtered : list Transaction) :
  exportCSV_rows String_of_number categories filtered
  = header :: (csv_row String_of_number categories <$> filtered).
Proof.
  unfold exportCSV_rows.
  assert (∀ acc, foldl (fun rows t => (rows ++ [csv_row String_of_number categories t])%list)
                       acc filtered
                 = (acc ++ (csv_row String_of_number categories <$> filtered))%list) as H.
  { induction filtered as [|t l IH]; intros acc; cbn.
    - by rewrite app_nil_r.
    - rewrite IH. by rewrite <- app_assoc. }
  by rewrite H.
Qed.

Lemma catMap_snoc (cs : list Category) (c : Category) :
  catMap (cs ++ [c]) = <[cat_category_id c := c]> (catMap cs).
Proof. unfold catMap. by rewrite foldl_app. Qed.

(** The map holds, for each id, the last category of the list with it. *)
Lemma catMap_lookup (cs : list Category) (k : string) :
  catMap cs !! k = List.find (fun c => bool_decide (cat_category_id c = k)) (reverse cs).
Proof.
  induction cs as [|c cs IH] using rev_ind; [done|].
  rewrite catMap_snoc, reverse_app. cbn.
  destruct (bool_decide_reflect (cat_category_id c = k)) as [->|Hne].
  - by rewrite lookup_insert_eq.
  - by rewrite lookup_insert_ne.
Qed.

Lemma catMap_lookup_None (cs : list Category) (k : string) :
  (∀ c, c ∈ cs → cat_category_id c ≠ k) → catMap cs !! k = None.
Proof.
  intros Hno. rewrite catMap_lookup.
  destruct (List.find _ _) as [c|] eqn:Hfind; [|done].
  apply find_some in Hfind as [Hin Hk]. apply bool_decide_eq_true in Hk.
  exfalso. apply (Hno c); [|done]. apply elem_of_reverse. by apply list_elem_of_In.
Qed.

Lemma string_of_list_ascii_app (l1 l2 : list Ascii.ascii) :
  String.string_of_list_ascii (l1 ++ l2)
  = String.string_of_list_ascii l1 +:+ String.string_of_list_ascii l2.
Proof. induction l1 as [|a l1 IH]; [done|]. cbn. by rewrite IH. Qed.

Lemma replace_quotes_spec (s : string) :
  Js.replace_char Js.dquote (quote +:+ quote) s
  = String.string_of_list_ascii
      (flat_map (fun a => if bool_decide (a = Js.dquote) then [Js.dquote; Js.dquote]
                          else [a])
                (String.list_ascii_of_string s)).
Proof.
  induction s as [|a s IH]; [done|]. cbn.
  destruct (bool_decide (a = Js.dquote)); cbn; by rewrite IH.
Qed.

Lemma quoted_spec (s : string) : quoted s = Spec.spec_csv_quoted s.
Proof.
  unfold quoted, Spec.spec_csv_quoted. rewrite replace_quotes_spec.
  by rewrite !string_of_list_ascii_app.
Qed.

Lemma unescape_doubled (l : list Ascii.ascii) :
  Spec.spec_csv_unescape
    (flat_map (fun a => if bool_decide (a = Js.dquote) then [Js.dquote; Js.dquote]
                        else [a]) l)
  = Some l.
Proof.
  induction l as [|a l IH]; [done|]. cbn.
  destruct (bool_decide_reflect (a = Js.dquote)) as [->|Hne]; cbn.
  - rewrite !bool_decide_true by done. by rewrite IH.
  - rewrite bool_decide_false by done. by rewrite IH.
Qed.

(** Reading a quoted description back gives the description. *)
Lemma quoted_reads_back (s : string) : Spec.spec_csv_read (quoted s) = Some s.
Proof.
  rewrite quoted_spec. unfold Spec.spec_csv_read, Spec.spec_csv_quoted.
  rewrite String.list_ascii_of_string_of_list_ascii. cbn [app].
  rewrite reverse_app. change (reverse [Js.dquote]) with [Js.dquote]. cbn [app].
  rewrite !bool_decide_true by done. cbn [andb].
  rewrite reverse_involutive, unescape_doubled. cbn [fmap option_fmap option_map].
  by rewrite String.string_of_list_ascii_of_string.
Qed.

(** *** Reading the exported text back *)

Lemma append_empty (x : string) : x +:+ "" = x.
Proof.
  induction x as [|a x IH]; [done|].
  change (String a x +:+ "") with (String a (x +:+ "")). by rewrite IH.
Qed.

Lemma csv_cut_cons (sep : Ascii.ascii) (inside : bool) (text : string) :
  ∃ piece pieces, Spec.spec_csv_cut sep inside text = piece :: pieces.
Proof.
  destruct text as [|a rest]; cbn; [by eexists _, _|].
  destruct (negb inside && _); [by eexists _, _|].
  destruct (Spec.spec_csv_cut _ _ rest); by eexists _, _.
Qed.

Lemma csv_cut_app (sep : Ascii.ascii) (x : string) :
  ∀ inside j rest,
    Spec.spec_csv_scan sep inside x = Some j →
    Spec.spec_csv_cut sep inside (x +:+ rest)
    = match Spec.spec_csv_cut sep j rest with
      | piece :: pieces => (x +:+ piece) :: pieces
      | [] => [x]
      end.
Proof.
  induction x as [|a x IH]; intros inside j rest; cbn [Spec.spec_csv_scan].
  - intros [= ->]. change ("" +:+ rest) with rest.
    by destruct (csv_cut_cons sep j rest) as (p & ps & ->).
  - change (String a x +:+ rest) with (String a (x +:+ rest)).
    cbn [Spec.spec_csv_cut]. destruct (negb inside && bool_decide (a = sep)); [done|].
    intros H. rewrite (IH _ _ _ H).
    by destruct (csv_cut_cons sep j rest) as (p & ps & ->).
Qed.

Lemma csv_scan_app (sep : Ascii.ascii) (x : string) :
  ∀ inside y,
    Spec.spec_csv_scan sep inside (x +:+ y)
    = Spec.spec_csv_scan sep inside x ≫= fun j => Spec.spec_csv_scan sep j y.
Proof.
  induction x as [|a x IH]; intros inside y; [done|].
  change (String a x +:+ y) with (String a (x +:+ y)). cbn [Spec.spec_csv_scan].
  destruct (negb inside && bool_decide (a = sep)); [done|]. apply IH.
Qed.

(** A text whose pieces hold no separator outside quotes and end outside
    quotes is cut back into its pieces. *)
Lemma csv_cut_join (sep : Ascii.ascii) (xs : list string) :
  xs ≠ [] →
  Forall (fun x => Spec.spec_csv_scan sep false x = Some false) xs →
  Spec.spec_csv_cut sep false (Js.join (String sep "") xs) = xs.
Proof.
  induction xs as [|x xs IH]; [done|]. intros _ [Hx Hxs]%Forall_cons.
  destruct xs as [|y xs].
  - cbn [Js.join]. rewrite <- (append_empty x) at 1.
    rewrite (csv_cut_app sep x false false "" Hx). cbn. by rewrite append_empty.
  - change (Js.join (String sep "") (x :: y :: xs))
      with (x +:+ String sep (Js.join (String sep "") (y :: xs))).
    rewrite (csv_cut_app sep x false false _ Hx).
    cbn [Spec.spec_csv_cut negb andb]. rewrite bool_decide_true by done.
    rewrite IH by done. by rewrite append_empty.
Qed.

Lemma csv_scan_join (sep : Ascii.ascii) (xs : list string) :
  Spec.spec_comma ≠ sep →
  Forall (fun x => Spec.spec_csv_scan sep false x = Some false) xs →
  Spec.spec_csv_scan sep false (Js.join "," xs) = Some false.
Proof.
  intros Hsep. induction xs as [|x xs IH]; [done|]. intros [Hx Hxs]%Forall_cons.
  destruct xs as [|y xs]; [done|].
  change (Js.join "," (x :: y :: xs))
    with (x +:+ String Spec.spec_comma (Js.join "," (y :: xs))).
  rewrite csv_scan_app, Hx. cbn [mbind option_bind Spec.spec_csv_scan negb andb].
  rewrite (bool_decide_false (Spec.spec_comma = sep)) by done.
  rewrite (bool_decide_false (Spec.spec_comma = Js.dquote)) by done.
  by apply IH.
Qed.

Lemma csv_scan_plain (sep : Ascii.ascii) (cell : string) :
  sep = Spec.spec_comma ∨ sep = Spec.spec_line_feed →
  Spec.spec_csv_plain cell = true →
  Spec.spec_csv_scan sep false cell = Some false.
Proof.
  intros Hsep. unfold Spec.spec_csv_plain.
  induction cell as [|a cell IH]; [done|]. cbn.
  intros [[[Hc Hl]%andb_true_iff Hq]%andb_true_iff Hrest]%andb_true_iff.
  apply negb_true_iff, bool_decide_eq_false in Hc, Hl, Hq.
  rewrite (bool_decide_false (a = sep)) by (destruct Hsep; congruence).
  rewrite (bool_decide_false (a = Js.dquote)) by done. by apply IH.
Qed.

Lemma csv_scan_quoted (sep : Ascii.ascii) (s : string) :
  sep ≠ Js.dquote → Spec.spec_csv_scan sep false (quoted s) = Some false.
Proof.
  intros Hsep.
  assert (∀ tail, Spec.spec_csv_scan sep true
                    (Js.replace_char Js.dquote (quote +:+ quote) s +:+ tail)
                  = Spec.spec_csv_scan sep true tail) as Hbody.
  { intros tail. induction s as [|a s IH]; [done|]. cbn [Js.replace_char].
    destruct (bool_decide_reflect (a = Js.dquote)) as [->|Hne].
    - change (((quote +:+ quote) +:+ Js.replace_char Js.dquote (quote +:+ quote) s)
                +:+ tail)
        with (String Js.dquote
                (String Js.dquote
                   (Js.replace_char Js.dquote (quote +:+ quote) s +:+ tail))).
      cbn [Spec.spec_csv_scan negb andb xorb]. rewrite !bool_decide_true by done.
      cbn [xorb negb andb]. rewrite (bool_decide_false (Js.dquote = sep)) by done.
      exact IH.
    - change (String a (Js.replace_char Js.dquote (quote +:+ quote) s) +:+ tail)
        with (String a (Js.replace_char Js.dquote (quote +:+ quote) s +:+ tail)).
      cbn [Spec.spec_csv_scan negb andb]. rewrite (bool_decide_false (a = Js.dquote)) by done.
      exact IH. }
  unfold quoted.
  change (quote +:+ Js.replace_char Js.dquote (quote +:+ quote) s +:+ quote)
    with (String Js.dquote (Js.replace_char Js.dquote (quote +:+ quote) s +:+ quote)).
  cbn [Spec.spec_csv_scan negb andb].
  rewrite (bool_decide_false (Js.dquote = sep)) by done.
  rewrite bool_decide_true by done. cbn [xorb]. rewrite Hbody.
  cbn. by rewrite bool_decide_true.
Qed.

(** The cells of a row whose cells other than the description are plain
    hold no separator outside quotes. *)
Lemma csv_row_closed (sep : Ascii.ascii) (categories : list Category) (t : Transaction) :
  sep = Spec.spec_comma ∨ sep = Spec.spec_line_feed →
  (∀ i cell,
     csv_row String_of_number categories t !! i = Some cell → i ≠ 1%nat →
     Spec.spec_csv_plain cell = true) →
  Forall (fun x => Spec.spec_csv_scan sep false x = Some false)
         (csv_row String_of_number categories t).
Proof.
  intros Hsep Hplain. unfold csv_row.
  repeat apply Forall_cons_2; [| |..|apply Forall_nil_2].
  - apply csv_scan_plain; [done|]. by apply (Hplain 0%nat).
  - apply csv_scan_quoted. by destruct Hsep as [-> | ->].
  - apply csv_scan_plain; [done|]. by apply (Hplain 2%nat).
  - apply csv_scan_plain; [done|]. by apply (Hplain 3%nat).
  - apply csv_scan_plain; [done|]. by apply (Hplain 4%nat).
  - apply csv_scan_plain; [done|]. by apply (Hplain 5%nat).
Qed.

(** C7.  The export is one header row, Date, Description, Category,
    Amount, Entity, Status, followed by one row per filtered transaction
    in the filtered order.  In each row the description is in double
    quotes with every double quote of it doubled (so it reads back as the
    description), the category cell is the name of the category with the
    transaction's category_id, or that raw id when there is none, and a
    null entity_id gives an empty cell.  The text exported begins with
    the header line; and when the cells other than the description hold
    no comma, line feed or double quote, the text read as CSV is exactly
    these rows: as many lines as rows, each cut at its commas into the
    six cells. *)
Theorem exportCSV_is_header_and_one_row_per_transaction
    (categories : list Category) (filtered : list Transaction) :
  let rows := exportCSV_rows String_of_number categories filtered in
  rows !! 0%nat = Some ["Date"; "Description"; "Category"; "Amount"; "Entity"; "Status"]
  ∧ List.length rows = S (List.length filtered)
  ∧ (∀ i t,
       filtered !! i = Some t →
       ∃ description_cell category_cell entity_cell,
         rows !! S i
         = Some [date t; description_cell; category_cell;
                 String_of_number (amount t); entity_cell; status t]
         ∧ description_cell = Spec.spec_csv_quoted (description t)
         ∧ Spec.spec_csv_read description_cell = Some (description t)
         ∧ ((∀ c, c ∈ categories → cat_category_id c ≠ category_id t) →
            category_cell = category_id t)
         ∧ (∀ c, List.find (fun c => bool_decide (cat_category_id c = category_id t))
                           (reverse categories) = Some c →
                 category_cell = category_name c)
         ∧ (entity_id t = None → entity_cell = "")
         ∧ (∀ e, entity_id t = Some e → entity_cell = e))
  ∧ Spec.spec_csv_cut Spec.spec_line_feed false
      (exportCSV String_of_number categories filtered) !! 0%nat
    = Some "Date,Description,Category,Amount,Entity,Status"
  ∧ (Forall (fun t => ∀ i cell,
               csv_row String_of_number categories t !! i = Some cell → i ≠ 1%nat →
               Spec.spec_csv_plain cell = true) filtered →
     Spec.spec_csv_records (exportCSV String_of_number categories filtered) = rows).
Proof.
  intros rows. subst rows. rewrite exportCSV_rows_unfold. split_and!.
  - done.
  - cbn. by rewrite length_fmap.
  - intros i t Hi. eexists _, _, _. split_and!.
    + rewrite lookup_cons, list_lookup_fmap, Hi. reflexivity.
    + apply quoted_spec.
    + apply quoted_reads_back.
    + intros Hno. by rewrite catMap_lookup_None.
    + intros c Hfind. by rewrite catMap_lookup, Hfind.
    + by intros ->.
    + by intros e ->.
  - unfold exportCSV. rewrite exportCSV_rows_unfold. cbn [fmap list_fmap].
    change (list_fmap _ _ ?f ?l) with (f <$> l).
    set (lines := Js.join "," <$> (csv_row String_of_number categories <$> filtered)).
    assert (Spec.spec_csv_scan Spec.spec_line_feed false (Js.join "," header)
            = Some false) as Hheader by reflexivity.
    destruct lines as [|line lines].
    + reflexivity.
    + change (Js.join newline (Js.join "," header :: line :: lines))
        with (Js.join "," header
                +:+ String Spec.spec_line_feed (Js.join newline (line :: lines))).
      rewrite (csv_cut_app _ _ false false _ Hheader).
      cbn [Spec.spec_csv_cut negb andb]. rewrite bool_decide_true by done.
      reflexivity.
  - intros Hplain. unfold exportCSV, Spec.spec_csv_records.
    rewrite exportCSV_rows_unfold.
    assert (Forall (fun row => row ≠ []
                      ∧ Forall (fun x => Spec.spec_csv_scan Spec.spec_comma false x
                                         = Some false) row
                      ∧ Forall (fun x => Spec.spec_csv_scan Spec.spec_line_feed false x
                                         = Some false) row)
                   (header :: (csv_row String_of_number categories <$> filtered)))
      as Hrows.
    { apply Forall_cons_2.
      - split; [done|]. split; by repeat constructor.
      - apply Forall_fmap. eapply Forall_impl; [exact Hplain|].
        intros t Ht. cbn. split; [done|].
        split; apply csv_row_closed; auto. }
    change newline with (String Spec.spec_line_feed "").
    rewrite csv_cut_join.
    + rewrite <- list_fmap_compose.
      rewrite <- (list_fmap_id (header :: _)) at 2.
      apply Forall_fmap_ext_1. eapply Forall_impl; [exact Hrows|].
      intros row (Hne & Hcomma & _). cbn.
      change "," with (String Spec.spec_comma ""). by apply csv_cut_join.
    + done.
    + apply Forall_fmap. eapply Forall_impl; [exact Hrows|].
      intros row (_ & _ & Hlf). cbn. by apply csv_scan_join.
Qed.

End CsvExport.

Section CsvExportWitness.
Import TransactionsPage.

Lemma exportCSV_is_header_and_one_row_per_transaction_witness :
  exportCSV_rows Sample.String_of_number Sample.categories Sample.transactions
  = [ ["Date"; "Description"; "Category"; "Amount"; "Entity"; "Status"];
      ["2026-02-10"; quote +:+ "Lash set" +:+ quote; "Service Revenue"; "1";
       "ENT-101"; "Reconciled"];
      ["2026-02-11";
       quote +:+ "Rent " +:+ quote +:+ quote +:+ "Feb" +:+ quote +:+ quote +:+ quote;
       "3100"; "0"; ""; "Paid"] ]
  ∧ List.length
      (exportCSV_rows Sample.String_of_number Sample.categories Sample.transactions)
    = 3%nat
  ∧ Spec.spec_csv_records
      (exportCSV Sample.String_of_number Sample.categories Sample.transactions)
    = exportCSV_rows Sample.String_of_number Sample.categories Sample.transactions.
Proof.
  split; [reflexivity|].
  destruct (exportCSV_is_header_and_one_row_per_transaction
              Sample.String_of_number Sample.categories Sample.transactions)
    as (_ & Hlength & _ & _ & Hread).
  split; [exact Hlength|]. apply Hread.
  repeat constructor; intros [|[|[|[|[|[|i]]]]]] cell; cbn; intros [= <-] Hi;
    done.
Defined.

End CsvExportWitness.

(** ** The intake flow *)

Section IntakeTable.
Import System.

Lemma in_enum_intake (st : string) :
  Db.in_enum Db.intake_status st = true → st ∈ ["new"; "categorized"; "posted"].
Proof. unfold Db.in_enum. apply bool_decide_eq_true. Qed.

Lemma tenant_exists_elem (d : Db.t) (tid : string) :
  Db.tenant_exists d tid = true → tid ∈ Db.t_id <$> Db.tenants d.
Proof. unfold Db.tenant_exists. apply bool_decide_eq_true. Qed.

Lemma events_ids_update_status (P : Db.intake_event → bool) (st : string)
    (l : list Db.intake_event) :
  Db.ie_id <$> ((fun r => if P r then Db.set_ie_status st r else r) <$> l)
  = Db.ie_id <$> l.
Proof.
  rewrite <- list_fmap_compose. apply list_fmap_ext.
  intros _ r _. cbn. by destruct (P r).
Qed.

Lemma update_cycle_status_leaves_intake f id st d :
  leaves_intake d (Db.update_cycle_status f id st d).1.
Proof.
  unfold Db.update_cycle_status. destruct f; [|done]. by destruct (Db.in_enum _ _).
Qed.

Lemma update_task_status_leaves_intake f id st d :
  leaves_intake d (Db.update_task_status f id st d).1.
Proof. unfold Db.update_task_status. by destruct f. Qed.

Lemma upsert_service_cycle_leaves_intake f new_id tid month st d :
  leaves_intake d (Db.upsert_service_cycle f new_id tid month st d).1.
Proof.
  unfold Db.upsert_service_cycle. destruct f; [|done].
  by repeat (match goal with |- context [match ?b with _ => _ end] => destruct b end).
Qed.

Lemma insert_cycle_tasks_leaves_intake f gen vs d :
  leaves_intake d (Db.insert_cycle_tasks f gen vs d).1.
Proof.
  unfold Db.insert_cycle_tasks. destruct f; [|done].
  by repeat (match goal with |- context [match ?b with _ => _ end] => destruct b end).
Qed.

Lemma insert_transaction_leaves_intake f new_id kept row d :
  leaves_intake d (Db.insert_transaction f new_id kept row d).1.
Proof.
  unfold Db.insert_transaction. destruct f; [|done].
  by repeat (match goal with |- context [match ?b with _ => _ end] => destruct b end).
Qed.

Lemma insert_tenant_user_leaves_intake f new_id tid uid role d :
  leaves_intake d (Db.insert_tenant_user f new_id tid uid role d).1.
Proof.
  unfold Db.insert_tenant_user. destruct f; [|done].
  by repeat (match goal with |- context [match ?b with _ => _ end] => destruct b end).
Qed.

Lemma leaves_intake_keys_ok (d d' : Db.t) :
  leaves_intake d d' → intake_keys_ok d → intake_keys_ok d'.
Proof. intros [He Ht]. unfold intake_keys_ok. by rewrite He, Ht. Qed.

(** What a status update does to [intake_events]. *)
Lemma update_intake_status_events f id st d :
  Db.tenants (Db.update_intake_status f id st d).1 = Db.tenants d
  ∧ (Db.intake_events (Db.update_intake_status f id st d).1 = Db.intake_events d
     ∨ (f = Db.NoFault ∧ Db.in_enum Db.intake_status st = true
        ∧ Db.intake_events (Db.update_intake_status f id st d).1
          = (fun r => if bool_decide (Db.ie_id r = id) then Db.set_ie_status st r else r)
              <$> Db.intake_events d)).
Proof.
  unfold Db.update_intake_status. destruct f; [|by split; [|left]].
  destruct (Db.in_enum _ _) eqn:He; [|by split; [|left]].
  split; [done|]. right. done.
Qed.

(** The row the database keeps differs from the row sent in its amount
    only. *)
Lemma kept_intake_event_Some kept r r' :
  Db.kept_intake_event kept r = Some r' →
  ∃ a, r' = Db.set_ie_amount a r
       ∧ match Db.ie_amount r with
         | None => a = None
         | Some n => ∃ n', kept n = Some n' ∧ a = Some n'
         end.
Proof.
  unfold Db.kept_intake_event. destruct (Db.ie_amount r) as [n|] eqn:Ha.
  - destruct (kept n) as [n'|] eqn:Hk; [|done]. intros [= <-].
    exists (Some n'). split; [done|]. by exists n'.
  - intros [= <-]. exists None. split; [|done]. destruct r. cbn in *. by subst.
Qed.

(** What an insert does to [intake_events]. *)
Lemma insert_intake_event_events f new_id kept row d :
  Db.tenants (Db.insert_intake_event f new_id kept row d).1 = Db.tenants d
  ∧ (Db.intake_events (Db.insert_intake_event f new_id kept row d).1 = Db.intake_events d
     ∨ ∃ r, Db.kept_intake_event kept (row new_id) = Some r
        ∧ (Db.insert_intake_event f new_id kept row d).2 = None
        ∧ Db.in_enum Db.intake_status (Db.ie_status r) = true
        ∧ Db.tenant_exists d (Db.ie_tenant_id r) = true
        ∧ (Db.ie_id r ∉ Db.ie_id <$> Db.intake_events d)
        ∧ Db.intake_events (Db.insert_intake_event f new_id kept row d).1
          = (Db.intake_events d ++ [r])%list).
Proof.
  unfold Db.insert_intake_event. destruct f; [|by split; [|left]].
  destruct (Db.kept_intake_event _ _) as [r|]; [|by split; [|left]].
  destruct (Db.in_enum _ _) eqn:He; cbn [negb]; [|by split; [|left]].
  destruct (Db.tenant_exists _ _) eqn:Ht; cbn [negb]; [|by split; [|left]].
  destruct (Db.fresh_keys _ _) eqn:Hf; cbn [negb]; [|by split; [|left]].
  split; [done|]. right. exists r. split_and!; try done. by apply fresh_keys_single.
Qed.

Lemma insert_intake_event_Ok f new_id kept row d :
  (Db.insert_intake_event f new_id kept row d).2 = None →
  ∃ r, Db.kept_intake_event kept (row new_id) = Some r
       ∧ (Db.ie_id r ∉ Db.ie_id <$> Db.intake_events d)
       ∧ Db.intake_events (Db.insert_intake_event f new_id kept row d).1
         = (Db.intake_events d ++ [r])%list.
Proof.
  unfold Db.insert_intake_event. destruct f; [|done].
  destruct (Db.kept_intake_event _ _) as [r|]; [|done].
  destruct (Db.in_enum _ _) eqn:He; cbn [negb]; [|done].
  destruct (Db.tenant_exists _ _) eqn:Ht; cbn [negb]; [|done].
  destruct (Db.fresh_keys _ _) eqn:Hf; cbn [negb]; [|done].
  intros _. exists r. split_and!; [done| |done]. by apply fresh_keys_single.
Qed.

Lemma insert_intake_event_failed f new_id kept row d message :
  (Db.insert_intake_event f new_id kept row d).2 = Some message →
  (Db.insert_intake_event f new_id kept row d).1 = d.
Proof.
  unfold Db.insert_intake_event. destruct f; [|done].
  destruct (Db.kept_intake_event _ _); [|done].
  by repeat (match goal with |- context [if ?b then _ else _] => destruct b end).
Qed.

Lemma statement_keeps_intake_keys (d d' : Db.t) :
  System.statement d d' → intake_keys_ok d → intake_keys_ok d'.
Proof.
  destruct 1 as [f id st d|f id st d|f id st d|f new_id tid month st d|f gen vs d
                |f new_id kept row d|f new_id kept row d|f new_id row d
                |f new_id tid uid role d|f tid d].
  - apply leaves_intake_keys_ok, update_cycle_status_leaves_intake.
  - apply leaves_intake_keys_ok, update_task_status_leaves_intake.
  - intros (Hid & Hten & Hen).
    destruct (update_intake_status_events f id st d) as [Ht [He|(_ & Hin & He)]];
      unfold intake_keys_ok; rewrite He, Ht; [done|].
    split_and!.
    + by rewrite events_ids_update_status.
    + intros r (r0 & -> & Hr0)%list_elem_of_fmap.
      destruct (bool_decide _); cbn; by apply Hten.
    + intros r (r0 & -> & Hr0)%list_elem_of_fmap.
      destruct (bool_decide _); cbn; [by apply in_enum_intake|by apply Hen].
  - apply leaves_intake_keys_ok, upsert_service_cycle_leaves_intake.
  - apply leaves_intake_keys_ok, insert_cycle_tasks_leaves_intake.
  - intros (Hid & Hten & Hen).
    destruct (insert_intake_event_events f new_id kept row d)
      as [Ht [He|(r0 & _ & _ & Hin & Hex & Hfresh & He)]];
      unfold intake_keys_ok; rewrite He, Ht; [done|].
    split_and!.
    + rewrite fmap_app. apply NoDup_app. split_and!; [done| |apply NoDup_singleton].
      intros k Hk ->%list_elem_of_singleton. done.
    + intros r [Hr| ->%list_elem_of_singleton]%elem_of_app; [by apply Hten|].
      by apply tenant_exists_elem.
    + intros r [Hr| ->%list_elem_of_singleton]%elem_of_app; [by apply Hen|].
      by apply in_enum_intake.
  - apply leaves_intake_keys_ok, insert_transaction_leaves_intake.
  - intros (Hid & Hten & Hen). unfold Db.insert_tenant. destruct f; [|done].
    repeat (match goal with |- context [if ?b then _ else _] => destruct b end; try done).
    unfold intake_keys_ok. cbn. split_and!; [done| |done].
    intros r Hr. rewrite fmap_app. apply elem_of_app. left. by apply Hten.
  - apply leaves_intake_keys_ok, insert_tenant_user_leaves_intake.
  - intros (Hid & Hten & Hen). unfold Db.delete_tenant. destruct f; [|done].
    unfold intake_keys_ok. cbn. split_and!.
    + clear Hten Hen. induction (Db.intake_events d) as [|r l IH]; [done|].
      cbn in *. apply NoDup_cons in Hid as [Hr Hl].
      destruct (bool_decide _); cbn; [by apply IH|].
      apply NoDup_cons. split; [|by apply IH].
      intros (r' & Hk & Hin)%list_elem_of_fmap. apply Hr.
      apply list_elem_of_fmap. exists r'. split; [done|].
      apply list_elem_of_In in Hin. apply filter_In in Hin as [Hin _].
      by apply list_elem_of_In.
    + intros r Hr. apply list_elem_of_In in Hr. apply filter_In in Hr as [Hr Hne].
      apply negb_true_iff, bool_decide_eq_false in Hne.
      apply list_elem_of_In in Hr. apply Hten in Hr.
      apply list_elem_of_fmap in Hr as (t & Ht & Htin).
      apply list_elem_of_fmap. exists t. split; [done|].
      apply list_elem_of_In, filter_In. split; [by apply list_elem_of_In|].
      apply negb_true_iff, bool_decide_eq_false. congruence.
    + intros r Hr. apply list_elem_of_In in Hr. apply filter_In in Hr as [Hr _].
      apply Hen. by apply list_elem_of_In.
Qed.

End IntakeTable.

Section IntakeFrames.
Import TenantPage System.

Lemma leaves_intake_refl (d : Db.t) : leaves_intake d d.
Proof. done. Qed.

Lemma leaves_intake_trans (d1 d2 d3 : Db.t) :
  leaves_intake d1 d2 → leaves_intake d2 d3 → leaves_intake d1 d3.
Proof. intros [H1 H2] [H3 H4]. split; congruence. Qed.

Ltac leaves :=
  repeat first
    [ apply leaves_intake_refl
    | eapply leaves_intake_trans;
      [|first [ apply update_cycle_status_leaves_intake
              | apply update_task_status_leaves_intake
              | apply upsert_service_cycle_leaves_intake
              | apply insert_cycle_tasks_leaves_intake
              | apply insert_transaction_leaves_intake
              | apply insert_tenant_user_leaves_intake ]] ].

Lemma cycle_start_POST_leaves_intake env request tenant d :
  leaves_intake d (CycleStartRoute.POST env request tenant d).1.
Proof. unfold CycleStartRoute.POST. case_split; name_databases; cbn; leaves. Qed.

Lemma advanceCycle_leaves_intake f cycle w :
  leaves_intake (db w) (db (advanceCycle f cycle w))
  ∧ intake (advanceCycle f cycle w) = intake w
  ∧ intakeSection (advanceCycle f cycle w) = intakeSection w.
Proof. unfold advanceCycle. case_split; name_databases; cbn; split_and!; try done; leaves. Qed.

Lemma pauseCycle_leaves_intake f cycle w :
  leaves_intake (db w) (db (pauseCycle f cycle w))
  ∧ intake (pauseCycle f cycle w) = intake w
  ∧ intakeSection (pauseCycle f cycle w) = intakeSection w.
Proof. unfold pauseCycle. case_split; name_databases; cbn; split_and!; try done; leaves. Qed.

Lemma resumeCycle_leaves_intake f cycle w :
  leaves_intake (db w) (db (resumeCycle f cycle w))
  ∧ intake (resumeCycle f cycle w) = intake w
  ∧ intakeSection (resumeCycle f cycle w) = intakeSection w.
Proof. unfold resumeCycle. case_split; name_databases; cbn; split_and!; try done; leaves. Qed.

Lemma clickTask_leaves_intake f cycle task w :
  leaves_intake (db w) (db (clickTask f cycle task w))
  ∧ intake (clickTask f cycle task w) = intake w
  ∧ intakeSection (clickTask f cycle task w) = intakeSection w.
Proof.
  assert (∀ v d, leaves_intake d (update_task f (task_id task) v d)) as Hupdate.
  { intros v d. unfold update_task.
    destruct v as [st|name]; [|destruct (bool_decide _)]; leaves. }
  unfold clickTask, handleTaskToggle.
  destruct (supabase w); cbn; split_and!; done.
Qed.

(** What [load] does to the intake events on the page: nothing, or it
    replaces them by stored events. *)
Lemma load_intake env w :
  intakeSection (load env w) = intakeSection w
  ∧ (intake (load env w) = intake w
     ∨ ∃ rows, (∀ r, r ∈ rows → r ∈ Db.intake_events (db w))
               ∧ intake (load env w) = of_db_event <$> rows).
Proof.
  unfold load.
  destruct (supabase w); cbn [negb]; [|by split; [|left]].
  destruct (signedIn env); cbn [negb]; [|by split; [|left]].
  destruct (tenantFault env); [|by split; [|left]].
  destruct (Db.tenant_exists _ _); cbn [negb]; [|by split; [|left]].
  split; [done|]. right. cbn [intake setIntake setCycles].
  eexists. split; [|reflexivity].
  intros r Hr. unfold select_or_empty in Hr.
  destruct (intakeFault env); [|by apply elem_of_nil in Hr].
  apply elem_of_reverse, list_elem_of_In, filter_In in Hr as [Hr _].
  by apply list_elem_of_In.
Qed.

Lemma startCycle_leaves_intake env w :
  leaves_intake (db w) (db (startCycle env w))
  ∧ intakeSection (startCycle env w) = intakeSection w
  ∧ (intake (startCycle env w) = intake w
     ∨ ∃ rows, (∀ r, r ∈ rows → r ∈ Db.intake_events (db (startCycle env w)))
               ∧ intake (startCycle env w) = of_db_event <$> rows).
Proof.
  unfold startCycle.
  destruct (supabase _); cbn [negb]; [|by split_and!; [| |left]].
  destruct (Db.upsert_service_cycle _ _ _ _ _ _) as [db1 [cycle|msg]] eqn:Hup;
    [|by split_and!; [| |left]].
  name_databases. rewrite load_db.
  match goal with |- context [load ?e ?x] => destruct (load_intake e x) as [Hsec Hint] end.
  rewrite Hsec. cbn [db set_db set_cyclesSection intake intakeSection] in *.
  split_and!; [leaves|done|done].
Qed.

Lemma find_by_id_unique (l : list Db.intake_event) (r : Db.intake_event) :
  NoDup (Db.ie_id <$> l) → r ∈ l →
  List.find (fun r' => bool_decide (Db.ie_id r' = Db.ie_id r)) l = Some r.
Proof.
  intros Hnd Hin. induction l as [|r0 l IH]; [by apply elem_of_nil in Hin|].
  cbn in *. apply NoDup_cons in Hnd as [Hr0 Hl].
  apply elem_of_cons in Hin as [->|Hin].
  - by rewrite bool_decide_true.
  - destruct (bool_decide_reflect (Db.ie_id r0 = Db.ie_id r)) as [E|E]; [|by apply IH].
    exfalso. apply Hr0. rewrite E. by apply list_elem_of_fmap_2.
Qed.

(** Events read from the table are stored with the status they show. *)
Lemma stored_events_mirror (d : Db.t) (rows : list Db.intake_event) :
  NoDup (Db.ie_id <$> Db.intake_events d) →
  (∀ r, r ∈ rows → r ∈ Db.intake_events d) →
  ∀ e, e ∈ of_db_event <$> rows →
       Db.intake_event_status d (ev_id e) = Some (ev_status e).
Proof.
  intros Hnd Hsub e (r & -> & Hr)%list_elem_of_fmap. cbn.
  unfold Db.intake_event_status. by rewrite find_by_id_unique by auto.
Qed.

(** The tenant route leaves the intake events alone: the only tenant it
    ever deletes is the one it has just created. *)
Lemma tenants_POST_intake_events env request d :
  (∀ r, r ∈ Db.intake_events d → Db.ie_tenant_id r ∈ Db.t_id <$> Db.tenants d) →
  Db.intake_events (TenantsRoute.POST env request d).1 = Db.intake_events d.
Proof.
  intros Hten. unfold TenantsRoute.POST.
  repeat match goal with
         | |- context [match ?x with _ => _ end] =>
             lazymatch x with
             | Db.insert_tenant _ _ _ _ => fail
             | Db.insert_tenant_user _ _ _ _ _ _ => fail
             | _ => destruct x eqn:?
             end
         end; try done.
  destruct (Db.insert_tenant _ _ _ _) as [db1 [tenant|msg]] eqn:Ht.
  - apply insert_tenant_Ok in Ht as (_ & Hfresh & ->).
    destruct (Db.insert_tenant_user _ _ _ _ _ _) as [db2 [msg|]] eqn:Hm.
    + apply insert_tenant_user_failed in Hm as ->. cbn [fst].
      unfold Db.delete_tenant. destruct (TenantsRoute.rollbackFault env); [|done]. cbn.
      induction (Db.intake_events d) as [|r l IH]; [done|]. cbn.
      rewrite bool_decide_false.
      * cbn. f_equal. apply IH. intros r' Hr'. apply Hten. by right.
      * intros E. apply Hfresh. rewrite <- E. apply Hten. by left.
    + cbn [fst].
      match type of Hm with
      | Db.insert_tenant_user ?f ?i ?t ?u ?r ?d0 = _ =>
          pose proof (insert_tenant_user_leaves_intake f i t u r d0) as [He _]
      end.
      by rewrite Hm in He.
  - apply insert_tenant_Error in Ht as ->. done.
Qed.

End IntakeFrames.

Section IntakeMoves.
Import TenantPage.

Lemma intake_status_ext (d d' : Db.t) (id : string) :
  Db.intake_events d' = Db.intake_events d →
  Db.intake_event_status d' id = Db.intake_event_status d id.
Proof. unfold Db.intake_event_status. by intros ->. Qed.

Lemma update_intake_status_other f id id' st d :
  id' ≠ id →
  Db.intake_event_status (Db.update_intake_status f id st d).1 id'
  = Db.intake_event_status d id'.
Proof.
  intros Hne. destruct (update_intake_status_events f id st d) as [_ [He|(_ & _ & He)]];
    unfold Db.intake_event_status; rewrite He; [done|].
  by rewrite (find_update_where_ne Db.ie_id (Db.set_ie_status st)).
Qed.

Lemma update_intake_status_same f id st d :
  Db.intake_event_status (Db.update_intake_status f id st d).1 id
  = Db.intake_event_status d id
  ∨ Db.intake_event_status (Db.update_intake_status f id st d).1 id
    = (fun _ => st) <$> Db.intake_event_status d id.
Proof.
  destruct (update_intake_status_events f id st d) as [_ [He|(_ & _ & He)]];
    unfold Db.intake_event_status; rewrite He; [by left|]. right.
  rewrite (find_update_where Db.ie_id (Db.set_ie_status st)) by done.
  by destruct (List.find _ _).
Qed.

Lemma update_intake_status_carried id st d :
  Db.in_enum Db.intake_status st = true →
  Db.intake_event_status (Db.update_intake_status Db.NoFault id st d).1 id
  = (fun _ => st) <$> Db.intake_event_status d id.
Proof.
  intros He. unfold Db.update_intake_status, Db.intake_event_status. rewrite He. cbn.
  rewrite (find_update_where Db.ie_id (Db.set_ie_status st)) by done.
  by destruct (List.find _ _).
Qed.

Lemma filtered_on_page (w : World) (e : IntakeEvent) : e ∈ filtered w → e ∈ intake w.
Proof.
  unfold filtered. destruct (bool_decide _); [done|].
  intros [H _]%list_elem_of_In%filter_In. by apply list_elem_of_In.
Qed.

Lemma shown_event_on_page (w : World) (id s : string) :
  shown_event_status w id = Some s →
  ∃ e, e ∈ intake w ∧ ev_id e = id ∧ ev_status e = s.
Proof.
  unfold shown_event_status. destruct (List.find _ _) as [e|] eqn:Hfind; [|done].
  intros [= <-]. destruct (find_key_Some ev_id _ _ _ Hfind) as [Hid Hin]. by exists e.
Qed.

(** Setting the status of the events on the page with a given id, when
    those events are all shown with the status [from]. *)
Lemma page_status_set (w : World) (id from to : string) (id' s s' : string) :
  (∀ e, e ∈ intake w → ev_id e = id → ev_status e = from) →
  shown_event_status w id' = Some s →
  shown_event_status
    (setIntake (fmap (fun e => if bool_decide (ev_id e = id) then set_ev_status to e
                               else e)) w) id' = Some s' →
  (s' = s) ∨ (id' = id ∧ s = from ∧ s' = to).
Proof.
  intros Hfrom Hs Hs'. unfold shown_event_status in *. cbn in Hs'.
  destruct (decide (id' = id)) as [->|Hne].
  - right. rewrite (find_update_where ev_id (set_ev_status to)) in Hs' by done.
    destruct (List.find _ _) as [e|] eqn:Hfind; [|done].
    destruct (find_key_Some ev_id _ _ _ Hfind) as [Hid Hin].
    injection Hs as <-. injection Hs' as <-. split_and!; [done|by apply Hfrom|done].
  - left. rewrite (find_update_where_ne ev_id (set_ev_status to)) in Hs' by done.
    congruence.
Qed.

Lemma find_app_l {A : Type} (P : A → bool) (l k : list A) (a : A) :
  List.find P l = Some a → List.find P (l ++ k) = Some a.
Proof.
  induction l as [|b l IH]; [done|]. cbn. destruct (P b); [done|]. apply IH.
Qed.

Lemma find_app_None {A : Type} (P : A → bool) (l k : list A) :
  List.find P l = None → List.find P (l ++ k) = List.find P k.
Proof.
  induction l as [|b l IH]; [done|]. cbn. destruct (P b); [done|]. apply IH.
Qed.

(** A stored event keeps its status when a row is appended; the row
    itself arrives with the status it was given. *)
Lemma intake_status_after_insert (d d' : Db.t) (r : Db.intake_event) (id : string) :
  Db.intake_events d' = (Db.intake_events d ++ [r])%list →
  (Db.ie_id r ∉ Db.ie_id <$> Db.intake_events d) →
  Db.intake_event_status d' id = Db.intake_event_status d id
  ∨ (Db.intake_event_status d id = None
     ∧ Db.intake_event_status d' id = Some (Db.ie_status r)).
Proof.
  intros He Hfresh. unfold Db.intake_event_status. rewrite He.
  destruct (List.find _ (Db.intake_events d)) as [r0|] eqn:Hfind.
  - left. by rewrite (find_app_l _ _ _ r0).
  - rewrite find_app_None by done. cbn.
    destruct (bool_decide _); [by right|by left].
Qed.

Lemma intake_status_Some_after_insert (d d' : Db.t) (r : Db.intake_event)
    (id s : string) :
  Db.intake_events d' = (Db.intake_events d ++ [r])%list →
  Db.intake_event_status d id = Some s → Db.intake_event_status d' id = Some s.
Proof.
  intros He. unfold Db.intake_event_status. rewrite He.
  destruct (List.find _ (Db.intake_events d)) as [r0|] eqn:Hfind; [|done].
  by rewrite (find_app_l _ _ _ r0).
Qed.

End IntakeMoves.

Section IntakeClaim.
Import TenantPage System.

Variable String_of_number : Js.number → string.
Variable parseFloat : string → Js.number.
Variable trim : string → string.
Variable is_uuid : string → bool.
Variable is_url : string → bool.

Lemma mirror_page_follows_table (w : World) :
  Spec.spec_page_mirrors_database w → page_follows_table w.
Proof. intros [_ _ _ H2 H3]. by split. Qed.

Lemma mirror_intake_keys_ok (w : World) :
  Spec.spec_page_mirrors_database w → intake_keys_ok (db w).
Proof. intros [H1 H5 H4 _ _]. by split_and!. Qed.

Lemma mirror_intro (w : World) :
  intake_keys_ok (db w) → page_follows_table w → Spec.spec_page_mirrors_database w.
Proof. intros (H1 & H5 & H4) [H2 H3]. by constructor. Qed.

(** An action that touches neither the table nor the page's events. *)
Lemma untouched_moves (w w' : World) :
  Db.intake_events (db w') = Db.intake_events (db w) →
  intake w' = intake w →
  Spec.spec_intake_moves_forward w w'.
Proof.
  intros He Hi. split.
  - intros id. rewrite (intake_status_ext _ _ id He). constructor.
  - intros id s s'. unfold shown_event_status. rewrite Hi. intros -> [= ->]. constructor.
Qed.

Lemma untouched_follows (w w' : World) :
  Db.intake_events (db w') = Db.intake_events (db w) →
  intake w' = intake w →
  (txForm (intakeSection w') = txForm (intakeSection w)
   ∨ txForm (intakeSection w') = None) →
  page_follows_table w → page_follows_table w'.
Proof.
  intros He Hi Hf [H2 H3]. split.
  - intros e. rewrite Hi, (intake_status_ext _ _ _ He). apply H2.
  - intros id. rewrite (intake_status_ext _ _ _ He).
    destruct Hf as [-> | ->]; [apply H3|done].
Qed.

(** An action that leaves the table alone and reads the page's events
    afresh from it. *)
Lemma reread_moves (w w' : World) (rows : list Db.intake_event) :
  Spec.spec_page_mirrors_database w →
  Db.intake_events (db w') = Db.intake_events (db w) →
  (∀ r, r ∈ rows → r ∈ Db.intake_events (db w')) →
  intake w' = of_db_event <$> rows →
  intakeSection w' = intakeSection w →
  Spec.spec_intake_moves_forward w w' ∧ page_follows_table w'.
Proof.
  intros Hm He Hrows Hi Hsec.
  assert (page_follows_table w') as Hfollows.
  { split.
    - rewrite Hi. apply stored_events_mirror; [|done].
      rewrite He. apply (Spec.mirror_ids _ Hm).
    - intros id. rewrite Hsec, (intake_status_ext _ _ _ He).
      apply (Spec.mirror_form _ Hm). }
  split; [|done]. split.
  - intros id. rewrite (intake_status_ext _ _ id He). constructor.
  - intros id s s' (e & Hin & <- & <-)%shown_event_on_page
                  (e' & Hin' & Hid & <-)%shown_event_on_page.
    apply (Spec.mirror_shown _ Hm) in Hin. apply (proj1 Hfollows) in Hin'.
    rewrite Hid, (intake_status_ext _ _ _ He), Hin in Hin'. injection Hin' as ->.
    constructor.
Qed.

(** The one way a status is written: the rows with a given id, stored
    with status [from], are set to [to], on the page and -- when the
    update is carried out -- in the table. *)
Lemma status_step (w w' : World) (d1 : Db.t) (f : Db.fault) (id from to : string) :
  Spec.spec_page_mirrors_database w →
  Db.intake_events d1 = Db.intake_events (db w) →
  db w' = (Db.update_intake_status f id to d1).1 →
  intake w' = (fun e => if bool_decide (ev_id e = id) then set_ev_status to e else e)
                <$> intake w →
  Db.intake_event_status (db w) id = Some from →
  Spec.spec_intake_move (Some from) (Some to) →
  Db.in_enum Db.intake_status to = true →
  Spec.spec_intake_moves_forward w w'
  ∧ (f = Db.NoFault →
     txForm (intakeSection w') = None
     ∨ (txForm (intakeSection w') = txForm (intakeSection w) ∧ to = "categorized") →
     page_follows_table w').
Proof.
  intros Hm Hd1 Hdb Hi Hfrom Hmove Henum.
  assert (∀ id', Db.intake_event_status d1 id' = Db.intake_event_status (db w) id')
    as Hsame by (intros; by apply intake_status_ext).
  split; [split|].
  - intros id'. rewrite Hdb. destruct (decide (id' = id)) as [->|Hne].
    + destruct (update_intake_status_same f id to d1) as [-> | ->];
        rewrite Hsame, Hfrom; [constructor|done].
    + rewrite update_intake_status_other, Hsame by done. constructor.
  - intros id' s s' Hs Hs'.
    assert (shown_event_status
              (setIntake (fmap (fun e => if bool_decide (ev_id e = id)
                                         then set_ev_status to e else e)) w) id'
            = Some s') as Hset.
    { rewrite <- Hs'. unfold shown_event_status. by rewrite Hi. }
    clear Hs'. rename Hset into Hs'.
    destruct (page_status_set w id from to id' s s') as [->|(-> & -> & ->)];
      [|done|done|constructor|done].
    intros e Hin Hid. apply (Spec.mirror_shown _ Hm) in Hin.
    rewrite Hid, Hfrom in Hin. by injection Hin.
  - intros -> Hform. split.
    + intros e'. rewrite Hi. intros (e & -> & Hin)%list_elem_of_fmap.
      apply (Spec.mirror_shown _ Hm) in Hin. rewrite Hdb.
      destruct (bool_decide_reflect (ev_id e = id)) as [<-|Hne]; cbn.
      * rewrite update_intake_status_carried, Hsame, Hin by done. done.
      * by rewrite update_intake_status_other, Hsame.
    + intros id0 Hopen. rewrite Hdb.
      destruct Hform as [Hnone|[Hkeep ->]]; [congruence|].
      rewrite Hkeep in Hopen. apply (Spec.mirror_form _ Hm) in Hopen.
      destruct (decide (id0 = id)) as [->|Hne].
      * rewrite update_intake_status_carried, Hsame, Hopen by done. done.
      * by rewrite update_intake_status_other, Hsame.
Qed.

Lemma mark_categorized_ok (e : IntakeEvent) (f : Db.fault) (w : World) :
  Spec.spec_page_mirrors_database w →
  rendered w (MarkCategorized e f) = true →
  Spec.spec_intake_moves_forward w (handleIntakeStatusChange f (ev_id e) "categorized" w)
  ∧ (f = Db.NoFault →
     page_follows_table (handleIntakeStatusChange f (ev_id e) "categorized" w)).
Proof.
  intros Hm [Hin Hnew%bool_decide_eq_true]%andb_true_iff.
  apply bool_decide_eq_true, filtered_on_page in Hin.
  apply (Spec.mirror_shown _ Hm) in Hin. rewrite Hnew in Hin.
  unfold handleIntakeStatusChange. destruct (supabase w); cbn [negb].
  - destruct (status_step w
                (setIntake (fmap (fun e0 => if bool_decide (ev_id e0 = ev_id e)
                                            then set_ev_status "categorized" e0 else e0))
                   (set_db (Db.update_intake_status f (ev_id e) "categorized" (db w)).1 w))
                (db w) f (ev_id e) "new" "categorized")
      as [Hmoves Hfollows]; try done; [constructor|].
    split; [done|]. intros Hf. apply Hfollows; [done|]. right. done.
  - split; [by apply untouched_moves|]. intros _. by apply mirror_page_follows_table.
Qed.

Lemma post_transaction_ok (e : IntakeEvent) (fi : Db.fault) (newId : string)
    (kept : Db.numeric) (fu : Db.fault) (w : World) :
  Spec.spec_page_mirrors_database w →
  rendered w (PostTransaction e fi newId kept fu) = true →
  Spec.spec_intake_moves_forward w
    (submitTransaction parseFloat trim fi newId kept fu (ev_id e) w)
  ∧ (fu = Db.NoFault →
     page_follows_table
       (submitTransaction parseFloat trim fi newId kept fu (ev_id e) w)).
Proof.
  intros Hm [[Hin Hopen%bool_decide_eq_true]%andb_true_iff _]%andb_true_iff.
  apply (Spec.mirror_form _ Hm) in Hopen.
  assert (∀ s : IntakeSectionState → IntakeSectionState,
            txForm (s (intakeSection w)) = txForm (intakeSection w) →
            Spec.spec_intake_moves_forward w (set_intakeSection s w)
            ∧ (fu = Db.NoFault → page_follows_table (set_intakeSection s w))) as Hform.
  { intros s Hs. split; [by apply untouched_moves|]. intros _.
    apply (untouched_follows w); [done|done|by left|by apply mirror_page_follows_table]. }
  unfold submitTransaction.
  destruct (Js.truthy (trim _)); cbn [negb]; [|by apply Hform].
  destruct (Js.truthy (txDate _)); cbn [negb]; [|by apply Hform].
  cbn [supabase set_intakeSection]. destruct (supabase w); cbn [negb]; [|by apply Hform].
  match goal with
  | |- context [Db.insert_transaction ?a ?b ?k ?c ?d] =>
      pose proof (insert_transaction_leaves_intake a b k c d) as [Hleave _];
      destruct (Db.insert_transaction a b k c d) as [db1 [message|]]
  end; [by apply Hform|].
  cbn [fst] in Hleave. cbn [db set_intakeSection] in Hleave.
  match goal with
  | |- context [handleTransactionCreated ?id ?x] =>
      destruct (status_step w (handleTransactionCreated id x) db1 fu (ev_id e)
                  "categorized" "posted")
        as [Hmoves Hfollows]; try done; [constructor|]
  end.
  split; [done|]. intros Hf. apply Hfollows; [done|]. by left.
Qed.

(** The intake route leaves the table as it is or appends one event with
    status new. *)
Lemma intake_POST_events (env : IntakeRoute.Env) (request : Http.Request) (d : Db.t) :
  let out := IntakeRoute.POST is_uuid is_url env request d in
  (out.1 = d ∧ Http.status out.2 ≠ 200%nat)
  ∨ (∃ r, Http.status out.2 = 200%nat
          ∧ Db.ie_status r = "new"
          ∧ (Db.ie_id r ∉ Db.ie_id <$> Db.intake_events d)
          ∧ Db.intake_events out.1 = (Db.intake_events d ++ [r])%list).
Proof.
  intros out. subst out. unfold IntakeRoute.POST.
  repeat match goal with
         | |- context [match ?x with _ => _ end] =>
             lazymatch x with
             | Db.insert_intake_event _ _ _ _ _ => fail
             | _ => destruct x eqn:?
             end
         end; try (by left).
  match goal with
  | |- context [Db.insert_intake_event ?f ?i ?k ?r ?d] =>
      pose proof (insert_intake_event_Ok f i k r d) as Hok;
      pose proof (insert_intake_event_failed f i k r d) as Hfail;
      destruct (Db.insert_intake_event f i k r d) as [db1 [message|]]
  end; cbn [fst snd] in *.
  - left. split; [by eapply Hfail|done].
  - destruct (Hok eq_refl) as (r & Hkept & Hfresh & He).
    apply kept_intake_event_Some in Hkept as (amt & -> & _).
    right. eexists. split_and!; [done| |exact Hfresh|exact He]. done.
Qed.

(** What an accepted or refused intake request does to the mirror. *)
Lemma intake_request_ok (env : IntakeRoute.Env) (request : Http.Request) (w : World) :
  Spec.spec_page_mirrors_database w →
  let w' := set_db (IntakeRoute.POST is_uuid is_url env request (db w)).1 w in
  Spec.spec_intake_moves_forward w w' ∧ page_follows_table w'.
Proof.
  intros Hm w'. subst w'.
  destruct (intake_POST_events env request (db w))
    as [[Hsame _]|(r & _ & Hnew & Hfresh & He)].
  - rewrite Hsame. split.
    + by apply untouched_moves.
    + apply (untouched_follows w); [done|done|by left|by apply mirror_page_follows_table].
  - split; [split|split].
    + intros id. cbn [db set_db].
      destruct (intake_status_after_insert (db w) _ r id He Hfresh) as [-> | [-> ->]];
        [constructor|]. rewrite Hnew. constructor.
    + intros id s s'. unfold shown_event_status. cbn [intake set_db].
      intros -> [= ->]. constructor.
    + intros e Hin. cbn [db set_db intake] in *.
      apply (intake_status_Some_after_insert (db w) _ r _ _ He).
      by apply (Spec.mirror_shown _ Hm).
    + intros id Hopen. cbn [db set_db intakeSection] in *.
      apply (intake_status_Some_after_insert (db w) _ r _ _ He).
      by apply (Spec.mirror_form _ Hm).
Qed.

(** C4.  From a state in which the page mirrors the database, every
    request to a route and every control the page renders moves the status
    of each intake event -- stored, and shown while the event stays on the
    page -- only along the flow: it stays, the event arrives as new, new
    becomes categorized (mark categorized), or categorized becomes posted
    (a transaction is created from it).  The stored statuses stay within
    new, categorized, posted; an intake request answered 200 appends one
    event with status new; and as long as the status updates are carried
    out the page goes on mirroring the database. *)
Theorem intake_status_only_moves_forward (a : System.Action) (w : World) :
  Spec.spec_page_mirrors_database w →
  System.available w a →
  let w' := System.step String_of_number parseFloat trim is_uuid is_url a w in
  Spec.spec_intake_moves_forward w w'
  ∧ (∀ r, r ∈ Db.intake_events (db w') →
          Db.ie_status r ∈ ["new"; "categorized"; "posted"])
  ∧ (System.updates_carried a → Spec.spec_page_mirrors_database w')
  ∧ (∀ env request,
       a = System.IntakeRequest env request →
       Http.status (IntakeRoute.POST is_uuid is_url env request (db w)).2 = 200%nat →
       ∃ r, Db.intake_events (db w') = (Db.intake_events (db w) ++ [r])%list
            ∧ Db.ie_status r = "new").
Proof.
  intros Hm Hav w'.
  assert (intake_keys_ok (db w')) as Hkeys.
  { apply (step_keeps _ statement_keeps_intake_keys). by apply mirror_intake_keys_ok. }
  assert (Spec.spec_intake_moves_forward w w'
          ∧ (System.updates_carried a → page_follows_table w')) as [Hmoves Hfollows].
  { subst w'. destruct a as [env request tenant|env request|env request|env|f cycle
                            |f cycle|f cycle|f cycle task|env|ia];
      cbn [System.step System.updates_carried System.available] in *.
    - destruct (cycle_start_POST_leaves_intake env request tenant (db w)) as [He _].
      split; [by apply untouched_moves|]. intros _.
      apply (untouched_follows w); [done|done|by left|by apply mirror_page_follows_table].
    - destruct (intake_request_ok env request w Hm). done.
    - pose proof (tenants_POST_intake_events env request (db w)
                    (Spec.mirror_tenants _ Hm)) as He.
      split; [by apply untouched_moves|]. intros _.
      apply (untouched_follows w); [done|done|by left|by apply mirror_page_follows_table].
    - destruct (startCycle_leaves_intake env w)
        as ([He _] & Hsec & [Hi|(rows & Hrows & Hi)]).
      + split; [by apply untouched_moves|]. intros _.
        apply (untouched_follows w);
          [done|done|left; by rewrite Hsec|by apply mirror_page_follows_table].
      + destruct (reread_moves w _ rows Hm He Hrows Hi Hsec). done.
    - destruct (advanceCycle_leaves_intake f cycle w) as ([He _] & Hi & Hsec).
      split; [by apply untouched_moves|]. intros _.
      apply (untouched_follows w);
        [done|done|left; by rewrite Hsec|by apply mirror_page_follows_table].
    - destruct (pauseCycle_leaves_intake f cycle w) as ([He _] & Hi & Hsec).
      split; [by apply untouched_moves|]. intros _.
      apply (untouched_follows w);
        [done|done|left; by rewrite Hsec|by apply mirror_page_follows_table].
    - destruct (resumeCycle_leaves_intake f cycle w) as ([He _] & Hi & Hsec).
      split; [by apply untouched_moves|]. intros _.
      apply (untouched_follows w);
        [done|done|left; by rewrite Hsec|by apply mirror_page_follows_table].
    - destruct (clickTask_leaves_intake f cycle task w) as ([He _] & Hi & Hsec).
      split; [by apply untouched_moves|]. intros _.
      apply (untouched_follows w);
        [done|done|left; by rewrite Hsec|by apply mirror_page_follows_table].
    - destruct (load_intake env w) as [Hsec [Hi|(rows & Hrows & Hi)]].
      + split; [apply untouched_moves; [by rewrite load_db|done]|]. intros _.
        apply (untouched_follows w);
          [by rewrite load_db|done|left; by rewrite Hsec
          |by apply mirror_page_follows_table].
      + destruct (reread_moves w (load env w) rows Hm); try done; by rewrite load_db.
    - destruct ia as [e f|e|e|e v|e v|e v|e v|e fi newId fu|v];
        cbn [perform System.updates_carried] in *.
      + by apply mark_categorized_ok.
      + split; [by apply untouched_moves|]. intros _. split.
        * apply (Spec.mirror_shown _ Hm).
        * intros id [= <-]. cbn [db set_intakeSection openTxForm].
          apply andb_true_iff in Hav as [[Hin Hcat]%andb_true_iff _].
          apply bool_decide_eq_true, filtered_on_page in Hin.
          apply bool_decide_eq_true in Hcat.
          apply (Spec.mirror_shown _ Hm) in Hin. by rewrite Hcat in Hin.
      + split; [by apply untouched_moves|]. intros _.
        apply (untouched_follows w); [done|done|by right|by apply mirror_page_follows_table].
      + split; [by apply untouched_moves|]. intros _.
        apply (untouched_follows w); [done|done|by left|by apply mirror_page_follows_table].
      + split; [by apply untouched_moves|]. intros _.
        apply (untouched_follows w); [done|done|by left|by apply mirror_page_follows_table].
      + split; [by apply untouched_moves|]. intros _.
        apply (untouched_follows w); [done|done|by left|by apply mirror_page_follows_table].
      + split; [by apply untouched_moves|]. intros _.
        apply (untouched_follows w); [done|done|by left|by apply mirror_page_follows_table].
      + by apply post_transaction_ok.
      + split; [by apply untouched_moves|]. intros _.
        apply (untouched_follows w); [done|done|by left|by apply mirror_page_follows_table]. }
  split_and!.
  - done.
  - apply Hkeys.
  - intros Hc. apply mirror_intro; [done|by apply Hfollows].
  - intros env request -> H200. subst w'. cbn [System.step db set_db].
    destruct (intake_POST_events env request (db w))
      as [[_ Hne]|(r & _ & Hnew & _ & He)]; [done|].
    by exists r.
Qed.

(** A page that has not loaded anything mirrors any database that meets
    the constraints of its tables. *)
Lemma fresh_page_mirrors_database (w : World) :
  intake_keys_ok (db w) → intake w = [] → intakeSection w = initialIntakeSection →
  Spec.spec_page_mirrors_database w.
Proof.
  intros Hkeys Hi Hsec. apply mirror_intro; [done|]. split.
  - intros e. rewrite Hi. by intros ?%elem_of_nil.
  - intros id. by rewrite Hsec.
Qed.

End IntakeClaim.

Section IntakeClaimWitness.
Import TenantPage.

Lemma sample_world_mirrors_database : Spec.spec_page_mirrors_database Sample.world.
Proof.
  constructor.
  - cbn. apply NoDup_cons. split; [|apply NoDup_singleton].
    intros [=]%list_elem_of_singleton.
  - intros r Hr. apply list_elem_of_In in Hr. cbn in Hr.
    destruct Hr as [<-|[<-|[]]]; by left.
  - intros r Hr. apply list_elem_of_In in Hr. cbn in Hr.
    destruct Hr as [<-|[<-|[]]]; cbn; set_solver.
  - intros e He. apply list_elem_of_In in He. cbn in He.
    destruct He as [<-|[<-|[]]]; reflexivity.
  - intros id. discriminate.
Defined.

(** Where the page does not mirror the database the flow is not kept.
    After an update the database refused, the page shows the new event as
    categorized and offers the transaction form; posting then takes the
    stored status from new to posted.  A second page that still shows the
    event as new offers to mark it categorized, which takes the stored
    status from posted back to categorized. *)
Lemma intake_status_skips_and_goes_back :
  System.available Sample.world Cases.markUnsaved
  ∧ System.available (Cases.step Cases.markUnsaved Sample.world) Cases.openForm
  ∧ System.available
      (Cases.step Cases.openForm (Cases.step Cases.markUnsaved Sample.world))
      Cases.chooseCategory
  ∧ System.available Cases.unsaved Cases.post
  ∧ Db.intake_event_status (db Cases.unsaved) "event-1" = Some "new"
  ∧ Db.intake_event_status (db (Cases.step Cases.post Cases.unsaved)) "event-1"
    = Some "posted"
  ∧ ¬ Spec.spec_intake_move (Some "new") (Some "posted")
  ∧ System.available Cases.stale Cases.markAgain
  ∧ Db.intake_event_status (db Cases.stale) "event-1" = Some "posted"
  ∧ Db.intake_event_status (db (Cases.step Cases.markAgain Cases.stale)) "event-1"
    = Some "categorized"
  ∧ ¬ Spec.spec_intake_move (Some "posted") (Some "categorized").
Proof.
  split_and!; try reflexivity; by inversion 1.
Qed.

Lemma intake_status_only_moves_forward_witness :
  let new_event := of_db_event
                     {| Db.ie_id := "event-1"; Db.ie_tenant_id := "tenant-1";
                        Db.ie_source := "form_in"; Db.ie_date := Some "2026-02-03";
                        Db.ie_amount := Some (Js.Num 120 0);
                        Db.ie_description := Some "Lash set";
                        Db.ie_attachment_url := None; Db.ie_raw_payload := None;
                        Db.ie_status := "new" |} in
  let w' := System.step Sample.String_of_number Sample.parseFloat Sample.trim
              Sample.is_uuid Sample.is_url
              (System.Intake (MarkCategorized new_event Db.NoFault)) Sample.world in
  Spec.spec_page_mirrors_database Sample.world
  ∧ Db.intake_event_status (db w') "event-1" = Some "categorized"
  ∧ Spec.spec_intake_moves_forward Sample.world w'
  ∧ Spec.spec_page_mirrors_database w'.
Proof.
  cbv zeta. split; [exact sample_world_mirrors_database|]. split; [reflexivity|].
  match goal with
  | |- context [System.step ?a ?b ?c ?d ?e ?act ?w] =>
      destruct (intake_status_only_moves_forward a b c d e act w
                  sample_world_mirrors_database eq_refl) as (Hmoves & _ & Hmirror & _)
  end.
  split; [exact Hmoves|]. apply Hmirror. reflexivity.
Defined.

End IntakeClaimWitness.

(** ** Tenant settings *)

Section TenantPatch.
Import Http TenantPatchRoute.

Lemma filter_singleton_elem {A : Type} (P : A → bool) (l : list A) (a : A) :
  List.filter P l = [a] → a ∈ l ∧ P a = true.
Proof.
  intros H. assert (In a (List.filter P l)) as Hin by (rewrite H; by left).
  apply filter_In in Hin as [Hin HP]. split; [by apply list_elem_of_In|done].
Qed.

Lemma select_membership_Some (f : Db.fault) (tid uid : Db.uuid) (db : Db.t) (role : string) :
  select_membership f tid uid db = Some role →
  ∃ m, m ∈ Db.tenant_users db ∧ Db.tu_tenant_id m = tid ∧ Db.tu_user_id m = uid
       ∧ Db.tu_role m = role.
Proof.
  unfold select_membership. destruct f; [|done].
  destruct (List.filter _ _) as [|m [|? ?]] eqn:E; [done| |done].
  intros [= <-]. apply filter_singleton_elem in E as [Hin HP].
  apply andb_prop in HP as [H1 H2].
  apply bool_decide_eq_true in H1, H2. by exists m.
Qed.

Lemma update_tenant_other_tables (f : Db.fault) (tid : Db.uuid) (p : Patch) (db : Db.t) :
  let db' := (update_tenant f tid p db).1 in
  Db.tenant_users db' = Db.tenant_users db
  ∧ Db.service_cycles db' = Db.service_cycles db
  ∧ Db.cycle_tasks db' = Db.cycle_tasks db
  ∧ Db.intake_events db' = Db.intake_events db
  ∧ Db.transactions db' = Db.transactions db.
Proof.
  unfold update_tenant. destruct f; [|done].
  destruct (no_column p); [done|].
  destruct (negb _); [done|]. cbn zeta.
  destruct (List.filter _ _) as [|? [|? ?]]; done.
Qed.

Lemma update_tenant_tenants (f : Db.fault) (tid : Db.uuid) (p : Patch) (db : Db.t) :
  Db.tenants (update_tenant f tid p db).1 = Db.tenants db
  ∨ Db.tenants (update_tenant f tid p db).1
    = (fun r => if bool_decide (Db.t_id r = tid) then apply_patch p r else r)
        <$> Db.tenants db.
Proof.
  unfold update_tenant. destruct f; [|by left].
  destruct (no_column p); [by left|].
  destruct (negb _); [by left|]. cbn zeta.
  destruct (List.filter _ _) as [|? [|? ?]]; by right.
Qed.

Lemma update_tenant_ids (f : Db.fault) (tid : Db.uuid) (p : Patch) (db : Db.t) :
  Db.t_id <$> Db.tenants (update_tenant f tid p db).1 = Db.t_id <$> Db.tenants db.
Proof.
  destruct (update_tenant_tenants f tid p db) as [-> | ->]; [done|].
  rewrite <- list_fmap_compose. apply list_fmap_ext. intros i r _. cbn.
  by destruct (bool_decide _).
Qed.

Lemma update_tenant_others (f : Db.fault) (tid : Db.uuid) (p : Patch) (db : Db.t)
    (r : Db.tenant) :
  Db.t_id r ≠ tid →
  r ∈ Db.tenants (update_tenant f tid p db).1 ↔ r ∈ Db.tenants db.
Proof.
  intros Hne. destruct (update_tenant_tenants f tid p db) as [-> | ->]; [done|].
  rewrite list_elem_of_fmap. split.
  - intros (r0 & -> & Hin). destruct (bool_decide_reflect (Db.t_id r0 = tid)) as [E|E];
      [by cbn in Hne|done].
  - intros Hin. exists r. by rewrite bool_decide_false.
Qed.

Lemma update_tenant_Ok (f : Db.fault) (tid : Db.uuid) (p : Patch) (db db' : Db.t)
    (tenant : Db.tenant) :
  update_tenant f tid p db = (db', Db.Ok tenant) →
  ∃ old, old ∈ Db.tenants db ∧ Db.t_id old = tid ∧ tenant = apply_patch p old
         ∧ tenant ∈ Db.tenants db'
         ∧ (∀ r, r ∈ Db.tenants db' → Db.t_id r = tid → r = tenant).
Proof.
  unfold update_tenant. destruct f; [|done].
  destruct (no_column p); [done|].
  destruct (negb _); [done|]. cbn zeta.
  destruct (List.filter _ _) as [|r [|? ?]] eqn:E; [done| |done].
  intros [= <- <-].
  pose proof E as E'. apply filter_singleton_elem in E' as [Hin Hid].
  apply bool_decide_eq_true in Hid. cbn in Hin.
  apply list_elem_of_fmap in Hin as (old & Hr & Hold).
  destruct (bool_decide_reflect (Db.t_id old = tid)) as [Ho|Ho].
  - exists old. split_and!; [done..| |].
    + subst r. cbn. apply list_elem_of_fmap. exists old. by rewrite bool_decide_true.
    + intros r' Hr' Hid'.
      assert (In r' (List.filter (fun r => bool_decide (Db.t_id r = tid))
                       (Db.tenants (Db.with_tenants db
                          ((fun r => if bool_decide (Db.t_id r = tid)
                                     then apply_patch p r else r) <$> Db.tenants db)))))
        as Hf.
      { apply filter_In. split; [by apply list_elem_of_In|by apply bool_decide_eq_true]. }
      rewrite E in Hf. destruct Hf as [<-|[]]. done.
  - subst r. congruence.
Qed.

End TenantPatch.

Section TenantPatchFacts.
Import Http TenantPatchRoute.

Lemma optional_string_Some (ok : string → bool) (v : option Js.json) (o : option string) :
  IntakeRoute.optional (IntakeRoute.a_string ok) v = Some o →
  match v with
  | None => o = None
  | Some j => ∃ s, j = Js.JString s ∧ o = Some s ∧ ok s = true
  end.
Proof.
  destruct v as [j|]; cbn; [|by intros [= <-]].
  destruct j; cbn; try done. destruct (ok s) eqn:E; cbn; [|done].
  intros [= <-]. by exists s.
Qed.

Lemma optional_nullable_Some (ok : string → bool) (v : option Js.json)
    (o : option (option string)) :
  IntakeRoute.optional (nullable (IntakeRoute.a_string ok)) v = Some o →
  match v with
  | None => o = None
  | Some j =>
      (j = Js.JNull ∧ o = Some None)
      ∨ ∃ s, j = Js.JString s ∧ o = Some (Some s) ∧ ok s = true
  end.
Proof.
  destruct v as [j|]; cbn; [|by intros [= <-]].
  destruct j; cbn; try done.
  - intros [= <-]. by left.
  - destruct (ok s) eqn:E; cbn; [|done]. intros [= <-]. right. by exists s.
Qed.

Lemma patchSchema_Some (body : Js.json) (data : Patch) :
  patchSchema body = Some data →
  ∃ fields,
    body = Js.JObject fields
    ∧ IntakeRoute.optional
        (IntakeRoute.a_string (fun s => Js.truthy s && TenantsRoute.max_length 200 s))
        (Js.field "name" fields) = Some (name data)
    ∧ IntakeRoute.optional (IntakeRoute.a_string (Db.in_enum Db.package_tier))
        (Js.field "package_tier" fields) = Some (package_tier data)
    ∧ IntakeRoute.optional (nullable (IntakeRoute.a_string (TenantsRoute.max_length 200)))
        (Js.field "niche" fields) = Some (niche data)
    ∧ IntakeRoute.optional (nullable (IntakeRoute.a_string (TenantsRoute.max_length 100)))
        (Js.field "timezone" fields) = Some (timezone data)
    ∧ IntakeRoute.optional (nullable (IntakeRoute.a_string (TenantsRoute.max_length 10)))
        (Js.field "currency" fields) = Some (currency data).
Proof.
  destruct body; try done. unfold patchSchema. intros H. exists fields.
  destruct (IntakeRoute.optional _ (Js.field "name" fields)) as [nm|]; [|done].
  destruct (IntakeRoute.optional _ (Js.field "package_tier" fields)) as [tier|]; [|done].
  destruct (IntakeRoute.optional _ (Js.field "niche" fields)) as [ni|]; [|done].
  destruct (IntakeRoute.optional _ (Js.field "timezone" fields)) as [tz|]; [|done].
  destruct (IntakeRoute.optional _ (Js.field "currency" fields)) as [cur|]; [|done].
  cbn in H. by injection H as <-.
Qed.

(** The route reaches the update only past every guard. *)
Lemma PATCH_changes (env : Env) (request : Request) (tenantId : string) (db : Db.t) :
  (PATCH env request tenantId db).1 = db
  ∨ ∃ userId role body data,
      resolveUser env request = Some userId
      ∧ adminClient env = Return ()
      ∧ select_membership (membershipFault env) tenantId userId db = Some role
      ∧ json request = Return body
      ∧ patchSchema body = Some data
      ∧ PATCH env request tenantId db
        = match update_tenant (updateFault env) tenantId data db with
          | (db1, Db.Error message) => (db1, respond 500 (error_body message))
          | (db1, Db.Ok tenant) => (db1, respond 200 (ok_tenant tenant))
          end.
Proof.
  unfold PATCH.
  destruct (resolveUser env request) as [userId|]; [|by left].
  destruct (adminClient env) as [[]|]; [|by left].
  destruct (select_membership _ _ _ _) as [role|] eqn:Hm; [|by left].
  destruct (json request) as [body|]; [|by left].
  destruct (patchSchema body) as [data|] eqn:Hs; [|by left].
  right. by exists userId, role, body, data.
Qed.

Lemma PATCH_200 (env : Env) (request : Request) (tenantId : string) (db : Db.t) :
  status (PATCH env request tenantId db).2 = 200%nat →
  ∃ userId role body data tenant,
    resolveUser env request = Some userId
    ∧ select_membership (membershipFault env) tenantId userId db = Some role
    ∧ json request = Return body
    ∧ patchSchema body = Some data
    ∧ update_tenant (updateFault env) tenantId data db
      = ((PATCH env request tenantId db).1, Db.Ok tenant)
    ∧ (PATCH env request tenantId db).2 = respond 200 (ok_tenant tenant).
Proof.
  unfold PATCH.
  destruct (resolveUser env request) as [userId|]; [|done].
  destruct (adminClient env) as [[]|]; [|done].
  destruct (select_membership _ _ _ _) as [role|] eqn:Hm; [|done].
  destruct (json request) as [body|]; [|done].
  destruct (patchSchema body) as [data|] eqn:Hs; [|done].
  destruct (update_tenant _ _ _ _) as [db1 [tenant|msg]] eqn:Hu; [|done].
  intros _. by exists userId, role, body, data, tenant.
Qed.

End TenantPatchFacts.

Section TenantPatchClaims.
Import Http TenantPatchRoute.

(** X1.  [PATCH /api/tenants/:tenantId] writes only for a member of the
    tenant.  A request whose bearer token resolves to no user is answered
    401; one from a user without a membership row for this tenant is
    answered 403 (500 when the admin client cannot be made); in both cases
    the database is left as it was.  Whenever the database changes or the
    answer is 200, the caller has a membership row for this tenant. *)
Theorem tenant_patch_needs_membership
    (env : Env) (request : Request) (tenantId : string) (db : Db.t) :
  let out := PATCH env request tenantId db in
  (resolveUser env request = None →
   out = (db, respond 401 (error_body "Unauthorized")))
  ∧ (∀ userId,
       resolveUser env request = Some userId →
       (∀ m, m ∈ Db.tenant_users db → Db.tu_tenant_id m = tenantId →
             Db.tu_user_id m ≠ userId) →
       out.1 = db ∧ (status out.2 = 403 ∨ status out.2 = 500)%nat)
  ∧ (out.1 ≠ db ∨ status out.2 = 200%nat →
     ∃ userId m,
       resolveUser env request = Some userId
       ∧ m ∈ Db.tenant_users db
       ∧ Db.tu_tenant_id m = tenantId ∧ Db.tu_user_id m = userId).
Proof.
  intros out. subst out. split_and!.
  - intros H. unfold PATCH. by rewrite H.
  - intros userId Hu Hnone. unfold PATCH. rewrite Hu.
    destruct (adminClient env) as [[]|]; [|by split; [|right]].
    destruct (select_membership _ _ _ _) as [role|] eqn:Hm; [|by split; [|left]].
    apply select_membership_Some in Hm as (m & Hin & Ht & Hus & _).
    by destruct (Hnone m Hin Ht).
  - intros H.
    assert (∃ userId role, resolveUser env request = Some userId
              ∧ select_membership (membershipFault env) tenantId userId db = Some role)
      as (userId & role & Hu & Hm).
    { destruct H as [H|H].
      - destruct (PATCH_changes env request tenantId db)
          as [E|(userId & role & _ & _ & Hu & _ & Hm & _)]; [done|].
        by exists userId, role.
      - apply PATCH_200 in H as (userId & role & _ & _ & _ & Hu & Hm & _).
        by exists userId, role. }
    apply select_membership_Some in Hm as (m & Hin & Ht & Hus & _).
    by exists userId, m.
Qed.

Lemma tenant_patch_needs_membership_witness :
  (PATCH Cases.patchEnv (Cases.patchRequest "jwt-of-user-2") "tenant-1" Sample.database).1
  = Sample.database
  ∧ ((status (PATCH Cases.patchEnv (Cases.patchRequest "jwt-of-user-2") "tenant-1"
                Sample.database).2 = 403
      ∨ status (PATCH Cases.patchEnv (Cases.patchRequest "jwt-of-user-2") "tenant-1"
                  Sample.database).2 = 500)%nat)
  ∧ ∃ userId m,
      resolveUser Cases.patchEnv (Cases.patchRequest "jwt-of-user-1") = Some userId
      ∧ m ∈ Db.tenant_users Sample.database
      ∧ Db.tu_tenant_id m = "tenant-1" ∧ Db.tu_user_id m = userId.
Proof.
  pose proof (tenant_patch_needs_membership Cases.patchEnv
                (Cases.patchRequest "jwt-of-user-2") "tenant-1" Sample.database) as H2.
  pose proof (tenant_patch_needs_membership Cases.patchEnv
                (Cases.patchRequest "jwt-of-user-1") "tenant-1" Sample.database) as H1.
  cbv zeta in H1, H2.
  destruct H2 as (_ & H2 & _). destruct H1 as (_ & _ & H1).
  destruct (H2 "user-2") as [Ha Hb].
  - reflexivity.
  - intros m Hm Ht. apply list_elem_of_singleton in Hm as ->. discriminate.
  - split; [exact Ha|]. split; [exact Hb|].
    apply H1. right. reflexivity.
Defined.

(** X2.  A [PATCH] answered 200 has changed one tenant only, the one
    named in the path, and in it only the columns the body names: a key
    that is absent leaves its column as it was, a key given as a string
    sets it, and null clears a nullable column.  The tenant returned is
    the row stored; the other tenants, every id and every other table are
    as before. *)
Theorem tenant_patch_sets_only_named_columns
    (env : Env) (request : Request) (tenantId : string) (db db' : Db.t)
    (tenant : Db.tenant) :
  PATCH env request tenantId db = (db', respond 200 (ok_tenant tenant)) →
  ∃ fields old,
    json request = Return (Js.JObject fields)
    ∧ old ∈ Db.tenants db ∧ Db.t_id old = tenantId ∧ Db.t_id tenant = tenantId
    ∧ match Js.field "name" fields with
      | None => Db.t_name tenant = Db.t_name old
      | Some j => j = Js.JString (Db.t_name tenant)
      end
    ∧ match Js.field "package_tier" fields with
      | None => Db.t_package_tier tenant = Db.t_package_tier old
      | Some j => j = Js.JString (Db.t_package_tier tenant)
      end
    ∧ match Js.field "niche" fields with
      | None => Db.t_niche tenant = Db.t_niche old
      | Some j => j = match Db.t_niche tenant with
                      | Some s => Js.JString s
                      | None => Js.JNull
                      end
      end
    ∧ match Js.field "timezone" fields with
      | None => Db.t_timezone tenant = Db.t_timezone old
      | Some j => j = match Db.t_timezone tenant with
                      | Some s => Js.JString s
                      | None => Js.JNull
                      end
      end
    ∧ match Js.field "currency" fields with
      | None => Db.t_currency tenant = Db.t_currency old
      | Some j => j = match Db.t_currency tenant with
                      | Some s => Js.JString s
                      | None => Js.JNull
                      end
      end
    ∧ tenant ∈ Db.tenants db'
    ∧ (∀ r, r ∈ Db.tenants db' → Db.t_id r = tenantId → r = tenant)
    ∧ (∀ r, Db.t_id r ≠ tenantId → r ∈ Db.tenants db' ↔ r ∈ Db.tenants db)
    ∧ Db.t_id <$> Db.tenants db' = Db.t_id <$> Db.tenants db
    ∧ Db.tenant_users db' = Db.tenant_users db
    ∧ Db.service_cycles db' = Db.service_cycles db
    ∧ Db.cycle_tasks db' = Db.cycle_tasks db
    ∧ Db.intake_events db' = Db.intake_events db
    ∧ Db.transactions db' = Db.transactions db.
Proof.
  intros H.
  assert (status (PATCH env request tenantId db).2 = 200%nat) as H200 by by rewrite H.
  apply PATCH_200 in H200
    as (userId & role & body & data & tenant' & _ & _ & Hj & Hs & Hu & Hr).
  rewrite H in Hu, Hr. cbn [fst snd] in Hu, Hr. injection Hr as <-.
  apply patchSchema_Some in Hs as (fields & -> & Hn & Ht & Hni & Htz & Hc).
  apply optional_string_Some in Hn, Ht.
  apply optional_nullable_Some in Hni, Htz, Hc.
  pose proof (update_tenant_other_tables (updateFault env) tenantId data db) as Ho.
  pose proof (update_tenant_ids (updateFault env) tenantId data db) as Hids.
  pose proof (update_tenant_others (updateFault env) tenantId data db) as Hoth.
  rewrite Hu in Ho, Hids, Hoth. cbn [fst] in Ho, Hids, Hoth.
  destruct Ho as (? & ? & ? & ? & ?).
  apply update_tenant_Ok in Hu as (old & Hold & Hid & -> & Hin & Huniq).
  exists fields, old. split_and!; try done.
  - destruct (Js.field "name" fields); [|cbn; by rewrite Hn].
    destruct Hn as (s & -> & Hd & _). cbn. by rewrite Hd.
  - destruct (Js.field "package_tier" fields); [|cbn; by rewrite Ht].
    destruct Ht as (s & -> & Hd & _). cbn. by rewrite Hd.
  - destruct (Js.field "niche" fields); [|cbn; by rewrite Hni].
    destruct Hni as [[-> Hd]|(s & -> & Hd & _)]; cbn; by rewrite Hd.
  - destruct (Js.field "timezone" fields); [|cbn; by rewrite Htz].
    destruct Htz as [[-> Hd]|(s & -> & Hd & _)]; cbn; by rewrite Hd.
  - destruct (Js.field "currency" fields); [|cbn; by rewrite Hc].
    destruct Hc as [[-> Hd]|(s & -> & Hd & _)]; cbn; by rewrite Hd.
Qed.

Lemma tenant_patch_sets_only_named_columns_witness :
  ∃ tenant,
    (PATCH Cases.patchEnv (Cases.patchRequest "jwt-of-user-1") "tenant-1" Sample.database).2
    = respond 200 (ok_tenant tenant)
    ∧ Db.t_name tenant = "Demo Salon" ∧ Db.t_niche tenant = None
    ∧ Db.t_currency tenant = Some "XCD".
Proof.
  set (out := PATCH Cases.patchEnv (Cases.patchRequest "jwt-of-user-1") "tenant-1"
                Sample.database).
  set (tenant := {| Db.t_id := "tenant-1"; Db.t_name := "Demo Salon";
                    Db.t_package_tier := "growth"; Db.t_niche := None;
                    Db.t_timezone := None; Db.t_currency := Some "XCD" |}).
  assert (out = (out.1, respond 200 (ok_tenant tenant))) as E by reflexivity.
  destruct (tenant_patch_sets_only_named_columns _ _ _ _ _ _ E)
    as (fields & old & Hj & Hold & _ & _ & Hn & _ & Hni & _ & Hc & _).
  exists tenant. split; [reflexivity|].
  injection Hj as <-. cbn in Hn, Hni, Hc.
  apply list_elem_of_singleton in Hold as ->.
  split; [exact Hn|]. split; reflexivity.
Defined.

End TenantPatchClaims.

Section TenantLimits.
Import Http TenantRows.

Lemma truthy_nonempty (s : string) : Js.truthy s = true → s ≠ "".
Proof. unfold Js.truthy. intros H E. subst s. done. Qed.

Lemma max_length_le (n : nat) (s : string) :
  TenantsRoute.max_length n s = true → (String.length s ≤ n)%nat.
Proof. unfold TenantsRoute.max_length. apply Nat.leb_le. Qed.

Lemma at_most_or_null (n : nat) (s : string) :
  TenantsRoute.max_length n s = true → at_most n (Js.or_null s).
Proof.
  intros H s'. unfold Js.or_null. destruct (Js.truthy s); [|done].
  intros [= <-]. by apply max_length_le.
Qed.

Lemma defaulted_Some (n : nat) (v : option Js.json) (s : string) :
  TenantsRoute.defaulted n v = Some s → TenantsRoute.max_length n s = true.
Proof.
  destruct v as [[]|]; cbn; try done.
  - destruct (TenantsRoute.max_length n s0) eqn:E; [|done]. by intros [= <-].
  - by intros [= <-].
Qed.

Lemma createTenantSchema_Some (body : Js.json) (data : TenantsRoute.TenantPayload) :
  TenantsRoute.createTenantSchema body = Some data →
  within_limits
    {| Db.t_id := ""; Db.t_name := TenantsRoute.name data;
       Db.t_package_tier := TenantsRoute.package_tier data;
       Db.t_niche := Js.or_null (TenantsRoute.niche data);
       Db.t_timezone := Js.or_null (TenantsRoute.timezone data);
       Db.t_currency := Js.or_null (TenantsRoute.currency data) |}.
Proof.
  destruct body; try done. unfold TenantsRoute.createTenantSchema.
  destruct (Js.field "name" fields) as [[]|]; try done.
  destruct (Js.truthy s && TenantsRoute.max_length 200 s) eqn:Hn; [|done].
  apply andb_prop in Hn as [Hn1 Hn2].
  destruct (Js.field "package_tier" fields) as [[]|]; try done.
  destruct (Db.in_enum Db.package_tier s0) eqn:Ht; [|done].
  destruct (TenantsRoute.defaulted 200 _) as [ni|] eqn:Hni; [|done].
  destruct (TenantsRoute.defaulted 100 _) as [tz|] eqn:Htz; [|done].
  destruct (TenantsRoute.defaulted 10 _) as [cur|] eqn:Hc; [|done].
  cbn. intros [= <-]. cbn.
  apply defaulted_Some in Hni, Htz, Hc.
  split_and!; cbn.
  - by apply truthy_nonempty.
  - by apply max_length_le.
  - by apply bool_decide_eq_true in Ht.
  - by apply at_most_or_null.
  - by apply at_most_or_null.
  - by apply at_most_or_null.
Qed.

Lemma delete_tenant_subset (f : Db.fault) (tid : string) (db : Db.t) (r : Db.tenant) :
  r ∈ Db.tenants (Db.delete_tenant f tid db).1 → r ∈ Db.tenants db.
Proof.
  unfold Db.delete_tenant. destruct f; [|done]. cbn.
  intros H. apply list_elem_of_In, filter_In in H as [H _]. by apply list_elem_of_In.
Qed.

(** Every tenant the creation route leaves is one there was, or the row
    made from a body the schema accepted. *)
Lemma tenants_POST_tenants (env : TenantsRoute.Env) (request : Request) (db : Db.t)
    (r : Db.tenant) :
  r ∈ Db.tenants (TenantsRoute.POST env request db).1 →
  r ∈ Db.tenants db
  ∨ ∃ body data,
      TenantsRoute.createTenantSchema body = Some data
      ∧ r = {| Db.t_id := TenantsRoute.newTenantId env;
               Db.t_name := TenantsRoute.name data;
               Db.t_package_tier := TenantsRoute.package_tier data;
               Db.t_niche := Js.or_null (TenantsRoute.niche data);
               Db.t_timezone := Js.or_null (TenantsRoute.timezone data);
               Db.t_currency := Js.or_null (TenantsRoute.currency data) |}.
Proof.
  unfold TenantsRoute.POST.
  destruct (headers_get request "authorization") as [authHeader|]; [|by left].
  destruct (negb _); [by left|]. cbn zeta.
  destruct (env_value _ "NEXT_PUBLIC_SUPABASE_URL"); [|by left].
  destruct (env_value _ "NEXT_PUBLIC_SUPABASE_ANON_KEY"); [|by left].
  destruct (TenantsRoute.getUser env _) as [userId|]; [|by left].
  destruct (json request) as [body|]; [|by left].
  destruct (TenantsRoute.createTenantSchema body) as [data|] eqn:Hs; [|by left].
  destruct (TenantsRoute.adminClient env) as [[]|]; [|by left].
  destruct (Db.insert_tenant _ _ _ _) as [db1 [tenant|msg]] eqn:Hi.
  - apply insert_tenant_Ok in Hi as (-> & _ & ->).
    destruct (Db.insert_tenant_user _ _ _ _ _ _) as [db2 [msg|]] eqn:Hm.
    + apply insert_tenant_user_failed in Hm as ->. cbn [fst].
      intros H. apply delete_tenant_subset in H. cbn in H.
      apply elem_of_app in H as [?|H]; [by left|].
      apply list_elem_of_singleton in H as ->. right. by exists body, data.
    + apply insert_tenant_user_Ok in Hm as [Ht _]. cbn [fst]. rewrite Ht. cbn.
      intros H. apply elem_of_app in H as [?|H]; [by left|].
      apply list_elem_of_singleton in H as ->. right. by exists body, data.
  - apply insert_tenant_Error in Hi as ->. by left.
Qed.

Lemma within_limits_any_id (r r' : Db.tenant) :
  Db.t_name r' = Db.t_name r → Db.t_package_tier r' = Db.t_package_tier r →
  Db.t_niche r' = Db.t_niche r → Db.t_timezone r' = Db.t_timezone r →
  Db.t_currency r' = Db.t_currency r →
  within_limits r → within_limits r'.
Proof. unfold within_limits. by intros -> -> -> -> ->. Qed.

Lemma within_limits_apply_patch (body : Js.json) (data : TenantPatchRoute.Patch)
    (r : Db.tenant) :
  TenantPatchRoute.patchSchema body = Some data →
  within_limits r → within_limits (TenantPatchRoute.apply_patch data r).
Proof.
  intros Hs (Hn1 & Hn2 & Ht & Hni & Htz & Hc).
  apply patchSchema_Some in Hs as (fields & -> & Pn & Pt & Pni & Ptz & Pc).
  apply optional_string_Some in Pn, Pt.
  apply optional_nullable_Some in Pni, Ptz, Pc.
  unfold within_limits, TenantPatchRoute.apply_patch. cbn.
  assert (∀ n v o (col : option string),
            match v with
            | None => o = None
            | Some j =>
                (j = Js.JNull ∧ o = Some None)
                ∨ ∃ s, j = Js.JString s ∧ o = Some (Some s)
                       ∧ TenantsRoute.max_length n s = true
            end →
            at_most n col → at_most n (Js.nullish o col)) as Hcol.
  { intros n v o col Hv Hcol. destruct v as [j|]; [|by subst o].
    destruct Hv as [[_ ->]|(s & _ & -> & Hlen)]; cbn.
    - by intros s.
    - intros s' [= <-]. by apply max_length_le. }
  split_and!.
  - destruct (Js.field "name" fields); [|by rewrite Pn].
    destruct Pn as (s & _ & -> & Hok). cbn. apply andb_prop in Hok as [Hok _].
    by apply truthy_nonempty.
  - destruct (Js.field "name" fields); [|by rewrite Pn].
    destruct Pn as (s & _ & -> & Hok). cbn. apply andb_prop in Hok as [_ Hok].
    by apply max_length_le.
  - destruct (Js.field "package_tier" fields); [|by rewrite Pt].
    destruct Pt as (s & _ & -> & Hok). cbn. by apply bool_decide_eq_true in Hok.
  - by eapply Hcol.
  - by eapply Hcol.
  - by eapply Hcol.
Qed.

(** X3.  Neither tenant route stores a row outside the limits of its
    schema: if every tenant has a non-empty name of at most 200
    characters, a package tier of the enum, and a niche, timezone and
    currency of at most 200, 100 and 10 characters, then so has every
    tenant after [POST /api/tenants] and after
    [PATCH /api/tenants/:tenantId], whatever the request. *)
Theorem tenant_routes_keep_rows_within_limits
    (db : Db.t) (request : Request) :
  Forall within_limits (Db.tenants db) →
  (∀ env, Forall within_limits (Db.tenants (TenantsRoute.POST env request db).1))
  ∧ (∀ env tenantId,
       Forall within_limits
         (Db.tenants (TenantPatchRoute.PATCH env request tenantId db).1)).
Proof.
  intros Hdb. rewrite Forall_forall in Hdb. split.
  - intros env. apply Forall_forall. intros r Hr.
    apply tenants_POST_tenants in Hr as [Hr|(body & data & Hs & ->)]; [by apply Hdb|].
    apply createTenantSchema_Some in Hs.
    by eapply within_limits_any_id; [..|exact Hs].
  - intros env tenantId. apply Forall_forall. intros r Hr.
    destruct (PATCH_changes env request tenantId db)
      as [E|(userId & role & body & data & _ & _ & _ & _ & Hs & E)].
    + rewrite E in Hr. by apply Hdb.
    + assert ((TenantPatchRoute.PATCH env request tenantId db).1
              = (TenantPatchRoute.update_tenant (TenantPatchRoute.updateFault env)
                   tenantId data db).1) as E'.
      { rewrite E. by destruct (TenantPatchRoute.update_tenant _ _ _ _) as [? []]. }
      rewrite E' in Hr.
      destruct (update_tenant_tenants (TenantPatchRoute.updateFault env) tenantId data db)
        as [Et|Et]; rewrite Et in Hr; [by apply Hdb|].
      apply list_elem_of_fmap in Hr as (r0 & -> & Hr0).
      destruct (bool_decide _); [|by apply Hdb].
      eapply within_limits_apply_patch; [done|by apply Hdb].
Qed.

Lemma tenant_routes_keep_rows_within_limits_witness :
  Forall within_limits
    (Db.tenants (TenantsRoute.POST (Sample.tenantsEnv Db.NoFault) Sample.tenantsRequest
                   Sample.database).1)
  ∧ Forall within_limits
      (Db.tenants (TenantPatchRoute.PATCH Cases.patchEnv
                     Sample.tenantsRequest "tenant-1" Sample.database).1).
Proof.
  assert (Forall within_limits (Db.tenants Sample.database)) as H.
  { constructor; [|constructor].
    unfold within_limits, at_most. cbn. split_and!.
    - done.
    - lia.
    - apply list_elem_of_In. cbn. tauto.
    - intros s [= <-]. cbn. lia.
    - done.
    - intros s [= <-]. cbn. lia. }
  destruct (tenant_routes_keep_rows_within_limits Sample.database Sample.tenantsRequest H)
    as [H1 H2].
  split; [apply H1 | apply H2].
Defined.

End TenantLimits.

Section SettingsRoundTrip.
Import Http Page.

Lemma substring_all (s : string) : String.substring 0 (String.length s) s = s.
Proof. induction s as [|a s IH]; [done|]. cbn. by rewrite IH. Qed.

Lemma bearer_token_of_header (token : string) :
  TenantsRoute.bearer_token ("Bearer " +:+ token) = token.
Proof.
  unfold TenantsRoute.bearer_token.
  cbv [String.append]. cbn [String.length Nat.sub String.substring].
  rewrite Nat.sub_0_r. apply substring_all.
Qed.

Lemma with_tenants_same (db : Db.t) : Db.with_tenants db (Db.tenants db) = db.
Proof. by destruct db. Qed.

Lemma string_or_null_schema (n : nat) (s : string) (o : option (option string)) :
  IntakeRoute.optional
    (TenantPatchRoute.nullable (IntakeRoute.a_string (TenantsRoute.max_length n)))
    (Some (string_or_null s)) = Some o →
  o = Some (Js.or_null s).
Proof.
  unfold string_or_null, Js.or_null. destruct (Js.truthy s); cbn.
  - destruct (TenantsRoute.max_length n s); cbn; [|done]. by intros [= <-].
  - by intros [= <-].
Qed.

Variable trim : string → string.

(** The patch the route reads from the request the settings page sends. *)
Lemma settings_request_patch (token : string) (s : SettingsPage.State)
    (body : Js.json) (data : TenantPatchRoute.Patch) :
  json (SettingsPage.request trim token s) = Return body →
  TenantPatchRoute.patchSchema body = Some data →
  data = {| TenantPatchRoute.name := Some (trim (SettingsPage.name s));
            TenantPatchRoute.package_tier := Some (SettingsPage.packageTier s);
            TenantPatchRoute.niche := Some (Js.or_null (trim (SettingsPage.niche s)));
            TenantPatchRoute.timezone :=
              Some (Js.or_null (trim (SettingsPage.timezone s)));
            TenantPatchRoute.currency :=
              Some (Js.or_null (trim (SettingsPage.currency s))) |}.
Proof.
  intros [= <-] Hs.
  apply patchSchema_Some in Hs as (fields & [= <-] & Pn & Pt & Pni & Ptz & Pc).
  change (Js.field "name" _) with (Some (Js.JString (trim (SettingsPage.name s)))) in Pn.
  change (Js.field "package_tier" _)
    with (Some (Js.JString (SettingsPage.packageTier s))) in Pt.
  change (Js.field "niche" _)
    with (Some (string_or_null (trim (SettingsPage.niche s)))) in Pni.
  change (Js.field "timezone" _)
    with (Some (string_or_null (trim (SettingsPage.timezone s)))) in Ptz.
  change (Js.field "currency" _)
    with (Some (string_or_null (trim (SettingsPage.currency s)))) in Pc.
  apply optional_string_Some in Pn as (? & [= <-] & Pn & _).
  apply optional_string_Some in Pt as (? & [= <-] & Pt & _).
  apply string_or_null_schema in Pni, Ptz, Pc.
  destruct data. cbn in *. by subst.
Qed.

(** A submit that ends with [saved] went through the route's update. *)
Lemma settings_saved (env : SettingsPage.SubmitEnv) (supabase : bool)
    (tenantId : string) (db : Db.t) (s : SettingsPage.State) :
  SettingsPage.saved (SettingsPage.onSubmit trim env supabase tenantId db s).1.2 = true →
  SettingsPage.saved s = false →
  ∃ token data tenant,
    TenantPatchRoute.update_tenant (TenantPatchRoute.updateFault (SettingsPage.route env))
      tenantId data db
    = ((SettingsPage.onSubmit trim env supabase tenantId db s).1.1, Db.Ok tenant)
    ∧ (∃ body, json (SettingsPage.request trim token s) = Return body
               ∧ TenantPatchRoute.patchSchema body = Some data)
    ∧ (SettingsPage.onSubmit trim env supabase tenantId db s).2 = Settled.
Proof.
  unfold SettingsPage.onSubmit. intros H Hs.
  destruct (negb (Js.truthy _)); [cbn in H; congruence|].
  cbn zeta in *. destruct (negb supabase); [done|].
  destruct (SettingsPage.session env) as [token|]; [|done].
  destruct (negb (Js.truthy token)); [done|].
  destruct (SettingsPage.network env); [|done].
  destruct (TenantPatchRoute.PATCH _ _ _ _) as [db1 res] eqn:HP.
  destruct (negb (ok res)) eqn:Hok; [done|]. cbn [fst snd].
  apply negb_false_iff in Hok.
  assert (status (TenantPatchRoute.PATCH (SettingsPage.route env)
                    (SettingsPage.request trim token s) tenantId db).2 = 200%nat) as H200.
  { rewrite HP. cbn [snd]. clear H.
    revert HP. unfold TenantPatchRoute.PATCH.
    repeat match goal with
           | |- context [match ?x with _ => _ end] => destruct x eqn:?
           end; intros [= <- <-]; done. }
  apply PATCH_200 in H200 as (userId & role & body & data & tenant & _ & _ & Hj & Hsch & Hu & _).
  rewrite HP in Hu. cbn [fst] in Hu.
  exists token, data, tenant. split_and!; [done| |done]. by exists body.
Qed.

End SettingsRoundTrip.

Section SettingsClaims.
Import Http Page.

Variable trim : string → string.

Lemma update_tenant_db (f : Db.fault) (tid : Db.uuid) (p : TenantPatchRoute.Patch)
    (db : Db.t) :
  (TenantPatchRoute.update_tenant f tid p db).1 = db
  ∨ (TenantPatchRoute.update_tenant f tid p db).1
    = Db.with_tenants db
        ((fun r => if bool_decide (Db.t_id r = tid)
                   then TenantPatchRoute.apply_patch p r else r) <$> Db.tenants db).
Proof.
  unfold TenantPatchRoute.update_tenant. destruct f; [|by left].
  destruct (TenantPatchRoute.no_column p); [by left|].
  destruct (negb _); [by left|]. cbn zeta.
  destruct (List.filter _ _) as [|? [|? ?]]; by right.
Qed.

Lemma select_tenant_Ok (f : Db.fault) (tid : Db.uuid) (db : Db.t) (row : Db.tenant) :
  SettingsPage.select_tenant f tid db = Db.Ok row →
  List.filter (fun r => bool_decide (Db.t_id r = tid)) (Db.tenants db) = [row].
Proof.
  unfold SettingsPage.select_tenant. destruct f; [|done].
  destruct (List.filter _ _) as [|? [|? ?]]; [done| |done]. by intros [= <-].
Qed.

Lemma kept_or_null (v : option string) :
  SettingsPage.kept trim v → Js.or_null (trim (Js.nullish v "")) = v.
Proof.
  intros [Ht Hne]. rewrite Ht. unfold Js.or_null, Js.truthy.
  destruct v as [s|]; cbn; [|done].
  rewrite bool_decide_false by congruence. done.
Qed.

(** X4.  The settings page shows a tenant's row with NULL as an empty
    field, and submitting the form as it was loaded leaves the database
    exactly as it was, whatever the route answers: provided the stored
    name and the stored niche, timezone and currency are unchanged by
    [trim] and none of the three is the empty string. *)
Theorem settings_save_after_load_changes_nothing
    (lenv : SettingsPage.LoadEnv) (senv : SettingsPage.SubmitEnv)
    (tenantId : string) (db : Db.t) (row : Db.tenant) :
  SettingsPage.signedIn lenv = true →
  SettingsPage.select_tenant (SettingsPage.fetchFault lenv) tenantId db = Db.Ok row →
  trim (Db.t_name row) = Db.t_name row →
  SettingsPage.kept trim (Db.t_niche row) →
  SettingsPage.kept trim (Db.t_timezone row) →
  SettingsPage.kept trim (Db.t_currency row) →
  let s := (SettingsPage.load lenv true tenantId db SettingsPage.initial).1 in
  let out := SettingsPage.onSubmit trim senv true tenantId db s in
  SettingsPage.name s = Db.t_name row
  ∧ SettingsPage.packageTier s = Db.t_package_tier row
  ∧ SettingsPage.niche s = Js.nullish (Db.t_niche row) ""
  ∧ SettingsPage.timezone s = Js.nullish (Db.t_timezone row) ""
  ∧ SettingsPage.currency s = Js.nullish (Db.t_currency row) ""
  ∧ out.1.1 = db.
Proof.
  intros Hin Hsel Hname Hni Htz Hcur s out.
  assert (s = {| SettingsPage.name := Db.t_name row;
                 SettingsPage.packageTier := Db.t_package_tier row;
                 SettingsPage.niche := Js.nullish (Db.t_niche row) "";
                 SettingsPage.timezone := Js.nullish (Db.t_timezone row) "";
                 SettingsPage.currency := Js.nullish (Db.t_currency row) "";
                 SettingsPage.loading := false; SettingsPage.saving := false;
                 SettingsPage.error := None; SettingsPage.saved := false |}) as Hs.
  { subst s. unfold SettingsPage.load. cbn [negb]. by rewrite Hin, Hsel. }
  split_and!; try (by rewrite Hs).
  clearbody s. subst out.
  assert ((SettingsPage.onSubmit trim senv true tenantId db s).1.1 = db
          ∨ ∃ token,
              (SettingsPage.onSubmit trim senv true tenantId db s).1.1
              = (TenantPatchRoute.PATCH (SettingsPage.route senv)
                   (SettingsPage.request trim token s) tenantId db).1) as [E|[token E]];
    [|done|].
  { unfold SettingsPage.onSubmit. destruct (negb (Js.truthy _)); [by left|].
    cbn zeta. cbn [negb].
    destruct (SettingsPage.session senv) as [token|]; [|by left].
    destruct (negb (Js.truthy token)); [by left|].
    destruct (SettingsPage.network senv); [|by left].
    right. exists token. by destruct (TenantPatchRoute.PATCH _ _ _ _) as [db1 res];
      destruct (negb (ok res)). }
  rewrite E.
  destruct (PATCH_changes (SettingsPage.route senv) (SettingsPage.request trim token s)
              tenantId db)
    as [E'|(userId & role & body & data & _ & _ & _ & Hj & Hsch & E')]; [done|].
  rewrite E'.
  pose proof (settings_request_patch trim token s body data Hj Hsch) as Hd.
  apply select_tenant_Ok in Hsel.
  assert ((TenantPatchRoute.update_tenant
             (TenantPatchRoute.updateFault (SettingsPage.route senv)) tenantId data db).1
          = db) as Hu.
  { destruct (update_tenant_db (TenantPatchRoute.updateFault (SettingsPage.route senv))
                tenantId data db) as [->| ->]; [done|].
    rewrite <- (with_tenants_same db) at 3. f_equal.
    rewrite <- (list_fmap_id (Db.tenants db)) at 2.
    apply list_fmap_ext. intros i r Hr. cbn.
    destruct (bool_decide_reflect (Db.t_id r = tenantId)) as [Hid|]; [|done].
    assert (r = row) as ->.
    { assert (In r (List.filter (fun r => bool_decide (Db.t_id r = tenantId))
                                (Db.tenants db))) as Hf.
      { apply filter_In. split; [|by apply bool_decide_eq_true].
        apply list_elem_of_In. by eapply list_elem_of_lookup_2. }
      rewrite Hsel in Hf. by destruct Hf as [<-|[]]. }
    rewrite Hd, Hs. unfold TenantPatchRoute.apply_patch. cbn.
    rewrite Hname, !kept_or_null by done. by destruct row. }
  by destruct (TenantPatchRoute.update_tenant _ _ _ _) as [? []].
Qed.

End SettingsClaims.

Section SettingsWitness.

Lemma settings_save_after_load_changes_nothing_witness :
  (SettingsPage.onSubmit Sample.trim
     {| SettingsPage.session := Some "jwt-of-user-1";
        SettingsPage.network := Http.Return ();
        SettingsPage.route := Cases.patchEnv |}
     true "tenant-1" Sample.database
     (SettingsPage.load {| SettingsPage.signedIn := true;
                           SettingsPage.fetchFault := Db.NoFault |}
        true "tenant-1" Sample.database SettingsPage.initial).1).1.1
  = Sample.database.
Proof.
  refine (proj2 (proj2 (proj2 (proj2 (proj2
    (settings_save_after_load_changes_nothing Sample.trim
       {| SettingsPage.signedIn := true; SettingsPage.fetchFault := Db.NoFault |}
       {| SettingsPage.session := Some "jwt-of-user-1";
          SettingsPage.network := Http.Return ();
          SettingsPage.route := Cases.patchEnv |}
       "tenant-1" Sample.database
       {| Db.t_id := "tenant-1"; Db.t_name := "Demo Salon";
          Db.t_package_tier := "growth"; Db.t_niche := Some "beauty";
          Db.t_timezone := None; Db.t_currency := Some "USD" |}
       _ _ _ _ _ _)))))); try reflexivity; split; done.
Defined.

End SettingsWitness.

Section NewTenant.
Import Http Page.

(** A request to [POST /api/tenants] answered with a tenant went through
    both inserts. *)
Lemma tenants_POST_ok_tenant (env : TenantsRoute.Env) (request : Request) (db db' : Db.t)
    (res : Response) (tenant : Db.tenant) :
  TenantsRoute.POST env request db = (db', res) →
  body res = ok_tenant tenant →
  ∃ authHeader userId body data db1,
    headers_get request "authorization" = Some authHeader
    ∧ TenantsRoute.getUser env (TenantsRoute.bearer_token authHeader) = Some userId
    ∧ json request = Return body
    ∧ TenantsRoute.createTenantSchema body = Some data
    ∧ Db.insert_tenant (TenantsRoute.tenantFault env) (TenantsRoute.newTenantId env)
        (fun id =>
           {| Db.t_id := id; Db.t_name := TenantsRoute.name data;
              Db.t_package_tier := TenantsRoute.package_tier data;
              Db.t_niche := Js.or_null (TenantsRoute.niche data);
              Db.t_timezone := Js.or_null (TenantsRoute.timezone data);
              Db.t_currency := Js.or_null (TenantsRoute.currency data) |}) db
      = (db1, Db.Ok tenant)
    ∧ Db.insert_tenant_user (TenantsRoute.memberFault env) (TenantsRoute.newMemberId env)
        (Db.t_id tenant) userId "owner" db1 = (db', None).
Proof.
  unfold TenantsRoute.POST.
  destruct (headers_get request "authorization") as [authHeader|];
    [|by intros [= <- <-]].
  destruct (negb _); [by intros [= <- <-]|]. cbn zeta.
  destruct (env_value _ "NEXT_PUBLIC_SUPABASE_URL"); [|by intros [= <- <-]].
  destruct (env_value _ "NEXT_PUBLIC_SUPABASE_ANON_KEY"); [|by intros [= <- <-]].
  destruct (TenantsRoute.getUser env _) as [userId|] eqn:Hg; [|by intros [= <- <-]].
  destruct (json request) as [body|] eqn:Hj; [|by intros [= <- <-]].
  destruct (TenantsRoute.createTenantSchema body) as [data|] eqn:Hs;
    [|by intros [= <- <-]].
  destruct (TenantsRoute.adminClient env) as [[]|]; [|by intros [= <- <-]].
  destruct (Db.insert_tenant _ _ _ _) as [db1 [tenant'|msg]] eqn:Hi;
    [|by intros [= <- <-]].
  destruct (Db.insert_tenant_user _ _ _ _ _ _) as [db2 [msg|]] eqn:Hm;
    [by intros [= <- <-]|].
  intros [= <- <-] [= <-]. by exists authHeader, userId, body, data, db1.
Qed.

Variable trim : string → string.

(** The payload the route reads from the request the page sends. *)
Lemma new_tenant_request_payload (token : string) (s : NewTenantPage.State)
    (body : Js.json) (data : TenantsRoute.TenantPayload) :
  json (NewTenantPage.request trim token s) = Return body →
  TenantsRoute.createTenantSchema body = Some data →
  data = {| TenantsRoute.name := trim (NewTenantPage.name s);
            TenantsRoute.package_tier := NewTenantPage.packageTier s;
            TenantsRoute.niche := trim (NewTenantPage.niche s);
            TenantsRoute.timezone := trim (NewTenantPage.timezone s);
            TenantsRoute.currency := trim (NewTenantPage.currency s) |}.
Proof.
  intros [= <-]. unfold TenantsRoute.createTenantSchema.
  change (Js.field "name" _) with (Some (Js.JString (trim (NewTenantPage.name s)))).
  change (Js.field "package_tier" _)
    with (Some (Js.JString (NewTenantPage.packageTier s))).
  change (Js.field "niche" _) with (Some (Js.JString (trim (NewTenantPage.niche s)))).
  change (Js.field "timezone" _)
    with (Some (Js.JString (trim (NewTenantPage.timezone s)))).
  change (Js.field "currency" _)
    with (Some (Js.JString (trim (NewTenantPage.currency s)))).
  cbn. repeat (match goal with |- context [if ?b then _ else _] => destruct b end;
               cbn; try done).
  by intros [= <-].
Qed.

(** X5.  The new-tenant form sends nothing while the name is blank.  When
    it ends on the page of the new tenant, one tenant and one membership
    were added: the tenant holds the trimmed name, the chosen tier, and
    the trimmed niche, timezone and currency with NULL in place of a blank
    one; the membership makes the user of the session its owner. *)
Theorem new_tenant_form_stores_trimmed_fields
    (env : NewTenantPage.SubmitEnv) (supabase : bool) (db : Db.t)
    (s : NewTenantPage.State) :
  let out := NewTenantPage.onSubmit trim env supabase db s in
  (Js.truthy (trim (NewTenantPage.name s)) = false →
   out.1.1 = db ∧ out.2 = Settled
   ∧ NewTenantPage.errorMessage out.1.2 = Some "Name is required.")
  ∧ (∀ path, out.2 = Redirected path → path ≠ "/login" →
     ∃ tenant member token,
       path = "/app/tenants/" +:+ Db.t_id tenant
       ∧ Db.tenants out.1.1 = (Db.tenants db ++ [tenant])%list
       ∧ Db.t_name tenant = trim (NewTenantPage.name s)
       ∧ Db.t_name tenant ≠ ""
       ∧ Db.t_package_tier tenant = NewTenantPage.packageTier s
       ∧ Db.t_niche tenant = Js.or_null (trim (NewTenantPage.niche s))
       ∧ Db.t_timezone tenant = Js.or_null (trim (NewTenantPage.timezone s))
       ∧ Db.t_currency tenant = Js.or_null (trim (NewTenantPage.currency s))
       ∧ Db.tenant_users out.1.1 = (Db.tenant_users db ++ [member])%list
       ∧ Db.tu_tenant_id member = Db.t_id tenant
       ∧ Db.tu_role member = "owner"
       ∧ NewTenantPage.session env = Some token
       ∧ TenantsRoute.getUser (NewTenantPage.route env) token
         = Some (Db.tu_user_id member)).
Proof.
  intros out. subst out. split.
  - intros H. unfold NewTenantPage.onSubmit. by rewrite H.
  - intros path. unfold NewTenantPage.onSubmit.
    destruct (Js.truthy (trim (NewTenantPage.name s))) eqn:Hname; [|done]. cbn [negb].
    destruct (negb supabase); [done|]. cbn zeta.
    destruct (NewTenantPage.session env) as [token|] eqn:Hses;
      [|by intros [= <-]].
    destruct (negb (Js.truthy token)); [by intros [= <-]|].
    destruct (NewTenantPage.network env); [|done].
    destruct (TenantsRoute.POST _ _ _) as [db1 res] eqn:HP.
    destruct (negb (ok res)); [done|].
    destruct (body res) as [| | | |tenant] eqn:Hb; try done.
    cbn [fst snd]. intros [= <-] _.
    destruct (tenants_POST_ok_tenant _ _ _ _ _ _ HP Hb)
      as (authHeader & userId & body & data & db0 & Hh & Hg & Hj & Hs & Hi & Hm).
    pose proof (new_tenant_request_payload token s body data Hj Hs) as ->.
    cbn in Hh. injection Hh as <-. rewrite bearer_token_of_header in Hg.
    apply insert_tenant_Ok in Hi as (Ht & _ & ->).
    apply insert_tenant_user_Ok in Hm as [Hm1 Hm2].
    exists tenant, {| Db.tu_id := TenantsRoute.newMemberId (NewTenantPage.route env);
                      Db.tu_tenant_id := Db.t_id tenant; Db.tu_user_id := userId;
                      Db.tu_role := "owner" |}, token.
    rewrite Hm1, Hm2. rewrite Ht. cbn.
    split_and!; try done. by apply truthy_nonempty.
Qed.

End NewTenant.

Section NewTenantWitness.

Lemma new_tenant_form_stores_trimmed_fields_witness :
  ∃ tenant,
    Db.tenants (NewTenantPage.onSubmit Sample.trim
                  {| NewTenantPage.session := Some "jwt-of-user-1";
                     NewTenantPage.network := Http.Return ();
                     NewTenantPage.route := Sample.tenantsEnv Db.NoFault |}
                  true Sample.database
                  {| NewTenantPage.name := "Lash Studio";
                     NewTenantPage.packageTier := "foundation";
                     NewTenantPage.niche := ""; NewTenantPage.timezone := "";
                     NewTenantPage.currency := "USD";
                     NewTenantPage.status := "idle";
                     NewTenantPage.errorMessage := None |}).1.1
    = (Db.tenants Sample.database ++ [tenant])%list
    ∧ Db.t_niche tenant = None ∧ Db.t_currency tenant = Some "USD".
Proof.
  destruct (proj2 (new_tenant_form_stores_trimmed_fields Sample.trim
                     {| NewTenantPage.session := Some "jwt-of-user-1";
                        NewTenantPage.network := Http.Return ();
                        NewTenantPage.route := Sample.tenantsEnv Db.NoFault |}
                     true Sample.database
                     {| NewTenantPage.name := "Lash Studio";
                        NewTenantPage.packageTier := "foundation";
                        NewTenantPage.niche := ""; NewTenantPage.timezone := "";
                        NewTenantPage.currency := "USD";
                        NewTenantPage.status := "idle";
                        NewTenantPage.errorMessage := None |})
              "/app/tenants/tenant-2" eq_refl)
    as (tenant & member & token & _ & Ht & _ & _ & _ & Hn & _ & Hc & _).
  - discriminate.
  - exists tenant. split; [exact Ht|]. split; [exact Hn|exact Hc].
Defined.

End NewTenantWitness.

(** ** The Google Form script and the intake route *)

Section FormScriptFacts.
Import Http FormScript.

Variable Number : string → Js.number.
Variable getContentText : Response → string.
Variable String_of_code : nat → string.
Variable is_uuid : string → bool.
Variable is_url : string → bool.

(** What the intake schema makes of the payload of the script. *)
Lemma intakeSchema_payload (config : Config) (e : option Event) :
  IntakeRoute.intakeSchema is_uuid is_url (payload Number config e)
  = (tid ← IntakeRoute.a_string is_uuid (Js.JString (tenantId config));
     src ← IntakeRoute.a_string Js.truthy (Js.JString (source config));
     d ← IntakeRoute.optional (IntakeRoute.a_string Js.is_date_shape)
           (Some (json_of_option (answer e "Date" ≫= fun a => toISODate (Text a))));
     amt ← IntakeRoute.optional IntakeRoute.a_finite_number
             (Some (json_of_number (Number <$> answer e "Amount")));
     descr ← IntakeRoute.optional (IntakeRoute.a_string (fun _ => true))
               (Some (json_of_option (answer e "Description")));
     att ← IntakeRoute.optional (IntakeRoute.a_string is_url)
             (Some (json_of_option (answer e "Receipt")));
     Some {| IntakeRoute.tenant_id := tid; IntakeRoute.source := src;
             IntakeRoute.date := d; IntakeRoute.amount := amt;
             IntakeRoute.description := descr; IntakeRoute.attachment_url := att;
             IntakeRoute.raw_payload :=
               Some (Js.JObject [("values", json_of_values (e ≫= values));
                                 ("namedValues",
                                  json_of_namedValues (e ≫= namedValues))]) |}).
Proof. reflexivity. Qed.

Lemma intakeSchema_payload_Some (config : Config) (e : option Event)
    (data : IntakeRoute.IntakePayload) :
  IntakeRoute.intakeSchema is_uuid is_url (payload Number config e) = Some data →
  ∃ d a t u,
    answer e "Date" = Some d ∧ answer e "Amount" = Some a
    ∧ answer e "Description" = Some t ∧ answer e "Receipt" = Some u
    ∧ Js.is_date_shape (String.substring 0 10 d) = true
    ∧ Js.isFinite (Number a) = true
    ∧ is_url u = true
    ∧ is_uuid (tenantId config) = true
    ∧ source config ≠ ""
    ∧ data = {| IntakeRoute.tenant_id := tenantId config;
                IntakeRoute.source := source config;
                IntakeRoute.date := Some (String.substring 0 10 d);
                IntakeRoute.amount := Some (Number a);
                IntakeRoute.description := Some t;
                IntakeRoute.attachment_url := Some u;
                IntakeRoute.raw_payload :=
                  Some (Js.JObject [("values", json_of_values (e ≫= values));
                                    ("namedValues",
                                     json_of_namedValues (e ≫= namedValues))]) |}.
Proof.
  rewrite intakeSchema_payload. cbn.
  destruct (is_uuid (tenantId config)) eqn:Hu; cbn; [|done].
  destruct (Js.truthy (source config)) eqn:Hsrc; cbn; [|done].
  destruct (answer e "Date") as [d|] eqn:Hd; cbn; [|done].
  assert (Js.truthy d = true) as Htd.
  { unfold answer in Hd. destruct e as [ev|]; cbn in Hd; [|done].
    destruct (namedValues ev) as [named|]; cbn in Hd; [|done].
    unfold first_answer in Hd. destruct (snd <$> _) as [[|a0 ?]|]; try done.
    destruct (Js.truthy a0) eqn:E; [|done]. by injection Hd as <-. }
  rewrite Htd. cbn.
  destruct (Js.is_date_shape _) eqn:Hshape; cbn; [|done].
  destruct (answer e "Amount") as [a|]; cbn; [|done].
  destruct (Js.isFinite (Number a)) eqn:Hfin; cbn; [|done]. rewrite Hfin. cbn.
  destruct (answer e "Description") as [t|]; cbn; [|done].
  destruct (answer e "Receipt") as [u|]; cbn; [|done].
  destruct (is_url u) eqn:Hurl; cbn; [|done].
  intros [= <-]. exists d, a, t, u. split_and!; try done. by apply truthy_nonempty.
Qed.

End FormScriptFacts.

Section FormScriptClaims.
Import Http FormScript.

Variable Number : string → Js.number.
Variable getContentText : Response → string.
Variable String_of_code : nat → string.
Variable is_uuid : string → bool.
Variable is_url : string → bool.

(** X6.  The form script always sends the keys date, amount, description
    and attachment_url, with null for a question that has no answer; the
    intake schema takes these keys as optional but not as null.  So a
    submission that lacks a non-empty first answer to Date, Amount,
    Description or Receipt is never stored: with the right token the route
    answers 400, in no case 200, the database is left as it was and
    [onFormSubmit] ends in an error. *)
Theorem form_submission_missing_an_answer_is_refused
    (config : Config) (network : thrown unit) (route : IntakeRoute.Env)
    (e : option Event) (db : Db.t) :
  answer e "Date" = None ∨ answer e "Amount" = None
  ∨ answer e "Description" = None ∨ answer e "Receipt" = None →
  let response := IntakeRoute.POST is_uuid is_url route (request Number config e) db in
  let out := onFormSubmit Number getContentText String_of_code is_uuid is_url
               config network route e db in
  response.1 = db
  ∧ status response.2 ≠ 200%nat
  ∧ (IntakeRoute.requireIntakeToken (IntakeRoute.processEnv route) (request Number config e)
     = Return true →
     response.2 = respond 400 invalid_payload)
  ∧ out.1 = db
  ∧ ∃ message, out.2 = Throw message.
Proof.
  intros Hmissing response out.
  assert (IntakeRoute.intakeSchema is_uuid is_url (payload Number config e) = None)
    as Hnone.
  { destruct (IntakeRoute.intakeSchema _ _ _) as [data|] eqn:Hs; [|done].
    apply intakeSchema_payload_Some in Hs as (d & a & t & u & Hd & Ha & Ht & Hu & _).
    destruct Hmissing as [H|[H|[H|H]]]; congruence. }
  assert (response = match IntakeRoute.requireIntakeToken (IntakeRoute.processEnv route)
                             (request Number config e) with
                     | Throw message => (db, respond 500 (error_body message))
                     | Return false => (db, respond 401 (error_body "Unauthorized"))
                     | Return true => (db, respond 400 invalid_payload)
                     end) as Hr.
  { subst response. unfold IntakeRoute.POST.
    destruct (IntakeRoute.requireIntakeToken _ _) as [[]|]; [|done..].
    cbn [json request]. by rewrite Hnone. }
  assert (response.1 = db ∧ (status response.2 = 400 ∨ status response.2 = 401
                             ∨ status response.2 = 500)%nat) as [Hdb Hst].
  { rewrite Hr. destruct (IntakeRoute.requireIntakeToken _ _) as [[]|]; cbn; tauto. }
  split_and!.
  - done.
  - lia.
  - intros Htok. rewrite Hr, Htok. done.
  - subst out. unfold onFormSubmit. destruct network; [|done].
    fold response. by destruct response, (_ || _).
  - subst out. unfold onFormSubmit. destruct network as [[]|message]; [|by eexists].
    fold response. destruct response as [db1 res]. cbn [snd] in Hst.
    assert (((status res <? 200) || (300 <=? status res))%nat = true) as ->.
    { destruct Hst as [->|[->| ->]]; done. }
    by eexists.
Qed.


End FormScriptClaims.

Section FormScriptWitness.
Import Http FormScript.

Lemma form_submission_missing_an_answer_is_refused_witness :
  (IntakeRoute.POST Sample.is_uuid Sample.is_url Sample.intakeEnv
     (request Cases.Number Cases.formConfig (Cases.submission [])) Sample.database).2
  = respond 400 invalid_payload
  ∧ (onFormSubmit Cases.Number Cases.getContentText Cases.String_of_code
       Sample.is_uuid Sample.is_url Cases.formConfig (Return ()) Sample.intakeEnv
       (Cases.submission []) Sample.database).1 = Sample.database.
Proof.
  destruct (form_submission_missing_an_answer_is_refused
              Cases.Number Cases.getContentText Cases.String_of_code
              Sample.is_uuid Sample.is_url Cases.formConfig (Return ())
              Sample.intakeEnv (Cases.submission []) Sample.database)
    as (_ & _ & H400 & Hdb & _).
  - right. right. right. reflexivity.
  - split; [apply H400; reflexivity|exact Hdb].
Defined.


End FormScriptWitness.

(** ** Starting a cycle: the three copies *)

Section StartCopies.
Import Http.

(** X8.  The tenant page, the home page and the admin route start a cycle
    with the same two statements: given the same tenant, month, generated
    ids and fates of the statements, and a route request that passes its
    guards, all three leave the same database. *)
Theorem start_cycle_copies_leave_the_same_database
    (month : string) (f1 f2 : Db.fault) (cid : Db.uuid) (gen : nat → Db.uuid)
    (w : TenantPage.World) :
  TenantPage.supabase w = true →
  let home :=
    HomePage.startCycle
      {| HomePage.month := month; HomePage.upsertFault := f1;
         HomePage.newCycleId := cid; HomePage.insertTasksFault := f2;
         HomePage.newTaskIds := gen |}
      true (TenantPage.tenantId w) (TenantPage.db w) in
  (∀ reload,
     TenantPage.db
       (TenantPage.startCycle
          {| TenantPage.thisMonth := month; TenantPage.upsertFault := f1;
             TenantPage.newCycleId := cid; TenantPage.insertTasksFault := f2;
             TenantPage.newTaskIds := gen; TenantPage.reload := reload |} w)
     = (home HomePage.initial).1)
  ∧ (∀ processEnv request body,
       CycleStartRoute.requireAdminToken processEnv request = Return true →
       json request = Return body →
       CycleStartRoute.payloadSchema body = Some month →
       (CycleStartRoute.POST
          {| CycleStartRoute.processEnv := processEnv;
             CycleStartRoute.adminClient := Return ();
             CycleStartRoute.upsertFault := f1; CycleStartRoute.newCycleId := cid;
             CycleStartRoute.insertTasksFault := f2;
             CycleStartRoute.newTaskIds := gen |}
          request (TenantPage.tenantId w) (TenantPage.db w)).1
       = (home HomePage.initial).1)
  ∧ (∀ s, (home s).1 = (home HomePage.initial).1).
Proof.
  intros Hs home. subst home. split_and!.
  - intros reload. unfold TenantPage.startCycle, HomePage.startCycle. cbn.
    rewrite Hs. cbn.
    destruct (Db.upsert_service_cycle _ _ _ _ _ _) as [db1 [cycle|msg]] eqn:Hu.
    + by rewrite load_db.
    + cbn. by apply upsert_service_cycle_Error in Hu.
  - intros processEnv request body Htok Hj Hp.
    unfold CycleStartRoute.POST, HomePage.startCycle. cbn.
    rewrite Htok, Hj, Hp.
    destruct (Db.upsert_service_cycle _ _ _ _ _ _) as [db1 [cycle|msg]] eqn:Hu; [|done].
    by destruct (Db.insert_cycle_tasks _ _ _ _) as [db2 [msg|]].
  - intros s. unfold HomePage.startCycle. cbn.
    by destruct (Db.upsert_service_cycle _ _ _ _ _ _) as [db1 [cycle|msg]].
Qed.

Lemma start_cycle_copies_leave_the_same_database_witness :
  TenantPage.db (TenantPage.startCycle Sample.pageStartEnv Sample.world)
  = (CycleStartRoute.POST Sample.startEnv (Sample.startRequest "admin-token" "2026-04-01")
       "tenant-1" Sample.database).1.
Proof.
  destruct (start_cycle_copies_leave_the_same_database "2026-04-01" Db.NoFault Db.NoFault
              "cycle-3" Sample.taskId Sample.world eq_refl) as (Hpage & Hroute & _).
  exact (eq_trans (Hpage (TenantPage.reload Sample.pageStartEnv))
           (eq_sym (Hroute Sample.processEnv
                      (Sample.startRequest "admin-token" "2026-04-01")
                      (Js.JObject [("month", Js.JString "2026-04-01")])
                      eq_refl eq_refl eq_refl))).
Defined.

End StartCopies.

Section StartButtons.
Import Http.

Lemma prefix_of_substring (n : nat) (s : string) :
  String.prefix (String.substring 0 n s) s = true.
Proof.
  revert s. induction n as [|n IH]; intros [|a s]; cbn; try done.
  destruct (Ascii.ascii_dec a a); [apply IH|done].
Qed.

Lemma upsert_service_cycle_new (f : Db.fault) (new_id tid month st : string)
    (db db1 : Db.t) (cycle : Db.service_cycle) :
  List.find (Db.same_cycle_key tid month) (Db.service_cycles db) = None →
  Db.upsert_service_cycle f new_id tid month st db = (db1, Db.Ok cycle) →
  Db.service_cycles db1 = (Db.service_cycles db ++ [cycle])%list.
Proof.
  intros Hnone. unfold Db.upsert_service_cycle. destruct f; [|done].
  destruct (negb (Db.in_enum _ _)); [done|]. rewrite Hnone.
  destruct (negb (Db.tenant_exists _ _)); [done|].
  destruct (negb (Db.fresh_keys _ _)); [done|].
  by intros [= <- <-].
Qed.

Lemma insert_cycle_tasks_cycles (f : Db.fault) (gen : nat → string)
    (vs : list Db.cycle_task_values) (db : Db.t) :
  Db.service_cycles (Db.insert_cycle_tasks f gen vs db).1 = Db.service_cycles db.
Proof.
  destruct (Db.insert_cycle_tasks f gen vs db) as [db2 [msg|]] eqn:E; cbn.
  - by apply insert_cycle_tasks_Error in E as ->.
  - by apply insert_cycle_tasks_Ok in E as [-> _].
Qed.

(** Starting with no stored cycle for the tenant and the month. *)
Lemma start_without_conflict (f1 : Db.fault) (cid tid month : string) (db : Db.t) :
  List.find (Db.same_cycle_key tid month) (Db.service_cycles db) = None →
  CyclesView.at_most_appended tid month (Db.service_cycles db)
    (Db.service_cycles (Db.upsert_service_cycle f1 cid tid month "collecting" db).1)
  ∧ ∀ cycle f2 gen vs,
      (Db.upsert_service_cycle f1 cid tid month "collecting" db).2 = Db.Ok cycle →
      CyclesView.at_most_appended tid month (Db.service_cycles db)
        (Db.service_cycles
           (Db.insert_cycle_tasks f2 gen vs
              (Db.upsert_service_cycle f1 cid tid month "collecting" db).1).1).
Proof.
  intros Hnone.
  destruct (Db.upsert_service_cycle f1 cid tid month "collecting" db)
    as [db1 [cycle|msg]] eqn:Hu; cbn [fst snd].
  - pose proof (upsert_service_cycle_new _ _ _ _ _ _ _ _ Hnone Hu) as Hnew.
    apply upsert_service_cycle_Ok in Hu as (_ & Ht & Hm & Hst & _).
    assert (CyclesView.at_most_appended tid month (Db.service_cycles db)
              (Db.service_cycles db1)) as Happ.
    { right. by exists cycle. }
    split; [done|]. intros cycle' f2 gen vs _. by rewrite insert_cycle_tasks_cycles.
  - apply upsert_service_cycle_Error in Hu as ->. split; [by left|done].
Qed.

Lemma loadCycles_lookup_None (month tenantId : string) (tenantIds : list string)
    (db : Db.t) (s0 : HomePage.State) :
  tenantId ∈ tenantIds →
  HomePage.cycles (HomePage.loadCycles Db.NoFault true month tenantIds db s0) !! tenantId
  = None →
  List.find (Db.same_cycle_key tenantId month) (Db.service_cycles db) = None.
Proof.
  intros Hin. unfold HomePage.loadCycles.
  rewrite bool_decide_false by (intros ->; by apply elem_of_nil in Hin). cbn.
  set (data := List.filter _ _).
  assert (∀ (l : list Db.service_cycle) (m : gmap string Db.service_cycle),
            foldl (fun m row => <[Db.sc_tenant_id row := row]> m) m l !! tenantId = None →
            m !! tenantId = None ∧ ∀ r, r ∈ l → Db.sc_tenant_id r ≠ tenantId) as Hfold.
  { induction l as [|r l IH]; intros m; cbn.
    - intros H. split; [done|]. intros r Hr. by apply elem_of_nil in Hr.
    - intros H. apply IH in H as [Hm Hl].
      destruct (decide (Db.sc_tenant_id r = tenantId)) as [E|E].
      + rewrite E, lookup_insert_eq in Hm. done.
      + rewrite lookup_insert_ne in Hm by done. split; [done|].
        intros r' Hr'. apply elem_of_cons in Hr' as [->|Hr']; [done|by apply Hl]. }
  intros H. apply Hfold in H as [_ Hno].
  destruct (List.find _ _) as [r|] eqn:Hfind; [|done]. exfalso.
  apply find_some in Hfind as [Hr Hkey]. unfold Db.same_cycle_key in Hkey.
  apply andb_true_iff in Hkey as [Ht Hm]. apply bool_decide_eq_true in Ht, Hm.
  apply (Hno r); [|done]. apply list_elem_of_In, filter_In. split; [done|].
  rewrite !bool_decide_true; [done|by rewrite Ht|done].
Qed.

(** X9.  A Start button resets no cycle the page has loaded.  On the
    tenant page the button is there only while no cycle shown begins with
    the current year and month; on the home page, only for a tenant
    without an entry in the page's map of cycles.  Where the page shows
    every stored cycle of the tenant (tenant page), or its map has an
    entry for every tenant with a stored cycle of the month (home page, as
    after a [loadCycles] that was answered, on the same database),
    [startCycle] leaves the stored cycles as they are or adds one
    collecting cycle of that tenant for the month at the end.  The map of
    the home page is empty until [loadCycles] is answered and is left as
    it was by a query that failed: the button is then shown whatever is
    stored, and a click whose upsert is carried out sets the stored cycle
    of the month back to collecting. *)
Theorem start_buttons_reset_only_cycles_the_page_has_not_loaded :
  (∀ (env : TenantPage.StartEnv) (w : TenantPage.World),
     CyclesView.canStart (TenantPage.thisMonth env) w = true →
     (∀ r, r ∈ Db.service_cycles (TenantPage.db w) →
           Db.sc_tenant_id r = TenantPage.tenantId w →
           ∃ c, c ∈ TenantPage.cycles w ∧ TenantPage.cycle_month c = Db.sc_month r) →
     CyclesView.at_most_appended (TenantPage.tenantId w) (TenantPage.thisMonth env)
       (Db.service_cycles (TenantPage.db w))
       (Db.service_cycles (TenantPage.db (TenantPage.startCycle env w))))
  ∧ (∀ (env : HomePage.StartEnv) (tenantId : string) (db : Db.t) (s : HomePage.State),
       (∀ r, r ∈ Db.service_cycles db → Db.sc_tenant_id r = tenantId →
             Db.sc_month r = HomePage.month env →
             is_Some (HomePage.cycles s !! tenantId)) →
       HomePage.canStart s tenantId = true →
       CyclesView.at_most_appended tenantId (HomePage.month env) (Db.service_cycles db)
         (Db.service_cycles (HomePage.startCycle env true tenantId db s).1))
  ∧ (∀ (month : string) (tenantIds : list string) (tenantId : string) (db : Db.t)
       (s0 : HomePage.State) (r : Db.service_cycle),
       tenantId ∈ tenantIds →
       r ∈ Db.service_cycles db → Db.sc_tenant_id r = tenantId → Db.sc_month r = month →
       is_Some (HomePage.cycles
                  (HomePage.loadCycles Db.NoFault true month tenantIds db s0)
                !! tenantId))
  ∧ (∀ tenantId, HomePage.canStart HomePage.initial tenantId = true)
  ∧ (∀ message supabase month tenantIds db s,
       HomePage.loadCycles (Db.Fault message) supabase month tenantIds db s = s)
  ∧ (∀ (env : HomePage.StartEnv) (tenantId : string) (db : Db.t) (s : HomePage.State)
       (old : Db.service_cycle),
       List.find (Db.same_cycle_key tenantId (HomePage.month env)) (Db.service_cycles db)
       = Some old →
       HomePage.upsertFault env = Db.NoFault →
       Db.service_cycles (HomePage.startCycle env true tenantId db s).1
       = (fun r => if Db.same_cycle_key tenantId (HomePage.month env) r
                   then Db.set_sc_status "collecting" r else r)
           <$> Db.service_cycles db).
Proof.
  split_and!.
  - intros env w Hcan Hshown.
    assert (List.find (Db.same_cycle_key (TenantPage.tenantId w) (TenantPage.thisMonth env))
                      (Db.service_cycles (TenantPage.db w)) = None) as Hnone.
    { destruct (List.find _ _) as [r|] eqn:Hfind; [|done]. exfalso.
      apply find_some in Hfind as [Hr Hkey]. unfold Db.same_cycle_key in Hkey.
      apply andb_true_iff in Hkey as [Ht Hm]. apply bool_decide_eq_true in Ht, Hm.
      destruct (Hshown r) as (c & Hc & Hcm); [by apply list_elem_of_In|done|].
      unfold CyclesView.canStart in Hcan. apply negb_true_iff in Hcan.
      assert (CyclesView.hasThisMonth (TenantPage.thisMonth env) (TenantPage.cycles w)
              = true) as Hhas; [|congruence].
      apply existsb_exists. exists c. split; [by apply list_elem_of_In|].
      rewrite Hcm, Hm. apply prefix_of_substring. }
    destruct (start_without_conflict (TenantPage.upsertFault env)
                (TenantPage.newCycleId env) _ _ _ Hnone) as [Hup Hins].
    unfold TenantPage.startCycle. cbn.
    destruct (TenantPage.supabase w); cbn; [|by left].
    destruct (Db.upsert_service_cycle _ _ _ _ _ _) as [db1 [cycle|msg]] eqn:Hu.
    + rewrite load_db. cbn. by eapply Hins.
    + cbn. cbn in Hup. apply upsert_service_cycle_Error in Hu as ->. by left.
  - intros env tenantId db s Hknown Hcan.
    apply bool_decide_eq_true in Hcan.
    assert (List.find (Db.same_cycle_key tenantId (HomePage.month env))
                      (Db.service_cycles db) = None) as Hnone.
    { destruct (List.find _ _) as [r|] eqn:Hfind; [|done]. exfalso.
      apply find_some in Hfind as [Hr Hkey]. unfold Db.same_cycle_key in Hkey.
      apply andb_true_iff in Hkey as [Ht Hm]. apply bool_decide_eq_true in Ht, Hm.
      destruct (Hknown r) as [c Hc]; [by apply list_elem_of_In|done|done|].
      congruence. }
    destruct (start_without_conflict (HomePage.upsertFault env)
                (HomePage.newCycleId env) _ _ _ Hnone) as [Hup Hins].
    unfold HomePage.startCycle. cbn.
    destruct (Db.upsert_service_cycle _ _ _ _ _ _) as [db1 [cycle|msg]] eqn:Hu.
    + cbn. by eapply Hins.
    + cbn. cbn in Hup. apply upsert_service_cycle_Error in Hu as ->. by left.
  - intros month tenantIds tenantId db s0 r Hin Hr Ht Hm.
    destruct (HomePage.cycles _ !! tenantId) as [c|] eqn:Hlookup; [by exists c|].
    exfalso. apply loadCycles_lookup_None in Hlookup; [|done].
    pose proof (find_none _ _ Hlookup r) as Hkey.
    rewrite <- list_elem_of_In in Hkey. specialize (Hkey Hr).
    unfold Db.same_cycle_key in Hkey. by rewrite !bool_decide_true in Hkey.
  - done.
  - intros message supabase month tenantIds db s. unfold HomePage.loadCycles.
    by destruct (negb supabase || _).
  - intros env tenantId db s old Hfind Hfault. unfold HomePage.startCycle. cbn [negb].
    unfold Db.upsert_service_cycle. rewrite Hfault, Hfind.
    change (negb (Db.in_enum Db.service_cycle_status "collecting")) with false.
    cbn [fst]. by rewrite insert_cycle_tasks_cycles.
Qed.

Lemma start_buttons_reset_only_cycles_the_page_has_not_loaded_witness :
  CyclesView.at_most_appended "tenant-1" "2026-04-01"
    (Db.service_cycles Sample.database)
    (Db.service_cycles
       (TenantPage.db (TenantPage.startCycle Sample.pageStartEnv Sample.world)))
  ∧ CyclesView.at_most_appended "tenant-1" "2026-04-01"
      (Db.service_cycles Sample.database)
      (Db.service_cycles
         (HomePage.startCycle (Cases.homeStartEnv "2026-04-01") true "tenant-1"
            Sample.database
            (HomePage.loadCycles Db.NoFault true "2026-04-01" ["tenant-1"]
               Sample.database HomePage.initial)).1)
  ∧ HomePage.canStart HomePage.initial "tenant-1" = true
  ∧ Db.cycle_status Sample.database "cycle-2" = Some "processing"
  ∧ Db.cycle_status
      (HomePage.startCycle (Cases.homeStartEnv "2026-03-01") true "tenant-1"
         Sample.database HomePage.initial).1 "cycle-2" = Some "collecting".
Proof.
  destruct start_buttons_reset_only_cycles_the_page_has_not_loaded
    as (Hpage & Hhome & Hloaded & Hshown & _ & Hreset).
  split_and!.
  - apply (Hpage Sample.pageStartEnv Sample.world).
    + reflexivity.
    + intros r Hr _. cbn in Hr.
      apply elem_of_cons in Hr as [->|Hr].
      * exists Sample.february. split; [|reflexivity].
        apply list_elem_of_In. cbn. tauto.
      * apply list_elem_of_singleton in Hr as ->.
        exists Sample.march. split; [|reflexivity].
        apply list_elem_of_In. cbn. tauto.
  - apply (Hhome (Cases.homeStartEnv "2026-04-01")).
    + intros r Hr Ht Hm.
      apply (Hloaded "2026-04-01" ["tenant-1"] "tenant-1" Sample.database
               HomePage.initial r); [by left|exact Hr|exact Ht|exact Hm].
    + reflexivity.
  - apply Hshown.
  - reflexivity.
  - unfold Db.cycle_status.
    rewrite (Hreset (Cases.homeStartEnv "2026-03-01") "tenant-1" Sample.database
               HomePage.initial
               {| Db.sc_id := "cycle-2"; Db.sc_tenant_id := "tenant-1";
                  Db.sc_month := "2026-03-01"; Db.sc_status := "processing" |}
               eq_refl eq_refl).
    reflexivity.
Defined.

End StartButtons.

Section StartRouteEdges.
Import Http.

(** X10.  The cycle-start route does not undo the cycle when the insert
    of the tasks fails.  A request that is not answered 200 has added no
    task; either it left the database as it was, or its upsert was carried
    out and the insert of the eight tasks was refused: then the cycle row
    stays, collecting, and the answer is 500 with the insert's message. *)
Theorem cycle_start_route_does_not_roll_back
    (env : CycleStartRoute.Env) (request : Request) (tenantId : string) (db : Db.t) :
  let out := CycleStartRoute.POST env request tenantId db in
  status out.2 ≠ 200%nat →
  Db.cycle_tasks out.1 = Db.cycle_tasks db
  ∧ (out.1 = db
     ∨ ∃ month cycle message,
         Db.upsert_service_cycle (CycleStartRoute.upsertFault env)
           (CycleStartRoute.newCycleId env) tenantId month "collecting" db
         = (out.1, Db.Ok cycle)
         ∧ cycle ∈ Db.service_cycles out.1
         ∧ Db.sc_tenant_id cycle = tenantId
         ∧ Db.sc_status cycle = "collecting"
         ∧ out.2 = respond 500 (error_body message)).
Proof.
  intros out. subst out. unfold CycleStartRoute.POST.
  destruct (CycleStartRoute.requireAdminToken _ _) as [[]|]; try (by split; [|left]).
  destruct (json request) as [body|]; [|by split; [|left]].
  destruct (CycleStartRoute.payloadSchema body) as [month|]; [|by split; [|left]].
  destruct (CycleStartRoute.adminClient env); [|by split; [|left]].
  destruct (Db.upsert_service_cycle _ _ _ _ _ _) as [db1 [cycle|msg]] eqn:Hu.
  - destruct (Db.insert_cycle_tasks _ _ _ _) as [db2 [msg|]] eqn:Hi; [|done].
    intros _. apply insert_cycle_tasks_Error in Hi as ->. cbn [fst snd].
    pose proof Hu as Hu'.
    apply upsert_service_cycle_Ok in Hu' as (Hin & Ht & _ & Hst & Htasks & _).
    split; [done|]. right. by exists month, cycle, msg.
  - intros _. apply upsert_service_cycle_Error in Hu as ->. by split; [|left].
Qed.

Lemma cycle_start_route_does_not_roll_back_witness :
  let env := {| CycleStartRoute.processEnv := Sample.processEnv;
                CycleStartRoute.adminClient := Return ();
                CycleStartRoute.upsertFault := Db.NoFault;
                CycleStartRoute.newCycleId := "cycle-3";
                CycleStartRoute.insertTasksFault := Db.Fault "connection lost";
                CycleStartRoute.newTaskIds := Sample.taskId |} in
  let out := CycleStartRoute.POST env (Sample.startRequest "admin-token" "2026-04-01")
               "tenant-1" Sample.database in
  Db.cycle_tasks out.1 = Db.cycle_tasks Sample.database
  ∧ Db.cycle_status out.1 "cycle-3" = Some "collecting"
  ∧ Db.tasks_of_cycle out.1 "cycle-3" = [].
Proof.
  intros env out.
  destruct (cycle_start_route_does_not_roll_back env
              (Sample.startRequest "admin-token" "2026-04-01") "tenant-1" Sample.database)
    as [Htasks _].
  - discriminate.
  - split; [exact Htasks|]. split; reflexivity.
Defined.

(** X11.  Starting a cycle again through the route adds a second
    checklist.  When the request is answered 200 for a tenant and month
    that already had a cycle, the cycle answered is that row, set back to
    collecting; no cycle row is added; and the cycle's checklist is its
    earlier tasks, as they were, followed by eight new tasks, all todo. *)
Theorem restarting_a_cycle_appends_eight_tasks
    (env : CycleStartRoute.Env) (request : Request) (tenantId : string)
    (db db' : Db.t) (cycle old : Db.service_cycle) :
  CycleStartRoute.POST env request tenantId db = (db', respond 200 (ok_cycle cycle)) →
  List.find (Db.same_cycle_key tenantId (Db.sc_month cycle)) (Db.service_cycles db)
  = Some old →
  cycle = Db.set_sc_status "collecting" old
  ∧ List.length (Db.service_cycles db') = List.length (Db.service_cycles db)
  ∧ ∃ added,
      List.length added = 8%nat
      ∧ Forall (fun t => Db.ct_status t = "todo"
                         ∧ Db.ct_service_cycle_id t = Db.sc_id old
                         ∧ Db.ct_tenant_id t = tenantId) added
      ∧ Db.tasks_of_cycle db' (Db.sc_id old)
        = (Db.tasks_of_cycle db (Db.sc_id old) ++ added)%list.
Proof.
  intros HP Hold.
  destruct (cycle_start_POST_200 _ _ _ _ _ _ HP eq_refl)
    as (expected & body & month & db1 & cycle' & _ & _ & _ & _ & Hu & Hi & Hr).
  injection Hr as <-.
  pose proof Hu as Hu'.
  apply upsert_service_cycle_Ok in Hu' as (_ & _ & Hm & _ & Htasks & _ & _ & Hsame).
  rewrite Hm in Hold. destruct (Hsame old Hold) as [-> Hlen].
  apply insert_cycle_tasks_Ok in Hi as [Hcycles Hnew].
  split_and!; [done|by rewrite Hcycles|].
  rewrite length_fmap in Hnew. rewrite route_rows_are_checklist in Hnew.
  exists (Spec.spec_checklist (Db.sc_id old) tenantId
            (Db.generated (CycleStartRoute.newTaskIds env) 8)).
  split_and!.
  - reflexivity.
  - unfold Spec.spec_checklist. cbn. repeat constructor.
  - unfold Db.tasks_of_cycle. rewrite Hnew, Htasks. cbn [Db.sc_id Db.set_sc_status].
    rewrite List.filter_app. f_equal.
    unfold Spec.spec_checklist. cbn. by rewrite !bool_decide_true.
Qed.

Lemma restarting_a_cycle_appends_eight_tasks_witness :
  List.length
    (Db.tasks_of_cycle
       (CycleStartRoute.POST Sample.startEnv
          (Sample.startRequest "admin-token" "2026-02-01") "tenant-1" Sample.database).1
       "cycle-1") = 9%nat.
Proof.
  destruct (restarting_a_cycle_appends_eight_tasks Sample.startEnv
              (Sample.startRequest "admin-token" "2026-02-01") "tenant-1" Sample.database
              (CycleStartRoute.POST Sample.startEnv
                 (Sample.startRequest "admin-token" "2026-02-01") "tenant-1"
                 Sample.database).1
              {| Db.sc_id := "cycle-1"; Db.sc_tenant_id := "tenant-1";
                 Db.sc_month := "2026-02-01"; Db.sc_status := "collecting" |}
              {| Db.sc_id := "cycle-1"; Db.sc_tenant_id := "tenant-1";
                 Db.sc_month := "2026-02-01"; Db.sc_status := "collecting" |}
              eq_refl eq_refl) as (_ & _ & added & Hlen & _ & Htasks).
  cbn [Db.sc_id] in Htasks. rewrite Htasks, length_app, Hlen. reflexivity.
Defined.

End StartRouteEdges.

(** ** Pausing and resuming among other actions *)

Section PauseRecord.
Import TenantPage.

Variable String_of_number : Js.number → string.
Variable parseFloat : string → Js.number.
Variable trim : string → string.
Variable is_uuid : string → bool.
Variable is_url : string → bool.

Lemma load_frame (env : LoadEnv) (w : World) :
  cyclesSection (load env w) = cyclesSection w ∧ supabase (load env w) = supabase w.
Proof.
  unfold load.
  repeat (match goal with |- context [if ?b then _ else _] => destruct b end; try done).
Qed.

Lemma step_keeps_pause_record (id : string) (a : System.Action) (w : World) :
  Runs.keeps_pause_record id a →
  prePauseStatus
    (cyclesSection (System.step String_of_number parseFloat trim is_uuid is_url a w)) !! id
  = prePauseStatus (cyclesSection w) !! id
  ∧ supabase (System.step String_of_number parseFloat trim is_uuid is_url a w)
    = supabase w.
Proof.
  destruct a; cbn [System.step Runs.keeps_pause_record]; intros Hk; try done.
  - unfold startCycle. cbn [supabase set_cyclesSection].
    destruct (negb (supabase w)); [done|].
    destruct (Db.upsert_service_cycle _ _ _ _ _ _) as [db1 [c|msg]]; [|done].
    match goal with
    | |- context [load ?e ?x] => destruct (load_frame e x) as [-> ->]
    end.
    done.
  - split; [by rewrite prePauseStatus_frame_advance|].
    unfold advanceCycle.
    repeat (match goal with |- context [if ?b then _ else _] => destruct b eqn:? end;
            try done).
    cbn. by destruct (Js.at_index _ _).
  - split; [by rewrite prePauseStatus_frame_pause|].
    unfold pauseCycle. by destruct (supabase w) eqn:Hs.
  - split; [by rewrite prePauseStatus_frame_resume|].
    unfold resumeCycle. by destruct (supabase w) eqn:Hs.
  - unfold clickTask, handleTaskToggle. by destruct (supabase w) eqn:Hs.
  - by destruct (load_frame env w) as [-> ->].
  - unfold perform, submitTransaction, handleIntakeStatusChange, openTxForm.
    destruct a; cbn;
      repeat (match goal with
              | |- context [if ?b then _ else _] => destruct b eqn:?
              | |- context [match ?x with _ => _ end] => destruct x eqn:?
              end; cbn; try done).
    all: done.
Qed.

Lemma run_keeps_pause_record (id : string) (actions : list System.Action) (w : World) :
  Forall (Runs.keeps_pause_record id) actions →
  prePauseStatus
    (cyclesSection (Runs.run String_of_number parseFloat trim is_uuid is_url actions w))
    !! id
  = prePauseStatus (cyclesSection w) !! id
  ∧ supabase (Runs.run String_of_number parseFloat trim is_uuid is_url actions w)
    = supabase w.
Proof.
  intros H. revert w. induction H as [|a actions Ha _ IH]; intros w; [done|].
  change (Runs.run String_of_number parseFloat trim is_uuid is_url (a :: actions) w)
    with (Runs.run String_of_number parseFloat trim is_uuid is_url actions
            (System.step String_of_number parseFloat trim is_uuid is_url a w)).
  destruct (IH (System.step String_of_number parseFloat trim is_uuid is_url a w))
    as [-> ->].
  by apply step_keeps_pause_record.
Qed.

(** X12.  The status a cycle had before its pause is on record until the
    cycle itself is resumed or paused again: after pausing it, whatever
    else is done on the page or through the routes (advancing, pausing and
    resuming other cycles, toggling tasks, intake work, starting a cycle,
    reloading), resuming the cycle shows the status it had when it was
    paused, stores it when the update is carried out, and clears the
    record. *)
Theorem resume_restores_status_after_other_actions
    (f1 f2 : Db.fault) (cycle paused : ServiceCycle) (actions : list System.Action)
    (w : World) :
  supabase w = true →
  Forall (Runs.keeps_pause_record (cycle_id cycle)) actions →
  let id := cycle_id cycle in
  let w1 := pauseCycle f1 cycle w in
  let w2 := Runs.run String_of_number parseFloat trim is_uuid is_url actions w1 in
  paused ∈ cycles w2 → cycle_id paused = id →
  let w3 := resumeCycle f2 paused w2 in
  shown_cycle_status w3 id = Some (cycle_status cycle)
  ∧ (f2 = Db.NoFault →
     Db.in_enum Db.service_cycle_status (cycle_status cycle) = true →
     Db.cycle_status (db w3) id
     = (fun _ => cycle_status cycle) <$> Db.cycle_status (db w2) id)
  ∧ prePauseStatus (cyclesSection w3) !! id = None.
Proof.
  intros Hs Hothers id w1 w2 Hin Hid w3.
  assert (prePauseStatus (cyclesSection w1) !! id = Some (cycle_status cycle)
          ∧ supabase w1 = true) as [Hrec1 Hs1].
  { subst w1. rewrite pauseCycle_unfold by done. cbn.
    by rewrite lookup_insert_eq. }
  destruct (run_keeps_pause_record id actions w1 Hothers) as [Hrec2 Hs2].
  fold w2 in Hrec2, Hs2. rewrite Hrec1 in Hrec2. rewrite Hs1 in Hs2.
  subst w3. rewrite resumeCycle_unfold by done. rewrite Hid, Hrec2. cbn zeta.
  cbn [Js.nullish]. split_and!.
  - rewrite <- Hid. apply shown_after_handleCycleAdvanced. by cbn.
  - intros -> He. cbn. by apply update_cycle_status_carried.
  - cbn. by rewrite lookup_delete_eq.
Qed.

(** X13.  The record does not outlive the page.  When a cycle is paused,
    the tenant page is opened anew on the database that results, and the
    cycle is resumed there, it is shown as collecting, and stored as
    collecting when the update is carried out, whatever status it had
    when it was paused. *)
Theorem resume_after_reopening_goes_to_collecting
    (f1 f2 : Db.fault) (cycle paused : ServiceCycle) (env : LoadEnv) (w : World) :
  let id := cycle_id cycle in
  let w1 := pauseCycle f1 cycle w in
  let w2 := load env (Runs.opened (db w1) (tenantId w)) in
  paused ∈ cycles w2 → cycle_id paused = id →
  let w3 := resumeCycle f2 paused w2 in
  shown_cycle_status w3 id = Some "collecting"
  ∧ (f2 = Db.NoFault →
     Db.cycle_status (db w3) id = (fun _ => "collecting") <$> Db.cycle_status (db w1) id).
Proof.
  intros id w1 w2 Hin Hid w3.
  destruct (load_frame env (Runs.opened (db w1) (tenantId w))) as [Hsec Hs].
  change (cyclesSection (Runs.opened _ _)) with initialCyclesSection in Hsec.
  change (supabase (Runs.opened _ _)) with true in Hs.
  fold w2 in Hsec, Hs.
  subst w3. rewrite resumeCycle_unfold by done. rewrite Hsec. cbn zeta.
  change (prePauseStatus initialCyclesSection) with (∅ : gmap string string).
  rewrite lookup_empty. cbn [Js.nullish]. split.
  - rewrite <- Hid. apply shown_after_handleCycleAdvanced. by cbn.
  - intros ->. cbn [db handleCycleAdvanced setCycles set_cyclesSection set_db].
    rewrite Hid. rewrite update_cycle_status_carried by done.
    subst w2. by rewrite load_db.
Qed.

End PauseRecord.

Section PauseRecordWitness.
Import TenantPage.

Lemma resume_restores_status_after_other_actions_witness :
  let actions := [System.PauseCycle Db.NoFault Sample.february;
                  System.ToggleTask Db.NoFault Sample.february (Sample.task "task-1" "todo");
                  System.Reload (reload Sample.pageStartEnv)] in
  let w2 := Runs.run Sample.String_of_number Sample.parseFloat Sample.trim
              Sample.is_uuid Sample.is_url actions
              (pauseCycle Db.NoFault Sample.march Sample.world) in
  shown_cycle_status w2 "cycle-2" = Some "paused"
  ∧ shown_cycle_status (resumeCycle Db.NoFault (set_cycle_status "paused" Sample.march) w2)
      "cycle-2" = Some "processing".
Proof.
  intros actions w2. split; [reflexivity|].
  refine (proj1 (resume_restores_status_after_other_actions
                   Sample.String_of_number Sample.parseFloat Sample.trim
                   Sample.is_uuid Sample.is_url Db.NoFault Db.NoFault Sample.march
                   (set_cycle_status "paused" Sample.march) actions Sample.world
                   eq_refl _ _ eq_refl)).
  - repeat constructor; cbn; discriminate.
  - apply list_elem_of_In. vm_compute. left. reflexivity.
Defined.

Lemma resume_after_reopening_goes_to_collecting_witness :
  let w2 := load (reload Sample.pageStartEnv)
              (Runs.opened (db (pauseCycle Db.NoFault Sample.march Sample.world))
                 "tenant-1") in
  shown_cycle_status w2 "cycle-2" = Some "paused"
  ∧ shown_cycle_status (resumeCycle Db.NoFault (set_cycle_status "paused" Sample.march) w2)
      "cycle-2" = Some "collecting".
Proof.
  intros w2. split; [reflexivity|].
  refine (proj1 (resume_after_reopening_goes_to_collecting Db.NoFault Db.NoFault
                   Sample.march (set_cycle_status "paused" Sample.march)
                   (reload Sample.pageStartEnv) Sample.world _ eq_refl)).
  apply list_elem_of_In. vm_compute. left. reflexivity.
Defined.

End PauseRecordWitness.

(** ** Row-level security on tenants and memberships *)

Section TenantsAndMemberships.
Import Rls.

Variable data : string → list row.

(** X14.  Under the policies of the migration a signed-in user reads a
    row of [tenants] exactly when a membership row links them to it, and a
    row of [tenant_users] exactly when it is their own membership, so no
    user sees who else belongs to a tenant; an anonymous caller reads
    neither; and nobody, member or not, inserts, updates or deletes a
    tenant or a membership through these policies. *)
Theorem tenants_and_memberships_are_read_only_and_private
    (auth_uid : option string) (r new : row) :
  (∀ user tenant,
     auth_uid = Some user → r !! "id" = Some tenant →
     can_select migration data auth_uid "tenants" r = true
     ↔ Spec.spec_member data user tenant)
  ∧ (∀ user,
       auth_uid = Some user →
       can_select migration data auth_uid "tenant_users" r = true
       ↔ r !! "user_id" = Some user)
  ∧ (auth_uid = None →
     can_select migration data auth_uid "tenants" r = false
     ∧ can_select migration data auth_uid "tenant_users" r = false)
  ∧ can_insert migration data auth_uid "tenants" r = false
  ∧ can_update migration data auth_uid "tenants" r new = false
  ∧ can_delete migration data auth_uid "tenants" r = false
  ∧ can_insert migration data auth_uid "tenant_users" r = false
  ∧ can_update migration data auth_uid "tenant_users" r new = false
  ∧ can_delete migration data auth_uid "tenant_users" r = false.
Proof.
  assert (can_select migration data auth_uid "tenants" r
          = is_tenant_member migration data auth_uid (r !! "id")) as Htenants.
  { unfold can_select, passes_using.
    replace (protected migration "tenants") with true by (vm_compute; reflexivity).
    replace (policies_for migration "tenants" Select)
      with [{| pol_name := "tenants_select_member"; pol_table := "tenants";
               pol_command := Select; pol_using := Some (is_tenant_member_of "id");
               pol_with_check := None |}] by (vm_compute; reflexivity).
    cbn. by rewrite orb_false_r. }
  assert (can_select migration data auth_uid "tenant_users" r
          = column_is_auth_uid auth_uid "user_id" r) as Husers.
  { unfold can_select, passes_using.
    replace (protected migration "tenant_users") with true by (vm_compute; reflexivity).
    replace (policies_for migration "tenant_users" Select)
      with [{| pol_name := "tenant_users_select_self"; pol_table := "tenant_users";
               pol_command := Select; pol_using := Some (equals_auth_uid "user_id");
               pol_with_check := None |}] by (vm_compute; reflexivity).
    cbn. by rewrite orb_false_r. }
  destruct (tenants_and_memberships_read_only data auth_uid r new)
    as (H1 & H2 & H3 & H4 & H5 & H6).
  split; [|split; [|split; [|split; [exact H1|split; [exact H2|split; [exact H3|
    split; [exact H4|split; [exact H5|exact H6]]]]]]]].
  - intros user tenant -> Hid. rewrite Htenants, Hid. apply is_tenant_member_spec.
  - intros user ->. rewrite Husers. apply column_is_auth_uid_true.
  - intros ->. rewrite Htenants, Husers. split.
    + apply is_tenant_member_anonymous.
    + unfold column_is_auth_uid. by destruct (r !! "user_id").
Qed.

End TenantsAndMemberships.

Section TenantsAndMembershipsWitness.
Import Rls.

Lemma tenants_and_memberships_are_read_only_and_private_witness :
  let other := {[ "id" := "member-9"; "tenant_id" := "tenant-9";
                  "user_id" := "user-2" ]} : row in
  can_select migration Sample.rows (Some "user-1") "tenant_users" other = false
  ∧ (can_select migration Sample.rows (Some "user-2") "tenant_users" other = true
     ↔ other !! "user_id" = Some "user-2").
Proof.
  intros other. split; [reflexivity|].
  exact (proj1 (proj2 (tenants_and_memberships_are_read_only_and_private
                         Sample.rows (Some "user-2") other other)) "user-2" eq_refl).
Defined.

End TenantsAndMembershipsWitness.

(** ** Running the policy section again *)

Section RerunPolicies.
Import Rls Rerun.

Lemma policies_enable_rls (tables : list string) (c : catalog) :
  policies (foldl (fun c tbl => enable_rls tbl c) c tables) = policies c
  ∧ ∀ tbl, tbl ∈ rls_enabled (foldl (fun c tbl => enable_rls tbl c) c tables)
           ↔ tbl ∈ tables ∨ tbl ∈ rls_enabled c.
Proof.
  revert c. induction tables as [|t tables IH]; intros c; cbn.
  - split; [done|]. intros tbl. rewrite elem_of_nil. tauto.
  - destruct (IH (enable_rls t c)) as [-> Hin]. split; [done|].
    intros tbl. rewrite Hin. cbn. rewrite !elem_of_cons. tauto.
Qed.

Lemma replace_policies (ps : list policy) (c : catalog) :
  NoDup (key <$> ps) →
  policies (foldl replace_policy c ps)
  = (List.filter (fun q => bool_decide (key q ∉ key <$> ps)) (policies c) ++ ps)%list
  ∧ rls_enabled (foldl replace_policy c ps) = rls_enabled c.
Proof.
  revert c. induction ps as [|p ps IH]; intros c Hnd; cbn [foldl].
  - split; [|done]. rewrite app_nil_r. symmetry.
    rewrite <- (List.filter_ext (fun _ => true)).
    + induction (policies c) as [|q l IHl]; [done|]. cbn. by rewrite IHl.
    + intros q. symmetry. apply bool_decide_eq_true. cbn. apply not_elem_of_nil.
  - apply NoDup_cons in Hnd as [Hp Hnd].
    destruct (IH (replace_policy c p) Hnd) as [-> ->]. split; [|done].
    cbn [replace_policy create_policy drop_policy policies].
    rewrite List.filter_app. cbn [List.filter].
    rewrite bool_decide_true by done. rewrite <- app_assoc. cbn [app]. f_equal.
    induction (policies c) as [|q l IHl]; [done|]. cbn [List.filter fmap list_fmap].
    destruct (decide (key q = key p)) as [E|E].
    + assert (bool_decide (pol_name q = pol_name p) && bool_decide (pol_table q = pol_table p)
              = true) as ->.
      { unfold key in E. injection E as -> ->. by rewrite !bool_decide_true. }
      cbn [negb]. rewrite (bool_decide_false (key q ∉ _)); [exact IHl|].
      intros Hn. apply Hn. rewrite E. cbn. by left.
    + assert (bool_decide (pol_name q = pol_name p) && bool_decide (pol_table q = pol_table p)
              = false) as ->.
      { apply andb_false_iff.
        destruct (decide (pol_name q = pol_name p)) as [En|En];
          [|left; by apply bool_decide_eq_false].
        right. apply bool_decide_eq_false. intros Et. apply E. unfold key. congruence. }
      cbn [negb List.filter].
      destruct (bool_decide_reflect (key q ∉ key <$> ps)) as [Hq|Hq].
      * rewrite bool_decide_true; [by rewrite IHl|].
        cbn. rewrite not_elem_of_cons. done.
      * rewrite bool_decide_false; [exact IHl|].
        cbn. rewrite not_elem_of_cons. tauto.
Qed.

Lemma create_member_policies_replace (tbl col : string) (c : catalog) :
  create_member_policies tbl col c = foldl replace_policy c (member_policies tbl col).
Proof. reflexivity. Qed.

Lemma member_policies_fold (tables : list string) (c : catalog) :
  foldl (fun c tbl => create_member_policies tbl "tenant_id" c) c tables
  = foldl replace_policy c (flat_map (fun tbl => member_policies tbl "tenant_id") tables).
Proof.
  revert c. induction tables as [|t tables IH]; intros c; [done|].
  cbn [foldl flat_map]. rewrite foldl_app, IH. by rewrite create_member_policies_replace.
Qed.

Lemma policies_section_replace (c : catalog) :
  policies_section c
  = foldl replace_policy (foldl (fun c tbl => enable_rls tbl c) c all_tables) created.
Proof.
  unfold policies_section, created. cbn zeta. rewrite member_policies_fold.
  by rewrite foldl_app.
Qed.

Lemma created_keys : NoDup (key <$> created).
Proof. apply (bool_decide_unpack _). vm_compute. exact I. Qed.

Lemma policies_of_section (c : catalog) :
  policies (policies_section c)
  = (List.filter (fun q => bool_decide (key q ∉ key <$> created)) (policies c)
       ++ created)%list
  ∧ ∀ tbl, tbl ∈ rls_enabled (policies_section c)
           ↔ tbl ∈ all_tables ∨ tbl ∈ rls_enabled c.
Proof.
  rewrite policies_section_replace.
  destruct (replace_policies created
              (foldl (fun c tbl => enable_rls tbl c) c all_tables) created_keys)
    as [-> ->].
  destruct (policies_enable_rls all_tables c) as [-> Hin]. done.
Qed.

(** What a user may do depends on the catalog through its policies and
    through which tables are protected. *)
Lemma access_ext (c1 c2 : catalog) :
  policies c1 = policies c2 →
  (∀ tbl, tbl ∈ rls_enabled c1 ↔ tbl ∈ rls_enabled c2) →
  ∀ data auth_uid tbl r new,
    can_select c1 data auth_uid tbl r = can_select c2 data auth_uid tbl r
    ∧ can_insert c1 data auth_uid tbl r = can_insert c2 data auth_uid tbl r
    ∧ can_update c1 data auth_uid tbl r new = can_update c2 data auth_uid tbl r new
    ∧ can_delete c1 data auth_uid tbl r = can_delete c2 data auth_uid tbl r.
Proof.
  intros Hp He data auth_uid tbl r new.
  assert (∀ t, bool_decide (t ∈ rls_enabled c1) = bool_decide (t ∈ rls_enabled c2))
    as Hb.
  { intros t. apply bool_decide_ext, He. }
  unfold can_select, can_insert, can_update, can_delete, protected, passes_using,
    passes_check, eval, is_tenant_member, readable_tenant_users, policies_for.
  by rewrite Hp, !Hb.
Qed.

(** X15.  The policy section of the migration can be run again on any
    catalog.  [Rls.migration] is the section run on the empty catalog;
    run on a catalog that already went through it, the section leaves
    exactly the same policies, in the same order, and the same tables
    protected, so what any user may select, insert, update or delete is
    unchanged. *)
Theorem policy_section_can_be_run_again (c : catalog) :
  migration = policies_section {| rls_enabled := []; policies := [] |}
  ∧ policies (policies_section (policies_section c)) = policies (policies_section c)
  ∧ (∀ tbl, protected (policies_section (policies_section c)) tbl
            = protected (policies_section c) tbl)
  ∧ ∀ data auth_uid tbl r new,
      can_select (policies_section (policies_section c)) data auth_uid tbl r
      = can_select (policies_section c) data auth_uid tbl r
      ∧ can_insert (policies_section (policies_section c)) data auth_uid tbl r
        = can_insert (policies_section c) data auth_uid tbl r
      ∧ can_update (policies_section (policies_section c)) data auth_uid tbl r new
        = can_update (policies_section c) data auth_uid tbl r new
      ∧ can_delete (policies_section (policies_section c)) data auth_uid tbl r
        = can_delete (policies_section c) data auth_uid tbl r.
Proof.
  assert (policies (policies_section (policies_section c))
          = policies (policies_section c)) as Hp.
  { destruct (policies_of_section (policies_section c)) as [-> _].
    destruct (policies_of_section c) as [-> _].
    assert (∀ l, List.filter (fun q => bool_decide (key q ∉ key <$> created))
                   (List.filter (fun q => bool_decide (key q ∉ key <$> created)) l)
                 = List.filter (fun q => bool_decide (key q ∉ key <$> created)) l)
      as Hidem.
    { induction l as [|q l IH]; [done|]. cbn [List.filter].
      destruct (bool_decide (key q ∉ key <$> created)) eqn:E; [|exact IH].
      cbn [List.filter]. by rewrite E, IH. }
    assert (∀ l, (∀ q, q ∈ l → q ∈ created) →
                 List.filter (fun q => bool_decide (key q ∉ key <$> created)) l = [])
      as Hall.
    { induction l as [|q l IH]; intros Hl; [done|]. cbn [List.filter].
      rewrite bool_decide_false.
      - apply IH. intros q' Hq'. apply Hl. by right.
      - intros Hn. apply Hn. apply list_elem_of_fmap_2. apply Hl. by left. }
    rewrite List.filter_app, Hidem, (Hall created) by done.
    by rewrite app_nil_r. }
  assert (∀ tbl, tbl ∈ rls_enabled (policies_section (policies_section c))
                 ↔ tbl ∈ rls_enabled (policies_section c)) as He.
  { intros tbl. destruct (policies_of_section (policies_section c)) as [_ ->].
    destruct (policies_of_section c) as [_ ->]. tauto. }
  split_and!.
  - reflexivity.
  - exact Hp.
  - intros tbl. apply bool_decide_ext, He.
  - by apply access_ext.
Qed.

End RerunPolicies.

(** ** The transactions table *)

Section TransactionsTableFacts.
Import TransactionsPage TransactionsTable.

Variable toLowerCase : string → string.

Lemma others_after_update (m : Transaction → bool) (txId newStatus : string)
    (l : list Transaction) :
  List.filter (fun t => negb (bool_decide (id t = txId)))
    (List.filter m ((fun t => if bool_decide (id t = txId) then set_status newStatus t
                              else t) <$> l))
  = List.filter (fun t => negb (bool_decide (id t = txId))) (List.filter m l).
Proof.
  induction l as [|t l IH]; [done|]. cbn [fmap list_fmap List.filter].
  destruct (bool_decide_reflect (id t = txId)) as [E|E].
  - destruct (m (set_status newStatus t)), (m t); cbn [List.filter];
      rewrite ?bool_decide_true by done; cbn [negb]; exact IH.
  - destruct (m t); cbn [List.filter]; [|exact IH].
    rewrite bool_decide_false by done. cbn [negb]. by rewrite IH.
Qed.

(** X16.  Choosing a status for a transaction moves only its own row in
    the table.  The rows of the other transactions are listed as before,
    in the same order; the row of the changed transaction is listed
    afterwards exactly when it matched the search and the status filter is
    all or the status chosen: under any other status filter it leaves the
    list. *)
Theorem status_change_moves_only_its_row
    (f : Db.fault) (txId newStatus : string) (db : Db.t) (s : State) :
  let s' := (handleStatusChange f true txId newStatus db s).2 in
  List.filter (fun t => negb (bool_decide (id t = txId))) (filtered toLowerCase s')
  = List.filter (fun t => negb (bool_decide (id t = txId))) (filtered toLowerCase s)
  ∧ (∀ t, id t = txId →
          t ∈ filtered toLowerCase s'
          ↔ ∃ t0, t0 ∈ txs s ∧ id t0 = txId ∧ t = set_status newStatus t0
                  ∧ (statusFilter s = "all" ∨ newStatus = statusFilter s)
                  ∧ matchesSearch toLowerCase s t0 = true)
  ∧ (statusFilter s ≠ "all" → newStatus ≠ statusFilter s →
     ∀ t, t ∈ filtered toLowerCase s' → id t ≠ txId).
Proof.
  intros s'.
  assert (∀ t, id t = txId →
               t ∈ filtered toLowerCase s'
               ↔ ∃ t0, t0 ∈ txs s ∧ id t0 = txId ∧ t = set_status newStatus t0
                       ∧ (statusFilter s = "all" ∨ newStatus = statusFilter s)
                       ∧ matchesSearch toLowerCase s t0 = true) as Hrow.
  { intros t Hid. subst s'. unfold filtered, handleStatusChange. cbn [negb snd txs].
    rewrite list_elem_of_In, filter_In, <- list_elem_of_In, list_elem_of_fmap.
    split.
    - intros [(t0 & Ht & Hin) Hm].
      destruct (bool_decide_reflect (id t0 = txId)) as [E|E];
        [|subst t; contradiction].
      exists t0. split_and!; try done.
      + subst t. apply andb_prop in Hm as [Hst _].
        unfold matchesStatus in Hst. cbn in Hst.
        apply orb_prop in Hst as [Hst|Hst]; apply bool_decide_eq_true in Hst; tauto.
      + subst t. by apply andb_prop in Hm as [_ Hse].
    - intros (t0 & Hin & Hid0 & -> & Hst & Hse). split.
      + exists t0. by rewrite bool_decide_true.
      + apply andb_true_intro. split; [|exact Hse].
        unfold matchesStatus. cbn.
        destruct Hst as [Hst|Hst].
        * by rewrite (bool_decide_true _ Hst).
        * rewrite (bool_decide_true (newStatus = statusFilter s)) by done.
          apply orb_true_r. }
  split_and!.
  - subst s'. unfold filtered, handleStatusChange. cbn [negb snd txs].
    apply (others_after_update
             (fun t => matchesStatus s t && matchesSearch toLowerCase s t)).
  - exact Hrow.
  - intros Hall Hne t Ht Hid. apply (Hrow t Hid) in Ht as (_ & _ & _ & _ & [?|?] & _);
      done.
Qed.

(** X17.  The table does not look at the result of the update.  For a
    status of the six the menu offers, the row of the transaction shows
    the new status at once; the stored status is the new one if the
    update is carried out, and the old one, unlike the row, if it fails;
    no other transaction changes, stored or shown. *)
Theorem status_change_is_shown_even_if_the_update_fails
    (f : Db.fault) (txId newStatus : string) (db : Db.t) (s : State) :
  newStatus ∈ TX_STATUSES →
  let out := handleStatusChange f true txId newStatus db s in
  shown_status out.2 txId = (fun _ => newStatus) <$> shown_status s txId
  ∧ (f = Db.NoFault →
     stored_status out.1 txId = (fun _ => newStatus) <$> stored_status db txId)
  ∧ (f ≠ Db.NoFault → out.1 = db)
  ∧ (∀ other, other ≠ txId →
       shown_status out.2 other = shown_status s other
       ∧ stored_status out.1 other = stored_status db other).
Proof.
  intros Henum out. subst out. unfold handleStatusChange. cbn [negb fst snd].
  assert (Db.in_enum Db.transaction_status newStatus = true) as He.
  { by apply bool_decide_eq_true. }
  split_and!.
  - unfold shown_status. cbn [txs].
    rewrite (find_update_where id (set_status newStatus)) by done.
    by destruct (List.find _ _).
  - intros ->. unfold stored_status, update_transaction_status. rewrite He.
    cbn [fst Db.transactions Db.with_transactions].
    rewrite (find_update_where Db.tx_id
               (fun r => {| Db.tx_id := Db.tx_id r; Db.tx_tenant_id := Db.tx_tenant_id r;
                            Db.tx_date := Db.tx_date r;
                            Db.tx_description := Db.tx_description r;
                            Db.tx_category_id := Db.tx_category_id r;
                            Db.tx_amount := Db.tx_amount r;
                            Db.tx_entity_id := Db.tx_entity_id r;
                            Db.tx_status := newStatus |})) by done.
    by destruct (List.find _ _).
  - intros Hf. unfold update_transaction_status. by destruct f.
  - intros other Hne. split.
    + unfold shown_status. cbn [txs].
      by rewrite (find_update_where_ne id (set_status newStatus)).
    + unfold stored_status, update_transaction_status.
      destruct f; [|done]. rewrite He.
      cbn [fst Db.transactions Db.with_transactions].
      by rewrite (find_update_where_ne Db.tx_id
                    (fun r => {| Db.tx_id := Db.tx_id r;
                                 Db.tx_tenant_id := Db.tx_tenant_id r;
                                 Db.tx_date := Db.tx_date r;
                                 Db.tx_description := Db.tx_description r;
                                 Db.tx_category_id := Db.tx_category_id r;
                                 Db.tx_amount := Db.tx_amount r;
                                 Db.tx_entity_id := Db.tx_entity_id r;
                                 Db.tx_status := newStatus |})).
Qed.

End TransactionsTableFacts.

Section TransactionsTableWitness.
Import TransactionsPage TransactionsTable.

Lemma status_change_moves_only_its_row_witness :
  id <$> filtered Cases.toLowerCase Cases.table = ["tx-2"]
  ∧ ∀ t, t ∈ filtered Cases.toLowerCase
               (handleStatusChange Db.NoFault true "tx-2" "Cancelled" Sample.database
                  Cases.table).2 →
         id t ≠ "tx-2".
Proof.
  split; [reflexivity|].
  apply (status_change_moves_only_its_row Cases.toLowerCase Db.NoFault "tx-2" "Cancelled"
           Sample.database Cases.table); discriminate.
Defined.

Lemma status_change_is_shown_even_if_the_update_fails_witness :
  shown_status (handleStatusChange (Db.Fault "offline") true "tx-2" "Cancelled"
                  Sample.database Cases.table).2 "tx-2" = Some "Cancelled"
  ∧ (handleStatusChange (Db.Fault "offline") true "tx-2" "Cancelled"
       Sample.database Cases.table).1 = Sample.database.
Proof.
  destruct (status_change_is_shown_even_if_the_update_fails (Db.Fault "offline") "tx-2"
              "Cancelled" Sample.database Cases.table) as (Hshown & _ & Hdb & _).
  - apply list_elem_of_In. cbn. tauto.
  - split; [exact Hshown|]. apply Hdb. discriminate.
Defined.

End TransactionsTableWitness.

(** ** The intake table's CSV *)

Section IntakeCsv.
Import TenantPage IntakeExport.

Variable String_of_number : Js.number → string.







End IntakeCsv.

Section IntakeCsvWitness.
Import TenantPage IntakeExport.


End IntakeCsvWitness.

(** ** The cards of the tenant page *)

Section Counting.
Context {A : Type}.

Lemma count_cons (P : A → bool) (a : A) (l : list A) :
  Kpis.count P (a :: l) = Z.b2z (P a) + Kpis.count P l.
Proof.
  unfold Kpis.count, Js.length. cbn [List.filter].
  destruct (P a); cbn [List.length Z.b2z]; lia.
Qed.

Lemma count_nonneg (P : A → bool) (l : list A) : 0 ≤ Kpis.count P l.
Proof. unfold Kpis.count, Js.length. lia. Qed.

Variable key : A → string.
Variable upd : A → A.

Lemma update_absent (k : string) (l : list A) :
  k ∉ key <$> l → (fun y => if bool_decide (key y = k) then upd y else y) <$> l = l.
Proof.
  induction l as [|a l IH]; [done|]. cbn.
  intros [Ha Hl]%not_elem_of_cons.
  rewrite bool_decide_false by congruence. by rewrite IH.
Qed.

Lemma count_update (P : A → bool) (l : list A) (x : A) :
  NoDup (key <$> l) → x ∈ l →
  Kpis.count P ((fun y => if bool_decide (key y = key x) then upd y else y) <$> l)
  = Kpis.count P l - Z.b2z (P x) + Z.b2z (P (upd x)).
Proof.
  induction l as [|a l IH]; [by intros _ ?%elem_of_nil|].
  cbn [fmap list_fmap]. intros [Ha Hl]%NoDup_cons [->|Hx]%elem_of_cons.
  - rewrite bool_decide_true by done.
    change (list_fmap A A ?f l) with (f <$> l).
    rewrite update_absent by done. rewrite !count_cons. lia.
  - assert (key a ≠ key x) as Hne.
    { intros E. apply Ha. rewrite E. by apply list_elem_of_fmap_2. }
    rewrite bool_decide_false by done. rewrite !count_cons.
    change (list_fmap A A ?f l) with (f <$> l). rewrite IH by done. lia.
Qed.

Lemma find_by_key (l : list A) (x : A) :
  NoDup (key <$> l) → x ∈ l →
  List.find (fun y => bool_decide (key y = key x)) l = Some x.
Proof.
  induction l as [|a l IH]; [by intros _ ?%elem_of_nil|].
  cbn [fmap list_fmap List.find]. intros [Ha Hl]%NoDup_cons [->|Hx]%elem_of_cons.
  - by rewrite bool_decide_true.
  - rewrite bool_decide_false; [by apply IH|].
    intros E. apply Ha. rewrite E. by apply list_elem_of_fmap_2.
Qed.

Lemma find_fmap_same (P : A → bool) (g : A → A) (l : list A) :
  (∀ y, P (g y) = P y) → List.find P (g <$> l) = g <$> List.find P l.
Proof.
  intros Hg. induction l as [|a l IH]; [done|]. cbn.
  rewrite Hg. by destruct (P a).
Qed.

Lemma find_elem (P : A → bool) (l : list A) (x : A) :
  List.find P l = Some x → x ∈ l ∧ P x = true.
Proof.
  intros [H1 H2]%List.find_some. split; [by apply list_elem_of_In|done].
Qed.

End Counting.

Section Cards.
Import TenantPage.

(** X19.  The tasks card follows the task buttons.  The cycles shown have
    distinct ids, the tasks of the clicked cycle have distinct ids and one
    of the three statuses, and the cycle is the one the card is about or
    is of another month.  If the card showed the number of this month's
    tasks that are not done before the click, it does so after it. *)
Theorem task_clicks_keep_the_tasks_card_right (thisMonthStr : string) (f : Db.fault)
    (cycle : ServiceCycle) (task : CycleTask) (w : World) (k : Kpis.KPIs) :
  supabase w = true →
  NoDup (cycle_id <$> cycles w) →
  cycle ∈ cycles w →
  NoDup (task_id <$> Js.nullish (cycle_tasks cycle) []) →
  task ∈ Js.nullish (cycle_tasks cycle) [] →
  task_status task ∈ [Js.Text "todo"; Js.Text "in_progress"; Js.Text "done"] →
  Kpis.thisMonthCycle thisMonthStr (cycles w) = Some cycle
  ∨ String.prefix thisMonthStr (cycle_month cycle) = false →
  Kpis.tasksRemaining k = Kpis.tasksRemaining (Kpis.loaded thisMonthStr w) →
  ∃ k', snd (Kpis.clickTask thisMonthStr f cycle task (w, Some k)) = Some k'
        ∧ Kpis.tasksRemaining k'
          = Kpis.tasksRemaining
              (Kpis.loaded thisMonthStr
                 (fst (Kpis.clickTask thisMonthStr f cycle task (w, Some k)))).
Proof.
  intros Hs Hids Hc Htids Ht Hst Hmonth Hk.
  unfold Kpis.clickTask, Kpis.handleTaskToggle. rewrite Hs. cbn [negb fst snd fmap option_fmap option_map].
  eexists. split; [reflexivity|].
  set (ns := nextTaskStatus (task_status task)).
  set (h := fun t => if bool_decide (task_id t = task_id task)
                     then set_task_status ns t else t).
  set (g := fun c => if bool_decide (cycle_id c = cycle_id cycle)
                     then set_cycle_tasks (Some (h <$> Js.nullish (cycle_tasks c) [])) c
                     else c).
  assert (cycles (handleTaskToggle f (cycle_id cycle) (task_id task) ns w)
          = g <$> cycles w) as Hcycles.
  { unfold handleTaskToggle. by rewrite Hs. }
  assert (Kpis.thisMonthCycle thisMonthStr (g <$> cycles w)
          = g <$> Kpis.thisMonthCycle thisMonthStr (cycles w)) as Hfind.
  { apply find_fmap_same. intros c. unfold g. by destruct (bool_decide _). }
  assert (Kpis.of_this_month thisMonthStr w (cycle_id cycle)
          = String.prefix thisMonthStr (cycle_month cycle)) as Hof.
  { unfold Kpis.of_this_month.
    by rewrite (find_by_key cycle_id (cycles w) cycle Hids Hc). }
  rewrite Hof. unfold Kpis.loaded at 1. cbn [Kpis.tasksRemaining].
  rewrite Hcycles, Hfind.
  unfold Kpis.loaded in Hk. cbn [Kpis.tasksRemaining] in Hk.
  destruct Hmonth as [Hthis|Hother].
  - destruct (find_elem _ _ _ Hthis) as [_ Hprefix].
    rewrite Hprefix. cbn [negb Kpis.tasksRemaining].
    rewrite Hthis in Hk |- *. cbn [fmap option_fmap option_map mbind option_bind] in Hk |- *.
    unfold g at 1. rewrite (bool_decide_true (cycle_id cycle = cycle_id cycle)) by done.
    cbn [cycle_tasks set_cycle_tasks Js.nullish].
    rewrite Hk. unfold h.
    rewrite (count_update task_id (set_task_status ns) _ _ task Htids Ht).
    pose proof (count_nonneg (fun t => negb (bool_decide (task_status t = Js.Text "done")))
                  (Js.nullish (cycle_tasks cycle) [])) as Hnn.
    pose proof (count_update task_id (set_task_status ns)
                  (fun t => negb (bool_decide (task_status t = Js.Text "done")))
                  _ task Htids Ht) as Hupd.
    pose proof (count_nonneg (fun t => negb (bool_decide (task_status t = Js.Text "done")))
                  ((fun y => if bool_decide (task_id y = task_id task)
                             then set_task_status ns y else y)
                     <$> Js.nullish (cycle_tasks cycle) [])) as Hnn'.
    rewrite Hupd in Hnn'. cbn [task_status set_task_status] in Hnn' |- *.
    subst ns.
    apply list_elem_of_In in Hst. cbn in Hst.
    destruct Hst as [E|[E|[E|[]]]]; rewrite <- E in Hnn' |- *;
      vm_compute (nextTaskStatus _) in Hnn' |- *;
      vm_compute (bool_decide _) in Hnn' |- *;
      cbn [negb Z.b2z] in Hnn' |- *; lia.
  - rewrite Hother. cbn [negb]. rewrite Hk.
    destruct (Kpis.thisMonthCycle thisMonthStr (cycles w)) as [c|] eqn:Hthis; [|done].
    destruct (find_elem _ _ _ Hthis) as [Hin Hprefix].
    cbn [fmap option_fmap option_map mbind option_bind].
    unfold g. rewrite bool_decide_false; [done|].
    intros E. pose proof (find_by_key cycle_id (cycles w) cycle Hids Hc) as H1.
    pose proof (find_by_key cycle_id (cycles w) c Hids Hin) as H2.
    rewrite E in H2. rewrite H1 in H2. congruence.
Qed.

Lemma task_clicks_keep_the_tasks_card_right_witness :
  Kpis.tasksRemaining (Kpis.loaded "2026-03" Sample.world) = 0
  ∧ ∃ k', snd (Kpis.clickTask "2026-03" Db.NoFault Sample.march
                 (Sample.task "task-2" "done")
                 (Sample.world, Some (Kpis.loaded "2026-03" Sample.world))) = Some k'
          ∧ Kpis.tasksRemaining k' = 1.
Proof.
  split; [reflexivity|].
  destruct (task_clicks_keep_the_tasks_card_right "2026-03" Db.NoFault Sample.march
              (Sample.task "task-2" "done") Sample.world
              (Kpis.loaded "2026-03" Sample.world)) as (k' & Hk' & Hcard).
  - reflexivity.
  - apply (bool_decide_unpack _). vm_compute. exact I.
  - apply list_elem_of_In. vm_compute. left. reflexivity.
  - apply (bool_decide_unpack _). vm_compute. exact I.
  - apply list_elem_of_In. vm_compute. left. reflexivity.
  - apply list_elem_of_In. vm_compute. right. right. left. reflexivity.
  - left. reflexivity.
  - reflexivity.
  - exists k'. split; [exact Hk'|]. exact (eq_trans Hcard eq_refl).
Defined.

(** X20.  The open-intake card goes down by one at every change of an
    event's status to something other than new, and again when a
    transaction is made from the event, whatever the event's status was.
    With distinct event ids and a card that showed the number of new
    events: after a change of a new event the card is still that number;
    after a change of an event that was not new, and after the
    transaction that follows a change, it is one below the number of new
    events (or zero). *)
Theorem open_intake_card_drops_at_every_change (thisMonthStr : string) (f : Db.fault)
    (e : IntakeEvent) (newStatus : string) (w : World) (k : Kpis.KPIs) :
  supabase w = true →
  NoDup (ev_id <$> intake w) →
  e ∈ intake w →
  newStatus ≠ "new" →
  Kpis.openIntake k = Kpis.openIntake (Kpis.loaded thisMonthStr w) →
  let p1 := Kpis.handleIntakeStatusChange f (ev_id e) newStatus (w, Some k) in
  let p2 := Kpis.handleTransactionCreated (ev_id e) p1 in
  ∃ k1 k2,
    snd p1 = Some k1 ∧ snd p2 = Some k2
    ∧ Kpis.openIntake (Kpis.loaded thisMonthStr (fst p2))
      = Kpis.openIntake (Kpis.loaded thisMonthStr (fst p1))
    ∧ Kpis.openIntake k2 = Z.max 0 (Kpis.openIntake k1 - 1)
    ∧ (ev_status e = "new" →
       Kpis.openIntake k1 = Kpis.openIntake (Kpis.loaded thisMonthStr (fst p1))
       ∧ Kpis.openIntake k2
         = Z.max 0 (Kpis.openIntake (Kpis.loaded thisMonthStr (fst p2)) - 1))
    ∧ (ev_status e ≠ "new" →
       Kpis.openIntake k1
       = Z.max 0 (Kpis.openIntake (Kpis.loaded thisMonthStr (fst p1)) - 1)).
Proof.
  intros Hs Hids He Hnew Hk p1 p2. subst p1 p2.
  unfold Kpis.handleIntakeStatusChange, Kpis.handleTransactionCreated.
  rewrite Hs. rewrite (bool_decide_false (newStatus = "new")) by done.
  cbn [negb fst snd fmap option_fmap option_map].
  eexists _, _. split; [reflexivity|]. split; [reflexivity|].
  set (new := fun e0 => bool_decide (ev_status e0 = "new")).
  set (g1 := fun e0 => if bool_decide (ev_id e0 = ev_id e)
                       then set_ev_status newStatus e0 else e0).
  set (g2 := fun e0 => if bool_decide (ev_id e0 = ev_id e)
                       then set_ev_status "posted" e0 else e0).
  assert (intake (handleIntakeStatusChange f (ev_id e) newStatus w) = g1 <$> intake w)
    as H1.
  { unfold handleIntakeStatusChange. by rewrite Hs. }
  assert (intake (handleTransactionCreated (ev_id e)
                    (handleIntakeStatusChange f (ev_id e) newStatus w))
          = g2 <$> (g1 <$> intake w)) as H2.
  { unfold handleTransactionCreated. cbn [intake setIntake]. by rewrite H1. }
  unfold Kpis.loaded. cbn [Kpis.openIntake Kpis.one_less_intake].
  unfold Kpis.loaded in Hk. cbn [Kpis.openIntake] in Hk.
  rewrite H2, H1, Hk. fold new.
  pose proof (count_update ev_id (set_ev_status newStatus) new _ e Hids He) as C1.
  fold g1 in C1.
  assert (g1 e = set_ev_status newStatus e) as Hg1.
  { unfold g1. by rewrite bool_decide_true. }
  assert (NoDup (ev_id <$> (g1 <$> intake w))) as Hids1.
  { rewrite <- list_fmap_compose.
    rewrite (list_fmap_ext (ev_id ∘ g1) ev_id (intake w)); [done|].
    intros i x _. unfold g1. cbn. by destruct (bool_decide _). }
  assert (set_ev_status newStatus e ∈ g1 <$> intake w) as He1.
  { rewrite <- Hg1. by apply list_elem_of_fmap_2. }
  pose proof (count_update ev_id (set_ev_status "posted") new _ _ Hids1 He1) as C2.
  cbn [ev_id set_ev_status] in C2. fold g2 in C2.
  assert (new (set_ev_status newStatus e) = false) as N1.
  { unfold new. cbn. by rewrite bool_decide_false. }
  assert (new (set_ev_status "posted" (set_ev_status newStatus e)) = false) as N2.
  { reflexivity. }
  assert (new (set_ev_status "posted" e) = false) as N3.
  { reflexivity. }
  rewrite N1, N2 in C2. rewrite N1 in C1. cbn [Z.b2z] in C1, C2.
  pose proof (count_nonneg new (g1 <$> intake w)) as Hnn.
  split; [lia|]. split; [reflexivity|]. split.
  - intros Hwas. assert (new e = true) as N0.
    { unfold new. by rewrite bool_decide_true. }
    rewrite N0 in C1. cbn [Z.b2z] in C1. lia.
  - intros Hwas. assert (new e = false) as N0.
    { unfold new. by rewrite bool_decide_false. }
    rewrite N0 in C1. cbn [Z.b2z] in C1. lia.
Qed.

Lemma open_intake_card_drops_at_every_change_witness :
  Kpis.openIntake (Kpis.loaded "2026-02" Sample.world) = 1
  ∧ ∃ k1 k2,
      snd (Kpis.handleIntakeStatusChange Db.NoFault "event-2" "posted"
             (Sample.world, Some (Kpis.loaded "2026-02" Sample.world))) = Some k1
      ∧ snd (Kpis.handleTransactionCreated "event-2"
               (Kpis.handleIntakeStatusChange Db.NoFault "event-2" "posted"
                  (Sample.world, Some (Kpis.loaded "2026-02" Sample.world)))) = Some k2
      ∧ Kpis.openIntake k1 = 0 ∧ Kpis.openIntake k2 = 0
      ∧ Kpis.openIntake
          (Kpis.loaded "2026-02"
             (fst (Kpis.handleIntakeStatusChange Db.NoFault "event-2" "posted"
                     (Sample.world, Some (Kpis.loaded "2026-02" Sample.world))))) = 1.
Proof.
  split; [reflexivity|].
  destruct (open_intake_card_drops_at_every_change "2026-02" Db.NoFault
              {| ev_id := "event-2"; ev_source := "form_out"; ev_date := Some "2026-02-05";
                 ev_amount := None; ev_description := None; ev_status := "categorized" |}
              "posted" Sample.world (Kpis.loaded "2026-02" Sample.world))
    as (k1 & k2 & H1 & H2 & _ & H21 & _ & Hnot).
  - reflexivity.
  - apply (bool_decide_unpack _). vm_compute. exact I.
  - apply list_elem_of_In. vm_compute. left. reflexivity.
  - discriminate.
  - reflexivity.
  - exists k1, k2. split; [exact H1|]. split; [exact H2|].
    assert (Kpis.openIntake k1 = 0) as E1.
    { exact (eq_trans (Hnot ltac:(discriminate)) eq_refl). }
    split; [exact E1|]. split; [|reflexivity].
    rewrite H21, E1. reflexivity.
Defined.

End Cards.
